(** * FastXmlReader: a shallow embedding of the pull reader

    The development follows [ext/fast_xml_reader/fast_xml_reader.c].
    The backing buffer [data, data+size) is a list of bytes, so that
    [size] is its length.  Inside a function a [const char *] into the
    buffer is the byte offset it points at, and [size_t] offsets are
    natural numbers (every subtraction of the source is guarded so that
    it cannot wrap).  A pointer that is stored together with a length
    ([name_ptr], [text_ptr], the two pointers of an attribute entry) is
    only ever dereferenced over that length, and the buffer is never
    written: such a pair is kept as the bytes it designates, next to
    its length, and [NULL] is [None].  That stands for the memory as
    long as the buffer is there; [close] gives the buffer back, and a
    reader that has been closed is a value of a type of its own
    ([ClosedReader]), whose methods are undefined where the source
    would follow a pointer into the buffer that is gone.  An [int] is
    an integer of 32 bits: the two counters that are incremented without
    a bound ([depth] and the bracket counter of [skip_doctype]) wrap
    around ([wrap_int]).  [unsigned] arithmetic that relies on
    wrap-around ([fnv1a], the code point of a numeric character
    reference) is written out with [mod]. *)

From Stdlib Require Import ZArith Ascii String Lia.
From stdpp Require Import base option list strings.

Open Scope char_scope.

(** ** Bytes *)

(** [(unsigned char)c] as a number. *)
Definition uchar (c : ascii) : Z := Z.of_N (N_of_ascii c).

(** [(char)z]: the low eight bits. *)
Definition to_char (z : Z) : ascii := ascii_of_N (Z.to_N (z mod 256)).

(** [data[i]]; every read of the source is in bounds, the default is
    never observed on the paths the source takes. *)
Definition byte_at (d : list ascii) (i : nat) : ascii := nth i d "000".

(** The bytes of [ptr, ptr+len). *)
Definition slice (d : list ascii) (ptr len : nat) : list ascii :=
  take len (drop ptr d).

(** [memchr(d + start, c, len)], as the offset from the start of the
    buffer of the first [c] in [start, start+len). *)
Definition memchr (d : list ascii) (start : nat) (c : ascii) (len : nat)
  : option nat :=
  (λ hit, start + hit.1) <$> list_find (λ x, x = c) (slice d start len).

(** [memcmp(d + p, lit, n) == 0] for a literal of [n] bytes. *)
Definition memcmp_lit (d : list ascii) (p : nat) (lit : string) (n : nat)
  : bool :=
  bool_decide (slice d p n = take n (list_ascii_of_string lit)).

(** The number of leading bytes that satisfy [p]: the distance covered
    by a loop [while (pos < size && p(data[pos])) pos++]. *)
Fixpoint span_len (p : ascii → bool) (l : list ascii) : nat :=
  match l with
  | c :: l' => if p c then S (span_len p l') else 0
  | [] => 0
  end.

Definition is_space (c : ascii) : bool :=
  (c =? " ") || (c =? "009") || (c =? "010") || (c =? "013").

(** [is_blank(ptr, len)] *)
Definition is_blank (d : list ascii) (ptr len : nat) : bool :=
  forallb is_space (slice d ptr len).

(** The loop [while (len > 0 && (unsigned char)nptr[len-1] <= ' ') len--]. *)
Fixpoint trim_trailing (d : list ascii) (nptr len : nat) : nat :=
  match len with
  | 0 => 0
  | S n => if (uchar (byte_at d (nptr + n)) <=? 32)%Z
           then trim_trailing d nptr n else len
  end.

(** Strip a namespace prefix from the name region [nptr, nptr+len):
    [colon = memchr(nptr, ':', len); if (colon) { ... }]. *)
Definition strip_prefix (d : list ascii) (nptr len : nat) : nat * nat :=
  match memchr d nptr ":" len with
  | Some colon =>
      let prefix_len := colon - nptr + 1 in
      (nptr + prefix_len, len - prefix_len)
  | None => (nptr, len)
  end.

(** ** Integers

    [int] is 32 bits wide.  An increment or decrement of an [int] past
    its range has no defined result in C; the model takes the result of
    the machine's addition, which wraps around. *)
Definition INT_MAX : Z := 2147483647.
Definition INT_MIN : Z := -2147483648.

Definition wrap_int (z : Z) : Z := ((z + 2 ^ 31) mod 2 ^ 32 - 2 ^ 31)%Z.

(** ** Skipping comments, processing instructions, CDATA and DOCTYPE

    The three [memchr] loops jump, so they run on fuel: [None] is "out
    of fuel", and the routines below supply [size - pos], which the
    totality lemmas show to be enough. *)

Fixpoint skip_comment_loop (fuel : nat) (d : list ascii) (pos : nat)
  : option nat :=
  if bool_decide (pos + 2 < length d) then
    match fuel with
    | 0 => None
    | S fuel' =>
        match memchr d pos "-" (length d - pos - 1) with
        | None => Some (length d)
        | Some p =>
            if bool_decide (p + 2 < length d)
               && (byte_at d p =? "-")
               && (byte_at d (p + 1) =? "-")
               && (byte_at d (p + 2) =? ">")
            then Some (p + 3)
            else skip_comment_loop fuel' d (p + 1)
        end
    end
  else Some (length d).

Fixpoint skip_pi_loop (fuel : nat) (d : list ascii) (pos : nat)
  : option nat :=
  if bool_decide (pos + 1 < length d) then
    match fuel with
    | 0 => None
    | S fuel' =>
        match memchr d pos "?" (length d - pos - 1) with
        | None => Some (length d)
        | Some p =>
            if byte_at d (p + 1) =? ">"
            then Some (p + 2)
            else skip_pi_loop fuel' d (p + 1)
        end
    end
  else Some (length d).

Fixpoint skip_cdata_loop (fuel : nat) (d : list ascii) (pos : nat)
  : option nat :=
  if bool_decide (pos + 2 < length d) then
    match fuel with
    | 0 => None
    | S fuel' =>
        match memchr d pos "]" (length d - pos - 2) with
        | None => Some (length d)
        | Some p =>
            if (byte_at d (p + 1) =? "]") && (byte_at d (p + 2) =? ">")
            then Some (p + 3)
            else skip_cdata_loop fuel' d (p + 1)
        end
    end
  else Some (length d).

(** [skip_doctype] reads one byte per turn, so it recurses on the bytes
    that are left: [l] is [data + pos .. data + size). *)
Fixpoint skip_doctype_loop (l : list ascii) (pos : nat) (bracket_depth : Z)
  : nat :=
  match l with
  | [] => pos
  | c :: l' =>
      if c =? "[" then skip_doctype_loop l' (S pos) (wrap_int (bracket_depth + 1))
      else if c =? "]" then skip_doctype_loop l' (S pos) (wrap_int (bracket_depth - 1))
      else if (c =? ">") && (bracket_depth =? 0)%Z then S pos
      else skip_doctype_loop l' (S pos) bracket_depth
  end.

(** ** Ruby values *)

(** The [VALUE]s the extension produces.  A Ruby string is its bytes
    (all of them are tagged UTF-8 and the interned ones frozen). *)
Inductive VALUE : Type :=
  | Qnil
  | Qtrue
  | Qfalse
  | Fixnum (n : Z)
  | RString (bytes : list ascii).

(** [rb_enc_str_new(ptr, len, utf8)] *)
Definition rb_enc_str_new (ptr : list ascii) (len : nat) : VALUE :=
  RString (take len ptr).

(** ** The reader *)

Definition TYPE_ELEMENT : Z := 1.
Definition TYPE_TEXT : Z := 3.
Definition TYPE_END_ELEMENT : Z := 15.

Definition NAME_CACHE_SIZE : nat := 512.
Definition NAME_CACHE_MASK : Z := 511.
Definition MAX_ATTRS : nat := 32.

(** [ce_ptr] is [RSTRING_PTR] of a frozen string: the bytes it points
    at, or [None] for [NULL]. *)
Record CacheEntry : Type := {
  ce_ptr : option (list ascii);
  ce_len : nat;
  rb_str : VALUE
}.

Record AttrEntry : Type := {
  a_name_ptr : list ascii;
  a_name_len : nat;
  val_ptr : list ascii;
  val_len : nat;
  val_has_entity : bool
}.

(** [size] is the length of [data]; [is_mmap] and [utf8] play no part
    in scanning and are left out. *)
Record FastReader : Type := {
  data : list ascii;
  pos : nat;
  depth : Z;
  report_depth : Z;
  node_type : Z;
  is_empty : bool;
  name_ptr : option (list ascii);
  name_len : nat;
  text_ptr : option (list ascii);
  text_len : nat;
  text_has_entity : bool;
  decoded_text : VALUE;
  attrs : list AttrEntry;
  attr_count : nat;
  name_cache : list CacheEntry
}.

Definition size (r : FastReader) : nat := length (data r).

Definition set_data (v : list ascii) (r : FastReader) : FastReader :=
  {| data := v; pos := pos r; depth := depth r;
     report_depth := report_depth r; node_type := node_type r;
     is_empty := is_empty r; name_ptr := name_ptr r; name_len := name_len r;
     text_ptr := text_ptr r; text_len := text_len r;
     text_has_entity := text_has_entity r; decoded_text := decoded_text r;
     attrs := attrs r; attr_count := attr_count r;
     name_cache := name_cache r |}.

Definition set_pos (v : nat) (r : FastReader) : FastReader :=
  {| data := data r; pos := v; depth := depth r;
     report_depth := report_depth r; node_type := node_type r;
     is_empty := is_empty r; name_ptr := name_ptr r; name_len := name_len r;
     text_ptr := text_ptr r; text_len := text_len r;
     text_has_entity := text_has_entity r; decoded_text := decoded_text r;
     attrs := attrs r; attr_count := attr_count r;
     name_cache := name_cache r |}.

Definition set_depth (v : Z) (r : FastReader) : FastReader :=
  {| data := data r; pos := pos r; depth := v;
     report_depth := report_depth r; node_type := node_type r;
     is_empty := is_empty r; name_ptr := name_ptr r; name_len := name_len r;
     text_ptr := text_ptr r; text_len := text_len r;
     text_has_entity := text_has_entity r; decoded_text := decoded_text r;
     attrs := attrs r; attr_count := attr_count r;
     name_cache := name_cache r |}.

Definition set_report_depth (v : Z) (r : FastReader) : FastReader :=
  {| data := data r; pos := pos r; depth := depth r;
     report_depth := v; node_type := node_type r;
     is_empty := is_empty r; name_ptr := name_ptr r; name_len := name_len r;
     text_ptr := text_ptr r; text_len := text_len r;
     text_has_entity := text_has_entity r; decoded_text := decoded_text r;
     attrs := attrs r; attr_count := attr_count r;
     name_cache := name_cache r |}.

Definition set_node_type (v : Z) (r : FastReader) : FastReader :=
  {| data := data r; pos := pos r; depth := depth r;
     report_depth := report_depth r; node_type := v;
     is_empty := is_empty r; name_ptr := name_ptr r; name_len := name_len r;
     text_ptr := text_ptr r; text_len := text_len r;
     text_has_entity := text_has_entity r; decoded_text := decoded_text r;
     attrs := attrs r; attr_count := attr_count r;
     name_cache := name_cache r |}.

Definition set_is_empty (v : bool) (r : FastReader) : FastReader :=
  {| data := data r; pos := pos r; depth := depth r;
     report_depth := report_depth r; node_type := node_type r;
     is_empty := v; name_ptr := name_ptr r; name_len := name_len r;
     text_ptr := text_ptr r; text_len := text_len r;
     text_has_entity := text_has_entity r; decoded_text := decoded_text r;
     attrs := attrs r; attr_count := attr_count r;
     name_cache := name_cache r |}.

(** [r->name_ptr = p; r->name_len = n;] *)
Definition set_name (p : option (list ascii)) (n : nat) (r : FastReader) : FastReader :=
  {| data := data r; pos := pos r; depth := depth r;
     report_depth := report_depth r; node_type := node_type r;
     is_empty := is_empty r; name_ptr := p; name_len := n;
     text_ptr := text_ptr r; text_len := text_len r;
     text_has_entity := text_has_entity r; decoded_text := decoded_text r;
     attrs := attrs r; attr_count := attr_count r;
     name_cache := name_cache r |}.

(** [r->text_ptr = p; r->text_len = n; r->text_has_entity = e;] *)
Definition set_text (p : option (list ascii)) (n : nat) (e : bool) (r : FastReader)
  : FastReader :=
  {| data := data r; pos := pos r; depth := depth r;
     report_depth := report_depth r; node_type := node_type r;
     is_empty := is_empty r; name_ptr := name_ptr r; name_len := name_len r;
     text_ptr := p; text_len := n;
     text_has_entity := e; decoded_text := decoded_text r;
     attrs := attrs r; attr_count := attr_count r;
     name_cache := name_cache r |}.

Definition set_decoded_text (v : VALUE) (r : FastReader) : FastReader :=
  {| data := data r; pos := pos r; depth := depth r;
     report_depth := report_depth r; node_type := node_type r;
     is_empty := is_empty r; name_ptr := name_ptr r; name_len := name_len r;
     text_ptr := text_ptr r; text_len := text_len r;
     text_has_entity := text_has_entity r; decoded_text := v;
     attrs := attrs r; attr_count := attr_count r;
     name_cache := name_cache r |}.

Definition set_attrs (v : list AttrEntry) (r : FastReader) : FastReader :=
  {| data := data r; pos := pos r; depth := depth r;
     report_depth := report_depth r; node_type := node_type r;
     is_empty := is_empty r; name_ptr := name_ptr r; name_len := name_len r;
     text_ptr := text_ptr r; text_len := text_len r;
     text_has_entity := text_has_entity r; decoded_text := decoded_text r;
     attrs := v; attr_count := attr_count r;
     name_cache := name_cache r |}.

Definition set_attr_count (v : nat) (r : FastReader) : FastReader :=
  {| data := data r; pos := pos r; depth := depth r;
     report_depth := report_depth r; node_type := node_type r;
     is_empty := is_empty r; name_ptr := name_ptr r; name_len := name_len r;
     text_ptr := text_ptr r; text_len := text_len r;
     text_has_entity := text_has_entity r; decoded_text := decoded_text r;
     attrs := attrs r; attr_count := v;
     name_cache := name_cache r |}.

Definition set_name_cache (v : list CacheEntry) (r : FastReader)
  : FastReader :=
  {| data := data r; pos := pos r; depth := depth r;
     report_depth := report_depth r; node_type := node_type r;
     is_empty := is_empty r; name_ptr := name_ptr r; name_len := name_len r;
     text_ptr := text_ptr r; text_len := text_len r;
     text_has_entity := text_has_entity r; decoded_text := decoded_text r;
     attrs := attrs r; attr_count := attr_count r;
     name_cache := v |}.

(** ** Name interning *)

(** [unsigned int] is 32 bits wide. *)
Definition wrap32 (z : Z) : Z := z mod 2 ^ 32.

Definition fnv1a (bytes : list ascii) : Z :=
  fold_left (λ h c, wrap32 (Z.lxor h (uchar c) * 16777619)) bytes 2166136261%Z.

Definition empty_entry : CacheEntry :=
  {| ce_ptr := None; ce_len := 0; rb_str := Qnil |}.

(** The probe loop [for (i = 0; i < 8; i++)] with [left] turns to go;
    [bytes] is the name [ptr, ptr+len).  The result is the returned
    string and the cache afterwards. *)
Fixpoint intern_probe (left : nat) (i : Z) (idx : Z)
    (cache : list CacheEntry) (bytes : list ascii)
  : VALUE * list CacheEntry :=
  match left with
  | 0 => (RString bytes, cache)
  | S left' =>
      let slot := Z.to_nat (Z.land (idx + i) NAME_CACHE_MASK) in
      let e := default empty_entry (cache !! slot) in
      match ce_ptr e with
      | None =>
          let s := RString bytes in
          (s, <[slot := {| ce_ptr := Some bytes; ce_len := length bytes;
                           rb_str := s |}]> cache)
      | Some buf =>
          if bool_decide (ce_len e = length bytes)
             && bool_decide (take (length bytes) buf = bytes)
          then (rb_str e, cache)
          else intern_probe left' (i + 1)%Z idx cache bytes
      end
  end.

Definition intern_name (r : FastReader) (ptr : list ascii) (len : nat)
  : VALUE * FastReader :=
  let bytes := take len ptr in
  let idx := Z.land (fnv1a bytes) NAME_CACHE_MASK in
  let '(s, cache) := intern_probe 8 0 idx (name_cache r) bytes in
  (s, set_name_cache cache r).

(** ** Scanning helpers *)

Definition at_end (r : FastReader) : bool := bool_decide (size r ≤ pos r).

Definition cur (r : FastReader) : ascii := byte_at (data r) (pos r).

Definition skip_spaces (r : FastReader) : FastReader :=
  set_pos (pos r + span_len is_space (drop (pos r) (data r))) r.

Definition skip_comment (r : FastReader) : option FastReader :=
  p ← skip_comment_loop (size r - pos r) (data r) (pos r); Some (set_pos p r).

Definition skip_pi (r : FastReader) : option FastReader :=
  p ← skip_pi_loop (size r - pos r) (data r) (pos r); Some (set_pos p r).

Definition skip_cdata (r : FastReader) : option FastReader :=
  p ← skip_cdata_loop (size r - pos r) (data r) (pos r); Some (set_pos p r).

Definition skip_doctype (r : FastReader) : FastReader :=
  set_pos (skip_doctype_loop (drop (pos r) (data r)) (pos r) 0) r.

(** ** Attributes *)

Definition attr_name_end (c : ascii) : bool :=
  (c =? "=") || (c =? " ") || (c =? "009") || (c =? "010") || (c =? "013")
  || (c =? ">") || (c =? "/").

(** The test that drops [xmlns] and [xmlns:*]. *)
Definition is_xmlns (d : list ascii) (name_start nlen : nat) : bool :=
  bool_decide (5 ≤ nlen) && memcmp_lit d name_start "xmlns" 5
  && (bool_decide (nlen = 5) || (byte_at d (name_start + 5) =? ":")).

(** [if (r->attr_count < MAX_ATTRS) { a = &r->attrs[r->attr_count++]; ... }] *)
Definition push_attr (a : AttrEntry) (r : FastReader) : FastReader :=
  if bool_decide (attr_count r < MAX_ATTRS)
  then set_attr_count (attr_count r + 1)
         (set_attrs (<[attr_count r := a]> (attrs r)) r)
  else r.

(** The [while (r->pos < r->size)] loop of [parse_attrs]; a [continue]
    is the recursive call. *)
Fixpoint parse_attrs_loop (fuel : nat) (r : FastReader) : option FastReader :=
  if bool_decide (pos r < size r) then
    match fuel with
    | 0 => None
    | S fuel' =>
        let r := skip_spaces r in
        if at_end r then Some r
        else if cur r =? ">" then Some (set_pos (pos r + 1) r)
        else if cur r =? "/" then
          let r := set_pos (pos r + 1) (set_is_empty true r) in
          if bool_decide (pos r < size r) && (cur r =? ">")
          then Some (set_pos (pos r + 1) r)
          else Some r
        else
          let name_start := pos r in
          let r := set_pos (pos r + span_len (λ c, negb (attr_name_end c))
                                     (drop (pos r) (data r))) r in
          let name_end := pos r in
          let r := skip_spaces r in
          if at_end r || negb (cur r =? "=") then parse_attrs_loop fuel' r
          else
            let r := skip_spaces (set_pos (pos r + 1) r) in
            if at_end r then Some r
            else
              let quote := cur r in
              if negb (quote =? "034") && negb (quote =? "'")
              then parse_attrs_loop fuel' r
              else
                let r := set_pos (pos r + 1) r in
                let val_start := pos r in
                match memchr (data r) (pos r) quote (size r - pos r) with
                | None => Some (set_pos (size r) r)
                | Some val_end =>
                    let has_entity :=
                      bool_decide (is_Some (memchr (data r) val_start "&"
                                              (val_end - val_start))) in
                    let r := set_pos (val_end + 1) r in
                    let nlen := name_end - name_start in
                    if is_xmlns (data r) name_start nlen
                    then parse_attrs_loop fuel' r
                    else
                      parse_attrs_loop fuel'
                        (push_attr {| a_name_ptr := slice (data r) name_start nlen;
                                      a_name_len := nlen;
                                      val_ptr := slice (data r) val_start
                                                   (val_end - val_start);
                                      val_len := val_end - val_start;
                                      val_has_entity := has_entity |} r)
                end
    end
  else Some r.

Definition parse_attrs (r : FastReader) : option FastReader :=
  let r := set_is_empty false (set_attr_count 0 r) in
  parse_attrs_loop (size r - pos r) r.

(** ** read: advance to the next node *)

(** The branch [if (c == '/')]: the cursor is on the slash. *)
Definition read_end_element (r : FastReader) : bool * FastReader :=
  let r := set_pos (pos r + 1) r in
  let name_start := pos r in
  match memchr (data r) (pos r) ">" (size r - pos r) with
  | None => (false, set_pos (size r) r)
  | Some gt =>
      let r := set_pos (gt + 1) r in
      let raw_len := gt - name_start in
      let '(nptr, raw_len) := strip_prefix (data r) name_start raw_len in
      let raw_len := trim_trailing (data r) nptr raw_len in
      let r := set_name (Some (slice (data r) nptr raw_len)) raw_len r in
      let r := set_node_type TYPE_END_ELEMENT r in
      let r := set_is_empty false r in
      let r := if bool_decide (0 < depth r)%Z
               then set_depth (depth r - 1)%Z r else r in
      (true, set_report_depth (depth r) r)
  end.

Definition elem_name_end (c : ascii) : bool :=
  (c =? " ") || (c =? "009") || (c =? "010") || (c =? "013")
  || (c =? ">") || (c =? "/").

(** The peek that collapses [<x></x>]: the start tag's local name is
    [nptr, nptr+nlen) and the cursor is just after the start tag. *)
Definition collapse_peek (nptr nlen : nat) (r : FastReader) : FastReader :=
  let saved := pos r in
  if bool_decide (pos r + 1 < size r) && (cur r =? "<")
     && (byte_at (data r) (pos r + 1) =? "/")
  then
    let peek := pos r + 2 in
    let remaining := size r - peek in
    match memchr (data r) peek ">" remaining with
    | Some gt =>
        let close_name_len := gt - peek in
        let '(close_nptr, close_name_len) :=
          strip_prefix (data r) peek close_name_len in
        let close_name_len := trim_trailing (data r) close_nptr close_name_len in
        if bool_decide (close_name_len = nlen)
           && bool_decide (slice (data r) close_nptr nlen
                           = slice (data r) nptr nlen)
        then set_pos (gt + 1) (set_is_empty true r)
        else set_pos saved r
    | None => set_pos saved r
    end
  else r.

(** The start-element branch: the cursor is on the first byte of the name. *)
Definition read_start_element (r : FastReader) : option FastReader :=
  let name_start := pos r in
  let r := set_pos (pos r + span_len (λ c, negb (elem_name_end c))
                             (drop (pos r) (data r))) r in
  let name_end := pos r in
  let '(nptr, nlen) := strip_prefix (data r) name_start (name_end - name_start) in
  let r := set_name (Some (slice (data r) nptr nlen)) nlen r in
  let r := set_node_type TYPE_ELEMENT r in
  r ← parse_attrs r;
  let r := if is_empty r then r else collapse_peek nptr nlen r in
  let r := set_report_depth (depth r) r in
  Some (if is_empty r then r else set_depth (wrap_int (depth r + 1)) r).

(** The body from the label [again]; [goto again] is the recursive call. *)
Fixpoint read_loop (fuel : nat) (r : FastReader) : option (bool * FastReader) :=
  if at_end r then Some (false, r)
  else
    match fuel with
    | 0 => None
    | S fuel' =>
        if cur r =? "<" then
          let r := set_pos (pos r + 1) r in
          if at_end r then Some (false, r)
          else
            let c := cur r in
            if c =? "/" then Some (read_end_element r)
            else if (c =? "!") && bool_decide (pos r + 2 < size r)
                    && (byte_at (data r) (pos r + 1) =? "-")
                    && (byte_at (data r) (pos r + 2) =? "-")
            then r ← skip_comment (set_pos (pos r + 3) r); read_loop fuel' r
            else if (c =? "!") && bool_decide (pos r + 7 < size r)
                    && memcmp_lit (data r) (pos r) "![CDATA[" 8
            then r ← skip_cdata (set_pos (pos r + 8) r); read_loop fuel' r
            else if (c =? "!") && bool_decide (pos r + 7 < size r)
                    && memcmp_lit (data r) (pos r + 1) "DOCTYPE" 7
            then read_loop fuel' (skip_doctype (set_pos (pos r + 8) r))
            else if c =? "?"
            then r ← skip_pi (set_pos (pos r + 1) r); read_loop fuel' r
            else r ← read_start_element r; Some (true, r)
        else
          let text_start := pos r in
          let text_end :=
            default (size r) (memchr (data r) (pos r) "<" (size r - pos r)) in
          let r := set_pos text_end r in
          let tlen := text_end - text_start in
          if is_blank (data r) text_start tlen then read_loop fuel' r
          else
            let r := set_node_type TYPE_TEXT r in
            let r := set_report_depth (depth r) r in
            let r := set_text (Some (slice (data r) text_start tlen)) tlen
                       (bool_decide (is_Some (memchr (data r) text_start "&" tlen)))
                       r in
            let r := set_is_empty false r in
            Some (true, set_name None 0 r)
    end.

Definition reader_read_internal (r : FastReader) : option (bool * FastReader) :=
  let r := set_decoded_text Qnil r in
  let r := set_text None 0 false r in
  let r := set_attr_count 0 r in
  read_loop (size r - pos r) r.

(** ** Entity decoding and the Ruby methods

    Two properties of the C platform show in [decode_entities]: whether
    plain [char] is signed (the decimal branch computes [ename[i] - '0']
    on a [char]) and the width of [unsigned long] (the code point wraps
    at it).  Both are parameters. *)

Section Platform.

Variable char_signed : bool.
Variable ulong_bits : Z.

(** The value of a plain [char]. *)
Definition char_val (c : ascii) : Z :=
  if char_signed && (128 <=? uchar c)%Z then (uchar c - 256)%Z else uchar c.

(** Conversion to [unsigned long]. *)
Definition wrap_ulong (z : Z) : Z := z mod 2 ^ ulong_bits.

(** [for (i = 2; i < elen; i++)] over the hex digits [l]. *)
Fixpoint parse_hex (l : list ascii) (cp : Z) : Z :=
  match l with
  | [] => cp
  | c :: l' =>
      let cp := wrap_ulong (Z.shiftl cp 4) in
      let u := uchar c in
      let cp :=
        if (48 <=? u)%Z && (u <=? 57)%Z then wrap_ulong (cp + (u - 48))
        else if (97 <=? u)%Z && (u <=? 102)%Z then wrap_ulong (cp + (u - 97 + 10))
        else if (65 <=? u)%Z && (u <=? 70)%Z then wrap_ulong (cp + (u - 65 + 10))
        else cp in
      parse_hex l' cp
  end.

(** [for (i = 1; i < elen; i++)] over the decimal digits [l]. *)
Fixpoint parse_dec (l : list ascii) (cp : Z) : Z :=
  match l with
  | [] => cp
  | c :: l' => parse_dec l' (wrap_ulong (cp * 10 + (char_val c - 48)))
  end.

(** The bytes [u8[0..u8len)]. *)
Definition utf8_encode (cp : Z) : list ascii :=
  if (cp <? 128)%Z then [to_char cp]
  else if (cp <? 2048)%Z then
    [to_char (Z.lor 192 (Z.shiftr cp 6));
     to_char (Z.lor 128 (Z.land cp 63))]
  else if (cp <? 65536)%Z then
    [to_char (Z.lor 224 (Z.shiftr cp 12));
     to_char (Z.lor 128 (Z.land (Z.shiftr cp 6) 63));
     to_char (Z.lor 128 (Z.land cp 63))]
  else
    [to_char (Z.lor 240 (Z.shiftr cp 18));
     to_char (Z.lor 128 (Z.land (Z.shiftr cp 12) 63));
     to_char (Z.lor 128 (Z.land (Z.shiftr cp 6) 63));
     to_char (Z.lor 128 (Z.land cp 63))].

(** What one reference [&ename;] appends to the buffer: [amp] is the
    offset of the ampersand, [semi] that of the semicolon. *)
Definition decode_one (src : list ascii) (amp semi : nat) : list ascii :=
  let elen := semi - amp - 1 in
  let ename := amp + 1 in
  if bool_decide (elen = 3) && memcmp_lit src ename "amp" 3 then ["&"]
  else if bool_decide (elen = 2) && memcmp_lit src ename "lt" 2 then ["<"]
  else if bool_decide (elen = 2) && memcmp_lit src ename "gt" 2 then [">"]
  else if bool_decide (elen = 4) && memcmp_lit src ename "quot" 4 then ["034"]
  else if bool_decide (elen = 4) && memcmp_lit src ename "apos" 4 then ["'"]
  else if bool_decide (1 < elen) && (byte_at src ename =? "#") then
    let cp :=
      if (byte_at src (ename + 1) =? "x") || (byte_at src (ename + 1) =? "X")
      then parse_hex (slice src (ename + 2) (elen - 2)) 0
      else parse_dec (slice src (ename + 1) (elen - 1)) 0 in
    utf8_encode cp
  else slice src amp (semi - amp + 1).

(** The slow path's [while (p < end)]; [buf] is the Ruby string under
    construction. *)
Fixpoint decode_loop (fuel : nat) (src : list ascii) (p : nat)
    (buf : list ascii) : option (list ascii) :=
  if bool_decide (p < length src) then
    match fuel with
    | 0 => None
    | S fuel' =>
        match memchr src p "&" (length src - p) with
        | None => Some (buf ++ slice src p (length src - p))
        | Some amp =>
            let buf := if bool_decide (p < amp)
                       then buf ++ slice src p (amp - p) else buf in
            match memchr src amp ";" (length src - amp) with
            | None => decode_loop fuel' src (amp + 1) (buf ++ slice src amp 1)
            | Some semi =>
                decode_loop fuel' src (semi + 1)
                  (buf ++ decode_one src amp semi)
            end
        end
    end
  else Some buf.

(** [decode_entities(r, src, len)] on the bytes [src, src+len). *)
Definition decode_entities (src : list ascii) : option VALUE :=
  match memchr src 0 "&" (length src) with
  | None => Some (RString src)
  | Some _ => RString <$> decode_loop (length src) src 0 []
  end.

Definition make_attr_value (r : FastReader) (a : AttrEntry) : option VALUE :=
  if val_has_entity a
  then decode_entities (take (val_len a) (val_ptr a))
  else Some (rb_enc_str_new (val_ptr a) (val_len a)).

(** *** Ruby methods *)

(** [reader_alloc] followed by [reader_initialize] on a source whose
    bytes are [doc]. *)
Definition reader_new (doc : list ascii) : FastReader :=
  {| data := doc; pos := 0; depth := 0; report_depth := 0; node_type := 0;
     is_empty := false; name_ptr := None; name_len := 0;
     text_ptr := None; text_len := 0; text_has_entity := false;
     decoded_text := Qnil;
     attrs := replicate MAX_ATTRS
                {| a_name_ptr := []; a_name_len := 0; val_ptr := [];
                   val_len := 0; val_has_entity := false |};
     attr_count := 0;
     name_cache := replicate NAME_CACHE_SIZE empty_entry |}.

Definition reader_read (r : FastReader) : option (VALUE * FastReader) :=
  '(ok, r) ← reader_read_internal r;
  Some (if ok : bool then Qtrue else Qfalse, r).

Definition reader_name (r : FastReader) : VALUE * FastReader :=
  match name_ptr r with
  | None => (Qnil, r)
  | Some p => if bool_decide (name_len r = 0) then (Qnil, r)
              else intern_name r p (name_len r)
  end.

Definition reader_node_type (r : FastReader) : VALUE := Fixnum (node_type r).

Definition reader_depth (r : FastReader) : VALUE := Fixnum (report_depth r).

Definition reader_value (r : FastReader) : option (VALUE * FastReader) :=
  match text_ptr r with
  | None => Some (Qnil, r)
  | Some p =>
      if bool_decide (text_len r = 0) then Some (Qnil, r)
      else if text_has_entity r then
        match decoded_text r with
        | Qnil =>
            v ← decode_entities (take (text_len r) p);
            Some (v, set_decoded_text v r)
        | v => Some (v, r)
        end
      else Some (rb_enc_str_new p (text_len r), r)
  end.

(** The loop [for (i = 0; i < r->attr_count; i++)] over the entries. *)
Fixpoint find_attr (r : FastReader) (needle : list ascii)
    (entries : list AttrEntry) : option VALUE :=
  match entries with
  | [] => Some Qnil
  | a :: rest =>
      if bool_decide (a_name_len a = length needle)
         && bool_decide (take (length needle) (a_name_ptr a) = needle)
      then make_attr_value r a
      else find_attr r needle rest
  end.

Definition reader_attribute (r : FastReader) (attr_name : list ascii)
  : option VALUE :=
  find_attr r attr_name (take (attr_count r) (attrs r)).

Definition reader_empty_element_p (r : FastReader) : VALUE :=
  if is_empty r then Qtrue else Qfalse.

(** *** close

    [close] gives the buffer back ([munmap] or [xfree]) and sets [data]
    to [NULL] and [size] to zero; it writes nothing else.  [name_ptr],
    [text_ptr] and the pointers of the attribute table, where they were
    set, go on pointing into the buffer that is gone.  A [FastReader]
    holds for each of them the bytes it points at, and there are none
    any more: what [close] leaves is a [ClosedReader], and the methods
    on it are written again, with [None] where the source would read
    through one of these pointers. *)
Record ClosedReader : Type := Closed { closed_state : FastReader }.

Definition reader_close (r : FastReader) : ClosedReader :=
  Closed (set_data [] r).

(** [read]: [reader_read_internal] writes to the fields it clears and
    returns at the test [at_end], before it reads a byte. *)
Definition closed_read (c : ClosedReader) : option (bool * ClosedReader) :=
  '(ok, r) ← reader_read_internal (closed_state c); Some (ok, Closed r).

(** [name]: [intern_name] hashes the bytes at [name_ptr]. *)
Definition closed_name (c : ClosedReader) : option VALUE :=
  match name_ptr (closed_state c) with
  | None => Some Qnil
  | Some _ =>
      if bool_decide (name_len (closed_state c) = 0) then Some Qnil else None
  end.

(** [value]: a text that was decoded before is returned from
    [decoded_text]; otherwise the bytes at [text_ptr] are decoded or
    copied. *)
Definition closed_value (c : ClosedReader) : option VALUE :=
  match text_ptr (closed_state c) with
  | None => Some Qnil
  | Some _ =>
      if bool_decide (text_len (closed_state c) = 0) then Some Qnil
      else if text_has_entity (closed_state c) then
        match decoded_text (closed_state c) with
        | Qnil => None
        | v => Some v
        end
      else None
  end.

(** [attribute]: the loop compares the lengths first, and [memcmp]
    reads the name of an entry of the length of the needle. *)
Fixpoint closed_find_attr (needle : list ascii) (entries : list AttrEntry)
  : option VALUE :=
  match entries with
  | [] => Some Qnil
  | a :: rest =>
      if bool_decide (a_name_len a = length needle) then None
      else closed_find_attr needle rest
  end.

Definition closed_attribute (c : ClosedReader) (attr_name : list ascii)
  : option VALUE :=
  closed_find_attr attr_name
    (take (attr_count (closed_state c)) (attrs (closed_state c))).

(** *** Observing a run *)

(** What a caller sees of the current node: [node_type], [name],
    [depth], [value] and [empty_element?]. *)
Record Node : Type := {
  n_type : VALUE;
  n_name : VALUE;
  n_depth : VALUE;
  n_value : VALUE;
  n_empty : VALUE
}.

Definition observe (r : FastReader) : option (Node * FastReader) :=
  let '(nm, r) := reader_name r in
  '(v, r) ← reader_value r;
  Some ({| n_type := reader_node_type r; n_name := nm;
           n_depth := reader_depth r; n_value := v;
           n_empty := reader_empty_element_p r |}, r).

(** [n] calls of [read], the node being inspected after each one that
    returns true; a call that returns false is logged as [None]. *)
Fixpoint read_log (n : nat) (r : FastReader) : option (list (option Node)) :=
  match n with
  | 0 => Some []
  | S n' =>
      '(ok, r) ← reader_read r;
      match ok with
      | Qtrue => '(nd, r) ← observe r; log ← read_log n' r; Some (Some nd :: log)
      | _ => log ← read_log n' r; Some (None :: log)
      end
  end.

End Platform.

Definition bytes (s : string) : list ascii := list_ascii_of_string s.

(** [reader_each] with a block: the loop
    [while (reader_read_internal(r)) rb_yield(self)].  The block is
    given the reader and the caller's state, and hands both back; it
    returns [None] when it does not return.  The loop runs on fuel. *)
Fixpoint reader_each_loop {A} (fuel : nat)
    (blk : FastReader → A → option (A * FastReader))
    (r : FastReader) (acc : A) : option (A * FastReader) :=
  match fuel with
  | 0 => None
  | S fuel' =>
      '(ok, r) ← reader_read_internal r;
      if ok : bool then
        '(acc, r) ← blk r acc; reader_each_loop fuel' blk r acc
      else Some (acc, r)
  end.

Definition reader_each {A} (blk : FastReader → A → option (A * FastReader))
    (r : FastReader) (acc : A) : option (A * FastReader) :=
  reader_each_loop (S (size r - pos r)) blk r acc.

Section Init_from_io.

Variable size_bits : Z.

Definition wrap_size (z : Z) : Z := z mod 2 ^ size_bits.

(** [while (total + clen > capacity) capacity *= 2;] where [need] is
    [total + clen].  After [size_bits] doublings a capacity is zero and
    stays so: running out of this fuel is a loop that never ends. *)
Fixpoint grow (fuel : nat) (capacity need : Z) : option Z :=
  if (capacity <? need)%Z then
    match fuel with
    | 0 => None
    | S fuel' => grow fuel' (wrap_size (capacity * 2)) need
    end
  else Some capacity.

(** The [for (;;)] loop over the chunks. *)
Fixpoint read_chunks (io : list (option (list ascii))) (capacity : Z)
    (buf : list ascii) : option (list ascii) :=
  match io with
  | Some chunk :: io' =>
      if bool_decide (length chunk = 0) then Some buf
      else
        let total := Z.of_nat (length buf) in
        let clen := Z.of_nat (length chunk) in
        capacity ← grow (Z.to_nat size_bits) capacity (wrap_size (total + clen));
        if (total + clen <=? capacity)%Z
        then read_chunks io' capacity (buf ++ chunk)
        else None
  | _ => Some buf
  end.

(** The bytes that become [data]; no bytes at all stand for [NULL]
    with [size] zero. *)
Definition reader_init_from_io (io : list (option (list ascii)))
  : option (list ascii) :=
  read_chunks io (4 * 1024 * 1024) [].

End Init_from_io.

(** * Vocabulary of the properties *)

(** [p] is just past an occurrence of [lit]. *)
Definition just_past (d : list ascii) (lit : string) (p : nat) : Prop :=
  String.length lit ≤ p ∧
  slice d (p - String.length lit) (String.length lit) = bytes lit.

(** What a scanning step may change: the cursor moves forward inside
    the buffer, everything a step of the caller relies on stays. *)
Record advances (r r' : FastReader) : Prop := {
  adv_data : data r' = data r;
  adv_le : pos r ≤ pos r';
  adv_size : pos r' ≤ size r;
  adv_depth : depth r' = depth r;
  adv_name_ptr : name_ptr r' = name_ptr r;
  adv_name_len : name_len r' = name_len r;
  adv_node_type : node_type r' = node_type r;
  adv_cache : name_cache r' = name_cache r
}.

(** What [read] leaves behind when it returns. *)
Record read_post (r : FastReader) (ok : bool) (r' : FastReader) : Prop := {
  rp_data : data r' = data r;
  rp_cache : name_cache r' = name_cache r;
  rp_le : pos r ≤ pos r';
  rp_size : pos r' ≤ size r;
  rp_progress : ok = true → pos r < pos r';
  rp_eof : ok = false → pos r' = size r ∧ depth r' = depth r;
  rp_report : ok = true → (0 ≤ depth r → 0 ≤ report_depth r')%Z;
  rp_depth : depth r' = depth r ∨
             ((0 < depth r)%Z ∧ depth r' = (depth r - 1)%Z) ∨
             (depth r' = wrap_int (depth r + 1) ∧ pos r + 2 ≤ pos r');
  rp_end : ok = true → node_type r' = TYPE_END_ELEMENT → (0 ≤ depth r)%Z →
           report_depth r' = Z.max 0 (depth r - 1) ∧ depth r' = report_depth r'
}.

(** The result of the call of [read] that follows [n] earlier calls. *)
Fixpoint nth_read (n : nat) (r : FastReader) : option (bool * FastReader) :=
  match n with
  | 0 => reader_read_internal r
  | S n' => '(_, r') ← reader_read_internal r; nth_read n' r'
  end.

(** The states of a reader: what [new] builds, and what the methods
    that write to the reader ([read], [name], [value]) make of a state. *)
Inductive reachable : FastReader → Prop :=
  | reach_new doc : reachable (reader_new doc)
  | reach_read r ok r' :
      reachable r → reader_read_internal r = Some (ok, r') → reachable r'
  | reach_name r : reachable r → reachable (reader_name r).2
  | reach_value cs ub r v r' :
      reachable r → reader_value cs ub r = Some (v, r') → reachable r'.

(** A filled slot of the name cache holds the string made of the bytes
    it was filled for. *)
Definition entry_wf (e : CacheEntry) : Prop :=
  ∀ buf, ce_ptr e = Some buf → ce_len e = length buf ∧ rb_str e = RString buf.

Definition cache_wf (cache : list CacheEntry) : Prop := Forall entry_wf cache.

(** The attribute table of the current node: the first [attr_count]
    entries. *)
Definition reported (r : FastReader) : list AttrEntry :=
  take (attr_count r) (attrs r).

(** The bytes [a_name_ptr, a_name_ptr + a_name_len). *)
Definition attr_name (a : AttrEntry) : list ascii :=
  take (a_name_len a) (a_name_ptr a).

(** A namespace declaration: [xmlns], or a name that begins with
    [xmlns:]. *)
Definition xmlns_name (nm : list ascii) : Prop :=
  nm = bytes "xmlns" ∨ bytes "xmlns:" `prefix_of` nm.

Definition no_xmlns (a : AttrEntry) : Prop := ¬ xmlns_name (attr_name a).

(** The ways [read] returns: at the end of the buffer, or from one of
    the three node branches, entered with the cursor at some offset [p]
    and nothing else changed since the call. *)
Inductive read_result (r : FastReader) : bool → FastReader → Prop :=
  | rr_eof p : read_result r false (set_pos p r)
  | rr_end p :
      pos r ≤ p → p + 1 < size r →
      byte_at (data r) p = "<" → byte_at (data r) (p + 1) = "/" →
      read_result r (read_end_element (set_pos (p + 1) r)).1
                    (read_end_element (set_pos (p + 1) r)).2
  | rr_start p r' :
      pos r ≤ p → p + 1 < size r →
      byte_at (data r) p = "<" →
      read_start_element (set_pos (p + 1) r) = Some r' →
      read_result r true r'
  | rr_text p te :
      pos r ≤ p → p < te → te ≤ size r →
      te = default (size r) (memchr (data r) p "<" (size r - p)) →
      is_blank (data r) p (te - p) = false →
      read_result r true
        (set_name None 0
           (set_is_empty false
              (set_text (Some (slice (data r) p (te - p))) (te - p)
                 (bool_decide (is_Some (memchr (data r) p "&" (te - p))))
                 (set_report_depth (depth r)
                    (set_node_type TYPE_TEXT (set_pos te r)))))).

(** The local name of the spec: what follows the first colon, or the
    whole name when there is none. *)
Definition local_part (nm : list ascii) : list ascii :=
  match list_find (λ c, c = ":") nm with
  | Some (i, _) => drop (S i) nm
  | None => nm
  end.

(** A name without its trailing bytes up to the space. *)
Fixpoint rtrim (l : list ascii) : list ascii :=
  match l with
  | [] => []
  | c :: l' =>
      match rtrim l' with
      | [] => if (uchar c <=? 32)%Z then [] else [c]
      | t => c :: t
      end
  end.

(** How many colons a name holds. *)
Definition colons (nm : list ascii) : nat :=
  length (filter (λ c, c = ":") nm).

(** The name as written in the start tag whose [<] is at offset [p]. *)
Definition start_tag_name (d : list ascii) (p : nat) : list ascii :=
  slice d (p + 1) (span_len (λ c, negb (elem_name_end c)) (drop (p + 1) d)).

(** The name as written in the end tag whose [<] is at offset [p]: the
    bytes between [</] and the next [>]. *)
Definition end_tag_name (d : list ascii) (p : nat) : list ascii :=
  match memchr d (p + 2) ">" (length d - (p + 2)) with
  | Some gt => slice d (p + 2) (gt - (p + 2))
  | None => []
  end.

(** The bytes [name_ptr, name_ptr + name_len), when there is a name. *)
Definition name_bytes (r : FastReader) : option (list ascii) :=
  take (name_len r) <$> name_ptr r.

(** A node as [observe] reports it. *)
Definition node (t : Z) (nm : VALUE) (d : Z) (v : VALUE) (e : VALUE) : Node :=
  {| n_type := Fixnum t; n_name := nm; n_depth := Fixnum d; n_value := v;
     n_empty := e |}.

(** The same reader in front of a longer buffer: [pre] is put before
    the data and the cursor moves with it. *)
Definition shift (pre : list ascii) (r : FastReader) : FastReader :=
  set_data (pre ++ data r) (set_pos (length pre + pos r) r).

Definition shift_result (pre : list ascii) (res : bool * FastReader)
  : bool * FastReader :=
  (res.1, shift pre res.2).

(** A tag name: not empty, made of bytes above the space other than
    [>] and [/], and not opening a comment, a declaration or a
    processing instruction. *)
Definition tag_name_ok (x : list ascii) : Prop :=
  x ≠ [] ∧
  Forall (λ c, (32 < uchar c)%Z ∧ c ≠ ">" ∧ c ≠ "/") x ∧
  head x ≠ Some "!" ∧ head x ≠ Some "?".

(** The fields of the reader after it has returned the element [x] as
    an empty element, having started the element at state [s]. *)
Definition empty_element_of (s : FastReader) (x : list ascii)
    (r' : FastReader) : Prop :=
  data r' = data s ∧ depth r' = depth s ∧ report_depth r' = depth s ∧
  node_type r' = TYPE_ELEMENT ∧ is_empty r' = true ∧
  name_ptr r' = Some (local_part x) ∧ name_len r' = length (local_part x) ∧
  text_ptr r' = text_ptr s ∧ text_len r' = text_len s ∧
  text_has_entity r' = text_has_entity s ∧
  decoded_text r' = decoded_text s ∧
  attrs r' = attrs s ∧ attr_count r' = 0 ∧ name_cache r' = name_cache s.

(** The reader seen from its cursor: the bytes before the cursor are
    dropped. *)
Definition core (r : FastReader) : FastReader :=
  set_data (drop (pos r) (data r)) (set_pos 0 r).

(** What [read_log] does after a successful [read]. *)
Definition log_after (cs : bool) (ub : Z) (n : nat) (r : FastReader)
  : option (list (option Node)) :=
  '(nd, r) ← observe cs ub r; log ← read_log cs ub n r; Some (Some nd :: log).

(** The state a successful or failed [read] leaves behind. *)
Definition after_read (r : FastReader) : FastReader :=
  match reader_read_internal r with
  | Some (_, r') => r'
  | None => r
  end.

(** What [name] returns after [read] has taken the reader from [r] to
    [r']: nil on a text, otherwise the local part of the name of the
    tag whose [<] is at some offset [p] that the call has passed. *)
Definition returns_local_name (r r' : FastReader) : Prop :=
  ∃ nm : list ascii,
    (reader_name r').1 = (if decide (nm = []) then Qnil else RString nm) ∧
    ((node_type r' = TYPE_TEXT ∧ nm = []) ∨
     ∃ p, pos r ≤ p ∧ p < pos r' ∧ byte_at (data r) p = "<" ∧
       ((node_type r' = TYPE_ELEMENT ∧
         nm = local_part (start_tag_name (data r) p) ∧
         (":" ∈ nm ↔ 2 ≤ colons (start_tag_name (data r) p)))
        ∨
        (node_type r' = TYPE_END_ELEMENT ∧
         byte_at (data r) (p + 1) = "/" ∧
         nm = rtrim (local_part (end_tag_name (data r) p)) ∧
         (":" ∈ nm ↔ 2 ≤ colons (end_tag_name (data r) p))))).

(** The tables of the reader keep their sizes, and the attribute count
    stays within the attribute table. *)
Definition tables_ok (r : FastReader) : Prop :=
  length (attrs r) = MAX_ATTRS ∧ attr_count r ≤ MAX_ATTRS ∧
  length (name_cache r) = NAME_CACHE_SIZE.

(** What [read] sets its reader to before it scans. *)
Definition cleared (r : FastReader) : FastReader :=
  set_attr_count 0 (set_text None 0 false (set_decoded_text Qnil r)).

(** The bytes [raw] are the text that [read] has found on its way from
    [r] to [r']: they end at the cursor, where the buffer ends or a [<]
    stands, hold no [<] and are not all white space. *)
Definition text_of (r r' : FastReader) (raw : list ascii) : Prop :=
  ∃ p : nat, pos r' ≤ size r ∧ pos r ≤ p ∧ p < pos r' ∧
       raw = slice (data r) p (pos r' - p) ∧
       ("<" ∉ raw) ∧ forallb is_space raw = false ∧
       (pos r' = size r ∨ byte_at (data r) (pos r') = "<").

(** What the reference [&name;] stands for. *)
Definition entity_text (cs : bool) (ub : Z) (name : list ascii) : list ascii :=
  if decide (name = bytes "amp") then ["&"]
  else if decide (name = bytes "lt") then ["<"]
  else if decide (name = bytes "gt") then [">"]
  else if decide (name = bytes "quot") then ["034"]
  else if decide (name = bytes "apos") then ["'"]
  else match name with
       | c :: x :: digits =>
           if c =? "#" then
             if (x =? "x") || (x =? "X")
             then utf8_encode (parse_hex ub digits 0)
             else utf8_encode (parse_dec cs ub (x :: digits) 0)
           else "&" :: name ++ [";"]
       | _ => "&" :: name ++ [";"]
       end.

(** The slow path from offset [p] on, with the fuel that is enough. *)
Definition decode_from (cs : bool) (ub : Z) (src : list ascii) (p : nat)
    (buf : list ascii) : option (list ascii) :=
  decode_loop cs ub (length src - p) src p buf.

(** The usual escaping of the five characters that have a name. *)
Definition xml_escape_char (c : ascii) : list ascii :=
  if c =? "&" then bytes "&amp;"
  else if c =? "<" then bytes "&lt;"
  else if c =? ">" then bytes "&gt;"
  else if c =? "034" then bytes "&quot;"
  else if c =? "'" then bytes "&apos;"
  else [c].

Definition xml_escape (s : list ascii) : list ascii :=
  flat_map xml_escape_char s.

(** A continuation byte [10xxxxxx]. *)
Definition utf8_cont (b : Z) : bool := (128 <=? b)%Z && (b <? 192)%Z.

(** The code point that a sequence of one to four bytes stands for in
    UTF-8, read off the lead byte and the payload of the continuation
    bytes. *)
Definition utf8_value (bs : list ascii) : option Z :=
  match uchar <$> bs with
  | [b0] => if (b0 <? 128)%Z then Some b0 else None
  | [b0; b1] =>
      if (192 <=? b0)%Z && (b0 <? 224)%Z && utf8_cont b1
      then Some ((b0 - 192) * 64 + (b1 - 128))%Z else None
  | [b0; b1; b2] =>
      if (224 <=? b0)%Z && (b0 <? 240)%Z && utf8_cont b1 && utf8_cont b2
      then Some (((b0 - 224) * 64 + (b1 - 128)) * 64 + (b2 - 128))%Z else None
  | [b0; b1; b2; b3] =>
      if (240 <=? b0)%Z && (b0 <? 248)%Z && utf8_cont b1 && utf8_cont b2
         && utf8_cont b3
      then Some ((((b0 - 240) * 64 + (b1 - 128)) * 64 + (b2 - 128)) * 64
                 + (b3 - 128))%Z
      else None
  | _ => None
  end.

(** A decimal digit. *)
Definition is_digit (c : ascii) : Prop := (48 ≤ uchar c ≤ 57)%Z.

(** The number written by decimal digits. *)
Definition decimal_value (ds : list ascii) : Z :=
  fold_left (λ a c, a * 10 + (uchar c - 48))%Z ds 0%Z.

(** The value of a hexadecimal digit, if it is one. *)
Definition hex_digit (c : ascii) : option Z :=
  let u := uchar c in
  if (48 <=? u)%Z && (u <=? 57)%Z then Some (u - 48)%Z
  else if (97 <=? u)%Z && (u <=? 102)%Z then Some (u - 97 + 10)%Z
  else if (65 <=? u)%Z && (u <=? 70)%Z then Some (u - 65 + 10)%Z
  else None.

(** The number written by hexadecimal digits. *)
Definition hex_value (hs : list ascii) : Z :=
  fold_left (λ a c, a * 16 + default 0 (hex_digit c))%Z hs 0%Z.

(** A block that looks at the node and adds it to a list. *)
Definition collect (cs : bool) (ub : Z) (r : FastReader) (acc : list Node)
  : option (list Node * FastReader) :=
  '(nd, r) ← observe cs ub r; Some (acc ++ [nd], r).

(** A block that returns, and leaves the buffer and the cursor of the
    reader where they are or moves the cursor forward, as the methods
    of the reader do. *)
Definition well_behaved {A} (blk : FastReader → A → option (A * FastReader))
  : Prop :=
  ∀ r acc, ∃ acc' r', blk r acc = Some (acc', r') ∧
                      data r' = data r ∧ pos r ≤ pos r'.

(** What an IO holds: its chunks up to the first that is nil or empty. *)
Fixpoint io_content (io : list (option (list ascii))) : list ascii :=
  match io with
  | Some chunk :: io' =>
      if bool_decide (length chunk = 0) then [] else chunk ++ io_content io'
  | _ => []
  end.

(** An attribute name as the scanner takes it: no byte that ends a name. *)
Definition attr_key_ok (k : list ascii) : Prop :=
  Forall (λ c, attr_name_end c = false) k.

(** The table entry of the attribute [k] with the raw value [v]. *)
Definition attr_entry (k v : list ascii) : AttrEntry :=
  {| a_name_ptr := k; a_name_len := length k; val_ptr := v;
     val_len := length v; val_has_entity := bool_decide ("&" ∈ v) |}.

#[global] Instance xmlns_name_dec nm : Decision (xmlns_name nm).
Proof. unfold xmlns_name. apply _. Defined.

(** A quote character. *)
Definition is_quote (q : ascii) : Prop := q = "034" ∨ q = "'".

(** White space, possibly none. *)
Definition blank (ws : list ascii) : Prop := forallb is_space ws = true.

(** What stands between the name of a start tag and its end: an
    attribute [key = q v q] with either quote and white space around
    the [=], a name without a value, and a name with a value that is
    not quoted. *)
Inductive item : Type :=
  | Attr (key pre post : list ascii) (q : ascii) (v : list ascii)
  | Bare (name : list ascii)
  | Unquoted (key pre post word : list ascii).

Definition render_item (it : item) : list ascii :=
  match it with
  | Attr key pre post q v => key ++ pre ++ "=" :: post ++ q :: v ++ [q]
  | Bare name => name
  | Unquoted key pre post word => key ++ pre ++ "=" :: post ++ word
  end.

(** The items of a start tag, each after its white space, and the
    white space before the end of the tag. *)
Definition attr_list : Type := list (list ascii * item) * list ascii.

Definition render_items (its : list (list ascii * item)) : list ascii :=
  flat_map (λ gi, gi.1 ++ render_item gi.2) its.

Definition render_attrs (a : attr_list) : list ascii :=
  render_items a.1 ++ a.2.

(** A name that the scanner takes whole. *)
Definition name_like (k : list ascii) : Prop := k ≠ [] ∧ attr_key_ok k.

Definition item_ok (it : item) : Prop :=
  match it with
  | Attr key pre post q v =>
      name_like key ∧ blank pre ∧ blank post ∧ is_quote q ∧ q ∉ v
  | Bare name => name_like name
  | Unquoted key pre post word =>
      name_like key ∧ blank pre ∧ blank post ∧ name_like word ∧
      ∀ c, head word = Some c → ¬ is_quote c
  end.

Definition attrs_ok (a : attr_list) : Prop :=
  Forall (λ gi, gi.1 ≠ [] ∧ blank gi.1 ∧ item_ok gi.2) a.1 ∧ blank a.2.

(** The attributes that are written with a quoted value. *)
Definition written (its : list (list ascii * item))
  : list (list ascii * list ascii) :=
  omap (λ gi, match gi.2 with
              | Attr key _ _ _ v => Some (key, v)
              | _ => None
              end) its.

(** The end of a start tag. *)
Definition tag_close (selfclose : bool) (rest : list ascii) : list ascii :=
  if selfclose then "/" :: ">" :: rest else ">" :: rest.

(** The attributes that are kept: those that do not declare a name
    space. *)
Definition kept (kvs : list (list ascii * list ascii))
  : list (list ascii * list ascii) :=
  filter (λ kv, ¬ xmlns_name kv.1) kvs.

(** [push_attr] for each entry in turn. *)
Definition push_all (es : list AttrEntry) (r : FastReader) : FastReader :=
  foldl (λ r a, push_attr a r) r es.

(** The loop of [parse_attrs] from the cursor on. *)
Definition parse_from (r : FastReader) : option FastReader :=
  parse_attrs_loop (size r - pos r) r.

(** What follows an item: white space and then a byte that is neither
    white space nor [=]; without white space, the end of the tag. *)
Definition follows (l : list ascii) : Prop :=
  ∃ ws c more, l = ws ++ c :: more ∧ blank ws ∧ is_space c = false ∧
               c ≠ "=" ∧ (ws ≠ [] ∨ attr_name_end c = true).

(** The entry that an item adds to the table. *)
Definition item_push (it : item) (r : FastReader) : FastReader :=
  match it with
  | Attr key _ _ _ v =>
      if bool_decide (xmlns_name key) then r
      else push_attr (attr_entry key v) r
  | _ => r
  end.

(** The state that [parse_attrs] leaves after the items of [a] and the
    end of the tag, [>] or [/>]. *)
Definition after_attrs (r : FastReader) (a : attr_list) (selfclose : bool)
  : FastReader :=
  let r0 := push_all ((λ kv, attr_entry kv.1 kv.2) <$> kept (written a.1))
              (set_is_empty false (set_attr_count 0 r)) in
  if selfclose
  then set_pos (pos r + length (render_attrs a) + 2) (set_is_empty true r0)
  else set_pos (pos r + length (render_attrs a) + 1) r0.

(** The fields of the reader after [read] has returned the element
    whose tag name is [x], as an empty element or not, having started at
    state [s]. *)
Definition element_state (s : FastReader) (x : list ascii) (e : bool)
    (r' : FastReader) : Prop :=
  data r' = data s ∧
  depth r' = (if e then depth s else wrap_int (depth s + 1)) ∧
  report_depth r' = depth s ∧
  node_type r' = TYPE_ELEMENT ∧ is_empty r' = e ∧
  name_ptr r' = Some (local_part x) ∧ name_len r' = length (local_part x) ∧
  text_ptr r' = text_ptr s ∧ text_len r' = text_len s ∧
  text_has_entity r' = text_has_entity s ∧
  decoded_text r' = decoded_text s ∧ name_cache r' = name_cache s.

(** How a start tag ends: [/>], or [>] directly followed by the end
    tag, which may hold white space after the name, or [>] followed by
    something else. *)
Inductive tag_end : Type := Selfclose | Collapsed (ws : list ascii) | Open.

Definition tag_tail (x : list ascii) (t : tag_end) (post : list ascii)
  : list ascii :=
  match t with
  | Selfclose => "/" :: ">" :: post
  | Collapsed ws => ">" :: "<" :: "/" :: x ++ ws ++ ">" :: post
  | Open => ">" :: post
  end.

Definition tag_is_empty (t : tag_end) : bool :=
  match t with Open => false | _ => true end.

Definition tag_end_ok (t : tag_end) : Prop :=
  match t with Collapsed ws => blank ws | _ => True end.

(** The input does not go on with an end tag. *)
Definition no_end_tag (post : list ascii) : Prop :=
  ∀ y, post ≠ "<" :: "/" :: y.

(** [lit] occurs in [c ++ lit] only as its end. *)
Definition ends_first (lit c : list ascii) : Prop :=
  ∀ a b, c ++ lit = a ++ lit ++ b → b = [].

(** Opening brackets minus closing brackets. *)
Fixpoint bracket_balance (l : list ascii) : Z :=
  match l with
  | [] => 0
  | c :: l' =>
      Z.add (if c =? "[" then 1%Z else if c =? "]" then (-1)%Z else 0%Z)
            (bracket_balance l')
  end.

(** What may follow a text: the end of the input or a [<]. *)
Definition text_stop (post : list ascii) : Prop :=
  post = [] ∨ ∃ y, post = "<" :: y.

(** The constructs that [read] passes over: a comment, a processing
    instruction, a CDATA section and a DOCTYPE declaration, each closed
    by the first occurrence of its terminator ([>] outside brackets for
    a DOCTYPE, whose bracket counter is an [int]). *)
Inductive misc : list ascii → Prop :=
  | misc_comment c :
      ends_first (bytes "-->") c → misc (bytes "<!--" ++ c ++ bytes "-->")
  | misc_pi c :
      ends_first (bytes "?>") c → misc (bytes "<?" ++ c ++ bytes "?>")
  | misc_cdata c :
      ends_first (bytes "]]>") c →
      misc (bytes "<![CDATA[" ++ c ++ bytes "]]>")
  | misc_doctype body :
      (Z.of_nat (length body) < 2 ^ 31)%Z →
      bracket_balance body = 0%Z →
      (∀ a b, body = a ++ ">" :: b → bracket_balance a ≠ 0%Z) →
      misc (bytes "<!DOCTYPE" ++ body ++ [">"]).

(** The value that [name] returns for the bytes [nm]. *)
Definition name_value (nm : list ascii) : VALUE :=
  if decide (nm = []) then Qnil else RString nm.

(** The value that [value] returns for the raw text [t]. *)
Definition text_value (cs : bool) (ub : Z) (t : list ascii) : VALUE :=
  default Qnil (decode_entities cs ub t).

(** The reader after [read] has reported the text [t]. *)
Definition text_state (q : FastReader) (t : list ascii) : FastReader :=
  set_name None 0
    (set_is_empty false
       (set_text (Some t) (length t) (bool_decide ("&" ∈ t))
          (set_report_depth (depth q)
             (set_node_type TYPE_TEXT
                (set_pos (pos q + length t) (cleared q)))))).

(** The reader after [read] has reported the end tag [</x>], written
    in [n] bytes. *)
Definition end_state (q : FastReader) (x : list ascii) (n : nat)
  : FastReader :=
  let r1 := set_is_empty false
              (set_node_type TYPE_END_ELEMENT
                 (set_name (Some (local_part x)) (length (local_part x))
                    (set_pos (pos q + n) (cleared q)))) in
  let r2 := if bool_decide (0 < depth r1)%Z
            then set_depth (depth r1 - 1)%Z r1 else r1 in
  set_report_depth (depth r2) r2.

(** The reader stands in front of [post] at depth [d]. *)
Definition stands (q : FastReader) (d : Z) (post : list ascii) : Prop :=
  drop (pos q) (data q) = post ∧ depth q = d ∧ cache_wf (name_cache q).

(** ** Documents

    A document as a tree: character data, white space between markup,
    the constructs that are passed over, and elements written [<x/>] or
    with a start and an end tag. *)
#[warnings="-register-all"]
Inductive xml : Type :=
  | Text (t : list ascii)
  | Blank (ws : list ascii)
  | Misc (m : list ascii)
  | Empty (x : list ascii) (a : attr_list)
  | Elem (x : list ascii) (a : attr_list) (children : list xml)
         (gap : list ascii).

(** The bytes of a document. *)
Fixpoint render (n : xml) : list ascii :=
  match n with
  | Text t => t
  | Blank ws => ws
  | Misc m => m
  | Empty x a => "<" :: x ++ render_attrs a ++ ["/"; ">"]
  | Elem x a children gap =>
      "<" :: x ++ render_attrs a ++ ">" :: flat_map render children
        ++ "<" :: "/" :: x ++ gap ++ [">"]
  end.

(** The nodes of a document at depth [d], in document order.  An
    element without children is one node, reported as empty. *)
Fixpoint events (cs : bool) (ub : Z) (d : Z) (n : xml) : list Node :=
  match n with
  | Text t => [node TYPE_TEXT Qnil d (text_value cs ub t) Qfalse]
  | Blank _ | Misc _ => []
  | Empty x _ =>
      [node TYPE_ELEMENT (name_value (local_part x)) d Qnil Qtrue]
  | Elem x _ children _ =>
      match children with
      | [] => [node TYPE_ELEMENT (name_value (local_part x)) d Qnil Qtrue]
      | _ =>
          node TYPE_ELEMENT (name_value (local_part x)) d Qnil Qfalse
          :: flat_map (events cs ub (d + 1)) children
          ++ [node TYPE_END_ELEMENT (name_value (local_part x)) d Qnil Qfalse]
      end
  end.

(** How deep a document is nested: by how much the depth counter is
    raised at most while the document is read.  An element without
    children is reported as empty and does not raise it. *)
Fixpoint height (n : xml) : nat :=
  match n with
  | Elem _ _ children _ =>
      match children with
      | [] => 0
      | _ => S (max_list (height <$> children))
      end
  | _ => 0
  end.

Definition is_chars (n : xml) : bool :=
  match n with Text _ | Blank _ => true | _ => false end.

(** No two runs of characters are neighbours. *)
Fixpoint separated (l : list xml) : Prop :=
  match l with
  | [] => True
  | a :: l' =>
      (is_chars a = true → ∀ b, head l' = Some b → is_chars b = false)
      ∧ separated l'
  end.

(** The documents whose bytes are read back node by node. *)
#[warnings="-register-all"]
Inductive wf : xml → Prop :=
  | wf_text t : ("<" ∉ t) → forallb is_space t = false → wf (Text t)
  | wf_blank ws : ws ≠ [] → forallb is_space ws = true → wf (Blank ws)
  | wf_misc m : misc m → wf (Misc m)
  | wf_empty x a : tag_name_ok x → attrs_ok a → wf (Empty x a)
  | wf_elem x a children gap :
      tag_name_ok x → attrs_ok a →
      Forall wf children → separated children → blank gap →
      wf (Elem x a children gap).

(** The nodes of [n] are read from a reader that stands in front of
    its bytes, which is left standing behind them; the depth counter,
    an [int], is low enough for the nesting of [n]. *)
Definition runs (cs : bool) (ub : Z) (n : xml) : Prop :=
  ∀ q d post,
    wf n → (0 ≤ d)%Z → (d + Z.of_nat (height n) ≤ INT_MAX)%Z →
    stands q d (render n ++ post) →
    (is_chars n = true → text_stop post) →
    ∃ q', stands q' d post ∧
      ∀ k, read_log cs ub (length (events cs ub d n) + k) q
           = (λ l, (Some <$> events cs ub d n) ++ l) <$> read_log cs ub k q'.

(** [lit] does not occur in [c]. *)
Definition absent (lit c : list ascii) : Prop := ∀ a b, c ≠ a ++ lit ++ b.

(** Markup that the input ends in before it is closed: a lone [<], a
    comment, a processing instruction, a CDATA section or a DOCTYPE
    declaration without its terminator, an end tag without its [>]. *)
Inductive truncated : list ascii → Prop :=
  | truncated_lt : truncated ["<"]
  | truncated_comment c :
      absent (bytes "-->") c → truncated (bytes "<!--" ++ c)
  | truncated_pi c : absent (bytes "?>") c → truncated (bytes "<?" ++ c)
  | truncated_cdata c :
      absent (bytes "]]>") c → truncated (bytes "<![CDATA[" ++ c)
  | truncated_doctype body :
      (Z.of_nat (length body) < 2 ^ 31)%Z →
      (∀ a b, body = a ++ ">" :: b → bracket_balance a ≠ 0%Z) →
      truncated (bytes "<!DOCTYPE" ++ body)
  | truncated_end x : (">" ∉ x) → truncated ("<" :: "/" :: x).

(** [n] start tags [<a>], one after the other: the element [a] opened
    [n] times and never closed. *)
Fixpoint open_tags (n : nat) : list ascii :=
  match n with
  | 0 => []
  | S n' => "<" :: "a" :: ">" :: open_tags n'
  end.

(** The depth counter after it has been raised [n] times from [d]. *)
Definition raised (n : nat) (d : Z) : Z :=
  Nat.iter n (λ z, wrap_int (z + 1)) d.

(** * Scanning, reading and the states of a reader *)

Lemma byte_at_lookup d i c : d !! i = Some c → byte_at d i = c.
Proof. intros H. unfold byte_at. by apply nth_lookup_Some with (d := "000") in H. Qed.

Lemma slice_lookup_Some d s n i c :
  slice d s n !! i = Some c → i < n ∧ d !! (s + i) = Some c.
Proof.
  unfold slice. intros H.
  destruct (decide (i < n)) as [Hi|Hi].
  - rewrite lookup_take_lt in H by done. by rewrite lookup_drop in H.
  - rewrite lookup_take_ge in H by lia. done.
Qed.

Lemma length_slice d s n : length (slice d s n) = n `min` (length d - s).
Proof. unfold slice. by rewrite length_take, length_drop. Qed.

Lemma memchr_Some d s c n p :
  memchr d s c n = Some p →
  s ≤ p ∧ p < s + n ∧ p < length d ∧ byte_at d p = c.
Proof.
  unfold memchr. intros H.
  destruct (list_find _ _) as [[i x]|] eqn:E; simplify_eq/=.
  apply list_find_Some in E as (Hl & -> & _).
  apply slice_lookup_Some in Hl as [Hi Hl].
  split_and!; try lia.
  - by apply lookup_lt_Some in Hl.
  - by apply byte_at_lookup.
Qed.

Lemma memchr_is_None d s c n :
  memchr d s c n = None → ∀ j, s ≤ j → j < s + n → j < length d → byte_at d j ≠ c.
Proof.
  unfold memchr. intros H j H1 H2 H3.
  destruct (list_find _ _) as [[i x]|] eqn:E; simplify_eq/=.
  apply list_find_None in E.
  rewrite Forall_lookup in E.
  destruct (lookup_lt_is_Some_2 d j H3) as [x Hx].
  rewrite (byte_at_lookup _ _ _ Hx).
  apply (E (j - s)). unfold slice.
  rewrite lookup_take_lt by lia. rewrite lookup_drop.
  by replace (s + (j - s)) with j by lia.
Qed.

Lemma slice_cons d i n c :
  d !! i = Some c → slice d i (S n) = c :: slice d (S i) n.
Proof. intros H. unfold slice. by rewrite (drop_S _ _ _ H). Qed.

Lemma lookup_byte_at d i : i < length d → d !! i = Some (byte_at d i).
Proof.
  intros H. destruct (lookup_lt_is_Some_2 d i H) as [x Hx].
  by rewrite (byte_at_lookup _ _ _ Hx).
Qed.

Lemma slice_0 d i : slice d i 0 = [].
Proof. done. Qed.

Lemma slice_3 d i :
  i + 2 < length d →
  slice d i 3 = [byte_at d i; byte_at d (i + 1); byte_at d (i + 2)].
Proof.
  intros H.
  rewrite (slice_cons d i 2 (byte_at d i)) by (apply lookup_byte_at; lia).
  rewrite (slice_cons d (S i) 1 (byte_at d (i + 1)))
    by (replace (S i) with (i + 1) by lia; apply lookup_byte_at; lia).
  rewrite (slice_cons d (S (S i)) 0 (byte_at d (i + 2)))
    by (replace (S (S i)) with (i + 2) by lia; apply lookup_byte_at; lia).
  done.
Qed.

Lemma slice_2 d i :
  i + 1 < length d → slice d i 2 = [byte_at d i; byte_at d (i + 1)].
Proof.
  intros H.
  rewrite (slice_cons d i 1 (byte_at d i)) by (apply lookup_byte_at; lia).
  rewrite (slice_cons d (S i) 0 (byte_at d (i + 1)))
    by (replace (S i) with (i + 1) by lia; apply lookup_byte_at; lia).
  done.
Qed.

Lemma eqb_char_true (a b : ascii) : (a =? b) = true → a = b.
Proof. by intros ?%Ascii.eqb_eq. Qed.

Lemma skip_comment_loop_total fuel d pos :
  length d - pos ≤ fuel →
  ∃ p, skip_comment_loop fuel d pos = Some p ∧ p ≤ length d ∧
       (pos ≤ length d → pos ≤ p) ∧ (p = length d ∨ just_past d "-->" p).
Proof.
  revert pos. induction fuel as [|fuel IH]; intros pos Hf; simpl;
    case_bool_decide as Hc; try lia; try (eexists; split_and!; eauto; lia).
  destruct (memchr _ _ _ _) as [q|] eqn:Em;
    [|eexists; split_and!; eauto; lia].
  apply memchr_Some in Em as (H1 & H2 & H3 & H4).
  destruct (_ && _) eqn:Et.
  - apply andb_prop in Et as [Et E3]. apply andb_prop in Et as [Et E2].
    apply andb_prop in Et as [E0 E1]. apply bool_decide_eq_true in E0.
    apply eqb_char_true in E1, E2, E3.
    eexists; split_and!; eauto; try lia.
    right. split; simpl; [lia|].
    replace (q + 3 - 3) with q by lia. rewrite slice_3 by lia.
    by rewrite E1, E2, E3.
  - destruct (IH (q + 1)) as (p & -> & ? & ? & ?); [lia|].
    eexists; split_and!; eauto; lia.
Qed.

Lemma skip_pi_loop_total fuel d pos :
  length d - pos ≤ fuel →
  ∃ p, skip_pi_loop fuel d pos = Some p ∧ p ≤ length d ∧
       (pos ≤ length d → pos ≤ p) ∧ (p = length d ∨ just_past d "?>" p).
Proof.
  revert pos. induction fuel as [|fuel IH]; intros pos Hf; simpl;
    case_bool_decide as Hc; try lia; try (eexists; split_and!; eauto; lia).
  destruct (memchr _ _ _ _) as [q|] eqn:Em;
    [|eexists; split_and!; eauto; lia].
  apply memchr_Some in Em as (H1 & H2 & H3 & H4).
  destruct (_ =? _) eqn:Et.
  - apply eqb_char_true in Et.
    eexists; split_and!; eauto; try lia.
    right. split; simpl; [lia|].
    replace (q + 2 - 2) with q by lia. rewrite slice_2 by lia.
    by rewrite H4, Et.
  - destruct (IH (q + 1)) as (p & -> & ? & ? & ?); [lia|].
    eexists; split_and!; eauto; lia.
Qed.

Lemma skip_cdata_loop_total fuel d pos :
  length d - pos ≤ fuel →
  ∃ p, skip_cdata_loop fuel d pos = Some p ∧ p ≤ length d ∧
       (pos ≤ length d → pos ≤ p) ∧ (p = length d ∨ just_past d "]]>" p).
Proof.
  revert pos. induction fuel as [|fuel IH]; intros pos Hf; simpl;
    case_bool_decide as Hc; try lia; try (eexists; split_and!; eauto; lia).
  destruct (memchr _ _ _ _) as [q|] eqn:Em;
    [|eexists; split_and!; eauto; lia].
  apply memchr_Some in Em as (H1 & H2 & H3 & H4).
  destruct (_ && _) eqn:Et.
  - apply andb_prop in Et as [E1 E2]. apply eqb_char_true in E1, E2.
    eexists; split_and!; eauto; try lia.
    right. split; simpl; [lia|].
    replace (q + 3 - 3) with q by lia. rewrite slice_3 by lia.
    by rewrite H4, E1, E2.
  - destruct (IH (q + 1)) as (p & -> & ? & ? & ?); [lia|].
    eexists; split_and!; eauto; lia.
Qed.

Lemma skip_doctype_loop_bounds l pos bd :
  let p := skip_doctype_loop l pos bd in
  pos ≤ p ∧ p ≤ pos + length l ∧
  (p = pos + length l ∨ (pos < p ∧ l !! (p - pos - 1) = Some ">")).
Proof.
  revert pos bd. induction l as [|c l IH]; intros pos bd; simpl; [lia|].
  destruct (c =? "[") eqn:E1; [|destruct (c =? "]") eqn:E2;
    [|destruct ((c =? ">") && _) eqn:E3]].
  - specialize (IH (S pos) (wrap_int (bd + 1))); simpl in IH.
    destruct IH as (? & ? & [?|[? Hl]]); split_and!; try lia.
    right. split; [lia|].
    by replace (skip_doctype_loop l (S pos) (wrap_int (bd + 1)) - pos - 1)
      with (S (skip_doctype_loop l (S pos) (wrap_int (bd + 1)) - S pos - 1)) by lia.
  - specialize (IH (S pos) (wrap_int (bd - 1))); simpl in IH.
    destruct IH as (? & ? & [?|[? Hl]]); split_and!; try lia.
    right. split; [lia|].
    by replace (skip_doctype_loop l (S pos) (wrap_int (bd - 1)) - pos - 1)
      with (S (skip_doctype_loop l (S pos) (wrap_int (bd - 1)) - S pos - 1)) by lia.
  - apply andb_prop in E3 as [E3 _]. apply eqb_char_true in E3 as ->.
    split_and!; try lia. right. split; [lia|].
    by replace (S pos - pos - 1) with 0 by lia.
  - specialize (IH (S pos) bd); simpl in IH.
    destruct IH as (? & ? & [?|[? Hl]]); split_and!; try lia.
    right. split; [lia|].
    by replace (skip_doctype_loop l (S pos) bd - pos - 1)
      with (S (skip_doctype_loop l (S pos) bd - S pos - 1)) by lia.
Qed.

Lemma span_len_le p l : span_len p l ≤ length l.
Proof. induction l as [|c l IH]; simpl; [lia|]. destruct (p c); lia. Qed.

Lemma span_len_stop p l c :
  l !! span_len p l = Some c → p c = false.
Proof.
  induction l as [|x l IH]; simpl; [done|].
  destruct (p x) eqn:E; simpl; [done|]. by intros [= <-].
Qed.

Lemma span_len_pos p l c :
  l !! 0 = Some c → p c = true → 0 < span_len p l.
Proof. destruct l; simpl; [done|]. intros [= ->] ->. lia. Qed.

Lemma span_len_zero p l c :
  l !! 0 = Some c → p c = false → span_len p l = 0.
Proof. destruct l; simpl; [done|]. by intros [= ->] ->. Qed.

Lemma drop_head_cur r :
  pos r < size r → drop (pos r) (data r) !! 0 = Some (cur r).
Proof.
  intros H. rewrite lookup_drop, Nat.add_0_r. by apply lookup_byte_at.
Qed.

Lemma at_end_false r : at_end r = false ↔ pos r < size r.
Proof. unfold at_end. rewrite bool_decide_eq_false. lia. Qed.

Lemma at_end_true r : at_end r = true ↔ size r ≤ pos r.
Proof. unfold at_end. by rewrite bool_decide_eq_true. Qed.

Lemma advances_refl r : pos r ≤ size r → advances r r.
Proof. by split. Qed.

Lemma advances_trans r1 r2 r3 :
  advances r1 r2 → advances r2 r3 → advances r1 r3.
Proof.
  intros [] []. split; unfold size in *; try congruence; try lia.
Qed.

Lemma advances_set_pos r p :
  pos r ≤ p → p ≤ size r → advances r (set_pos p r).
Proof. by split; simpl. Qed.

Lemma skip_spaces_advances r : pos r ≤ size r → advances r (skip_spaces r).
Proof.
  intros H. unfold skip_spaces. apply advances_set_pos; [lia|].
  pose proof (span_len_le is_space (drop (pos r) (data r))) as Hs.
  rewrite length_drop in Hs. unfold size in *. lia.
Qed.

Lemma skip_spaces_stop r :
  pos (skip_spaces r) < size r → is_space (cur (skip_spaces r)) = false.
Proof.
  simpl. intros H. unfold cur, skip_spaces; simpl.
  apply (span_len_stop is_space (drop (pos r) (data r))).
  rewrite lookup_drop. apply lookup_byte_at. done.
Qed.

Lemma advances_size r r' : advances r r' → size r' = size r.
Proof. intros []. unfold size. congruence. Qed.

Ltac span_bounds :=
  repeat match goal with
  | |- context [span_len ?p ?l] =>
      lazymatch goal with
      | _ : span_len p l ≤ length l |- _ => fail
      | _ => pose proof (span_len_le p l)
      end
  | _ : context [span_len ?p ?l] |- _ =>
      lazymatch goal with
      | _ : span_len p l ≤ length l |- _ => fail
      | _ => pose proof (span_len_le p l)
      end
  end.

Ltac arith :=
  unfold size, cur in *; simpl in *; span_bounds;
  rewrite ?length_drop in *; lia.

Ltac adv_step := split; simpl; try done; arith.

Lemma push_attr_advances a r : pos r ≤ size r → advances r (push_attr a r).
Proof. intros H. unfold push_attr. case_bool_decide; adv_step. Qed.

Lemma push_attr_pos a r : pos (push_attr a r) = pos r.
Proof. unfold push_attr. by case_bool_decide. Qed.

Lemma push_attr_data a r : data (push_attr a r) = data r.
Proof. unfold push_attr. by case_bool_decide. Qed.

Lemma parse_attrs_loop_advances fuel r :
  pos r ≤ size r → size r - pos r ≤ fuel →
  ∃ r', parse_attrs_loop fuel r = Some r' ∧ advances r r' ∧
        (pos r < size r → pos r < pos r').
Proof.
  revert r. induction fuel as [|fuel IH]; intros r Hb Hf;
    cbn [parse_attrs_loop];
    case_bool_decide as Hlt; try lia;
    try (eexists; split_and!; [done|by apply advances_refl|lia]).
  assert (Hcont : ∀ x, advances r x → pos r < pos x →
    ∃ r', parse_attrs_loop fuel x = Some r' ∧ advances r r' ∧
          (pos r < size r → pos r < pos r')).
  { intros x Hx Hp. pose proof (advances_size _ _ Hx) as Hs.
    destruct (IH x) as (r' & -> & Hr' & Hpr).
    - rewrite Hs. by destruct Hx.
    - lia.
    - exists r'. split_and!; [done|by eapply advances_trans|].
      destruct Hr'. lia. }
  clear IH.
  pose proof (skip_spaces_advances r Hb) as A1.
  pose proof (skip_spaces_stop r) as S1.
  remember (skip_spaces r) as r1 eqn:Hr1.
  pose proof (advances_size _ _ A1) as Z1.
  pose proof (adv_le _ _ A1) as L1.
  destruct (at_end r1) eqn:E1.
  { apply at_end_true in E1. exists r1. split_and!; [done..|lia]. }
  apply at_end_false in E1.
  destruct (cur r1 =? ">") eqn:C1.
  { eexists. split_and!; [done| |simpl; lia].
    eapply advances_trans; [done|]. apply advances_set_pos; lia. }
  destruct (cur r1 =? "/") eqn:C2.
  { simpl. case_match eqn:Hgt; eexists;
      (split_and!; [done| |simpl; lia]);
      (eapply advances_trans; [done|]); split; simpl; try done; try lia.
    apply andb_prop in Hgt as [Hgt%bool_decide_eq_true _]. simpl in Hgt.
    unfold size in *; simpl in *. lia. }
  rewrite <- Z1 in S1. specialize (S1 E1).
  remember (span_len (λ c, negb (attr_name_end c)) (drop (pos r1) (data r1)))
    as k eqn:Hk.
  assert (pos r1 + k ≤ size r1) as Hkb.
  { subst k. pose proof (span_len_le (λ c, negb (attr_name_end c))
      (drop (pos r1) (data r1))) as Hs. rewrite length_drop in Hs.
    unfold size in *. lia. }
  remember (set_pos (pos r1 + k) r1) as r3 eqn:Hr3.
  assert (advances r1 r3) as A3 by (subst r3; apply advances_set_pos; lia).
  assert (pos r3 = pos r1 + k) as P3 by (by subst r3).
  pose proof (advances_size _ _ A3) as Z3.
  assert (pos r3 ≤ size r3) as B3 by lia.
  pose proof (skip_spaces_advances r3 B3) as A4.
  remember (skip_spaces r3) as r4 eqn:Hr4.
  assert (advances r r4) as A4' by eauto using advances_trans.
  pose proof (advances_size _ _ A4') as Z4.
  pose proof (adv_le _ _ A4) as L4.
  destruct (at_end r4 || negb (cur r4 =? "=")) eqn:C3.
  { apply Hcont; [done|].
    destruct (decide (k = 0)) as [Hk0|Hk0]; [|lia].
    exfalso.
    assert (attr_name_end (cur r1) = true) as Hne.
    { destruct (attr_name_end (cur r1)) eqn:Hane; [done|].
      pose proof (span_len_pos (λ c, negb (attr_name_end c))
        (drop (pos r1) (data r1)) (cur r1) (drop_head_cur r1 E1)) as Hsp.
      cbv beta in Hsp. rewrite Hane in Hsp. specialize (Hsp eq_refl). lia. }
    assert (cur r1 = "=") as Heq.
    { unfold attr_name_end, is_space in *.
      rewrite C1, C2 in Hne. rewrite !orb_false_r in Hne.
      apply orb_false_elim in S1 as [S1 Sd]. apply orb_false_elim in S1 as [S1 Sc].
      apply orb_false_elim in S1 as [Sa Sb].
      rewrite Sa, Sb, Sc, Sd in Hne. rewrite !orb_false_r in Hne.
      by apply eqb_char_true. }
    assert (r4 = r1) as Hr41.
    { rewrite Hr4, Hr3, Hk0. unfold skip_spaces. simpl.
      rewrite Nat.add_0_r.
      rewrite (span_len_zero is_space _ (cur r1)); first last.
      - rewrite Heq. done.
      - by apply drop_head_cur.
      - rewrite Nat.add_0_r. by destruct r1. }
    rewrite Hr41 in C3. rewrite Heq in C3.
    apply orb_prop in C3 as [C3|C3]; [|done].
    apply at_end_true in C3. lia. }
  apply orb_false_elim in C3 as [E4 _]. apply at_end_false in E4.
  remember (skip_spaces (set_pos (pos r4 + 1) r4)) as r5 eqn:Hr5.
  assert (advances r4 r5) as A5.
  { rewrite Hr5.
    eapply advances_trans; [apply (advances_set_pos r4 (pos r4 + 1)); lia|].
    apply skip_spaces_advances. simpl. unfold size in *; simpl. lia. }
  assert (pos r4 < pos r5) as P5.
  { rewrite Hr5. unfold skip_spaces; simpl. lia. }
  assert (advances r r5) as A5' by eauto using advances_trans.
  pose proof (advances_size _ _ A5') as Z5.
  assert (pos r < pos r5) as P5' by (destruct A4'; lia).
  destruct (at_end r5) eqn:E5.
  { exists r5. split_and!; [done..|lia]. }
  apply at_end_false in E5.
  destruct (negb (cur r5 =? "034") && negb (cur r5 =? "'")) eqn:Q.
  { by apply Hcont. }
  remember (set_pos (pos r5 + 1) r5) as r6 eqn:Hr6.
  assert (pos r6 = pos r5 + 1) as P6 by (by subst r6).
  assert (advances r r6) as A6.
  { eapply advances_trans; [done|]. subst r6. apply advances_set_pos; lia. }
  pose proof (advances_size _ _ A6) as Z6.
  destruct (memchr (data r6) (pos r6) (cur r5) (size r6 - pos r6)) as [ve|] eqn:M.
  2:{ eexists. split_and!; [done| |simpl; lia].
      eapply advances_trans; [done|]. apply advances_set_pos; simpl; lia. }
  apply memchr_Some in M as (M1 & M2 & M3 & _).
  assert (advances r (set_pos (ve + 1) r6)) as A7.
  { eapply advances_trans; [done|]. apply advances_set_pos; [lia|].
    unfold size in *. lia. }
  assert (pos r < pos (set_pos (ve + 1) r6)) as P7 by (simpl in *; lia).
  case_match.
  - by apply Hcont.
  - apply Hcont.
    + eapply advances_trans; [done|]. apply push_attr_advances.
      simpl. unfold size in *. simpl. lia.
    + by rewrite push_attr_pos.
Qed.

Lemma parse_attrs_advances r :
  pos r ≤ size r →
  ∃ r', parse_attrs r = Some r' ∧ advances r r' ∧
        (pos r < size r → pos r < pos r').
Proof.
  intros Hb. unfold parse_attrs.
  destruct (parse_attrs_loop_advances
    (size r - pos r) (set_is_empty false (set_attr_count 0 r)))
    as (r' & Hr' & A & P); [done..|].
  exists r'. split_and!; [done| |done].
  by destruct A.
Qed.

Lemma strip_prefix_bounds d nptr len :
  let '(p, n) := strip_prefix d nptr len in
  nptr ≤ p ∧ p + n = nptr + len.
Proof.
  unfold strip_prefix. destruct (memchr _ _ _ _) as [c|] eqn:M; [|lia].
  apply memchr_Some in M as (? & ? & ? & _). lia.
Qed.

Lemma trim_trailing_le d nptr len : trim_trailing d nptr len ≤ len.
Proof. induction len as [|n IH]; simpl; [lia|]. case_match; lia. Qed.

Lemma read_end_element_post r :
  pos r < size r →
  read_post r (read_end_element r).1 (read_end_element r).2.
Proof.
  intros Hb. unfold read_end_element. cbn zeta.
  destruct (memchr _ _ _ _) as [gt|] eqn:M; simpl in M.
  - apply memchr_Some in M as (M1 & M2 & M3 & _).
    destruct (strip_prefix _ _ _) as [nptr raw_len] eqn:Es. simpl.
    case_bool_decide; split; simpl; try done; try lia;
      unfold size in *; simpl in *; try lia;
      try (intros; lia); try (by left); by (right; left).
  - split; simpl; try done; unfold size in *; simpl in *; try lia;
      try by left.
Qed.

Lemma collapse_peek_advances nptr nlen r :
  pos r ≤ size r → advances r (collapse_peek nptr nlen r) ∧
  report_depth (collapse_peek nptr nlen r) = report_depth r.
Proof.
  intros Hb. unfold collapse_peek. cbn zeta.
  case_match eqn:Hc; [|by split; [apply advances_refl|]].
  destruct (memchr _ _ _ _) as [gt|] eqn:M;
    [|split; [apply advances_set_pos; lia|done]].
  apply memchr_Some in M as (M1 & M2 & M3 & _).
  destruct (strip_prefix _ _ _) as [cp cl].
  case_match; (split; [|done]).
  - split; simpl; try done; unfold size in *; lia.
  - apply advances_set_pos; lia.
Qed.

Lemma read_start_element_post r :
  pos r < size r →
  ∃ r', read_start_element r = Some r' ∧
        data r' = data r ∧ name_cache r' = name_cache r ∧
        pos r < pos r' ∧ pos r' ≤ size r ∧
        node_type r' = TYPE_ELEMENT ∧ report_depth r' = depth r ∧
        (depth r' = depth r ∨ depth r' = wrap_int (depth r + 1)).
Proof.
  intros Hb. unfold read_start_element. cbn zeta.
  remember (span_len (λ c, negb (elem_name_end c)) (drop (pos r) (data r)))
    as k eqn:Hk.
  assert (pos r + k ≤ size r) as Hkb.
  { subst k. pose proof (span_len_le (λ c, negb (elem_name_end c))
      (drop (pos r) (data r))) as Hl. rewrite length_drop in Hl.
    unfold size in *. lia. }
  destruct (strip_prefix _ _ _) as [nptr nlen].
  remember (set_node_type TYPE_ELEMENT
    (set_name (Some (slice (data (set_pos (pos r + k) r)) nptr nlen)) nlen
       (set_pos (pos r + k) r))) as r1 eqn:Hr1.
  assert (pos r1 = pos r + k ∧ data r1 = data r ∧ depth r1 = depth r ∧
          name_cache r1 = name_cache r) as (P1 & D1 & De1 & C1) by (by subst r1).
  assert (size r1 = size r) as Z1 by (unfold size; congruence).
  destruct (parse_attrs_advances r1) as (r2 & -> & A2 & P2); [lia|].
  simpl.
  assert (pos r < pos r2) as Hprog.
  { destruct A2. lia. }
  pose proof (advances_size _ _ A2) as Z2.
  assert (pos r2 ≤ size r2) as B2 by (destruct A2; lia).
  destruct (is_empty r2) eqn:Ee.
  - simpl. rewrite Ee. eexists. split; [done|].
    assert (node_type r2 = TYPE_ELEMENT) as Hty.
    { destruct A2. rewrite adv_node_type0. by subst r1. }
    destruct A2. simpl. split_and!; try congruence; try lia.
  - destruct (collapse_peek_advances nptr nlen r2 B2) as [A3 R3].
    remember (collapse_peek nptr nlen r2) as r3 eqn:Hr3.
    simpl. eexists. split; [done|].
    destruct A2, A3.
    assert (node_type r3 = TYPE_ELEMENT) as Hty.
    { rewrite adv_node_type1, adv_node_type0. by subst r1. }
    case_match; simpl; split_and!; try congruence; try lia;
      (left; congruence) || (right; congruence).
Qed.

Lemma skip_comment_total r :
  pos r ≤ size r →
  ∃ p, skip_comment r = Some (set_pos p r) ∧ pos r ≤ p ∧ p ≤ size r ∧
       (p = size r ∨ just_past (data r) "-->" p).
Proof.
  intros Hb. unfold skip_comment.
  destruct (skip_comment_loop_total (size r - pos r) (data r) (pos r))
    as (p & -> & ? & ? & ?); [done|].
  exists p. split_and!; try done. by apply H0.
Qed.

Lemma skip_pi_total r :
  pos r ≤ size r →
  ∃ p, skip_pi r = Some (set_pos p r) ∧ pos r ≤ p ∧ p ≤ size r ∧
       (p = size r ∨ just_past (data r) "?>" p).
Proof.
  intros Hb. unfold skip_pi.
  destruct (skip_pi_loop_total (size r - pos r) (data r) (pos r))
    as (p & -> & ? & ? & ?); [done|].
  exists p. split_and!; try done. by apply H0.
Qed.

Lemma skip_cdata_total r :
  pos r ≤ size r →
  ∃ p, skip_cdata r = Some (set_pos p r) ∧ pos r ≤ p ∧ p ≤ size r ∧
       (p = size r ∨ just_past (data r) "]]>" p).
Proof.
  intros Hb. unfold skip_cdata.
  destruct (skip_cdata_loop_total (size r - pos r) (data r) (pos r))
    as (p & -> & ? & ? & ?); [done|].
  exists p. split_and!; try done. by apply H0.
Qed.

Lemma skip_doctype_bounds r :
  pos r ≤ size r →
  pos r ≤ pos (skip_doctype r) ∧ pos (skip_doctype r) ≤ size r ∧
  (pos (skip_doctype r) = size r ∨
   just_past (data r) ">" (pos (skip_doctype r))).
Proof.
  intros Hb. unfold skip_doctype. simpl.
  pose proof (skip_doctype_loop_bounds (drop (pos r) (data r)) (pos r) 0) as H.
  simpl in H. rewrite length_drop in H.
  remember (skip_doctype_loop _ _ _) as p.
  destruct H as (H1 & H2 & H3). unfold size in *.
  split_and!; [lia..|].
  destruct H3 as [H3|[H3 H4]]; [left; lia|right].
  split; simpl; [lia|].
  rewrite lookup_drop in H4.
  replace (pos r + (p - pos r - 1)) with (p - 1) in H4 by lia.
  by rewrite (slice_cons _ _ _ _ H4).
Qed.

Lemma read_post_again r r1 ok r' :
  data r1 = data r → depth r1 = depth r → name_cache r1 = name_cache r →
  pos r ≤ pos r1 → read_post r1 ok r' → read_post r ok r'.
Proof.
  intros Hd Hde Hc Hp []. unfold size in *. rewrite Hd, Hde in *.
  split; unfold size; try congruence; try lia; try done.
  intros Hok. specialize (rp_progress0 Hok). lia.
Qed.

Lemma read_loop_post fuel r :
  pos r ≤ size r → size r - pos r ≤ fuel →
  ∃ ok r', read_loop fuel r = Some (ok, r') ∧ read_post r ok r'.
Proof.
  revert r. induction fuel as [|fuel IH]; intros r Hb Hf;
    cbn [read_loop]; destruct (at_end r) eqn:E0;
    try (apply at_end_true in E0; exists false, r; split; [done|];
         split; try done; try lia; try (intros; lia); by left).
  { apply at_end_false in E0. lia. }
  apply at_end_false in E0.
  assert (Hagain : ∀ x, data x = data r → depth x = depth r →
    name_cache x = name_cache r → pos r < pos x → pos x ≤ size r →
    ∃ ok r', read_loop fuel x = Some (ok, r') ∧ read_post r ok r').
  { intros x Hd Hde Hc Hp Hs.
    destruct (IH x) as (ok & r' & -> & Hpost).
    - unfold size in *. rewrite Hd. lia.
    - unfold size in *. rewrite Hd. lia.
    - exists ok, r'. split; [done|].
      eapply read_post_again; [..|done]; try done. lia. }
  clear IH.
  destruct (cur r =? "<") eqn:Clt.
  - remember (set_pos (pos r + 1) r) as r1 eqn:Hr1.
    assert (pos r1 = pos r + 1 ∧ data r1 = data r ∧ depth r1 = depth r ∧
            name_cache r1 = name_cache r) as (P1 & D1 & De1 & C1)
      by (by subst r1).
    assert (size r1 = size r) as Z1 by (unfold size; congruence).
    destruct (at_end r1) eqn:E1.
    { apply at_end_true in E1. exists false, r1. split; [done|].
      split; try done; try lia; try (intros; lia). }
    apply at_end_false in E1.
    destruct (cur r1 =? "/") eqn:Cs.
    { exists (read_end_element r1).1, (read_end_element r1).2.
      split; [by destruct (read_end_element r1)|].
      eapply read_post_again; [..|apply read_end_element_post]; try done; lia. }
    case_match eqn:Hcomment.
    { destruct (skip_comment_total (set_pos (pos r1 + 3) r1))
        as (p & -> & Hp1 & Hp2 & _).
      - apply andb_prop in Hcomment as [Hcomment _].
        apply andb_prop in Hcomment as [Hcomment _].
        apply andb_prop in Hcomment as [_ Hcomment%bool_decide_eq_true].
        simpl. unfold size in *. simpl. lia.
      - simpl in *. apply Hagain; simpl; try congruence; try lia.
        unfold size in *; simpl in *. lia. }
    case_match eqn:Hcdata.
    { destruct (skip_cdata_total (set_pos (pos r1 + 8) r1))
        as (p & -> & Hp1 & Hp2 & _).
      - apply andb_prop in Hcdata as [Hcdata _].
        apply andb_prop in Hcdata as [_ Hcdata%bool_decide_eq_true].
        simpl. unfold size in *. simpl. lia.
      - simpl in *. apply Hagain; simpl; try congruence; try lia.
        unfold size in *; simpl in *. lia. }
    case_match eqn:Hdoctype.
    { apply andb_prop in Hdoctype as [Hdoctype _].
      apply andb_prop in Hdoctype as [_ Hdoctype%bool_decide_eq_true].
      destruct (skip_doctype_bounds (set_pos (pos r1 + 8) r1))
        as (Hp1 & Hp2 & _).
      { simpl. unfold size in *. simpl. lia. }
      change (pos (set_pos (pos r1 + 8) r1)) with (pos r1 + 8) in Hp1.
      change (size (set_pos (pos r1 + 8) r1)) with (size r1) in Hp2.
      apply Hagain; try (simpl; congruence); lia. }
    destruct (cur r1 =? "?") eqn:Cq.
    { destruct (skip_pi_total (set_pos (pos r1 + 1) r1))
        as (p & -> & Hp1 & Hp2 & _).
      - simpl. unfold size in *. simpl. lia.
      - simpl in *. apply Hagain; simpl; try congruence; try lia.
        unfold size in *; simpl in *. lia. }
    destruct (read_start_element_post r1 E1)
      as (r' & -> & Hd & Hc & Hp & Hs & Hty & Hrep & Hdep).
    simpl. exists true, r'. split; [done|].
    split; try congruence; try lia.
    + destruct Hdep as [Hdep|Hdep]; [left; congruence|].
      right; right. split; [congruence|lia].
    + unfold TYPE_ELEMENT, TYPE_END_ELEMENT in *. intros _ Hx. congruence.
  - remember (default (size r) (memchr (data r) (pos r) "<" (size r - pos r)))
      as te eqn:Hte.
    assert (pos r < te ∧ te ≤ size r) as [T1 T2].
    { destruct (memchr _ _ _ _) as [lt|] eqn:M; simpl in Hte; subst te;
        [|lia].
      apply memchr_Some in M as (M1 & M2 & M3 & M4).
      unfold size. split; [|lia].
      destruct (decide (lt = pos r)) as [->|]; [|lia].
      unfold cur in Clt. rewrite M4 in Clt. done. }
    simpl. case_match eqn:Hblank.
    + apply Hagain; simpl; try done.
    + eexists true, _. split; [done|].
      split; simpl; try done; try lia.
Qed.

Lemma read_internal_post r :
  pos r ≤ size r →
  ∃ ok r', reader_read_internal r = Some (ok, r') ∧ read_post r ok r'.
Proof.
  intros Hb. unfold reader_read_internal. cbn zeta.
  destruct (read_loop_post
    (size (set_attr_count 0 (set_text None 0 false (set_decoded_text Qnil r)))
     - pos (set_attr_count 0 (set_text None 0 false (set_decoded_text Qnil r))))
    (set_attr_count 0 (set_text None 0 false (set_decoded_text Qnil r))))
    as (ok & r' & Hr & Hp); [done..|].
  exists ok, r'. split; [done|].
  eapply read_post_again; [..|done]; done.
Qed.

Lemma read_internal_eof r :
  size r ≤ pos r →
  ∃ r', reader_read_internal r = Some (false, r') ∧
        pos r' = pos r ∧ data r' = data r.
Proof.
  intros Hb. unfold reader_read_internal. cbn zeta.
  destruct (size _ - pos _); cbn [read_loop];
    rewrite (proj2 (at_end_true _)) by exact Hb; by eexists.
Qed.

Lemma read_internal_total r :
  ∃ ok r', reader_read_internal r = Some (ok, r') ∧ data r' = data r ∧
           (ok = false → size r' ≤ pos r') ∧
           (ok = true → pos r < pos r' ∧ pos r' ≤ size r').
Proof.
  destruct (decide (pos r ≤ size r)) as [Hb|Hb].
  - destruct (read_internal_post r Hb) as (ok & r' & Hr & []).
    exists ok, r'. unfold size in *. rewrite rp_data0.
    split_and!; try done.
    + intros Hok. destruct (rp_eof0 Hok). lia.
    + intros Hok. specialize (rp_progress0 Hok). lia.
  - destruct (read_internal_eof r) as (r' & Hr & Hp & Hd); [lia|].
    exists false, r'. unfold size in *. rewrite Hd.
    split_and!; try done. lia.
Qed.

Lemma nth_read_eof r :
  size r ≤ pos r → ∀ m, ∃ r', nth_read m r = Some (false, r').
Proof.
  intros Hb m. revert r Hb. induction m as [|m IH]; intros r Hb; simpl.
  - destruct (read_internal_eof r Hb) as (r' & -> & _). by eexists.
  - destruct (read_internal_eof r Hb) as (r' & -> & Hp & Hd). simpl.
    apply IH. unfold size in *. rewrite Hp, Hd. done.
Qed.

Lemma nth_read_eventually k r :
  size r - pos r ≤ k →
  ∃ n, n ≤ size r - pos r ∧ ∀ m, n ≤ m → ∃ r', nth_read m r = Some (false, r').
Proof.
  revert r. induction k as [|k IH]; intros r Hk.
  - exists 0. split; [lia|]. intros m _. apply nth_read_eof. lia.
  - destruct (read_internal_total r) as ([] & r' & Hr & Hd & Hf & Ht).
    + destruct (Ht eq_refl) as [Hp Hs].
      assert (size r' = size r) as Hz by (unfold size; congruence).
      destruct (IH r') as (n & Hn & Hm); [lia|].
      exists (S n). split; [lia|].
      intros [|m] Hle; [lia|]. simpl. rewrite Hr. simpl. apply Hm. lia.
    + exists 0. split; [lia|]. intros [|m] _; simpl; rewrite Hr; [by eexists|].
      simpl. apply nth_read_eof. by apply Hf.
Qed.

(** Decoding *)

Lemma length_slice_le d s n : length (slice d s n) ≤ n.
Proof. rewrite length_slice. lia. Qed.

Lemma length_utf8_encode cp : length (utf8_encode cp) ≤ 4.
Proof. unfold utf8_encode. repeat case_match; simpl; lia. Qed.

Lemma length_decode_one cs ub src amp semi :
  amp ≤ semi → length (decode_one cs ub src amp semi) ≤ semi - amp + 1.
Proof.
  intros H. unfold decode_one. cbn zeta.
  repeat (case_match; try (simpl; lia)); try apply length_slice_le.
  all: etrans; [apply length_utf8_encode|].
  all: match goal with
       | Hn : bool_decide (1 < _) && _ = true |- _ =>
           apply andb_prop in Hn as [Hn%bool_decide_eq_true _]; lia
       end.
Qed.

Lemma decode_loop_length cs ub fuel src p buf :
  length src - p ≤ fuel →
  ∃ out, decode_loop cs ub fuel src p buf = Some out ∧
         length out ≤ length buf + (length src - p).
Proof.
  revert p buf. induction fuel as [|fuel IH]; intros p buf Hf;
    cbn [decode_loop]; case_bool_decide as Hp; try lia;
    try (eexists; split; [done|lia]).
  destruct (memchr src p "&" _) as [amp|] eqn:Ma.
  2:{ eexists; split; [done|]. rewrite length_app.
      pose proof (length_slice_le src p (length src - p)). lia. }
  apply memchr_Some in Ma as (A1 & A2 & A3 & _).
  set (buf1 := if bool_decide (p < amp) then buf ++ slice src p (amp - p) else buf).
  assert (length buf1 ≤ length buf + (amp - p)) as Hb1.
  { subst buf1. case_bool_decide; [|lia]. rewrite length_app.
    pose proof (length_slice_le src p (amp - p)). lia. }
  destruct (memchr src amp ";" _) as [semi|] eqn:Ms.
  - apply memchr_Some in Ms as (S1 & S2 & S3 & _).
    destruct (IH (semi + 1) (buf1 ++ decode_one cs ub src amp semi))
      as (out & -> & Hout); [lia|].
    eexists; split; [done|]. rewrite length_app in Hout.
    pose proof (length_decode_one cs ub src amp semi S1). lia.
  - destruct (IH (amp + 1) (buf1 ++ slice src amp 1)) as (out & -> & Hout);
      [lia|].
    eexists; split; [done|]. rewrite length_app in Hout.
    pose proof (length_slice_le src amp 1). lia.
Qed.

Lemma decode_entities_length cs ub src :
  ∃ out, decode_entities cs ub src = Some (RString out) ∧
         length out ≤ length src.
Proof.
  unfold decode_entities. destruct (memchr src 0 "&" _).
  - destruct (decode_loop_length cs ub (length src) src 0 [])
      as (out & -> & Hout); [lia|].
    exists out. split; [done|]. simpl in Hout. lia.
  - by exists src.
Qed.

(** Interning *)

Lemma intern_probe_correct left i idx cache bytes :
  cache_wf cache →
  (intern_probe left i idx cache bytes).1 = RString bytes ∧
  cache_wf (intern_probe left i idx cache bytes).2.
Proof.
  intros Hwf. revert i. induction left as [|left IH]; intros i; simpl; [done|].
  set (slot := Z.to_nat _).
  destruct (cache !! slot) as [e|] eqn:Hl; simpl.
  - destruct (ce_ptr e) as [buf|] eqn:Hp.
    + case_match eqn:Hhit; simpl; [|apply IH].
      split; [|done].
      apply andb_prop in Hhit as [H1%bool_decide_eq_true H2%bool_decide_eq_true].
      unfold cache_wf in Hwf. rewrite Forall_lookup in Hwf.
      destruct (Hwf _ _ Hl buf Hp) as [Hlen ->].
      rewrite <- H1, Hlen, firstn_all in H2. by rewrite H2.
    + simpl. split; [done|]. apply Forall_insert; [done|].
      intros buf [= <-]. done.
  - split; [done|]. by rewrite list_insert_ge by (by apply lookup_ge_None).
Qed.

Lemma cache_wf_empty : cache_wf (replicate NAME_CACHE_SIZE empty_entry).
Proof. apply Forall_replicate. by intros buf. Qed.

Lemma intern_name_correct r ptr len :
  cache_wf (name_cache r) →
  (intern_name r ptr len).1 = RString (take len ptr) ∧
  cache_wf (name_cache (intern_name r ptr len).2).
Proof.
  intros Hwf. unfold intern_name.
  pose proof (intern_probe_correct 8 0
    (Z.land (fnv1a (take len ptr)) NAME_CACHE_MASK) (name_cache r)
    (take len ptr) Hwf) as [H1 H2].
  by destruct (intern_probe _ _ _ _ _).
Qed.

Lemma take_slice d s n m : m ≤ n → take m (slice d s n) = slice d s m.
Proof. intros H. unfold slice. rewrite take_take. f_equal. lia. Qed.

Lemma slice_full_length d s n : s + n ≤ length d → length (slice d s n) = n.
Proof. intros H. rewrite length_slice. lia. Qed.

Lemma take_slice_self d s n : take n (slice d s n) = slice d s n.
Proof. by apply take_slice. Qed.

Lemma is_xmlns_spec d s n :
  s + n ≤ length d →
  is_xmlns d s n = true ↔ xmlns_name (slice d s n).
Proof.
  intros Hb. unfold is_xmlns, xmlns_name, memcmp_lit. split.
  - intros H. apply andb_prop in H as [H H3]. apply andb_prop in H as [H1 H2].
    apply bool_decide_eq_true in H1, H2. simpl in H2.
    apply orb_prop in H3 as [H3%bool_decide_eq_true|H3%eqb_char_true].
    + left. by subst n.
    + destruct (decide (n = 5)) as [->|Hn]; [by left|right].
      exists (slice d (s + 6) (n - 6)).
      unfold slice in *.
      rewrite <- (take_drop 5 (take n (drop s d))).
      rewrite take_take, Nat.min_l by lia. rewrite H2.
      rewrite skipn_firstn_comm, drop_drop.
      erewrite (drop_S _ _ (s + 5)) by (apply lookup_byte_at; lia).
      rewrite H3. replace (n - 5) with (S (n - 6)) by lia. simpl.
      by replace (S (s + 5)) with (s + 6) by lia.
  - intros [H|[k H]].
    + assert (n = 5) as -> by (by rewrite <- (slice_full_length d s n), H).
      rewrite H. by rewrite !bool_decide_eq_true_2.
    + assert (6 ≤ n) as Hn.
      { rewrite <- (slice_full_length d s n) by done. rewrite H.
        rewrite length_app. simpl. lia. }
      rewrite bool_decide_eq_true_2 by lia.
      assert (slice d s 5 = take 5 (bytes "xmlns")) as ->.
      { rewrite <- (take_slice d s n 5) by lia. by rewrite H. }
      rewrite bool_decide_eq_true_2 by done.
      assert (byte_at d (s + 5) = ":") as ->; [|by rewrite orb_true_r].
      apply byte_at_lookup.
      assert (slice d s n !! 5 = Some ":"%char) as Hl by (by rewrite H).
      by apply slice_lookup_Some in Hl as [_ Hl].
Qed.

Lemma reported_push a r :
  let r' := push_attr a r in
  reported r' = reported r ∨ reported r' = reported r ++ [a].
Proof.
  unfold push_attr, reported. case_bool_decide; simpl; [|by left].
  destruct (decide (attr_count r < length (attrs r))) as [Hl|Hl].
  - right. replace (attr_count r + 1) with (S (attr_count r)) by lia.
    erewrite take_S_r by (by apply list_lookup_insert_eq).
    by rewrite take_insert_ge by lia.
  - left. rewrite list_insert_ge by lia. by rewrite !take_ge by lia.
Qed.

Lemma parse_attrs_loop_no_xmlns fuel r r' :
  parse_attrs_loop fuel r = Some r' →
  Forall no_xmlns (reported r) → Forall no_xmlns (reported r').
Proof.
  revert r. induction fuel as [|fuel IH]; intros r; cbn [parse_attrs_loop];
    case_bool_decide as Hlt; try done; try by intros [= <-].
  remember (skip_spaces r) as r1 eqn:Hr1.
  destruct (at_end r1) eqn:E1; [intros [= <-] HF; subst; exact HF|].
  destruct (cur r1 =? ">"); [intros [= <-] HF; subst; exact HF|].
  destruct (cur r1 =? "/").
  { simpl. case_match; intros [= <-] HF; subst; exact HF. }
  remember (span_len (λ c, negb (attr_name_end c)) (drop (pos r1) (data r1)))
    as k eqn:Hk.
  assert (pos r1 + k ≤ size r1) as Hkb.
  { subst k. pose proof (span_len_le (λ c, negb (attr_name_end c))
      (drop (pos r1) (data r1))) as Hs. rewrite length_drop in Hs.
    apply at_end_false in E1. unfold size in *. lia. }
  remember (skip_spaces (set_pos (pos r1 + k) r1)) as r4 eqn:Hr4.
  destruct (at_end r4 || negb (cur r4 =? "=")).
  { intros H HF. apply (IH _ H). subst. exact HF. }
  remember (skip_spaces (set_pos (pos r4 + 1) r4)) as r5 eqn:Hr5.
  destruct (at_end r5); [intros [= <-] HF; subst; exact HF|].
  destruct (negb (cur r5 =? "034") && negb (cur r5 =? "'")).
  { intros H HF. apply (IH _ H). subst. exact HF. }
  cbn zeta.
  destruct (memchr _ _ _ _) as [ve|]; [|intros [= <-] HF; subst; exact HF].
  change (pos (set_pos (pos r1 + k) r1)) with (pos r1 + k).
  change (data (set_pos (ve + 1) (set_pos (pos r5 + 1) r5))) with (data r5).
  assert (data r5 = data r1) as D5 by (by subst r5 r4).
  rewrite D5. replace (pos r1 + k - pos r1) with k by lia.
  destruct (is_xmlns (data r1) (pos r1) k) eqn:Hx.
  { intros H HF. apply (IH _ H). subst. exact HF. }
  intros H HF. apply (IH _ H).
  assert (Forall no_xmlns (reported (set_pos (ve + 1) (set_pos (pos r5 + 1) r5))))
    as HF' by (subst; exact HF).
  match goal with |- Forall _ (reported (push_attr ?a ?x)) =>
    destruct (reported_push a x) as [-> | ->]; [done|]
  end.
  apply Forall_app. split; [done|]. apply Forall_singleton.
  unfold no_xmlns, attr_name. simpl. rewrite take_slice_self.
  rewrite <- is_xmlns_spec by (unfold size in *; lia).
  by rewrite Hx.
Qed.

Lemma read_loop_result fuel r p ok r' :
  pos r ≤ p →
  read_loop fuel (set_pos p r) = Some (ok, r') → read_result r ok r'.
Proof.
  revert p. induction fuel as [|fuel IH]; intros p Hp; cbn [read_loop];
    destruct (at_end (set_pos p r)) eqn:E0;
    try (intros [= <- <-]; apply rr_eof); try done.
  apply at_end_false in E0.
  change (pos (set_pos p r)) with p in *.
  change (size (set_pos p r)) with (size r) in *.
  change (data (set_pos p r)) with (data r) in *.
  change (cur (set_pos p r)) with (byte_at (data r) p).
  destruct (byte_at (data r) p =? "<") eqn:Clt.
  - apply eqb_char_true in Clt.
    change (set_pos (p + 1) (set_pos p r)) with (set_pos (p + 1) r).
    destruct (at_end (set_pos (p + 1) r)) eqn:E1;
      [intros [= <- <-]; apply rr_eof|].
    apply at_end_false in E1.
    change (pos (set_pos (p + 1) r)) with (p + 1) in *.
    change (size (set_pos (p + 1) r)) with (size r) in *.
    change (data (set_pos (p + 1) r)) with (data r) in *.
    change (cur (set_pos (p + 1) r)) with (byte_at (data r) (p + 1)).
    destruct (byte_at (data r) (p + 1) =? "/") eqn:Cs.
    { intros [= Hr]. apply eqb_char_true in Cs.
      pose proof (rr_end r p Hp E1 Clt Cs) as Hres. rewrite Hr in Hres. done. }
    case_match eqn:Hcomment.
    { apply andb_prop in Hcomment as [Hcomment _].
      apply andb_prop in Hcomment as [Hcomment _].
      apply andb_prop in Hcomment as [_ Hcomment%bool_decide_eq_true].
      destruct (skip_comment_total
                  (set_pos (p + 1 + 3) (set_pos (p + 1) r)))
        as (q & -> & Hq & _); [simpl; unfold size in *; simpl; lia|].
      simpl. apply IH. simpl in Hq. lia. }
    case_match eqn:Hcdata.
    { apply andb_prop in Hcdata as [Hcdata _].
      apply andb_prop in Hcdata as [_ Hcdata%bool_decide_eq_true].
      destruct (skip_cdata_total
                  (set_pos (p + 1 + 8) (set_pos (p + 1) r)))
        as (q & -> & Hq & _); [simpl; unfold size in *; simpl; lia|].
      simpl. apply IH. simpl in Hq. lia. }
    case_match eqn:Hdoctype.
    { apply andb_prop in Hdoctype as [Hdoctype _].
      apply andb_prop in Hdoctype as [_ Hdoctype%bool_decide_eq_true].
      destruct (skip_doctype_bounds
                  (set_pos (p + 1 + 8) (set_pos (p + 1) r)))
        as (Hq & _).
      { simpl. unfold size in *. simpl. lia. }
      apply IH. unfold skip_doctype in *. simpl in *. lia. }
    case_match.
    { destruct (skip_pi_total
                  (set_pos (p + 1 + 1) (set_pos (p + 1) r)))
        as (q & -> & Hq & _); [simpl; unfold size in *; simpl; lia|].
      simpl. apply IH. simpl in Hq. lia. }
    destruct (read_start_element _) as [r2|] eqn:Hs; simpl; [|done].
    intros [= <- <-]. by eapply rr_start.
  - remember (default (size r) (memchr (data r) p "<" (size r - p)))
      as te eqn:Hte.
    change (set_pos te (set_pos p r)) with (set_pos te r).
    change (data (set_pos te r)) with (data r).
    cbn zeta.
    assert (p < te ∧ te ≤ size r) as [T1 T2].
    { destruct (memchr (data r) p "<" (size r - p)) as [lt|] eqn:M;
        simpl in Hte; subst te; [|lia].
      apply memchr_Some in M as (M1 & M2 & M3 & M4).
      unfold size. split; [|lia].
      destruct (decide (lt = p)) as [->|]; [|lia].
      rewrite M4 in Clt. done. }
    destruct (is_blank (data r) p (te - p)) eqn:Hb; [apply IH; lia|].
    clear IH. intros [= <- <-].
    by apply (rr_text r p te).
Qed.

Lemma read_internal_result r ok r' :
  reader_read_internal r = Some (ok, r') →
  read_result (set_attr_count 0 (set_text None 0 false (set_decoded_text Qnil r)))
    ok r'.
Proof.
  unfold reader_read_internal. cbn zeta. intros H.
  eapply (read_loop_result _ _ (pos r)); [done|]. exact H.
Qed.

Lemma strip_prefix_local d s n :
  slice d (strip_prefix d s n).1 (strip_prefix d s n).2
  = local_part (slice d s n).
Proof.
  unfold strip_prefix, local_part, memchr.
  destruct (list_find _ (slice d s n)) as [[i x]|] eqn:E; simpl; [|done].
  apply list_find_Some in E as (Hl & _ & _).
  apply slice_lookup_Some in Hl as [Hi _].
  unfold slice. rewrite skipn_firstn_comm, drop_drop.
  f_equal; [lia|]. f_equal. lia.
Qed.

Lemma rtrim_snoc l c :
  rtrim (l ++ [c]) = if (uchar c <=? 32)%Z then rtrim l else l ++ [c].
Proof.
  induction l as [|x l IH]; simpl; [by case_match|].
  rewrite IH. case_match eqn:Hc; [done|].
  destruct (l ++ [c]) eqn:E; [|done]. by destruct l.
Qed.

Lemma slice_snoc d p m :
  p + m < length d → slice d p (S m) = slice d p m ++ [byte_at d (p + m)].
Proof.
  intros H. unfold slice.
  erewrite take_S_r; [done|].
  rewrite lookup_drop. by apply lookup_byte_at.
Qed.

Lemma trim_trailing_rtrim d p m :
  p + m ≤ length d → slice d p (trim_trailing d p m) = rtrim (slice d p m).
Proof.
  induction m as [|m IH]; intros H; [done|].
  rewrite slice_snoc by lia. rewrite rtrim_snoc. simpl.
  case_match; [apply IH; lia|]. by rewrite slice_snoc by lia.
Qed.

Lemma colons_cons c l :
  colons (c :: l) = if decide (c = ":") then S (colons l) else colons l.
Proof. unfold colons. rewrite filter_cons. by case_decide. Qed.

Lemma colons_zero l : colons l = 0 ↔ ":"%char ∉ l.
Proof.
  induction l as [|c l IH];
    [split; [intros _; apply not_elem_of_nil|done]|].
  rewrite colons_cons, not_elem_of_cons. case_decide as Hc.
  - split; [lia|]. intros [? _]. congruence.
  - rewrite IH. split; [|tauto]. split; [congruence|done].
Qed.

Lemma local_part_colons nm : colons nm ≤ 1 ↔ ":"%char ∉ local_part nm.
Proof.
  unfold local_part.
  induction nm as [|c nm IH];
    [split; [intros _; apply not_elem_of_nil|simpl; unfold colons; simpl; lia]|].
  rewrite colons_cons. cbn [list_find]. case_decide as Hc.
  - simpl. rewrite drop_0, <- colons_zero. lia.
  - destruct (list_find _ nm) as [[i x]|] eqn:E; simpl.
    + simpl in IH. done.
    + simpl in IH. rewrite IH, not_elem_of_cons. split; [|tauto].
      split; [congruence|done].
Qed.

Lemma rtrim_colon l : ":"%char ∈ rtrim l ↔ ":"%char ∈ l.
Proof.
  induction l as [|c l IH]; simpl; [done|].
  rewrite elem_of_cons, <- IH.
  destruct (rtrim l) eqn:E.
  - case_match eqn:Hc.
    + rewrite elem_of_nil. split; [done|]. intros [<-|[]]. done.
    + rewrite list_elem_of_singleton, elem_of_nil. tauto.
  - by rewrite elem_of_cons.
Qed.

Lemma name_bytes_advances r r' :
  advances r r' → name_bytes r' = name_bytes r.
Proof. intros []. unfold name_bytes. congruence. Qed.

Lemma read_end_element_name r p :
  p + 1 < size r →
  (read_end_element (set_pos (p + 1) r)).1 = true →
  let r' := (read_end_element (set_pos (p + 1) r)).2 in
  node_type r' = TYPE_END_ELEMENT ∧
  name_bytes r' = Some (rtrim (local_part (end_tag_name (data r) p))) ∧
  name_len r' = length (rtrim (local_part (end_tag_name (data r) p))) ∧
  p + 2 ≤ pos r'.
Proof.
  intros Hb. unfold read_end_element, end_tag_name. cbn zeta.
  change (pos (set_pos (pos (set_pos (p + 1) r) + 1) (set_pos (p + 1) r)))
    with (p + 1 + 1).
  change (size (set_pos (pos (set_pos (p + 1) r) + 1) (set_pos (p + 1) r)))
    with (length (data r)).
  change (data (set_pos (pos (set_pos (p + 1) r) + 1) (set_pos (p + 1) r)))
    with (data r).
  replace (p + 1 + 1) with (p + 2) by lia.
  destruct (memchr (data r) (p + 2) ">" _) as [gt|] eqn:M; [|done].
  apply memchr_Some in M as (M1 & M2 & M3 & _).
  change (data (set_pos (gt + 1) _)) with (data r).
  pose proof (strip_prefix_local (data r) (p + 2) (gt - (p + 2))) as Hl.
  pose proof (strip_prefix_bounds (data r) (p + 2) (gt - (p + 2))) as Hsb.
  destruct (strip_prefix _ _ _) as [nptr len0]. simpl in Hl. intros _.
  assert (nptr + len0 ≤ length (data r)) as Hin by lia.
  pose proof (trim_trailing_rtrim (data r) nptr len0 Hin) as Ht.
  pose proof (trim_trailing_le (data r) nptr len0) as Hle.
  rewrite Hl in Ht.
  case_bool_decide; simpl; unfold name_bytes; simpl;
    rewrite take_slice_self, Ht; (split_and!; [done..| |lia]);
    rewrite <- Ht; rewrite slice_full_length; lia.
Qed.

Lemma read_start_element_name r p r' :
  p + 1 < size r →
  read_start_element (set_pos (p + 1) r) = Some r' →
  node_type r' = TYPE_ELEMENT ∧
  name_bytes r' = Some (local_part (start_tag_name (data r) p)) ∧
  name_len r' = length (local_part (start_tag_name (data r) p)) ∧
  p + 1 < pos r'.
Proof.
  intros Hb. unfold read_start_element, start_tag_name. cbn zeta.
  change (pos (set_pos (p + 1) r)) with (p + 1).
  change (data (set_pos (p + 1) r)) with (data r).
  change (pos (set_pos (p + 1 + ?k) _)) with (p + 1 + k).
  change (data (set_pos (p + 1 + ?k) _)) with (data r).
  remember (span_len (λ c, negb (elem_name_end c)) (drop (p + 1) (data r)))
    as k eqn:Hk.
  assert (p + 1 + k ≤ length (data r)) as Hkb.
  { subst k. pose proof (span_len_le (λ c, negb (elem_name_end c))
      (drop (p + 1) (data r))) as Hl. rewrite length_drop in Hl.
    unfold size in *. lia. }
  replace (p + 1 + k - (p + 1)) with k by lia.
  pose proof (strip_prefix_local (data r) (p + 1) k) as Hl.
  pose proof (strip_prefix_bounds (data r) (p + 1) k) as Hsb.
  destruct (strip_prefix _ _ _) as [nptr nlen]. simpl in Hl.
  remember (set_node_type TYPE_ELEMENT
    (set_name (Some (slice (data r) nptr nlen)) nlen
       (set_pos (p + 1 + k) (set_pos (p + 1) r)))) as r1 eqn:Hr1.
  assert (pos r1 = p + 1 + k ∧ data r1 = data r ∧
          node_type r1 = TYPE_ELEMENT ∧ name_len r1 = nlen ∧
          name_bytes r1 = Some (local_part (slice (data r) (p + 1) k)))
    as (P1 & D1 & T1 & L1 & N1).
  { subst r1. split_and!; try done. unfold name_bytes. simpl.
    by rewrite take_slice_self, Hl. }
  assert (nlen = length (local_part (slice (data r) (p + 1) k))) as Hlen.
  { rewrite <- Hl. rewrite slice_full_length; lia. }
  assert (pos r1 ≤ size r1) as B1 by (unfold size; rewrite D1, P1; lia).
  destruct (parse_attrs_advances r1 B1) as (r2 & Hpa & A2 & P2).
  rewrite Hpa. simpl.
  assert (pos r2 ≤ size r2) as B2.
  { rewrite (advances_size _ _ A2). by destruct A2. }
  assert (p + 1 < pos r2) as Hprog.
  { destruct (decide (k = 0)) as [Hk0|Hk0]; [|destruct A2; lia].
    assert (pos r1 < size r1) as Hx by (unfold size in *; rewrite D1, P1; lia).
    specialize (P2 Hx). lia. }
  destruct (collapse_peek_advances nptr nlen r2 B2) as [A3 _].
  pose proof (advances_trans _ _ _ A2 A3) as A23.
  intros [= <-].
  destruct (is_empty r2) eqn:Ee; simpl; rewrite ?Ee; simpl.
  - unfold name_bytes; simpl.
    destruct A2. rewrite adv_node_type0, adv_name_len0, adv_name_ptr0.
    split_and!; try done; try lia; congruence.
  - pose proof (adv_le _ _ A3) as L3. destruct A23.
    case_match; unfold name_bytes; simpl;
      rewrite adv_node_type0, adv_name_len0, adv_name_ptr0;
      (split_and!; try done; try lia; try congruence).
Qed.

Lemma reader_name_fields r :
  let r' := (reader_name r).2 in
  data r' = data r ∧ pos r' = pos r ∧ depth r' = depth r ∧
  (cache_wf (name_cache r) → cache_wf (name_cache r')).
Proof.
  unfold reader_name. destruct (name_ptr r) as [p|]; [|done].
  case_bool_decide as Hz; [done|].
  pose proof (intern_name_correct r p (name_len r)) as Hi.
  unfold intern_name in *. destruct (intern_probe _ _ _ _ _). simpl in *.
  split_and!; try done. intros Hwf. by apply Hi.
Qed.

Lemma reader_value_fields cs ub r v r' :
  reader_value cs ub r = Some (v, r') →
  data r' = data r ∧ pos r' = pos r ∧ depth r' = depth r ∧
  name_cache r' = name_cache r.
Proof.
  unfold reader_value. intros H.
  repeat case_match; simplify_option_eq; done.
Qed.

(** [wrap_int] leaves an [int] as it is, yields an [int], and never
    yields more than what it is given unless that is below [INT_MIN]. *)
Lemma wrap_int_id z : (INT_MIN ≤ z ≤ INT_MAX)%Z → wrap_int z = z.
Proof.
  unfold wrap_int, INT_MIN, INT_MAX. intros H. rewrite Z.mod_small; lia.
Qed.

Lemma wrap_int_range z : (INT_MIN ≤ wrap_int z ≤ INT_MAX)%Z.
Proof.
  unfold wrap_int, INT_MIN, INT_MAX.
  pose proof (Z.mod_pos_bound (z + 2 ^ 31) (2 ^ 32)). lia.
Qed.

Lemma wrap_int_le z : (INT_MIN ≤ z)%Z → (wrap_int z ≤ z)%Z.
Proof.
  unfold wrap_int, INT_MIN. intros H.
  pose proof (Z.mod_le (z + 2 ^ 31) (2 ^ 32)). lia.
Qed.

(** Every state of a reader keeps the cursor inside the buffer, the
    depth counter in the range of [int] and at most half the cursor, and
    the name cache well formed. *)
Lemma reachable_inv r :
  reachable r →
  pos r ≤ size r ∧ (INT_MIN ≤ depth r ≤ INT_MAX)%Z ∧
  (2 * depth r ≤ Z.of_nat (pos r))%Z ∧ cache_wf (name_cache r).
Proof.
  induction 1 as [doc|r ok r' _ (Hb & Hd & Hd2 & Hc) Hr
                 |r _ (Hb & Hd & Hd2 & Hc)
                 |cs ub r v r' _ (Hb & Hd & Hd2 & Hc) Hr].
  - simpl. unfold INT_MIN, INT_MAX. split_and!; try lia. apply cache_wf_empty.
  - destruct (read_internal_post r Hb) as (ok' & r'' & Hr' & []).
    rewrite Hr in Hr'. simplify_eq. unfold size in *. rewrite rp_data0.
    pose proof (wrap_int_range (depth r + 1)) as Hw.
    pose proof (wrap_int_le (depth r + 1)) as Hl.
    unfold INT_MIN, INT_MAX in *.
    split_and!; [lia|lia|lia|lia|congruence].
  - destruct (reader_name_fields r) as (H1 & H2 & H3 & H4).
    unfold size. rewrite H1, H2, H3. split_and!; try done; try lia.
    by apply H4.
  - destruct (reader_value_fields _ _ _ _ _ Hr) as (H1 & H2 & H3 & H4).
    unfold size. rewrite H1, H2, H3, H4. done.
Qed.

(** On a buffer of less than [2^32] bytes the counter stays below the
    limit of [int], and so is never negative. *)
Lemma reachable_depth r :
  reachable r → (Z.of_nat (size r) < 2 ^ 32)%Z → (0 ≤ depth r)%Z.
Proof.
  induction 1 as [doc|r ok r' Hre IH Hr|r Hre IH|cs ub r v r' Hre IH Hr];
    intros Hs.
  - simpl. lia.
  - destruct (reachable_inv r Hre) as (Hb & Hd & Hd2 & _).
    destruct (read_internal_post r Hb) as (ok' & r'' & Hr' & []).
    rewrite Hr in Hr'. simplify_eq. unfold size in *. rewrite rp_data0 in Hs.
    specialize (IH Hs).
    destruct rp_depth0 as [->|[[Hpos ->]|[-> Hp]]]; [done|lia|].
    rewrite wrap_int_id; unfold INT_MIN, INT_MAX in *; lia.
  - destruct (reader_name_fields r) as (H1 & H2 & H3 & H4).
    unfold size in *. rewrite H3. apply IH. by rewrite <- H1.
  - destruct (reader_value_fields _ _ _ _ _ Hr) as (H1 & H2 & H3 & H4).
    unfold size in *. rewrite H3. apply IH. by rewrite <- H1.
Qed.

(** * Attributes and names *)

Lemma read_end_element_reported x :
  reported (read_end_element x).2 = reported x.
Proof.
  unfold read_end_element. cbn zeta.
  destruct (memchr _ _ _ _); [|done].
  destruct (strip_prefix _ _ _). by case_bool_decide.
Qed.

Lemma collapse_peek_reported nptr nlen x :
  reported (collapse_peek nptr nlen x) = reported x.
Proof.
  unfold collapse_peek. cbn zeta. case_match; [|done].
  destruct (memchr _ _ _ _); [|done].
  destruct (strip_prefix _ _ _). by case_match.
Qed.

Lemma read_start_element_no_xmlns x r' :
  read_start_element x = Some r' → Forall no_xmlns (reported r').
Proof.
  unfold read_start_element. cbn zeta.
  destruct (strip_prefix _ _ _) as [nptr nlen].
  unfold parse_attrs. cbn zeta.
  destruct (parse_attrs_loop _ _) as [r2|] eqn:Hp; simpl; [|done].
  apply parse_attrs_loop_no_xmlns in Hp; [|by constructor].
  intros [= <-].
  destruct (is_empty r2) eqn:Ee; simpl; rewrite ?Ee; [done|].
  case_match;
    change (Forall no_xmlns (reported (collapse_peek nptr nlen r2)));
    by rewrite collapse_peek_reported.
Qed.

Lemma read_internal_no_xmlns r ok r' :
  reader_read_internal r = Some (ok, r') → Forall no_xmlns (reported r').
Proof.
  intros H%read_internal_result.
  inversion H as [p|p ? ? ? ? Hok|p r2 ? ? ? Hs|p te]; subst.
  - unfold reported; simpl; rewrite take_0; constructor.
  - rewrite read_end_element_reported. unfold reported; simpl; rewrite take_0; constructor.
  - by eapply read_start_element_no_xmlns.
  - unfold reported; simpl; rewrite take_0; constructor.
Qed.

Lemma slice_middle (pre nm post : list ascii) :
  slice (pre ++ nm ++ post) (length pre) (length nm) = nm.
Proof. unfold slice. by rewrite drop_app_length, take_app_length. Qed.

Lemma reader_name_bytes r nm :
  cache_wf (name_cache r) →
  name_bytes r = Some nm → name_len r = length nm →
  (reader_name r).1 = if decide (nm = []) then Qnil else RString nm.
Proof.
  intros Hwf Hn Hl. unfold reader_name, name_bytes in *.
  destruct (name_ptr r) as [p|]; simplify_eq/=.
  case_bool_decide as Hz.
  - rewrite decide_True; [done|]. apply nil_length_inv. lia.
  - rewrite decide_False by (intros E; rewrite E in Hl; done).
    by apply intern_name_correct.
Qed.

Lemma local_part_has_colon nm :
  ":"%char ∈ local_part nm ↔ 2 ≤ colons nm.
Proof.
  pose proof (local_part_colons nm) as Hc.
  destruct (decide (":"%char ∈ local_part nm)) as [Hin|Hin].
  - split; [|done]. intros _.
    destruct (decide (colons nm ≤ 1)) as [Hle|]; [|lia].
    by apply Hc in Hle.
  - split; [done|]. intros H2. apply Hc in Hin. lia.
Qed.

Lemma read_result_name r ok r' :
  read_result r ok r' → ok = true → cache_wf (name_cache r') →
  ∃ nm : list ascii,
    (reader_name r').1 = (if decide (nm = []) then Qnil else RString nm) ∧
    ((node_type r' = TYPE_TEXT ∧ nm = []) ∨
     ∃ p, pos r ≤ p ∧ p < pos r' ∧ byte_at (data r) p = "<" ∧
       ((node_type r' = TYPE_ELEMENT ∧
         nm = local_part (start_tag_name (data r) p) ∧
         (":" ∈ nm ↔ 2 ≤ colons (start_tag_name (data r) p)))
        ∨
        (node_type r' = TYPE_END_ELEMENT ∧
         byte_at (data r) (p + 1) = "/" ∧
         nm = rtrim (local_part (end_tag_name (data r) p)) ∧
         (":" ∈ nm ↔ 2 ≤ colons (end_tag_name (data r) p))))).
Proof.
  intros [p|p Hp Hb Hlt Hsl|p r2 Hp Hb Hlt Hs|p te Hp Hte1 Hte2 Hte Hbl]
    Hok Hwf; [done|..].
  - destruct (read_end_element_name r p Hb Hok) as (Hty & Hn & Hl & Hprog).
    eexists. split; [by apply reader_name_bytes|].
    right. exists p. split_and!; [lia|lia|done|]. right.
    split_and!; try done.
    by rewrite rtrim_colon, local_part_has_colon.
  - destruct (read_start_element_name r p r2 Hb Hs) as (Hty & Hn & Hl & Hprog).
    eexists. split; [by apply reader_name_bytes|].
    right. exists p. split_and!; [lia|lia|done|]. left.
    split_and!; try done.
    by rewrite local_part_has_colon.
  - exists []. split; [done|]. by left.
Qed.

(** * Bytes before the cursor do not matter *)

Section Shift.
Variable pre : list ascii.

Lemma byte_at_shift d k : byte_at (pre ++ d) (length pre + k) = byte_at d k.
Proof. unfold byte_at. by rewrite app_nth2_plus. Qed.

Lemma drop_shift (d : list ascii) k : drop (length pre + k) (pre ++ d) = drop k d.
Proof. by rewrite drop_app_add'. Qed.

Lemma slice_shift d k n : slice (pre ++ d) (length pre + k) n = slice d k n.
Proof. unfold slice. by rewrite drop_shift. Qed.

Lemma memchr_shift d k c n :
  memchr (pre ++ d) (length pre + k) c n = (λ i, length pre + i) <$> memchr d k c n.
Proof.
  unfold memchr. rewrite slice_shift.
  destruct (list_find _ _) as [[i x]|]; simpl; [|done]. f_equal. lia.
Qed.

Lemma memcmp_lit_shift d k lit n :
  memcmp_lit (pre ++ d) (length pre + k) lit n = memcmp_lit d k lit n.
Proof. unfold memcmp_lit. by rewrite slice_shift. Qed.

Lemma sub_shift a b : length pre + a - (length pre + b) = a - b.
Proof. lia. Qed.

Lemma lt_shift a b : bool_decide (length pre + a < length pre + b) = bool_decide (a < b).
Proof. apply bool_decide_ext. lia. Qed.

Lemma le_shift a b : bool_decide (length pre + a ≤ length pre + b) = bool_decide (a ≤ b).
Proof. apply bool_decide_ext. lia. Qed.

Lemma length_shift (d : list ascii) : length (pre ++ d) = length pre + length d.
Proof. by rewrite length_app. Qed.

Lemma strip_prefix_shift d s n :
  strip_prefix (pre ++ d) (length pre + s) n
  = ((length pre + (strip_prefix d s n).1), (strip_prefix d s n).2).
Proof.
  unfold strip_prefix. rewrite memchr_shift.
  destruct (memchr d s ":" n) as [c|] eqn:M; simpl; [|done].
  apply memchr_Some in M as (? & _). f_equal; lia.
Qed.

Lemma trim_trailing_shift d s n :
  trim_trailing (pre ++ d) (length pre + s) n = trim_trailing d s n.
Proof.
  induction n as [|n IH]; simpl; [done|].
  rewrite <- Nat.add_assoc, byte_at_shift, IH. done.
Qed.

Lemma skip_comment_loop_shift fuel d k :
  skip_comment_loop fuel (pre ++ d) (length pre + k)
  = (λ i, length pre + i) <$> skip_comment_loop fuel d k.
Proof.
  revert k. induction fuel as [|fuel IH]; intros k; simpl;
    rewrite !length_shift, <- !Nat.add_assoc, lt_shift;
    case_bool_decide; try done.
  rewrite sub_shift, memchr_shift.
  destruct (memchr d k "-" _) as [p|]; simpl; [|done].
  rewrite <- !Nat.add_assoc, lt_shift, !byte_at_shift.
  case_match; simpl; [done|]. apply IH.
Qed.

Lemma skip_pi_loop_shift fuel d k :
  skip_pi_loop fuel (pre ++ d) (length pre + k)
  = (λ i, length pre + i) <$> skip_pi_loop fuel d k.
Proof.
  revert k. induction fuel as [|fuel IH]; intros k; simpl;
    rewrite !length_shift, <- !Nat.add_assoc, lt_shift;
    case_bool_decide; try done.
  rewrite sub_shift, memchr_shift.
  destruct (memchr d k "?" _) as [p|]; simpl; [|done].
  rewrite <- !Nat.add_assoc, !byte_at_shift.
  case_match; simpl; [done|]. apply IH.
Qed.

Lemma skip_cdata_loop_shift fuel d k :
  skip_cdata_loop fuel (pre ++ d) (length pre + k)
  = (λ i, length pre + i) <$> skip_cdata_loop fuel d k.
Proof.
  revert k. induction fuel as [|fuel IH]; intros k; simpl;
    rewrite !length_shift, <- !Nat.add_assoc, lt_shift;
    case_bool_decide; try done.
  rewrite sub_shift, memchr_shift.
  destruct (memchr d k "]" _) as [p|]; simpl; [|done].
  rewrite <- !Nat.add_assoc, !byte_at_shift.
  case_match; simpl; [done|]. apply IH.
Qed.

Lemma skip_doctype_loop_shift l k bd :
  skip_doctype_loop l (length pre + k) bd = length pre + skip_doctype_loop l k bd.
Proof.
  revert k bd. induction l as [|c l IH]; intros k bd; simpl; [done|].
  rewrite <- !Nat.add_succ_r, !IH. by repeat case_match.
Qed.

Lemma pos_shift r : pos (shift pre r) = length pre + pos r.
Proof. done. Qed.
Lemma data_shift r : data (shift pre r) = pre ++ data r.
Proof. done. Qed.
Lemma size_shift r : size (shift pre r) = length pre + size r.
Proof. unfold size. simpl. apply length_shift. Qed.
Lemma cur_shift r : cur (shift pre r) = cur r.
Proof. unfold cur. simpl. apply byte_at_shift. Qed.
Lemma at_end_shift r : at_end (shift pre r) = at_end r.
Proof. unfold at_end. rewrite size_shift, pos_shift. apply le_shift. Qed.

Lemma set_pos_shift k r : set_pos (length pre + k) (shift pre r) = shift pre (set_pos k r).
Proof. done. Qed.
Lemma set_is_empty_shift v r :
  set_is_empty v (shift pre r) = shift pre (set_is_empty v r).
Proof. done. Qed.
Lemma set_attr_count_shift v r :
  set_attr_count v (shift pre r) = shift pre (set_attr_count v r).
Proof. done. Qed.
Lemma set_name_shift p n r :
  set_name p n (shift pre r) = shift pre (set_name p n r).
Proof. done. Qed.
Lemma set_text_shift p n e r :
  set_text p n e (shift pre r) = shift pre (set_text p n e r).
Proof. done. Qed.
Lemma set_node_type_shift v r :
  set_node_type v (shift pre r) = shift pre (set_node_type v r).
Proof. done. Qed.
Lemma set_depth_shift v r :
  set_depth v (shift pre r) = shift pre (set_depth v r).
Proof. done. Qed.
Lemma set_report_depth_shift v r :
  set_report_depth v (shift pre r) = shift pre (set_report_depth v r).
Proof. done. Qed.
Lemma set_decoded_text_shift v r :
  set_decoded_text v (shift pre r) = shift pre (set_decoded_text v r).
Proof. done. Qed.
Lemma set_name_cache_shift v r :
  set_name_cache v (shift pre r) = shift pre (set_name_cache v r).
Proof. done. Qed.

Lemma push_attr_shift a r : push_attr a (shift pre r) = shift pre (push_attr a r).
Proof. unfold push_attr. simpl. by case_bool_decide. Qed.

Lemma skip_spaces_shift r : skip_spaces (shift pre r) = shift pre (skip_spaces r).
Proof.
  unfold skip_spaces. rewrite pos_shift, data_shift, drop_shift.
  by rewrite <- Nat.add_assoc.
Qed.

Lemma skip_comment_shift r :
  skip_comment (shift pre r) = shift pre <$> skip_comment r.
Proof.
  unfold skip_comment.
  rewrite size_shift, pos_shift, data_shift, sub_shift, skip_comment_loop_shift.
  by destruct (skip_comment_loop _ _ _).
Qed.

Lemma skip_pi_shift r : skip_pi (shift pre r) = shift pre <$> skip_pi r.
Proof.
  unfold skip_pi.
  rewrite size_shift, pos_shift, data_shift, sub_shift, skip_pi_loop_shift.
  by destruct (skip_pi_loop _ _ _).
Qed.

Lemma skip_cdata_shift r : skip_cdata (shift pre r) = shift pre <$> skip_cdata r.
Proof.
  unfold skip_cdata.
  rewrite size_shift, pos_shift, data_shift, sub_shift, skip_cdata_loop_shift.
  by destruct (skip_cdata_loop _ _ _).
Qed.

Lemma skip_doctype_shift r :
  skip_doctype (shift pre r) = shift pre (skip_doctype r).
Proof.
  unfold skip_doctype.
  by rewrite pos_shift, data_shift, drop_shift, skip_doctype_loop_shift.
Qed.

Lemma is_Some_shift (o : option nat) :
  bool_decide (is_Some ((λ i, length pre + i) <$> o)) = bool_decide (is_Some o).
Proof. apply bool_decide_ext. by rewrite fmap_is_Some. Qed.

Lemma is_xmlns_shift d s n : is_xmlns (pre ++ d) (length pre + s) n = is_xmlns d s n.
Proof.
  unfold is_xmlns. by rewrite memcmp_lit_shift, <- Nat.add_assoc, byte_at_shift.
Qed.

Lemma is_blank_shift d k n : is_blank (pre ++ d) (length pre + k) n = is_blank d k n.
Proof. unfold is_blank. by rewrite slice_shift. Qed.

Ltac shift_rw :=
  repeat (progress (rewrite ?pos_shift, ?data_shift, ?size_shift, ?cur_shift,
    ?at_end_shift, ?skip_spaces_shift, ?set_is_empty_shift,
    ?set_attr_count_shift, ?set_name_shift, ?set_text_shift,
    ?set_node_type_shift, ?set_depth_shift, ?set_report_depth_shift,
    ?set_decoded_text_shift, ?push_attr_shift,
    <- ?Nat.add_assoc, ?set_pos_shift, ?sub_shift, ?lt_shift, ?length_shift,
    ?memchr_shift, ?slice_shift, ?drop_shift, ?byte_at_shift,
    ?memcmp_lit_shift, ?is_Some_shift, ?is_xmlns_shift,
    ?strip_prefix_shift, ?trim_trailing_shift, ?is_blank_shift)).

Lemma parse_attrs_loop_shift fuel r :
  parse_attrs_loop fuel (shift pre r) = shift pre <$> parse_attrs_loop fuel r.
Proof.
  revert r. induction fuel as [|fuel IH]; intros r; cbn [parse_attrs_loop];
    shift_rw; case_bool_decide; try done.
  destruct (at_end (skip_spaces r)); [done|].
  destruct (cur (skip_spaces r) =? ">"); [done|].
  destruct (cur (skip_spaces r) =? "/").
  { cbn zeta. shift_rw. by case_match. }
  match goal with |- context [at_end ?x || negb (cur ?x =? "=")] =>
    destruct (at_end x || negb (cur x =? "=")); [apply IH|] end.
  match goal with |- context [if at_end ?x then Some (shift pre ?x) else _] =>
    destruct (at_end x); [done|] end.
  case_match; [apply IH|].
  cbn zeta. shift_rw.
  destruct (memchr _ _ _ _) as [ve|]; simpl; [|by shift_rw].
  shift_rw. case_match; apply IH.
Qed.

Lemma parse_attrs_shift r :
  parse_attrs (shift pre r) = shift pre <$> parse_attrs r.
Proof.
  unfold parse_attrs. cbn zeta. shift_rw. apply parse_attrs_loop_shift.
Qed.

Lemma read_end_element_shift r :
  read_end_element (shift pre r) = shift_result pre (read_end_element r).
Proof.
  unfold read_end_element. cbn zeta. shift_rw.
  destruct (memchr _ _ _ _) as [gt|]; simpl; [|by shift_rw].
  shift_rw. destruct (strip_prefix _ _ _) as [nptr len0]. simpl.
  shift_rw. by case_bool_decide.
Qed.

Lemma collapse_peek_shift nptr nlen r :
  collapse_peek (length pre + nptr) nlen (shift pre r)
  = shift pre (collapse_peek nptr nlen r).
Proof.
  unfold collapse_peek. cbn zeta. shift_rw. case_match; [|done].
  destruct (memchr _ _ _ _) as [gt|]; simpl; [|by shift_rw].
  shift_rw. destruct (strip_prefix _ _ _) as [cp cl]. simpl.
  shift_rw. by case_match.
Qed.

Lemma read_start_element_shift r :
  read_start_element (shift pre r) = shift pre <$> read_start_element r.
Proof.
  unfold read_start_element. cbn zeta. shift_rw.
  destruct (strip_prefix _ _ _) as [nptr nlen]. simpl.
  shift_rw. rewrite parse_attrs_shift.
  destruct (parse_attrs _) as [r2|]; simpl; [|done].
  destruct (is_empty r2) eqn:Ee.
  { change (is_empty (shift pre r2)) with (is_empty r2). by rewrite Ee. }
  rewrite collapse_peek_shift.
  change (is_empty (shift pre ?x)) with (is_empty x).
  change (depth (shift pre ?x)) with (depth x).
  by case_match.
Qed.

Lemma read_loop_shift fuel r :
  read_loop fuel (shift pre r) = shift_result pre <$> read_loop fuel r.
Proof.
  revert r. induction fuel as [|fuel IH]; intros r; cbn [read_loop];
    shift_rw; destruct (at_end r); try done.
  destruct (cur r =? "<").
  - destruct (at_end (set_pos (pos r + 1) r)); [done|].
    destruct (cur (set_pos (pos r + 1) r) =? "/").
    { by rewrite read_end_element_shift. }
    case_match.
    { rewrite skip_comment_shift. destruct (skip_comment _); simpl; [|done].
      apply IH. }
    case_match.
    { rewrite skip_cdata_shift. destruct (skip_cdata _); simpl; [|done].
      apply IH. }
    case_match.
    { rewrite skip_doctype_shift. apply IH. }
    case_match.
    { rewrite skip_pi_shift. destruct (skip_pi _); simpl; [|done].
      apply IH. }
    rewrite read_start_element_shift.
    by destruct (read_start_element _).
  - cbn zeta.
    destruct (memchr (data r) (pos r) "<" (size r - pos r)) as [lt|]; simpl;
      shift_rw.
    + case_match; [apply IH|done].
    + case_match; [apply IH|done].
Qed.

Lemma reader_read_internal_shift r :
  reader_read_internal (shift pre r) = shift_result pre <$> reader_read_internal r.
Proof.
  unfold reader_read_internal. cbn zeta. shift_rw. apply read_loop_shift.
Qed.

Lemma intern_name_shift r p n :
  intern_name (shift pre r) p n
  = ((intern_name r p n).1, shift pre (intern_name r p n).2).
Proof.
  unfold intern_name.
  change (name_cache (shift pre r)) with (name_cache r).
  by destruct (intern_probe 8 0 _ (name_cache r) (take n p)).
Qed.

Lemma reader_name_shift r :
  reader_name (shift pre r) = ((reader_name r).1, shift pre (reader_name r).2).
Proof.
  unfold reader_name.
  change (name_ptr (shift pre r)) with (name_ptr r).
  change (name_len (shift pre r)) with (name_len r).
  destruct (name_ptr r) as [p|]; [|done].
  case_bool_decide; [done|]. apply intern_name_shift.
Qed.

Lemma reader_value_shift cs ub r :
  reader_value cs ub (shift pre r)
  = (λ res, (res.1, shift pre res.2)) <$> reader_value cs ub r.
Proof.
  unfold reader_value. simpl. destruct (text_ptr r) as [p|]; [|done].
  case_bool_decide; [done|]. destruct (text_has_entity r); [|done].
  destruct (decoded_text r); try done.
  by destruct (decode_entities _ _ _).
Qed.

Lemma observe_shift cs ub r :
  observe cs ub (shift pre r)
  = (λ res, (res.1, shift pre res.2)) <$> observe cs ub r.
Proof.
  unfold observe. rewrite reader_name_shift.
  destruct (reader_name r) as [nm r1]. simpl.
  rewrite reader_value_shift.
  by destruct (reader_value cs ub r1) as [[v r2]|].
Qed.

Lemma reader_read_shift r :
  reader_read (shift pre r)
  = (λ res, (res.1, shift pre res.2)) <$> reader_read r.
Proof.
  unfold reader_read. rewrite reader_read_internal_shift.
  by destruct (reader_read_internal r) as [[[] r1]|].
Qed.

Lemma read_log_shift cs ub n r :
  read_log cs ub n (shift pre r) = read_log cs ub n r.
Proof.
  revert r. induction n as [|n IH]; intros r; simpl; [done|].
  rewrite reader_read_shift.
  destruct (reader_read r) as [[v r1]|]; simpl; [|done].
  destruct v; rewrite ?IH; try done.
  rewrite observe_shift.
  destruct (observe cs ub r1) as [[nd r2]|]; simpl; [|done].
  by rewrite IH.
Qed.

End Shift.

(** * Reading an element without content *)

Lemma span_len_app_stop p (x rest : list ascii) :
  Forall (λ a, p a = true) x →
  (∀ c, head rest = Some c → p c = false) →
  span_len p (x ++ rest) = length x.
Proof.
  intros Hx Hr. induction Hx as [|a x Ha _ IH]; simpl.
  - destruct rest as [|c rest]; [done|]. simpl. by rewrite (Hr c).
  - by rewrite Ha, IH.
Qed.

Lemma strip_prefix_find d s n :
  strip_prefix d s n =
  match list_find (λ c, c = ":") (slice d s n) with
  | Some (i, _) => (s + (i + 1), n - (i + 1))
  | None => (s, n)
  end.
Proof.
  unfold strip_prefix, memchr.
  destruct (list_find _ _) as [[i c]|]; simpl; [|done]. f_equal; lia.
Qed.

Lemma trim_trailing_id d p n :
  (n = 0 ∨ (32 < uchar (byte_at d (p + (n - 1))))%Z) →
  trim_trailing d p n = n.
Proof.
  destruct n as [|n]; [done|]. intros [|H]; [done|]. simpl.
  replace (S n - 1) with n in H by lia.
  case_match eqn:E; [|done]. apply Z.leb_le in E. lia.
Qed.

Lemma memchr_first d s c n (x rest : list ascii) :
  slice d s n = x ++ c :: rest → c ∉ x →
  memchr d s c n = Some (s + length x).
Proof.
  intros Hs Hx. unfold memchr. rewrite Hs.
  assert (list_find (λ a, a = c) (x ++ c :: rest) = Some (length x, c)) as ->;
    [|done].
  apply list_find_Some. split_and!; [|done|].
  - by rewrite list_lookup_middle.
  - intros j y Hj Hlt ->. rewrite lookup_app_l in Hj by done.
    by apply list_elem_of_lookup_2 in Hj.
Qed.

Lemma tag_name_ok_scan x :
  tag_name_ok x → Forall (λ a, negb (elem_name_end a) = true) x.
Proof.
  intros (_ & H & _). eapply Forall_impl; [done|].
  intros c (H1 & H2 & H3). unfold elem_name_end.
  apply negb_true_iff.
  repeat (apply orb_false_intro);
    apply Ascii.eqb_neq; try done; intros ->; vm_compute in H1; done.
Qed.

Lemma slice_app_at (pre x rest : list ascii) :
  slice (pre ++ x ++ rest) (length pre) (length x) = x.
Proof. apply slice_middle. Qed.

Lemma byte_at_drop d p k : byte_at d (p + k) = byte_at (drop p d) k.
Proof. unfold byte_at. by rewrite !nth_lookup, lookup_drop. Qed.

Lemma cursor_at r c rest :
  drop (pos r) (data r) = c :: rest →
  pos r < size r ∧ cur r = c ∧ ∃ n, size r - pos r = S n ∧ n = length rest.
Proof.
  intros H. assert (length (drop (pos r) (data r)) = S (length rest)) as Hl
    by (by rewrite H).
  rewrite length_drop in Hl. unfold size, cur. split_and!; try lia.
  - rewrite <- (Nat.add_0_r (pos r)), byte_at_drop, H. done.
  - exists (length rest). lia.
Qed.

Lemma set_pos_id r : set_pos (pos r) r = r.
Proof. by destruct r. Qed.

Lemma skip_spaces_id r c rest :
  drop (pos r) (data r) = c :: rest → is_space c = false → skip_spaces r = r.
Proof.
  intros H Hc. unfold skip_spaces. rewrite H. simpl. rewrite Hc.
  by rewrite Nat.add_0_r, set_pos_id.
Qed.

(** Decide the conditional at the head of the left-hand side: [tac]
    refutes the other branch from the equation put in the context. *)
Ltac head_if tac :=
  lazymatch goal with
  | |- (if ?c then _ else _) = _ =>
      let E := fresh "E" in
      destruct c eqn:E; [try (exfalso; tac E)|try (exfalso; tac E)]
  end.

Ltac by_lia E :=
  first [apply bool_decide_eq_false in E | apply bool_decide_eq_true in E];
  unfold size in *; simpl in E; lia.

Ltac by_char H E := rewrite H in E; vm_compute in E; discriminate E.

Lemma parse_attrs_open r rest :
  drop (pos r) (data r) = ">" :: rest →
  parse_attrs r
  = Some (set_pos (pos r + 1) (set_is_empty false (set_attr_count 0 r))).
Proof.
  intros H. unfold parse_attrs. cbn zeta.
  remember (set_is_empty false (set_attr_count 0 r)) as r0 eqn:Hr0.
  assert (drop (pos r0) (data r0) = ">" :: rest) as H0 by (by subst r0).
  replace (pos r) with (pos r0) by (by subst r0). clear Hr0 H r.
  destruct (cursor_at r0 _ _ H0) as (Hlt & Hc & n & Hf & _).
  rewrite Hf. cbn [parse_attrs_loop].
  rewrite (skip_spaces_id r0 _ _ H0) by done.
  head_if by_lia. head_if ltac:(fun E => apply at_end_true in E; lia).
  head_if ltac:(by_char Hc). done.
Qed.

Lemma parse_attrs_selfclose r rest :
  drop (pos r) (data r) = "/" :: ">" :: rest →
  parse_attrs r
  = Some (set_pos (pos r + 1 + 1) (set_is_empty true (set_attr_count 0 r))).
Proof.
  intros H. unfold parse_attrs. cbn zeta.
  remember (set_is_empty false (set_attr_count 0 r)) as r0 eqn:Hr0.
  assert (drop (pos r0) (data r0) = "/" :: ">" :: rest) as H0 by (by subst r0).
  assert (set_is_empty true (set_attr_count 0 r) = set_is_empty true r0) as ->
    by (by subst r0).
  replace (pos r) with (pos r0) by (by subst r0). clear Hr0 H r.
  destruct (cursor_at r0 _ _ H0) as (Hlt & Hc & n & Hf & Hn).
  assert (byte_at (data r0) (pos r0 + 1) = ">") as Hgt
    by (by rewrite byte_at_drop, H0).
  assert (pos r0 + 1 < size r0) as Hlt2 by (simpl in Hn; lia).
  clear Hn.
  rewrite Hf. cbn [parse_attrs_loop].
  rewrite (skip_spaces_id r0 _ _ H0) by done.
  head_if by_lia. head_if ltac:(fun E => apply at_end_true in E; lia).
  head_if ltac:(by_char Hc). head_if ltac:(by_char Hc).
  cbn zeta.
  change (pos (set_pos (pos r0 + 1) (set_is_empty true r0))) with (pos r0 + 1).
  change (size (set_pos (pos r0 + 1) (set_is_empty true r0))) with (size r0).
  change (cur (set_pos (pos r0 + 1) (set_is_empty true r0)))
    with (byte_at (data r0) (pos r0 + 1)).
  rewrite Hgt, bool_decide_eq_true_2 by done. done.
Qed.

Lemma slice_drop d p k n : slice d (p + k) n = slice (drop p d) k n.
Proof. unfold slice. by rewrite drop_drop. Qed.

Lemma slice_all (d : list ascii) : slice d 0 (length d) = d.
Proof. unfold slice. by rewrite drop_0, firstn_all. Qed.

Lemma slice_app_l (x rest : list ascii) : slice (x ++ rest) 0 (length x) = x.
Proof. unfold slice. by rewrite drop_0, take_app_length. Qed.

Lemma collapse_peek_fires nptr nlen r x post :
  tag_name_ok x →
  drop (pos r) (data r) = "<" :: "/" :: x ++ ">" :: post →
  slice (data r) nptr nlen = local_part x → nlen = length (local_part x) →
  collapse_peek nptr nlen r
  = set_pos (pos r + 2 + length x + 1) (set_is_empty true r).
Proof.
  intros (_ & Hx & _) H Hname Hnlen.
  destruct (cursor_at r _ _ H) as (Hlt & Hc & n & Hf & Hn).
  simpl in Hn. rewrite length_app in Hn. simpl in Hn.
  assert (byte_at (data r) (pos r + 1) = "/") as Hsl
    by (by rewrite byte_at_drop, H).
  assert (">"%char ∉ x) as Hgtx.
  { intros Hin. rewrite Forall_forall in Hx. by destruct (Hx _ Hin) as (_ & ? & _). }
  assert (memchr (data r) (pos r + 2) ">" (size r - (pos r + 2))
          = Some (pos r + 2 + length x)) as Hm.
  { apply (memchr_first _ _ _ _ x post); [|done].
    rewrite slice_drop, H. unfold slice. simpl drop.
    apply take_ge. rewrite length_app. simpl. lia. }
  pose proof (strip_prefix_local (data r) (pos r + 2) (length x)) as Hl.
  pose proof (strip_prefix_bounds (data r) (pos r + 2) (length x)) as Hb.
  assert (slice (data r) (pos r + 2) (length x) = x) as Hsx.
  { rewrite slice_drop, H. apply (slice_app_at ["<"; "/"] x). }
  rewrite Hsx in Hl.
  unfold collapse_peek. cbn zeta.
  rewrite bool_decide_eq_true_2 by lia. rewrite Hc, Hsl.
  simpl (_ && _). cbn iota.
  rewrite Hm. replace (pos r + 2 + length x - (pos r + 2)) with (length x) by lia.
  destruct (strip_prefix (data r) (pos r + 2) (length x)) as [cp cl].
  simpl in Hl.
  assert (cl = length (local_part x)) as Hcl.
  { rewrite <- Hl. rewrite slice_full_length; [done|]. unfold size in *. lia. }
  rewrite trim_trailing_id; first last.
  { destruct (decide (cl = 0)) as [|Hne]; [by left|right].
    assert (x !! (cp + (cl - 1) - (pos r + 2)) = Some (byte_at (data r) (cp + (cl - 1))))
      as Hlk.
    { rewrite <- Hsx at 1. unfold slice.
      rewrite lookup_take_lt by lia. rewrite lookup_drop.
      replace (pos r + 2 + (cp + (cl - 1) - (pos r + 2))) with (cp + (cl - 1))
        by lia.
      apply lookup_byte_at. unfold size in *. lia. }
    rewrite Forall_lookup in Hx. by destruct (Hx _ _ Hlk). }
  rewrite bool_decide_eq_true_2 by congruence.
  rewrite bool_decide_eq_true_2 by (rewrite Hname, <- Hl; congruence).
  done.
Qed.

Lemma drop_add_app (d x rest : list ascii) p :
  drop p d = x ++ rest → drop (p + length x) d = rest.
Proof. intros H. by rewrite <- drop_drop, H, drop_app_length. Qed.

Lemma start_name_scan s x rest :
  tag_name_ok x →
  drop (pos s) (data s) = x ++ rest →
  (∀ c, head rest = Some c → negb (elem_name_end c) = false) →
  span_len (λ c, negb (elem_name_end c)) (drop (pos s) (data s)) = length x ∧
  slice (data s) (pos s) (length x) = x.
Proof.
  intros Hx H Hr. rewrite H. split.
  - apply span_len_app_stop; [by apply tag_name_ok_scan|done].
  - rewrite <- (Nat.add_0_r (pos s)), slice_drop, H. apply slice_app_l.
Qed.

(** [read_start_element] once the name is scanned and the attributes
    are parsed. *)
Lemma read_start_element_after_attrs s k nptr nlen s2 :
  span_len (λ c, negb (elem_name_end c)) (drop (pos s) (data s)) = k →
  strip_prefix (data s) (pos s) k = (nptr, nlen) →
  parse_attrs (set_node_type TYPE_ELEMENT
                 (set_name (Some (slice (data s) nptr nlen)) nlen
                    (set_pos (pos s + k) s))) = Some s2 →
  read_start_element s =
  Some (if is_empty s2 then set_report_depth (depth s2) s2
        else
          let r3 := collapse_peek nptr nlen s2 in
          if is_empty r3 then set_report_depth (depth r3) r3
          else set_depth (wrap_int (depth r3 + 1)) (set_report_depth (depth r3) r3)).
Proof.
  intros Hk Hs Hp. unfold read_start_element. cbn zeta. rewrite Hk.
  change (pos (set_pos (pos s + k) s)) with (pos s + k).
  change (data (set_pos (pos s + k) s)) with (data s).
  replace (pos s + k - pos s) with k by lia.
  rewrite Hs, Hp. cbn [mbind option_bind].
  change (is_empty (set_report_depth ?d ?r)) with (is_empty r).
  change (depth (set_report_depth ?d ?r)) with (depth r).
  destruct (is_empty s2) eqn:E; [by rewrite E|done].
Qed.

Lemma tag_name_in_bounds s x rest :
  drop (pos s) (data s) = x ++ rest → x ≠ [] →
  pos s + length x ≤ length (data s).
Proof.
  intros H Hne.
  assert (length (drop (pos s) (data s)) = length (x ++ rest)) as Hlen
    by (by rewrite H).
  rewrite length_drop, length_app in Hlen.
  destruct x; [done|]. simpl in *. lia.
Qed.

Lemma read_start_selfclose s x post :
  tag_name_ok x →
  drop (pos s) (data s) = x ++ "/" :: ">" :: post →
  ∃ r', read_start_element s = Some r' ∧ pos r' = pos s + length x + 2 ∧
        empty_element_of s x r'.
Proof.
  intros Hx H.
  destruct (start_name_scan s x _ Hx H) as [Hk Hsx]; [by intros c [= <-]|].
  pose proof (tag_name_in_bounds s x _ H (proj1 Hx)) as Hin.
  pose proof (strip_prefix_local (data s) (pos s) (length x)) as Hl.
  pose proof (strip_prefix_bounds (data s) (pos s) (length x)) as Hb.
  rewrite Hsx in Hl.
  destruct (strip_prefix (data s) (pos s) (length x)) as [nptr nlen] eqn:Hs.
  simpl in Hl.
  assert (nlen = length (local_part x)) as Hnlen.
  { rewrite <- Hl. rewrite slice_full_length; [done|lia]. }
  remember (set_node_type TYPE_ELEMENT
              (set_name (Some (slice (data s) nptr nlen)) nlen
                 (set_pos (pos s + length x) s))) as s1 eqn:Hs1.
  assert (drop (pos s1) (data s1) = "/" :: ">" :: post) as H1.
  { subst s1. by apply drop_add_app. }
  pose proof (parse_attrs_selfclose s1 post H1) as Hp.
  rewrite Hs1 in Hp at 1.
  rewrite (read_start_element_after_attrs s _ _ _ _ Hk Hs Hp).
  change (is_empty (set_pos ?p (set_is_empty true ?r))) with true. cbv iota.
  eexists. split; [done|]. subst s1. split; [simpl; lia|].
  unfold empty_element_of. simpl. rewrite Hl. by split_and!.
Qed.

Lemma read_start_collapse s x post :
  tag_name_ok x →
  drop (pos s) (data s) = x ++ ">" :: "<" :: "/" :: x ++ ">" :: post →
  ∃ r', read_start_element s = Some r' ∧
        pos r' = pos s + length x + 1 + 2 + length x + 1 ∧
        empty_element_of s x r'.
Proof.
  intros Hx H.
  destruct (start_name_scan s x _ Hx H) as [Hk Hsx]; [by intros c [= <-]|].
  pose proof (tag_name_in_bounds s x _ H (proj1 Hx)) as Hin.
  pose proof (strip_prefix_local (data s) (pos s) (length x)) as Hl.
  pose proof (strip_prefix_bounds (data s) (pos s) (length x)) as Hb.
  rewrite Hsx in Hl.
  destruct (strip_prefix (data s) (pos s) (length x)) as [nptr nlen] eqn:Hs.
  simpl in Hl.
  assert (nlen = length (local_part x)) as Hnlen.
  { rewrite <- Hl. rewrite slice_full_length; [done|lia]. }
  remember (set_node_type TYPE_ELEMENT
              (set_name (Some (slice (data s) nptr nlen)) nlen
                 (set_pos (pos s + length x) s))) as s1 eqn:Hs1.
  assert (drop (pos s1) (data s1) = ">" :: "<" :: "/" :: x ++ ">" :: post)
    as H1.
  { subst s1. by apply drop_add_app. }
  pose proof (parse_attrs_open s1 _ H1) as Hp.
  rewrite Hs1 in Hp at 1.
  rewrite (read_start_element_after_attrs s _ _ _ _ Hk Hs Hp).
  change (is_empty (set_pos ?p (set_is_empty false ?r))) with false. cbv iota.
  remember (set_pos (pos s1 + 1) (set_is_empty false (set_attr_count 0 s1)))
    as s2 eqn:Hs2.
  assert (drop (pos s2) (data s2) = "<" :: "/" :: x ++ ">" :: post) as H2.
  { subst s2. simpl. replace (pos s1 + 1) with (pos s1 + length [">"])
      by (simpl; lia). by apply (drop_add_app _ [">"]). }
  assert (slice (data s2) nptr nlen = local_part x) as Hl2.
  { subst s2 s1. exact Hl. }
  rewrite (collapse_peek_fires nptr nlen s2 x post Hx H2 Hl2 Hnlen).
  cbv zeta.
  change (is_empty (set_pos ?p (set_is_empty true ?r))) with true. cbv iota.
  eexists. split; [done|]. subst s2 s1. split; [simpl; lia|].
  unfold empty_element_of. simpl. rewrite Hl. by split_and!.
Qed.

Lemma read_loop_start_tag fuel q c x rest :
  tag_name_ok (c :: x) →
  drop (pos q) (data q) = "<" :: (c :: x) ++ rest →
  read_loop (S fuel) q
  = r ← read_start_element (set_pos (pos q + 1) q); Some (true, r).
Proof.
  intros (_ & Hx & Hbang & Hq) H.
  apply Forall_cons_1 in Hx as [(_ & _ & Hslash) _].
  destruct (cursor_at q _ _ H) as (Hlt & Hc & n & Hf & Hn).
  simpl in Hn.
  assert (byte_at (data q) (pos q + 1) = c) as Hc1
    by (by rewrite byte_at_drop, H).
  assert ((c =? "/") = false) as C1 by (by apply Ascii.eqb_neq).
  assert ((c =? "!") = false) as C2
    by (apply Ascii.eqb_neq; intros ->; by apply Hbang).
  assert ((c =? "?") = false) as C3
    by (apply Ascii.eqb_neq; intros ->; by apply Hq).
  cbn [read_loop].
  head_if ltac:(fun E => apply at_end_true in E; lia).
  head_if ltac:(by_char Hc).
  remember (set_pos (pos q + 1) q) as q1 eqn:Hq1.
  assert (cur q1 = c) as Hcq by (by subst q1).
  assert (pos q1 < size q1) as Hlt1
    by (subst q1; unfold size in *; simpl; lia).
  head_if ltac:(fun E => apply at_end_true in E; lia).
  rewrite Hcq, C1, C2, C3. done.
Qed.

(** The first [read] at an element written [<x/>] or [<x></x>]. *)
Lemma read_empty_element q x rest post :
  tag_name_ok x →
  rest = "/" :: ">" :: post ∨ rest = ">" :: "<" :: "/" :: x ++ ">" :: post →
  drop (pos q) (data q) = "<" :: x ++ rest →
  ∃ r', reader_read_internal q = Some (true, r') ∧
        drop (pos r') (data r') = post ∧ pos r' ≤ size r' ∧
        empty_element_of
          (set_attr_count 0 (set_text None 0 false (set_decoded_text Qnil q)))
          x r'.
Proof.
  intros Hx Hrest H. unfold reader_read_internal. cbn zeta.
  remember (set_attr_count 0 (set_text None 0 false (set_decoded_text Qnil q)))
    as q0 eqn:Hq0.
  assert (drop (pos q0) (data q0) = "<" :: x ++ rest) as H0 by (by subst q0).
  clear Hq0 H q.
  destruct (cursor_at q0 _ _ H0) as (Hlt & Hc & n & Hf & Hn).
  rewrite Hf. clear Hn.
  destruct x as [|c x]; [by destruct Hx|].
  rewrite (read_loop_start_tag n q0 c x rest Hx H0).
  remember (set_pos (pos q0 + 1) q0) as q1 eqn:Hq1.
  assert (drop (pos q1) (data q1) = (c :: x) ++ rest) as H1.
  { subst q1. simpl pos. simpl data.
    by apply (drop_add_app _ ["<"]). }
  assert (∀ r', empty_element_of q1 (c :: x) r' →
                empty_element_of q0 (c :: x) r') as Hfields by (by subst q1).
  assert (size q1 = size q0 ∧ pos q1 = pos q0 + 1 ∧ data q1 = data q0)
    as (Z1 & P1 & D1) by (by subst q1).
  destruct Hrest as [-> | ->].
  - destruct (read_start_selfclose q1 (c :: x) post Hx H1)
      as (r' & -> & Hp & Hr').
    exists r'. cbn [mbind option_bind]. split; [done|].
    pose proof Hr' as (Hd & _).
    split_and!; [|  |by apply Hfields].
    + rewrite Hp, Hd.
      replace (pos q1 + length (c :: x) + 2)
        with (pos q1 + length ((c :: x) ++ ["/"; ">"]))
        by (rewrite length_app; simpl; lia).
      apply (drop_add_app _ ((c :: x) ++ ["/"; ">"])). rewrite H1.
      by rewrite <- app_assoc.
    + assert (length (drop (pos q1) (data q1))
              = length ((c :: x) ++ "/" :: ">" :: post)) as Hlen
        by (by rewrite H1).
      rewrite length_drop, length_app in Hlen. simpl in Hlen.
      unfold size. rewrite Hp, Hd. simpl. lia.
  - destruct (read_start_collapse q1 (c :: x) post Hx H1)
      as (r' & -> & Hp & Hr').
    exists r'. cbn [mbind option_bind]. split; [done|].
    pose proof Hr' as (Hd & _).
    split_and!; [|  |by apply Hfields].
    + rewrite Hp, Hd.
      replace (pos q1 + length (c :: x) + 1 + 2 + length (c :: x) + 1)
        with (pos q1 + length ((c :: x) ++ [">"; "<"; "/"] ++ (c :: x) ++ [">"]))
        by (rewrite !length_app; simpl; lia).
      apply (drop_add_app _ ((c :: x) ++ [">"; "<"; "/"] ++ (c :: x) ++ [">"])).
      rewrite H1. by rewrite <- !app_assoc.
    + assert (length (drop (pos q1) (data q1))
              = length ((c :: x) ++ ">" :: "<" :: "/" :: (c :: x) ++ ">" :: post))
        as Hlen by (by rewrite H1).
      rewrite length_drop, !length_app in Hlen. simpl in Hlen.
      rewrite length_app in Hlen. simpl in Hlen.
      unfold size. rewrite Hp, Hd. simpl. lia.
Qed.

(** * Logs of nodes *)

Lemma shift_core r :
  pos r ≤ size r → r = shift (take (pos r) (data r)) (core r).
Proof.
  intros H. unfold shift, core. destruct r; simpl in *.
  unfold size in H; simpl in H.
  rewrite take_drop, length_take, Nat.min_l by lia.
  by rewrite Nat.add_0_r.
Qed.

Lemma log_after_shift cs ub n pre r :
  log_after cs ub n (shift pre r) = log_after cs ub n r.
Proof.
  unfold log_after. rewrite observe_shift.
  destruct (observe cs ub r) as [[nd r1]|]; simpl; [|done].
  by rewrite read_log_shift.
Qed.

Lemma log_after_core cs ub n r1 r2 :
  pos r1 ≤ size r1 → pos r2 ≤ size r2 → core r1 = core r2 →
  log_after cs ub n r1 = log_after cs ub n r2.
Proof.
  intros H1 H2 Hc.
  rewrite (shift_core r1 H1), (shift_core r2 H2), !log_after_shift.
  by rewrite Hc.
Qed.

Lemma read_log_succ cs ub n r r' :
  reader_read_internal r = Some (true, r') →
  read_log cs ub (S n) r = log_after cs ub n r'.
Proof. intros H. simpl. unfold reader_read. by rewrite H. Qed.

Lemma read_log_total cs ub n r : is_Some (read_log cs ub n r).
Proof.
  revert r. induction n as [|n IH]; intros r; simpl; [by eexists|].
  unfold reader_read.
  destruct (read_internal_total r) as (ok & r' & -> & _). simpl.
  assert (∀ r0, is_Some (log ← read_log cs ub n r0; Some (None :: log)))
    as Hnone.
  { intros r0. destruct (IH r0) as [l ->]. by eexists. }
  destruct ok; [|apply Hnone].
  unfold observe. destruct (reader_name r') as [nm r1].
  assert (is_Some (reader_value cs ub r1)) as [[v r2] ->].
  { unfold reader_value. repeat case_match; try by eexists.
    destruct (decode_entities_length cs ub (take (text_len r1) l))
      as (out & -> & _). by eexists. }
  simpl. destruct (IH r2) as [l ->]. by eexists.
Qed.

Lemma reader_ext (a b : FastReader) :
  data a = data b → pos a = pos b → set_data [] (set_pos 0 a) = set_data [] (set_pos 0 b) →
  a = b.
Proof. destruct a, b; simpl. intros -> -> [=]. by subst. Qed.

Lemma empty_element_core q1 q2 x r1 r2 post :
  set_data [] (set_pos 0 q1) = set_data [] (set_pos 0 q2) →
  empty_element_of q1 x r1 → empty_element_of q2 x r2 →
  drop (pos r1) (data r1) = post → drop (pos r2) (data r2) = post →
  core r1 = core r2.
Proof.
  intros Hq H1 H2 D1 D2. unfold core. rewrite D1, D2.
  destruct H1 as (_ & ? & ? & ? & ? & ? & ? & ? & ? & ? & ? & ? & ? & ?).
  destruct H2 as (_ & ? & ? & ? & ? & ? & ? & ? & ? & ? & ? & ? & ? & ?).
  destruct q1, q2, r1, r2; simpl in *. injection Hq as -> -> -> -> -> -> -> ->.
  intros. by subst.
Qed.

(** * The properties of the specification *)

(** C1: on the document [<a><b>hi</b></a>] the first five calls of
    [read] succeed and report, in document order, the element [a] at
    depth 0, the element [b] at depth 1, the text [hi] at depth 2
    (without a name), the end of [b] at depth 1 and the end of [a] at
    depth 0, none of them an empty element; the sixth call returns
    false.  This holds whatever the signedness of [char] and the width
    of [unsigned long]. *)
Theorem scenario_nested_text cs ub :
  read_log cs ub 6 (reader_new (bytes "<a><b>hi</b></a>")) =
  Some [Some (node TYPE_ELEMENT (RString (bytes "a")) 0 Qnil Qfalse);
        Some (node TYPE_ELEMENT (RString (bytes "b")) 1 Qnil Qfalse);
        Some (node TYPE_TEXT Qnil 2 (RString (bytes "hi")) Qfalse);
        Some (node TYPE_END_ELEMENT (RString (bytes "b")) 1 Qnil Qfalse);
        Some (node TYPE_END_ELEMENT (RString (bytes "a")) 0 Qnil Qfalse);
        None].
Proof. vm_compute. reflexivity. Qed.

(** C2, as stated: for every name [x] and every run [ws] of white
    space, [<x>ws</x>] is read as [<x/>] is.  It fails with one space
    between the tags: the collapse looks for [</] at the very byte
    after the start tag, so [<x> </x>] gives an element that is not
    empty, followed by its end. *)
Lemma empty_element_spellings_counterexample :
  ¬ (∀ cs ub (x ws post : list ascii) n,
       tag_name_ok x → forallb is_space ws = true →
       read_log cs ub n
         (reader_new ("<" :: x ++ ">" :: ws ++ "<" :: "/" :: x ++ ">" :: post))
       = read_log cs ub n (reader_new ("<" :: x ++ "/" :: ">" :: post))).
Proof.
  intros H.
  specialize (H true 64%Z (bytes "x") (bytes " ") [] 2).
  assert (tag_name_ok (bytes "x")) as Hx.
  { refine (conj _ (conj _ (conj _ _))); [discriminate| |discriminate..].
    apply Forall_singleton.
    refine (conj _ (conj _ _)); [reflexivity|discriminate..]. }
  specialize (H Hx eq_refl). vm_compute in H. discriminate H.
Qed.

(** C2, amended: with nothing at all between the two tags, [<x></x>]
    and [<x/>] are read alike.  Two readers that stand on the same
    bytes [pre] already consumed and agree on every field but the
    buffer, one in front of [<x></x>post] and the other in front of
    [<x/>post], report the same nodes for any number [n] of calls of
    [read], and all these calls return.  The first node is an element
    with [empty_element?] true at the depth the reader had, without a
    value; the calls after it are those of a reader at the same depth
    in front of [post], so that no end of [x] is reported. *)
Theorem empty_element_spellings cs ub x pre post r1 r2 n :
  tag_name_ok x →
  data r1 = pre ++ "<" :: x ++ ">" :: "<" :: "/" :: x ++ ">" :: post →
  data r2 = pre ++ "<" :: x ++ "/" :: ">" :: post →
  pos r1 = length pre → pos r2 = length pre →
  set_data [] r1 = set_data [] r2 →
  read_log cs ub n r1 = read_log cs ub n r2 ∧
  is_Some (read_log cs ub n r2) ∧
  ∃ nd c,
    n_type nd = Fixnum TYPE_ELEMENT ∧ n_empty nd = Qtrue ∧
    n_depth nd = Fixnum (depth r2) ∧ n_value nd = Qnil ∧
    data c = post ∧ pos c = 0 ∧ depth c = depth r2 ∧
    read_log cs ub (S n) r2 = (λ log, Some nd :: log) <$> read_log cs ub n c.
Proof.
  intros Hx D1 D2 P1 P2 Hagree.
  assert (drop (pos r1) (data r1)
          = "<" :: x ++ ">" :: "<" :: "/" :: x ++ ">" :: post) as H1
    by (by rewrite D1, P1, drop_app_length).
  assert (drop (pos r2) (data r2) = "<" :: x ++ "/" :: ">" :: post) as H2
    by (by rewrite D2, P2, drop_app_length).
  destruct (read_empty_element r1 x _ post Hx (or_intror eq_refl) H1)
    as (r1' & Hr1 & S1 & B1 & E1).
  destruct (read_empty_element r2 x _ post Hx (or_introl eq_refl) H2)
    as (r2' & Hr2 & S2 & B2 & E2).
  assert (core r1' = core r2') as Hcore.
  { eapply empty_element_core; [|done..].
    destruct r1, r2; simpl in *. injection Hagree as -> -> -> -> -> -> -> ->.
    intros. by subst. }
  split_and!.
  - destruct n as [|n]; [done|].
    rewrite (read_log_succ _ _ _ _ _ Hr1), (read_log_succ _ _ _ _ _ Hr2).
    by apply log_after_core.
  - apply read_log_total.
  - rewrite (read_log_succ _ _ _ _ _ Hr2).
    rewrite (shift_core r2' B2), log_after_shift.
    destruct E2 as (_ & Hd & Hrd & Hty & Hem & Hnp & Hnl & Htp & _).
    unfold log_after, observe.
    destruct (reader_name (core r2')) as [nm c1] eqn:Hname.
    assert (data c1 = post ∧ pos c1 = 0 ∧ depth c1 = depth r2 ∧
            node_type c1 = TYPE_ELEMENT ∧ is_empty c1 = true ∧
            report_depth c1 = depth r2 ∧ text_ptr c1 = None)
      as (Hc1 & Hc2 & Hc3 & Hc4 & Hc5 & Hc6 & Hc7).
    { unfold reader_name in Hname.
      destruct (name_ptr (core r2')); [|injection Hname as <- <-].
      - case_bool_decide; [injection Hname as <- <-|].
        + unfold core. simpl. by rewrite S2.
        + unfold intern_name in Hname.
          destruct (intern_probe 8 0 _ _ _). injection Hname as <- <-.
          unfold core. simpl. by rewrite S2.
      - unfold core. simpl. by rewrite S2. }
    assert (reader_value cs ub c1 = Some (Qnil, c1)) as ->.
    { unfold reader_value. by rewrite Hc7. }
    cbn [mbind option_bind].
    eexists _, c1. split_and!; [..|reflexivity]; try done.
    + unfold reader_node_type. simpl. by rewrite Hc4.
    + unfold reader_empty_element_p. simpl. by rewrite Hc5.
    + unfold reader_depth. simpl. by rewrite Hc6.
Qed.

Lemma empty_element_spellings_witness :
  tag_name_ok (bytes "y") ∧
  set_data [] (after_read (reader_new (bytes "<r><y></y>z</r>")))
  = set_data [] (after_read (reader_new (bytes "<r><y/>z</r>"))) ∧
  read_log true 64 4 (after_read (reader_new (bytes "<r><y></y>z</r>")))
  = read_log true 64 4 (after_read (reader_new (bytes "<r><y/>z</r>"))).
Proof.
  assert (tag_name_ok (bytes "y")) as Hy.
  { refine (conj _ (conj _ (conj _ _))); [discriminate| |discriminate..].
    apply Forall_singleton.
    refine (conj _ (conj _ _)); [reflexivity|discriminate..]. }
  refine (conj Hy (conj _ _)); [vm_compute; reflexivity|].
  refine (proj1 (empty_element_spellings true 64 (bytes "y") (bytes "<r>")
                   (bytes "z</r>") _ _ 4 Hy _ _ _ _ _));
    vm_compute; reflexivity.
Defined.

(** C3, as stated: no name returned by [name] holds a colon.  It
    fails on [<a:b:c>]: only the bytes up to the first colon are
    dropped, and the name returned is [b:c]. *)
Lemma name_is_local_part_counterexample :
  ¬ (∀ doc r' nm,
       reader_read_internal (reader_new doc) = Some (true, r') →
       (reader_name r').1 = RString nm → ":"%char ∉ nm).
Proof.
  intros H.
  destruct (reader_read_internal (reader_new (bytes "<a:b:c>")))
    as [[ok r']|] eqn:E; [|by vm_compute in E].
  assert (ok = true) as -> by (vm_compute in E; congruence).
  apply (H _ r' (bytes "b:c") E).
  - vm_compute in E. injection E as <-. vm_compute. reflexivity.
  - apply list_elem_of_In. vm_compute. tauto.
Qed.

(** C3, amended: after a successful [read] from any state of a reader,
    [name] returns the local part of the tag name, that is the name as
    written in the tag without its bytes up to and including the first
    colon (for an end tag also without trailing bytes up to the
    space), or nil when that is empty or the node is a text.  The
    returned name holds a colon exactly when the tag name holds two or
    more. *)
Theorem name_is_local_part r r' :
  reachable r → reader_read_internal r = Some (true, r') →
  returns_local_name r r'.
Proof.
  intros Hreach Hr.
  assert (cache_wf (name_cache r')) as Hwf.
  { by apply (reachable_inv r'), (reach_read r true r'). }
  apply read_internal_result in Hr.
  exact (read_result_name _ _ _ Hr eq_refl Hwf).
Qed.

Lemma name_is_local_part_witness :
  reachable (reader_new (bytes "<p:q r='1'>")) ∧
  reader_read_internal (reader_new (bytes "<p:q r='1'>"))
  = Some (true, after_read (reader_new (bytes "<p:q r='1'>"))) ∧
  returns_local_name (reader_new (bytes "<p:q r='1'>"))
                     (after_read (reader_new (bytes "<p:q r='1'>"))).
Proof.
  refine (conj (reach_new _) (conj _ _)); [vm_compute; reflexivity|].
  apply (name_is_local_part (reader_new (bytes "<p:q r='1'>"))).
  - apply reach_new.
  - vm_compute; reflexivity.
Defined.

(** C4: on every reader state, whatever the buffer holds, each of
    [skip_comment], [skip_pi] and [skip_cdata] returns, with the cursor
    at the end of the buffer or just past its terminator;
    [skip_doctype] stops at the end or just past a [>]; [skip_spaces]
    stops at the end or on a byte that is not white space; [read]
    returns; and after at most as many calls of [read] as there are
    bytes left, every further call returns false. *)
Theorem read_terminates r :
  (∃ r', skip_comment r = Some r' ∧
         (at_end r' = true ∨ just_past (data r) "-->" (pos r'))) ∧
  (∃ r', skip_pi r = Some r' ∧
         (at_end r' = true ∨ just_past (data r) "?>" (pos r'))) ∧
  (∃ r', skip_cdata r = Some r' ∧
         (at_end r' = true ∨ just_past (data r) "]]>" (pos r'))) ∧
  (at_end (skip_doctype r) = true
   ∨ just_past (data r) ">" (pos (skip_doctype r))) ∧
  (at_end (skip_spaces r) = true ∨ is_space (cur (skip_spaces r)) = false) ∧
  (∃ ok r', reader_read_internal r = Some (ok, r')) ∧
  (∃ n, n ≤ size r - pos r ∧
        ∀ m, n ≤ m → ∃ r', nth_read m r = Some (false, r')).
Proof.
  split_and!.
  - unfold skip_comment.
    destruct (skip_comment_loop_total (size r - pos r) (data r) (pos r))
      as (p & -> & Hp & _ & He); [done|].
    eexists. split; [done|]. destruct He as [->|He]; [left|by right].
    by apply at_end_true.
  - unfold skip_pi.
    destruct (skip_pi_loop_total (size r - pos r) (data r) (pos r))
      as (p & -> & Hp & _ & He); [done|].
    eexists. split; [done|]. destruct He as [->|He]; [left|by right].
    by apply at_end_true.
  - unfold skip_cdata.
    destruct (skip_cdata_loop_total (size r - pos r) (data r) (pos r))
      as (p & -> & Hp & _ & He); [done|].
    eexists. split; [done|]. destruct He as [->|He]; [left|by right].
    by apply at_end_true.
  - destruct (decide (pos r ≤ size r)) as [Hb|Hb].
    + destruct (skip_doctype_bounds r Hb) as (_ & _ & [He|He]); [left|by right].
      apply at_end_true. change (size (skip_doctype r)) with (size r). lia.
    + left. apply at_end_true. unfold skip_doctype, size in *. simpl.
      rewrite drop_ge by lia. simpl. lia.
  - destruct (decide (pos (skip_spaces r) < size r)) as [Hb|Hb].
    + right. by apply skip_spaces_stop.
    + left. apply at_end_true. change (size (skip_spaces r)) with (size r). lia.
  - destruct (read_internal_total r) as (ok & r' & Hr & _). by exists ok, r'.
  - by apply (nth_read_eventually (size r - pos r)).
Qed.



(** C6: in every state of a reader the cursor is inside [0, size];
    a call of [read], whether it returns true or false, leaves the
    buffer as it is and the cursor at or after its place before the
    call, and inside the buffer; and the peek for a matching end tag
    leaves the cursor at or after the end of the start tag. *)
Theorem cursor_in_bounds_monotone r :
  reachable r →
  pos r ≤ size r ∧
  (∀ ok r', reader_read_internal r = Some (ok, r') →
     pos r ≤ pos r' ∧ pos r' ≤ size r' ∧ data r' = data r) ∧
  (∀ nptr nlen,
     pos r ≤ pos (collapse_peek nptr nlen r) ∧
     pos (collapse_peek nptr nlen r) ≤ size r).
Proof.
  intros (Hb & _)%reachable_inv. split_and!; [done| |].
  - intros ok r' Hr.
    destruct (read_internal_post r Hb) as (ok' & r'' & Hr' & Hpost).
    rewrite Hr in Hr'. injection Hr' as <- <-.
    destruct Hpost as [Hdata _ Hle Hsz _ _ _ _ _].
    unfold size in *. by rewrite Hdata.
  - intros nptr nlen.
    destruct (collapse_peek_advances nptr nlen r Hb) as [[] _]. done.
Qed.

Lemma cursor_in_bounds_monotone_witness :
  reachable (after_read (reader_new (bytes "<a><b/></a>"))) ∧
  pos (after_read (reader_new (bytes "<a><b/></a>")))
  ≤ size (after_read (reader_new (bytes "<a><b/></a>"))).
Proof.
  assert (reachable (after_read (reader_new (bytes "<a><b/></a>")))) as Hr.
  { apply (reach_read (reader_new (bytes "<a><b/></a>")) true);
      [apply reach_new | vm_compute; reflexivity]. }
  exact (conj Hr
    (proj1 (cursor_in_bounds_monotone
              (after_read (reader_new (bytes "<a><b/></a>"))) Hr))).
Defined.

(** C7: decoding [&amp;amp;] gives [&amp;], and decoding that gives
    [&]. *)
Theorem decode_amp_twice cs ub :
  decode_entities cs ub (bytes "&amp;amp;") = Some (RString (bytes "&amp;")) ∧
  decode_entities cs ub (bytes "&amp;") = Some (RString (bytes "&")).
Proof. split; vm_compute; reflexivity. Qed.

(** C8: on every byte string the decoder returns, and what it returns
    is a string of at most as many bytes as the source. *)
Theorem decode_never_longer cs ub src :
  ∃ out, decode_entities cs ub src = Some (RString out) ∧
         length out ≤ length src.
Proof. apply decode_entities_length. Qed.

(** C9: [read] returns on every state, and no entry of the attribute
    table it leaves has a name equal to [xmlns] or beginning with
    [xmlns:]; the test that makes the parser skip an attribute is true
    for exactly these names, so that any other name, [xmlnsfoo] among
    them, is not skipped: the element
    [<t xmlnsfoo='k' xmlns='u' xmlns:p='v'/>] is left with the one
    attribute [xmlnsfoo]. *)
Theorem xmlns_attributes_dropped :
  (∀ r, ∃ ok r', reader_read_internal r = Some (ok, r') ∧
     Forall (λ a, ¬ xmlns_name (attr_name a)) (reported r')) ∧
  (∀ pre nm post,
     is_xmlns (pre ++ nm ++ post) (length pre) (length nm) = true
     ↔ xmlns_name nm) ∧
  (λ res, attr_name <$> reported res.2) <$>
    reader_read_internal
      (reader_new (bytes "<t xmlnsfoo='k' xmlns='u' xmlns:p='v'/>"))
  = Some [bytes "xmlnsfoo"].
Proof.
  split_and!.
  - intros r. destruct (read_internal_total r) as (ok & r' & Hr & _).
    exists ok, r'. split; [done|]. by eapply read_internal_no_xmlns.
  - intros pre nm post.
    rewrite is_xmlns_spec by (rewrite !length_app; lia).
    by rewrite slice_middle.
  - vm_compute. reflexivity.
Qed.

(** C10: whatever the hash of the name and whatever the cache holds,
    [intern_name] returns a string made of exactly the [len] bytes at
    [ptr], and leaves a cache of the same kind: a cached string is
    returned only from a slot whose length and bytes are those of the
    name, and every other path builds the string from the name.  The
    caches meant are those in which the bytes of a filled slot are the
    bytes of the string kept in that slot, as the source has it by
    pointing the slot at the buffer of its own frozen string; by
    [reachable_inv] the cache of every state of a reader is one. *)
Theorem intern_name_returns_slice r ptr len :
  cache_wf (name_cache r) →
  (intern_name r ptr len).1 = RString (take len ptr) ∧
  cache_wf (name_cache (intern_name r ptr len).2).
Proof. apply intern_name_correct. Qed.

Lemma intern_name_returns_slice_witness :
  cache_wf (name_cache
              (reader_name (after_read (reader_new (bytes "<ab>")))).2) ∧
  (intern_name (reader_name (after_read (reader_new (bytes "<ab>")))).2
     (bytes "abc") 2).1
  = RString (bytes "ab").
Proof.
  assert (cache_wf (name_cache
            (reader_name (after_read (reader_new (bytes "<ab>")))).2))
    as Hwf.
  { apply reachable_inv, reach_name.
    apply (reach_read (reader_new (bytes "<ab>")) true);
      [apply reach_new | vm_compute; reflexivity]. }
  exact (conj Hwf
    (proj1 (intern_name_returns_slice
              (reader_name (after_read (reader_new (bytes "<ab>")))).2
              (bytes "abc") 2 Hwf))).
Defined.

(** * Further properties of the code *)

(** ** What the scanning of a tag leaves alone *)

Section Scan_closed.

Variable P : FastReader → Prop.
Hypothesis P_pos : ∀ r p, P r → P (set_pos p r).
Hypothesis P_is_empty : ∀ r b, P r → P (set_is_empty b r).
Hypothesis P_push : ∀ r a, P r → P (push_attr a r).
Hypothesis P_name : ∀ r p n, P r → P (set_name p n r).
Hypothesis P_node_type : ∀ r t, P r → P (set_node_type t r).
Hypothesis P_depth : ∀ r d, P r → P (set_depth d r).
Hypothesis P_report_depth : ∀ r d, P r → P (set_report_depth d r).

Lemma parse_attrs_loop_closed fuel r r' :
  parse_attrs_loop fuel r = Some r' → P r → P r'.
Proof.
  revert r. induction fuel as [|fuel IH]; intros r; cbn [parse_attrs_loop];
    case_bool_decide as Hlt; try done; try by intros [= <-].
  assert (P r → P (skip_spaces r)) as Hsp by (intros; by apply P_pos).
  remember (skip_spaces r) as r1 eqn:Hr1.
  destruct (at_end r1) eqn:E1; [intros [= <-]; exact Hsp|].
  destruct (cur r1 =? ">"); [intros [= <-] HP; by apply P_pos, Hsp|].
  destruct (cur r1 =? "/").
  { cbn zeta. case_match; intros [= <-] HP;
      repeat first [apply P_pos | apply P_is_empty]; by apply Hsp. }
  remember (span_len (λ c, negb (attr_name_end c)) (drop (pos r1) (data r1)))
    as k eqn:Hk.
  remember (skip_spaces (set_pos (pos r1 + k) r1)) as r4 eqn:Hr4.
  assert (P r → P r4) as H4.
  { intros HP. subst r4. unfold skip_spaces. by apply P_pos, P_pos, Hsp. }
  destruct (at_end r4 || negb (cur r4 =? "=")).
  { intros H HP. apply (IH _ H). by apply H4. }
  remember (skip_spaces (set_pos (pos r4 + 1) r4)) as r5 eqn:Hr5.
  assert (P r → P r5) as H5.
  { intros HP. subst r5. unfold skip_spaces. by apply P_pos, P_pos, H4. }
  destruct (at_end r5); [intros [= <-]; exact H5|].
  destruct (negb (cur r5 =? "034") && negb (cur r5 =? "'")).
  { intros H HP. apply (IH _ H). by apply H5. }
  cbn zeta.
  destruct (memchr _ _ _ _) as [ve|];
    [|intros [= <-] HP; by apply P_pos, P_pos, H5].
  destruct (is_xmlns _ _ _).
  { intros H HP. apply (IH _ H). by apply P_pos, P_pos, H5. }
  intros H HP. apply (IH _ H). by apply P_push, P_pos, P_pos, H5.
Qed.

Lemma parse_attrs_closed r r' :
  (∀ x, P x → P (set_attr_count 0 x)) →
  parse_attrs r = Some r' → P r → P r'.
Proof.
  intros P_count H HP. unfold parse_attrs in H. cbn zeta in H.
  apply (parse_attrs_loop_closed _ _ _ H). by apply P_is_empty, P_count.
Qed.

Lemma collapse_peek_closed nptr nlen r : P r → P (collapse_peek nptr nlen r).
Proof.
  intros HP. unfold collapse_peek. cbn zeta. case_match; [|done].
  destruct (memchr _ _ _ _); [|by apply P_pos].
  destruct (strip_prefix _ _ _).
  case_match; [by apply P_pos, P_is_empty|by apply P_pos].
Qed.

Lemma read_end_element_closed r : P r → P (read_end_element r).2.
Proof.
  intros HP. unfold read_end_element. cbn zeta.
  destruct (memchr _ _ _ _); [|by apply P_pos, P_pos].
  destruct (strip_prefix _ _ _). cbn [snd].
  apply P_report_depth.
  case_bool_decide; [apply P_depth|];
    by apply P_is_empty, P_node_type, P_name, P_pos, P_pos.
Qed.

Lemma read_start_element_closed r r' :
  (∀ x, P x → P (set_attr_count 0 x)) →
  read_start_element r = Some r' → P r → P r'.
Proof.
  intros P_count H HP. unfold read_start_element in H. cbn zeta in H.
  destruct (strip_prefix _ _ _) as [nptr nlen].
  destruct (parse_attrs _) as [r2|] eqn:Hp; [|done].
  apply parse_attrs_closed in Hp;
    [|exact P_count|by apply P_node_type, P_name, P_pos].
  cbn [mbind option_bind] in H.
  assert (P (if is_empty r2 then r2 else collapse_peek nptr nlen r2)) as H3.
  { destruct (is_empty r2); [done|by apply collapse_peek_closed]. }
  remember (if is_empty r2 then r2 else collapse_peek nptr nlen r2) as r3.
  injection H as <-.
  destruct (is_empty r3); [by apply P_report_depth|by apply P_depth, P_report_depth].
Qed.

End Scan_closed.

(** A property kept by every write of [read]. *)
Lemma read_internal_closed (P : FastReader → Prop) r ok r' :
  (∀ x p, P x → P (set_pos p x)) →
  (∀ x b, P x → P (set_is_empty b x)) →
  (∀ x a, P x → P (push_attr a x)) →
  (∀ x p n, P x → P (set_name p n x)) →
  (∀ x t, P x → P (set_node_type t x)) →
  (∀ x d, P x → P (set_depth d x)) →
  (∀ x d, P x → P (set_report_depth d x)) →
  (∀ x, P x → P (set_attr_count 0 x)) →
  (∀ x p n e, P x → P (set_text p n e x)) →
  (∀ x v, P x → P (set_decoded_text v x)) →
  reader_read_internal r = Some (ok, r') → P r → P r'.
Proof.
  intros P1 P2 P3 P4 P5 P6 P7 P8 P9 P10 H%read_internal_result HP.
  assert (P (set_attr_count 0 (set_text None 0 false (set_decoded_text Qnil r))))
    as HP0 by (by apply P8, P9, P10).
  inversion H as [p|p ? ? ? ? Hok|p r2 ? ? ? Hs|p te]; subst.
  - by apply P1.
  - apply read_end_element_closed; try done. by apply P1.
  - eapply read_start_element_closed; [..|exact Hs|]; try done. by apply P1.
  - by apply P4, P2, P9, P7, P5, P1.
Qed.

Lemma tables_ok_push a r : tables_ok r → tables_ok (push_attr a r).
Proof.
  intros (H1 & H2 & H3). unfold push_attr. case_bool_decide; [|done].
  unfold tables_ok. cbn [attrs attr_count name_cache set_attr_count set_attrs].
  rewrite length_insert. split_and!; [done|lia|done].
Qed.

Lemma intern_probe_length left i idx cache bytes :
  length (intern_probe left i idx cache bytes).2 = length cache.
Proof.
  revert i. induction left as [|left IH]; intros i; cbn [intern_probe]; [done|].
  cbn zeta. destruct (ce_ptr _); [|cbn [snd]; by rewrite length_insert].
  case_match; [done|apply IH].
Qed.

Lemma reachable_tables r : reachable r → tables_ok r.
Proof.
  induction 1 as [doc|r ok r' _ IH Hr|r _ IH|cs ub r v r' _ IH Hr].
  - unfold tables_ok, reader_new. cbn [attrs attr_count name_cache].
    rewrite !length_replicate. split_and!; [done|lia|done].
  - revert IH. apply (read_internal_closed tables_ok r ok r'); try done.
    + intros x a. apply tables_ok_push.
    + intros x (H1 & H2 & H3). split_and!; [done|cbn; lia|done].
  - destruct IH as (H1 & H2 & H3). unfold reader_name.
    destruct (name_ptr r); [|done]. case_bool_decide; [done|].
    unfold intern_name. cbn zeta.
    pose proof (intern_probe_length 8 0
      (Z.land (fnv1a (take (name_len r) l)) NAME_CACHE_MASK) (name_cache r)
      (take (name_len r) l)) as Hl.
    destruct (intern_probe _ _ _ _ _) as [s c]. cbn [snd] in *.
    split_and!; [done|done|]. cbn [name_cache set_name_cache]. congruence.
  - unfold reader_value in Hr. repeat case_match; simplify_option_eq; done.
Qed.

(** X1: In every state of a reader the attribute count is at most
    [MAX_ATTRS], the reported attributes are as many as the count says,
    and the attribute table and the name cache keep their [MAX_ATTRS]
    and [NAME_CACHE_SIZE] entries: the writes to [attrs] and to
    [name_cache] stay inside the two arrays. *)
Theorem tables_stay_in_bounds r :
  reachable r →
  attr_count r ≤ MAX_ATTRS ∧ length (reported r) = attr_count r ∧
  length (attrs r) = MAX_ATTRS ∧ length (name_cache r) = NAME_CACHE_SIZE.
Proof.
  intros (H1 & H2 & H3)%reachable_tables. split_and!; try done.
  unfold reported. rewrite length_take. lia.
Qed.

Lemma tables_stay_in_bounds_witness :
  reachable (after_read (reader_new (bytes "<a b='1' c='2'>"))) ∧
  attr_count (after_read (reader_new (bytes "<a b='1' c='2'>"))) ≤ MAX_ATTRS.
Proof.
  assert (reachable (after_read (reader_new (bytes "<a b='1' c='2'>")))) as Hr.
  { apply (reach_read (reader_new (bytes "<a b='1' c='2'>")) true);
      [apply reach_new | vm_compute; reflexivity]. }
  exact (conj Hr (proj1 (tables_stay_in_bounds _ Hr))).
Defined.

Lemma push_attr_keeps {A} (f : FastReader → A) a r :
  (∀ x v, f (set_attrs v x) = f x) →
  (∀ x n, f (set_attr_count n x) = f x) →
  f (push_attr a r) = f r.
Proof.
  intros H1 H2. unfold push_attr. case_bool_decide; [|done].
  by rewrite H2, H1.
Qed.

Lemma read_end_element_fields x :
  let res := read_end_element x in
  (res.1 = false → res.2 = set_pos (size x) x) ∧
  (res.1 = true →
   node_type res.2 = TYPE_END_ELEMENT ∧ is_empty res.2 = false ∧
   depth res.2 = (if bool_decide (0 < depth x)%Z then depth x - 1 else depth x)%Z ∧
   report_depth res.2 = depth res.2).
Proof.
  unfold read_end_element. cbn zeta.
  destruct (memchr _ _ _ _); [|by split].
  destruct (strip_prefix _ _ _). cbn [fst snd]. split; [done|]. intros _.
  cbn [depth set_is_empty set_node_type set_name set_pos].
  by case_bool_decide.
Qed.

Lemma read_start_element_fields x r' :
  read_start_element x = Some r' →
  node_type r' = TYPE_ELEMENT ∧ report_depth r' = depth x ∧
  depth r' = (if is_empty r' then depth x else wrap_int (depth x + 1)).
Proof.
  intros H.
  assert (node_type r' = TYPE_ELEMENT) as Hty.
  { pose (P := λ y, node_type y = TYPE_ELEMENT).
    unfold read_start_element in H. cbn zeta in H.
    destruct (strip_prefix _ _ _) as [nptr nlen].
    destruct (parse_attrs _) as [r2|] eqn:Hp; [|done].
    apply (parse_attrs_closed P) in Hp; try done.
    2: { intros y a. unfold P. by rewrite (push_attr_keeps node_type). }
    cbn [mbind option_bind] in H.
    assert (P (if is_empty r2 then r2 else collapse_peek nptr nlen r2)) as H3.
    { destruct (is_empty r2); [done|by apply collapse_peek_closed]. }
    remember (if is_empty r2 then r2 else collapse_peek nptr nlen r2) as r3.
    injection H as <-. by destruct (is_empty r3). }
  split; [done|].
  pose (P := λ y, depth y = depth x).
  unfold read_start_element in H. cbn zeta in H.
  destruct (strip_prefix _ _ _) as [nptr nlen].
  destruct (parse_attrs _) as [r2|] eqn:Hp; [|done].
  apply (parse_attrs_closed P) in Hp; try done.
  2: { intros y a. unfold P. by rewrite (push_attr_keeps depth). }
  cbn [mbind option_bind] in H.
  assert (P (if is_empty r2 then r2 else collapse_peek nptr nlen r2)) as H3.
  { destruct (is_empty r2); [done|by apply collapse_peek_closed]. }
  remember (if is_empty r2 then r2 else collapse_peek nptr nlen r2) as r3.
  clear Heqr3. unfold P in H3. injection H as <-.
  destruct (is_empty r3) eqn:E; cbn; rewrite ?E; by rewrite ?H3.
Qed.

Lemma read_result_false r ok r' :
  read_result r ok r' → ok = false → r' = set_pos (pos r') r.
Proof.
  intros [p|p Hp Hb Hlt Hsl|p r2 Hp Hb Hlt Hs|p te Hp Hte1 Hte2 Hte Hbl] Hok;
    try done.
  destruct (read_end_element_fields (set_pos (p + 1) r)) as [Hf _].
  by rewrite (Hf Hok).
Qed.

Lemma read_result_depth r ok r' :
  read_result r ok r' → ok = true →
  (node_type r' = TYPE_ELEMENT ∧ report_depth r' = depth r ∧
   depth r' = (if is_empty r' then depth r else wrap_int (depth r + 1))) ∨
  (node_type r' = TYPE_TEXT ∧ is_empty r' = false ∧
   report_depth r' = depth r ∧ depth r' = depth r) ∨
  (node_type r' = TYPE_END_ELEMENT ∧ is_empty r' = false ∧
   depth r' = (if bool_decide (0 < depth r)%Z then depth r - 1 else depth r)%Z ∧
   report_depth r' = depth r').
Proof.
  intros [p|p Hp Hb Hlt Hsl|p r2 Hp Hb Hlt Hs|p te Hp Hte1 Hte2 Hte Hbl] Hok;
    try done.
  - right; right.
    destruct (read_end_element_fields (set_pos (p + 1) r)) as [_ Ht].
    by apply Ht.
  - left. by apply read_start_element_fields in Hs.
  - right; left. done.
Qed.

(** X2: A call of [read] that returns false leaves the cursor at or
    past the end of the buffer and changes nothing else but what every
    call clears first (the text, the decoded text and the attribute
    count): the node type, the name, the depth and the empty flag of the
    node read before stay in place. *)
Theorem failed_read_keeps_node r r' :
  reader_read_internal r = Some (false, r') →
  size r ≤ pos r' ∧ r' = set_pos (pos r') (cleared r).
Proof.
  intros H.
  destruct (read_internal_total r) as (ok & r2 & Hr & Hd & He & _).
  rewrite H in Hr. injection Hr as <- <-. specialize (He eq_refl).
  split; [unfold size in *; by rewrite <- Hd|].
  apply read_internal_result in H.
  by apply (read_result_false _ _ _ H).
Qed.

Lemma failed_read_keeps_node_witness :
  reader_read_internal (after_read (reader_new (bytes "<a></")))
  = Some (false, after_read (after_read (reader_new (bytes "<a></")))) ∧
  after_read (after_read (reader_new (bytes "<a></")))
  = set_pos (pos (after_read (after_read (reader_new (bytes "<a></")))))
      (cleared (after_read (reader_new (bytes "<a></")))).
Proof.
  assert (reader_read_internal (after_read (reader_new (bytes "<a></")))
          = Some (false, after_read (after_read (reader_new (bytes "<a></")))))
    as H by (vm_compute; reflexivity).
  exact (conj H (proj2 (failed_read_keeps_node _ _ H))).
Defined.

(** X3: After a successful [read] the node is an element, a text
    or the end of an element.  An element and a text are reported at
    the depth the counter had before the call; an element that is not
    empty raises the counter by one, an empty element and a text leave
    it; the end of an element lowers it by one unless it is not
    positive, and is reported at the lowered depth.  Only an element
    can be empty.  The counter is an [int]: this is for a counter that
    is below [INT_MAX], so that it can be raised. *)
Theorem depth_of_node r r' :
  (INT_MIN ≤ depth r < INT_MAX)%Z →
  reader_read_internal r = Some (true, r') →
  (node_type r' = TYPE_ELEMENT ∧ report_depth r' = depth r ∧
   depth r' = (if is_empty r' then depth r else depth r + 1)%Z) ∨
  (node_type r' = TYPE_TEXT ∧ is_empty r' = false ∧
   report_depth r' = depth r ∧ depth r' = depth r) ∨
  (node_type r' = TYPE_END_ELEMENT ∧ is_empty r' = false ∧
   depth r' = (if bool_decide (0 < depth r)%Z then depth r - 1 else depth r)%Z ∧
   report_depth r' = depth r').
Proof.
  intros Hd H%read_internal_result.
  rewrite <- (wrap_int_id (depth r + 1)) by (unfold INT_MIN, INT_MAX in *; lia).
  exact (read_result_depth _ _ _ H eq_refl).
Qed.

Lemma depth_of_node_witness :
  (INT_MIN ≤ depth (reader_new (bytes "<a><b/>")) < INT_MAX)%Z ∧
  reader_read_internal (reader_new (bytes "<a><b/>"))
  = Some (true, after_read (reader_new (bytes "<a><b/>"))) ∧
  depth (after_read (reader_new (bytes "<a><b/>"))) = 1%Z.
Proof.
  assert (INT_MIN ≤ depth (reader_new (bytes "<a><b/>")) < INT_MAX)%Z as Hd
    by (vm_compute; split; [discriminate|reflexivity]).
  assert (reader_read_internal (reader_new (bytes "<a><b/>"))
          = Some (true, after_read (reader_new (bytes "<a><b/>")))) as H
    by (vm_compute; reflexivity).
  refine (conj Hd (conj H _)).
  destruct (depth_of_node _ _ Hd H) as [(_ & _ & Hx)|[(Ht & _)|(Ht & _)]];
    [exact Hx|vm_compute in Ht; discriminate Ht..].
Defined.

Lemma memchr_notin d s c n : memchr d s c n = None ↔ c ∉ slice d s n.
Proof.
  unfold memchr. rewrite fmap_None. rewrite list_find_None.
  rewrite Forall_forall. split.
  - intros H Hin. by apply (H c).
  - intros H x Hx ->. done.
Qed.

Lemma memchr_Some_notin d s c n p :
  memchr d s c n = Some p → c ∉ slice d s (p - s).
Proof.
  unfold memchr. intros H.
  destruct (list_find _ _) as [[i x]|] eqn:E; [|done].
  simpl in H. injection H as <-.
  apply list_find_Some in E as (Hl & -> & Hbefore).
  replace (s + i - s) with i by lia.
  intros Hin. apply list_elem_of_lookup in Hin as [j Hj].
  pose proof Hj as Hj'. apply slice_lookup_Some in Hj' as [Hji _].
  apply (Hbefore j c); [|done|done].
  unfold slice in *. rewrite lookup_take_lt in Hj by done.
  apply slice_lookup_Some in Hl as [Hin _].
  rewrite lookup_take_lt by lia. done.
Qed.

Lemma decode_entities_plain cs ub src :
  "&" ∉ src → decode_entities cs ub src = Some (RString src).
Proof.
  intros H. unfold decode_entities.
  rewrite (proj2 (memchr_notin src 0 "&" (length src))); [done|].
  unfold slice. by rewrite drop_0, firstn_all.
Qed.

Lemma read_result_value cs ub r ok r' :
  read_result r ok r' → text_ptr r = None → decoded_text r = Qnil →
  ∃ v r1, reader_value cs ub r' = Some (v, r1) ∧
    reader_value cs ub r1 = Some (v, r1) ∧
    set_decoded_text Qnil r1 = r' ∧
    ((ok = true ∧ node_type r' = TYPE_TEXT ∧
      ∃ raw, text_of r r' raw ∧ decode_entities cs ub raw = Some v)
     ∨ (¬ (ok = true ∧ node_type r' = TYPE_TEXT) ∧ v = Qnil)).
Proof.
  pose (P := λ y, text_ptr y = None ∧ decoded_text y = Qnil).
  assert (∀ y, P y → set_decoded_text Qnil y = y) as Hsame.
  { intros y [_ Hy]. destruct y; simpl in *. by subst. }
  assert (∀ y, P y → reader_value cs ub y = Some (Qnil, y)) as Hnil.
  { intros y [Hy _]. unfold reader_value. by rewrite Hy. }
  intros [p|p Hp Hb Hlt Hsl|p r2 Hp Hb Hlt Hs|p te Hp Hte1 Hte2 Hte Hbl] Ht Hd.
  - assert (P (set_pos p r)) as HP by done.
    exists Qnil, (set_pos p r). rewrite (Hnil _ HP).
    split_and!; [done|done|by apply Hsame|]. right. split; [|done]. by intros [? _].
  - assert (P (read_end_element (set_pos (p + 1) r)).2) as HP.
    { apply (read_end_element_closed P); done. }
    exists Qnil, (read_end_element (set_pos (p + 1) r)).2. rewrite (Hnil _ HP).
    split_and!; [done|done|by apply Hsame|]. right. split; [|done].
    intros [Hok Hty].
    destruct (read_end_element_fields (set_pos (p + 1) r)) as [_ Hf].
    destruct (Hf Hok) as [Hty' _]. rewrite Hty' in Hty. done.
  - assert (P r2) as HP.
    { apply (read_start_element_closed P) in Hs; try done.
      intros y a. unfold P.
      by rewrite (push_attr_keeps text_ptr), (push_attr_keeps decoded_text). }
    exists Qnil, r2. rewrite (Hnil _ HP).
    split_and!; [done|done|by apply Hsame|]. right. split; [|done].
    intros [_ Hty]. apply read_start_element_fields in Hs as [Hty' _].
    rewrite Hty' in Hty. done.
  - set (raw := slice (data r) p (te - p)).
    assert (length raw = te - p) as Hlen.
    { unfold raw. rewrite slice_full_length; unfold size in *; lia. }
    assert (take (te - p) raw = raw) as Htk by (by rewrite <- Hlen, firstn_all).
    assert (text_of r
      (set_name None 0
         (set_is_empty false
            (set_text (Some raw) (te - p)
               (bool_decide (is_Some (memchr (data r) p "&" (te - p))))
               (set_report_depth (depth r)
                  (set_node_type TYPE_TEXT (set_pos te r)))))) raw) as Htxt.
    { exists p. cbn [pos set_name set_is_empty set_text set_report_depth
                     set_node_type set_pos].
      split_and!; try done.
      - destruct (memchr (data r) p "<" (size r - p)) as [q|] eqn:M;
          simpl in Hte; subst te.
        + by apply memchr_Some_notin in M.
        + by apply memchr_notin in M.
      - destruct (memchr (data r) p "<" (size r - p)) as [q|] eqn:M;
          simpl in Hte; subst te; [right|by left].
        by apply memchr_Some in M as (_ & _ & _ & M). }
    fold raw. fold raw in Htxt.
    destruct (memchr (data r) p "&" (te - p)) as [a|] eqn:Ma.
    + destruct (decode_entities_length cs ub raw) as (out & Hdec & _).
      exists (RString out).
      eexists. unfold reader_value at 1.
      cbn [text_ptr text_len text_has_entity decoded_text set_name set_is_empty
           set_text set_report_depth set_node_type set_pos].
      rewrite bool_decide_eq_false_2 by lia.
      rewrite bool_decide_eq_true_2 by (by eexists).
      rewrite Hd, Htk, Hdec. cbn [mbind option_bind].
      split_and!; [done| | |].
      * unfold reader_value. cbn. rewrite bool_decide_eq_false_2 by lia. done.
      * destruct r; simpl in *. by subst.
      * left. split_and!; [done|done|]. by exists raw.
    + exists (RString raw). eexists. unfold reader_value at 1.
      cbn [text_ptr text_len text_has_entity decoded_text set_name set_is_empty
           set_text set_report_depth set_node_type set_pos].
      rewrite bool_decide_eq_false_2 by lia.
      rewrite bool_decide_eq_false_2 by (by intros [? ?]).
      unfold rb_enc_str_new. rewrite Htk.
      split_and!; [done| | |].
      * unfold reader_value. cbn. rewrite bool_decide_eq_false_2 by lia.
        unfold rb_enc_str_new. by rewrite Htk.
      * destruct r; simpl in *. by subst.
      * left. split_and!; [done|done|]. exists raw. split; [done|].
        apply decode_entities_plain. by apply memchr_notin in Ma.
Qed.

(** X4: After any [read], [value] returns; calling it again
    returns the same value and changes nothing more, and the first call
    has changed only the decoded text kept in the reader.  After a
    successful [read] of a text the value is the decoding of the bytes
    of the text, which end at the cursor, hold no [<] and are not all
    white space; after an element, the end of an element or a failed
    [read] the value is nil. *)
Theorem value_of_node cs ub r ok r' :
  reader_read_internal r = Some (ok, r') →
  ∃ v r1, reader_value cs ub r' = Some (v, r1) ∧
    reader_value cs ub r1 = Some (v, r1) ∧
    set_decoded_text Qnil r1 = r' ∧
    ((ok = true ∧ node_type r' = TYPE_TEXT ∧
      ∃ raw, text_of r r' raw ∧ decode_entities cs ub raw = Some v)
     ∨ (¬ (ok = true ∧ node_type r' = TYPE_TEXT) ∧ v = Qnil)).
Proof.
  intros H%read_internal_result.
  exact (read_result_value cs ub _ _ _ H eq_refl eq_refl).
Qed.

Lemma value_of_node_witness :
  reader_read_internal (reader_new (bytes "a&lt;b<c/>"))
  = Some (true, after_read (reader_new (bytes "a&lt;b<c/>"))) ∧
  ∃ v r1,
    reader_value true 64 (after_read (reader_new (bytes "a&lt;b<c/>")))
    = Some (v, r1) ∧
    reader_value true 64 r1 = Some (v, r1).
Proof.
  assert (reader_read_internal (reader_new (bytes "a&lt;b<c/>"))
          = Some (true, after_read (reader_new (bytes "a&lt;b<c/>")))) as H
    by (vm_compute; reflexivity).
  split; [exact H|].
  destruct (value_of_node true 64 _ _ _ H) as (v & r1 & H1 & H2 & _).
  exact (ex_intro _ v (ex_intro _ r1 (conj H1 H2))).
Defined.

Lemma intern_probe_keeps left i idx cache bytes slot e :
  cache !! slot = Some e → ce_ptr e ≠ None →
  (intern_probe left i idx cache bytes).2 !! slot = Some e.
Proof.
  intros Hs He. revert i. induction left as [|left IH]; intros i;
    cbn [intern_probe]; [done|]. cbn zeta.
  destruct (ce_ptr (default empty_entry (cache !! _))) eqn:Hp.
  - case_match; [done|apply IH].
  - cbn [snd]. rewrite list_lookup_insert_ne; [done|].
    intros <-. rewrite Hs in Hp. simpl in Hp. by rewrite Hp in He.
Qed.

Lemma intern_probe_again left i idx cache bytes :
  intern_probe left i idx (intern_probe left i idx cache bytes).2 bytes
  = intern_probe left i idx cache bytes.
Proof.
  revert i. induction left as [|left IH]; intros i; cbn [intern_probe]; [done|].
  cbn zeta. set (slot := Z.to_nat _).
  destruct (cache !! slot) as [e|] eqn:Hl; cbn [default from_option id].
  - destruct (ce_ptr e) as [buf|] eqn:Hp.
    + destruct (bool_decide (ce_len e = length bytes) && _) eqn:Hhit.
      * cbn [snd]. by rewrite Hl; cbn [default from_option id]; rewrite Hp, Hhit.
      * rewrite (intern_probe_keeps left (i + 1) idx cache bytes slot e Hl)
          by (by rewrite Hp).
        cbn [default from_option id]. rewrite Hp, Hhit. apply IH.
    + cbn [snd]. rewrite list_lookup_insert_eq by (by eapply lookup_lt_Some).
      cbn [default from_option id ce_ptr ce_len rb_str].
      rewrite bool_decide_eq_true_2 by done.
      rewrite firstn_all, bool_decide_eq_true_2 by done. done.
  - cbn [ce_ptr empty_entry snd].
    rewrite list_insert_ge by (by apply lookup_ge_None).
    rewrite Hl. cbn [default from_option id ce_ptr empty_entry].
    by rewrite list_insert_ge by (by apply lookup_ge_None).
Qed.

(** X5: Interning the same name a second time returns the same
    string and leaves the reader as the first call left it, and no call
    of [intern_name] changes a slot of the cache that is filled: a name
    once cached is never replaced. *)
Theorem intern_name_stable r ptr len :
  intern_name (intern_name r ptr len).2 ptr len = intern_name r ptr len ∧
  ∀ slot e, name_cache r !! slot = Some e → ce_ptr e ≠ None →
            name_cache (intern_name r ptr len).2 !! slot = Some e.
Proof.
  unfold intern_name. cbn zeta.
  pose proof (intern_probe_again 8 0
    (Z.land (fnv1a (take len ptr)) NAME_CACHE_MASK) (name_cache r)
    (take len ptr)) as Ha.
  pose proof (intern_probe_keeps 8 0
    (Z.land (fnv1a (take len ptr)) NAME_CACHE_MASK) (name_cache r)
    (take len ptr)) as Hk.
  destruct (intern_probe 8 0 _ (name_cache r) _) as [s c] eqn:E.
  cbn [snd name_cache set_name_cache] in *. rewrite Ha. split; [done|].
  intros slot e. apply Hk.
Qed.

Lemma read_internal_at_end r :
  size r ≤ pos r → reader_read_internal r = Some (false, cleared r).
Proof.
  intros Hb. unfold reader_read_internal. cbn zeta. fold (cleared r).
  destruct (size _ - pos _); cbn [read_loop];
    by rewrite (proj2 (at_end_true _)) by exact Hb.
Qed.

(** X6: After [close] every call of [read] returns false.  The
    first one clears what a call of [read] clears (the text, the
    decoded text and the count of attributes) and leaves the rest of
    the reader as [close] left it, the name pointer too; from then on a
    call changes nothing, the value is nil and every attribute lookup
    is nil. *)
Theorem read_after_close r :
  ∃ c, closed_read (reader_close r) = Some (false, c) ∧
       closed_state c = cleared (set_data [] r) ∧
       closed_read c = Some (false, c) ∧
       closed_value c = Some Qnil ∧
       (∀ k, closed_attribute c k = Some Qnil) ∧
       closed_name c = closed_name (reader_close r).
Proof.
  exists (Closed (cleared (set_data [] r))).
  unfold closed_read, reader_close. cbn [closed_state].
  rewrite !read_internal_at_end by (unfold size; simpl; lia).
  done.
Qed.

Lemma decode_loop_fuel cs ub fuel fuel' src p buf :
  length src - p ≤ fuel → length src - p ≤ fuel' →
  decode_loop cs ub fuel src p buf = decode_loop cs ub fuel' src p buf.
Proof.
  revert fuel' p buf. induction fuel as [|fuel IH]; intros fuel' p buf H1 H2;
    destruct fuel' as [|fuel']; cbn [decode_loop];
    case_bool_decide as Hp; try lia; try done.
  destruct (memchr src p "&" _) as [amp|] eqn:Ma; [|done].
  apply memchr_Some in Ma as (A1 & A2 & A3 & _).
  destruct (memchr src amp ";" _) as [semi|] eqn:Ms.
  - apply memchr_Some in Ms as (S1 & S2 & S3 & _). apply IH; lia.
  - apply IH; lia.
Qed.

Lemma decode_loop_buf cs ub fuel src p b1 b2 :
  decode_loop cs ub fuel src p (b1 ++ b2)
  = (b1 ++.) <$> decode_loop cs ub fuel src p b2.
Proof.
  revert p b2. induction fuel as [|fuel IH]; intros p b2;
    cbn [decode_loop]; case_bool_decide as Hp; try done.
  destruct (memchr src p "&" _) as [amp|] eqn:Ma;
    [|by rewrite <- (assoc_L (++))].
  assert ((if bool_decide (p < amp) then (b1 ++ b2) ++ slice src p (amp - p)
           else b1 ++ b2)
          = b1 ++ (if bool_decide (p < amp) then b2 ++ slice src p (amp - p)
                   else b2)) as ->.
  { case_bool_decide; [by rewrite <- (assoc_L (++))|done]. }
  destruct (memchr src amp ";" _) as [semi|];
    rewrite <- (assoc_L (++)); apply IH.
Qed.

Lemma decode_one_shift cs ub pre src amp semi :
  decode_one cs ub (pre ++ src) (length pre + amp) (length pre + semi)
  = decode_one cs ub src amp semi.
Proof.
  unfold decode_one. cbn zeta.
  replace (length pre + semi - (length pre + amp) - 1) with (semi - amp - 1) by lia.
  replace (length pre + semi - (length pre + amp) + 1) with (semi - amp + 1) by lia.
  replace (length pre + amp + 1) with (length pre + (amp + 1)) by lia.
  replace (length pre + (amp + 1) + 1) with (length pre + (amp + 1 + 1)) by lia.
  replace (length pre + (amp + 1) + 2) with (length pre + (amp + 1 + 2)) by lia.
  by rewrite !memcmp_lit_shift, !byte_at_shift, !slice_shift.
Qed.

Lemma decode_loop_shift cs ub pre fuel src p buf :
  decode_loop cs ub fuel (pre ++ src) (length pre + p) buf
  = decode_loop cs ub fuel src p buf.
Proof.
  revert p buf. induction fuel as [|fuel IH]; intros p buf;
    cbn [decode_loop]; rewrite length_app, lt_shift;
    case_bool_decide as Hp; try done.
  rewrite !sub_shift, memchr_shift, slice_shift.
  destruct (memchr src p "&" _) as [amp|] eqn:Ma; simpl; [|done].
  rewrite lt_shift, !sub_shift, slice_shift, memchr_shift.
  destruct (memchr src amp ";" _) as [semi|] eqn:Ms; simpl.
  - rewrite decode_one_shift.
    replace (length pre + semi + 1) with (length pre + (semi + 1)) by lia.
    apply IH.
  - rewrite slice_shift.
    replace (length pre + amp + 1) with (length pre + (amp + 1)) by lia.
    apply IH.
Qed.

Lemma memchr_step d p c n :
  p < length d → byte_at d p ≠ c → memchr d p c (S n) = memchr d (S p) c n.
Proof.
  intros Hp Hc. unfold memchr.
  rewrite (slice_cons d p n (byte_at d p)) by (by apply lookup_byte_at).
  cbn [list_find]. rewrite decide_False by done.
  destruct (list_find _ _) as [[i x]|]; simpl; [|done].
  f_equal. lia.
Qed.

Lemma memchr_here d p c n :
  p < length d → byte_at d p = c → memchr d p c (S n) = Some p.
Proof.
  intros Hp Hc. unfold memchr.
  rewrite (slice_cons d p n (byte_at d p)) by (by apply lookup_byte_at).
  cbn [list_find]. rewrite decide_True by done. simpl. f_equal. lia.
Qed.

Lemma decode_from_end cs ub src p buf :
  length src ≤ p → decode_from cs ub src p buf = Some buf.
Proof.
  intros H. unfold decode_from. destruct (length src - p); cbn [decode_loop];
    by rewrite bool_decide_eq_false_2 by lia.
Qed.

Lemma decode_from_plain cs ub src p buf :
  p < length src → byte_at src p ≠ "&" →
  decode_from cs ub src p buf
  = decode_from cs ub src (S p) (buf ++ [byte_at src p]).
Proof.
  intros Hp Hc. unfold decode_from.
  destruct (length src - p) as [|n] eqn:En; [lia|].
  replace (length src - S p) with n by lia.
  rewrite (decode_loop_fuel cs ub n (S n) src (S p)) by lia.
  cbn [decode_loop]. rewrite bool_decide_eq_true_2 by done.
  rewrite En, memchr_step by done.
  replace (length src - S p) with n by lia.
  assert (slice src p (S n) = byte_at src p :: slice src (S p) n) as Hsl
    by (by apply slice_cons, lookup_byte_at).
  case_bool_decide as Hp1.
  2:{ assert (n = 0) as -> by lia.
      unfold memchr. rewrite slice_0. simpl. by rewrite Hsl, slice_0. }
  destruct (memchr src (S p) "&" n) as [amp|] eqn:Ma.
  2:{ rewrite Hsl. by rewrite <- (assoc_L (++)). }
  apply memchr_Some in Ma as (A1 & A2 & A3 & _).
  rewrite bool_decide_eq_true_2 by lia.
  assert ((buf ++ slice src p (amp - p))
          = (if bool_decide (S p < amp)
             then (buf ++ [byte_at src p]) ++ slice src (S p) (amp - S p)
             else buf ++ [byte_at src p])) as ->; [|done].
  replace (amp - p) with (S (amp - S p)) by lia.
  rewrite (slice_cons src p _ (byte_at src p)) by (by apply lookup_byte_at).
  case_bool_decide.
  - by rewrite <- (assoc_L (++)).
  - replace (amp - S p) with 0 by lia. by rewrite slice_0.
Qed.

Lemma decode_from_ref cs ub src p buf semi :
  p < length src → byte_at src p = "&" →
  memchr src p ";" (length src - p) = Some semi →
  decode_from cs ub src p buf
  = decode_from cs ub src (semi + 1) (buf ++ decode_one cs ub src p semi).
Proof.
  intros Hp Hc Hs. unfold decode_from.
  destruct (length src - p) as [|n] eqn:En; [lia|].
  cbn [decode_loop]. rewrite bool_decide_eq_true_2 by done.
  rewrite En, memchr_here by done.
  rewrite bool_decide_eq_false_2 by lia.
  rewrite En, Hs.
  apply memchr_Some in Hs as (S1 & S2 & S3 & _).
  apply decode_loop_fuel; lia.
Qed.

Lemma decode_from_bare cs ub src p buf :
  p < length src → byte_at src p = "&" →
  memchr src p ";" (length src - p) = None →
  decode_from cs ub src p buf = decode_from cs ub src (p + 1) (buf ++ ["&"]).
Proof.
  intros Hp Hc Hs. unfold decode_from.
  destruct (length src - p) as [|n] eqn:En; [lia|].
  cbn [decode_loop]. rewrite bool_decide_eq_true_2 by done.
  rewrite En, memchr_here by done.
  rewrite bool_decide_eq_false_2 by lia.
  rewrite En, Hs.
  rewrite (slice_cons src p 0 "&") by (rewrite <- Hc; by apply lookup_byte_at).
  rewrite slice_0.
  apply decode_loop_fuel; lia.
Qed.

Lemma decode_from_shift cs ub pre src p buf :
  decode_from cs ub (pre ++ src) (length pre + p) buf
  = decode_from cs ub src p buf.
Proof.
  unfold decode_from. rewrite length_app, sub_shift. apply decode_loop_shift.
Qed.

Lemma decode_from_buf cs ub src p b1 b2 :
  decode_from cs ub src p (b1 ++ b2) = (b1 ++.) <$> decode_from cs ub src p b2.
Proof. apply decode_loop_buf. Qed.

Lemma decode_entities_from cs ub src :
  decode_entities cs ub src = RString <$> decode_from cs ub src 0 [].
Proof.
  unfold decode_entities, decode_from. rewrite Nat.sub_0_r.
  destruct (memchr src 0 "&" (length src)) as [a|] eqn:M; [done|].
  remember (length src) as n eqn:Hn. destruct n as [|n].
  { symmetry in Hn. apply nil_length_inv in Hn as ->. done. }
  cbn [decode_loop]. rewrite <- Hn, bool_decide_eq_true_2 by lia.
  rewrite Nat.sub_0_r, M. cbn [app]. unfold slice.
  by rewrite drop_0, Hn, firstn_all.
Qed.

Lemma name_test (name rest : list ascii) lit k :
  k = String.length lit →
  bool_decide (length name = k)
  && bool_decide (take k (name ++ rest) = take k (list_ascii_of_string lit))
  = bool_decide (name = bytes lit).
Proof.
  intros ->. unfold bytes.
  assert (length (list_ascii_of_string lit) = String.length lit) as Hl.
  { induction lit; simpl; congruence. }
  rewrite <- Hl, firstn_all.
  destruct (decide (name = list_ascii_of_string lit)) as [->|Hne].
  - rewrite take_app_length, !bool_decide_eq_true_2; done.
  - rewrite (bool_decide_eq_false_2 (name = _)) by done.
    case_bool_decide as Hlen; [|done]. simpl.
    rewrite <- Hlen, take_app_length. by rewrite bool_decide_eq_false_2.
Qed.

Lemma decode_one_entity cs ub name post :
  decode_one cs ub ("&" :: name ++ ";" :: post) 0 (S (length name))
  = entity_text cs ub name.
Proof.
  unfold decode_one, entity_text, memcmp_lit. cbn zeta.
  replace (S (length name) - 0 - 1) with (length name) by lia.
  change (slice ("&" :: name ++ ";" :: post) (0 + 1) ?k)
    with (take k (name ++ ";" :: post)).
  rewrite !name_test by done.
  repeat match goal with
  | |- context [decide (name = ?l)] =>
      destruct (decide (name = l)) as [->|?];
        [by rewrite bool_decide_eq_true_2|
         rewrite (bool_decide_eq_false_2 (name = l)) by done]
  end.
  assert (slice ("&" :: name ++ ";" :: post) 0 (S (length name) - 0 + 1)
          = "&" :: name ++ [";"]) as Hlit.
  { unfold slice. rewrite drop_0. replace (S (length name) - 0 + 1)
      with (S (length name + 1)) by lia. simpl. f_equal.
    rewrite take_app_ge by lia.
    replace (length name + 1 - length name) with 1 by lia. done. }
  destruct name as [|c [|x digits]].
  - done.
  - rewrite bool_decide_eq_false_2 by (simpl; lia). done.
  - rewrite bool_decide_eq_true_2 by (simpl; lia).
    change (byte_at ("&" :: (c :: x :: digits) ++ ";" :: post) (0 + 1)) with c.
    change (byte_at ("&" :: (c :: x :: digits) ++ ";" :: post) (0 + 1 + 1))
      with x.
    destruct (c =? "#"); [|done]. cbn [andb].
    assert (slice ("&" :: (c :: x :: digits) ++ ";" :: post) (0 + 1 + 2)
              (length (c :: x :: digits) - 2) = digits) as ->.
    { unfold slice. simpl. rewrite Nat.sub_0_r, drop_0. by rewrite take_app_length. }
    assert (slice ("&" :: (c :: x :: digits) ++ ";" :: post) (0 + 1 + 1)
              (length (c :: x :: digits) - 1) = x :: digits) as ->.
    { unfold slice. simpl. by rewrite take_app_length. }
    by destruct ((x =? "x") || (x =? "X")).
Qed.

Lemma decode_from_cons_plain cs ub c X buf :
  c ≠ "&" →
  decode_from cs ub (c :: X) 0 buf = decode_from cs ub X 0 (buf ++ [c]).
Proof.
  intros Hc. rewrite decode_from_plain by (simpl; try lia; done).
  apply (decode_from_shift cs ub [c] X 0).
Qed.

Lemma decode_from_cons_ref cs ub name X buf :
  ";" ∉ name →
  decode_from cs ub ("&" :: name ++ ";" :: X) 0 buf
  = decode_from cs ub X 0 (buf ++ entity_text cs ub name).
Proof.
  intros Hn.
  rewrite (decode_from_ref cs ub _ 0 buf (S (length name))); [|simpl; lia|done|].
  - rewrite decode_one_entity.
    replace ("&" :: name ++ ";" :: X) with (("&" :: name ++ [";"]) ++ X)
      by (simpl; by rewrite <- (assoc_L (++))).
    replace (S (length name) + 1) with (length ("&" :: name ++ [";"]) + 0)
      by (simpl; rewrite length_app; simpl; lia).
    apply decode_from_shift.
  - apply (memchr_first _ 0 ";" _ ("&" :: name) X).
    + unfold slice. rewrite drop_0, Nat.sub_0_r, firstn_all. done.
    + rewrite not_elem_of_cons. done.
Qed.

Lemma decode_from_cons_bare cs ub X buf :
  ";" ∉ X →
  decode_from cs ub ("&" :: X) 0 buf = decode_from cs ub X 0 (buf ++ ["&"]).
Proof.
  intros Hn.
  rewrite decode_from_bare; [|simpl; lia|done|].
  - apply (decode_from_shift cs ub ["&"] X 0).
  - apply memchr_notin. unfold slice. rewrite drop_0, Nat.sub_0_r, firstn_all.
    rewrite not_elem_of_cons. done.
Qed.

Lemma decode_entities_prepend cs ub src X out buf :
  decode_from cs ub src 0 [] = decode_from cs ub X 0 buf →
  decode_entities cs ub X = Some (RString out) →
  decode_entities cs ub src = Some (RString (buf ++ out)).
Proof.
  rewrite !decode_entities_from. intros ->.
  rewrite <- (app_nil_r buf) at 1. rewrite decode_from_buf.
  destruct (decode_from cs ub X 0 []); simpl; [|done]. by intros [= ->].
Qed.

(** X7: [decode_entities] works from left to right.  In front
    of an input that decodes to [out], a byte other than [&] is copied;
    a reference [&name;] whose name holds no [;] is replaced by what
    [entity_text] gives for the name (the five named characters, the
    UTF-8 bytes of a numeric reference, the reference itself when it is
    unknown); and an [&] after which no [;] follows is copied. *)
Theorem decode_entities_equations cs ub X out :
  decode_entities cs ub X = Some (RString out) →
  (∀ c, c ≠ "&" →
        decode_entities cs ub (c :: X) = Some (RString (c :: out))) ∧
  (∀ name, ";" ∉ name →
     decode_entities cs ub ("&" :: name ++ ";" :: X)
     = Some (RString (entity_text cs ub name ++ out))) ∧
  (";" ∉ X → decode_entities cs ub ("&" :: X) = Some (RString ("&" :: out))).
Proof.
  intros HX. split_and!.
  - intros c Hc. apply (decode_entities_prepend cs ub _ X out [c]); [|done].
    by apply decode_from_cons_plain.
  - intros name Hn.
    apply (decode_entities_prepend cs ub _ X out (entity_text cs ub name));
      [|done].
    by apply decode_from_cons_ref.
  - intros Hn. apply (decode_entities_prepend cs ub _ X out ["&"]); [|done].
    by apply decode_from_cons_bare.
Qed.

Lemma decode_entities_equations_witness :
  decode_entities true 64 (bytes "b") = Some (RString (bytes "b")) ∧
  decode_entities true 64 ("&" :: bytes "lt" ++ ";" :: bytes "b")
  = Some (RString (entity_text true 64 (bytes "lt") ++ bytes "b")).
Proof.
  assert (decode_entities true 64 (bytes "b") = Some (RString (bytes "b")))
    as H by (vm_compute; reflexivity).
  split; [exact H|].
  apply (proj1 (proj2 (decode_entities_equations true 64 _ _ H))).
  rewrite list_elem_of_In. unfold bytes. simpl. intuition discriminate.
Defined.

Ltac notin_lit :=
  rewrite list_elem_of_In; unfold bytes; simpl; intuition discriminate.

Lemma decode_from_escape_char cs ub c X buf :
  decode_from cs ub (xml_escape_char c ++ X) 0 buf
  = decode_from cs ub X 0 (buf ++ [c]).
Proof.
  unfold xml_escape_char.
  destruct (c =? "&") eqn:E1.
  { apply Ascii.eqb_eq in E1 as ->.
    apply (decode_from_cons_ref cs ub (bytes "amp") X buf).
    notin_lit. }
  destruct (c =? "<") eqn:E2.
  { apply Ascii.eqb_eq in E2 as ->.
    apply (decode_from_cons_ref cs ub (bytes "lt") X buf).
    notin_lit. }
  destruct (c =? ">") eqn:E3.
  { apply Ascii.eqb_eq in E3 as ->.
    apply (decode_from_cons_ref cs ub (bytes "gt") X buf).
    notin_lit. }
  destruct (c =? "034") eqn:E4.
  { apply Ascii.eqb_eq in E4 as ->.
    apply (decode_from_cons_ref cs ub (bytes "quot") X buf).
    notin_lit. }
  destruct (c =? "'") eqn:E5.
  { apply Ascii.eqb_eq in E5 as ->.
    apply (decode_from_cons_ref cs ub (bytes "apos") X buf).
    notin_lit. }
  apply decode_from_cons_plain. by apply Ascii.eqb_neq.
Qed.

Lemma decode_from_escape cs ub s X buf :
  decode_from cs ub (xml_escape s ++ X) 0 buf
  = decode_from cs ub X 0 (buf ++ s).
Proof.
  revert buf. induction s as [|c s IH]; intros buf.
  - by rewrite app_nil_r.
  - unfold xml_escape. cbn [flat_map]. fold (xml_escape s).
    rewrite <- (assoc_L (++)), decode_from_escape_char, IH.
    by rewrite <- (assoc_L (++)).
Qed.

(** X8: Decoding undoes escaping: for every byte string [s],
    the string in which [&], [<], [>], the double quote and the
    apostrophe are written as [&amp;], [&lt;], [&gt;], [&quot;] and
    [&apos;] decodes to [s]. *)
Theorem decode_xml_escape cs ub s :
  decode_entities cs ub (xml_escape s) = Some (RString s).
Proof.
  rewrite decode_entities_from.
  rewrite <- (app_nil_r (xml_escape s)), decode_from_escape.
  by rewrite decode_from_end.
Qed.

Lemma uchar_to_char z : uchar (to_char z) = (z mod 256)%Z.
Proof.
  unfold uchar, to_char.
  assert (0 ≤ z mod 256 < 256)%Z as Hz by (apply Z.mod_pos_bound; lia).
  rewrite N_ascii_embedding by lia. lia.
Qed.

Lemma lor_high_low a k x :
  (0 ≤ k)%Z → (0 ≤ x < 2 ^ k)%Z → Z.lor (a * 2 ^ k) x = (a * 2 ^ k + x)%Z.
Proof.
  intros Hk Hx.
  assert (Z.land (a * 2 ^ k) x = 0%Z) as Hl.
  { apply Z.bits_inj'. intros n Hn. rewrite Z.land_spec, Z.bits_0.
    destruct (Z.lt_ge_cases n k) as [Hlt|Hge].
    - by rewrite Z.mul_pow2_bits_low.
    - destruct (decide (x = 0%Z)) as [->|Hx0].
      { by rewrite Z.bits_0, andb_false_r. }
      rewrite (Z.bits_above_log2 x n), andb_false_r; [done|lia|].
      apply Z.log2_lt_pow2; [lia|].
      eapply Z.lt_le_trans; [apply Hx|]. apply Z.pow_le_mono_r; lia. }
  by rewrite <- Z.lxor_lor, <- Z.add_nocarry_lxor.
Qed.

Lemma land_63 y : Z.land y 63 = (y mod 64)%Z.
Proof. apply (Z.land_ones y 6). lia. Qed.

Lemma lor_128 x : (0 ≤ x < 64)%Z → Z.lor 128 x = (128 + x)%Z.
Proof. intros H. apply (lor_high_low 2 6); lia. Qed.

Lemma lor_192 x : (0 ≤ x < 64)%Z → Z.lor 192 x = (192 + x)%Z.
Proof. intros H. apply (lor_high_low 3 6); lia. Qed.

Lemma lor_224 x : (0 ≤ x < 32)%Z → Z.lor 224 x = (224 + x)%Z.
Proof. intros H. apply (lor_high_low 7 5); lia. Qed.

Lemma lor_240 x : (0 ≤ x < 16)%Z → Z.lor 240 x = (240 + x)%Z.
Proof. intros H. apply (lor_high_low 15 4); lia. Qed.

Lemma cont_byte y :
  (0 ≤ y)%Z →
  uchar (to_char (Z.lor 128 (Z.land y 63))) = (128 + y mod 64)%Z.
Proof.
  intros Hy. rewrite uchar_to_char, land_63.
  assert (0 ≤ y mod 64 < 64)%Z by (apply Z.mod_pos_bound; lia).
  rewrite lor_128 by done. apply Z.mod_small. lia.
Qed.

(** X9: For a code point below 2^21 the bytes produced for a
    numeric reference are its UTF-8 encoding: one byte below 128, two
    below 2048, three below 65536 and four otherwise, a lead byte that
    tells the length followed by continuation bytes, from which the
    code point is read back. *)
Theorem utf8_encode_value cp :
  (0 ≤ cp < 2 ^ 21)%Z →
  utf8_value (utf8_encode cp) = Some cp ∧
  length (utf8_encode cp)
  = (if (cp <? 128)%Z then 1 else if (cp <? 2048)%Z then 2
     else if (cp <? 65536)%Z then 3 else 4).
Proof.
  intros [H0 H1]. change (2 ^ 21)%Z with 2097152%Z in H1.
  unfold utf8_encode, utf8_value.
  destruct (cp <? 128)%Z eqn:E1.
  { apply Z.ltb_lt in E1. cbn [fmap list_fmap length].
    rewrite uchar_to_char, Z.mod_small by lia.
    by rewrite (proj2 (Z.ltb_lt _ _)) by lia. }
  apply Z.ltb_ge in E1.
  destruct (cp <? 2048)%Z eqn:E2.
  { apply Z.ltb_lt in E2. cbn [fmap list_fmap length].
    rewrite cont_byte by lia. rewrite uchar_to_char.
    rewrite Z.shiftr_div_pow2 by lia. change (2 ^ 6)%Z with 64%Z.
    assert (0 ≤ cp / 64 < 32)%Z by (split; [apply Z.div_pos|apply Z.div_lt_upper_bound]; lia).
    assert (0 ≤ cp mod 64 < 64)%Z by (apply Z.mod_pos_bound; lia).
    rewrite lor_192, Z.mod_small by lia.
    unfold utf8_cont.
    repeat (rewrite (proj2 (Z.leb_le _ _)) by lia).
    repeat (rewrite (proj2 (Z.ltb_lt _ _)) by lia).
    cbn [andb]. split; [|done]. f_equal.
    pose proof (Z.div_mod cp 64 ltac:(lia)). lia. }
  apply Z.ltb_ge in E2.
  destruct (cp <? 65536)%Z eqn:E3.
  { apply Z.ltb_lt in E3. cbn [fmap list_fmap length].
    rewrite !cont_byte by (try apply Z.shiftr_nonneg; lia).
    rewrite uchar_to_char.
    rewrite !Z.shiftr_div_pow2 by lia.
    change (2 ^ 6)%Z with 64%Z. change (2 ^ 12)%Z with 4096%Z.
    assert (0 ≤ cp / 4096 < 16)%Z by (split; [apply Z.div_pos|apply Z.div_lt_upper_bound]; lia).
    assert (0 ≤ cp mod 64 < 64)%Z by (apply Z.mod_pos_bound; lia).
    assert (0 ≤ (cp / 64) mod 64 < 64)%Z by (apply Z.mod_pos_bound; lia).
    rewrite lor_224, Z.mod_small by lia.
    unfold utf8_cont.
    repeat (rewrite (proj2 (Z.leb_le _ _)) by lia).
    repeat (rewrite (proj2 (Z.ltb_lt _ _)) by lia).
    cbn [andb]. split; [|done]. f_equal.
    pose proof (Z.div_mod cp 64 ltac:(lia)). pose proof (Z.div_mod (cp / 64) 64 ltac:(lia)).
    assert (cp / 64 / 64 = cp / 4096)%Z by (rewrite Z.div_div by lia; done).
    lia. }
  apply Z.ltb_ge in E3.
  cbn [fmap list_fmap length].
  rewrite !cont_byte by (try apply Z.shiftr_nonneg; lia).
  rewrite uchar_to_char.
  rewrite !Z.shiftr_div_pow2 by lia.
  change (2 ^ 6)%Z with 64%Z. change (2 ^ 12)%Z with 4096%Z.
  change (2 ^ 18)%Z with 262144%Z.
  assert (0 ≤ cp / 262144 < 8)%Z by (split; [apply Z.div_pos|apply Z.div_lt_upper_bound]; lia).
  assert (0 ≤ cp mod 64 < 64)%Z by (apply Z.mod_pos_bound; lia).
  assert (0 ≤ (cp / 64) mod 64 < 64)%Z by (apply Z.mod_pos_bound; lia).
  assert (0 ≤ (cp / 4096) mod 64 < 64)%Z by (apply Z.mod_pos_bound; lia).
  rewrite lor_240, Z.mod_small by lia.
  unfold utf8_cont.
  repeat (rewrite (proj2 (Z.leb_le _ _)) by lia).
  repeat (rewrite (proj2 (Z.ltb_lt _ _)) by lia).
  cbn [andb]. split; [|done]. f_equal.
  pose proof (Z.div_mod cp 64 ltac:(lia)). pose proof (Z.div_mod (cp / 64) 64 ltac:(lia)).
  pose proof (Z.div_mod (cp / 4096) 64 ltac:(lia)).
  assert (cp / 64 / 64 = cp / 4096)%Z by (rewrite Z.div_div by lia; done).
  assert (cp / 4096 / 64 = cp / 262144)%Z by (rewrite Z.div_div by lia; done).
  lia.
Qed.

Lemma utf8_encode_value_witness :
  (0 ≤ 8364 < 2 ^ 21)%Z ∧ utf8_value (utf8_encode 8364) = Some 8364%Z.
Proof.
  assert (0 ≤ 8364 < 2 ^ 21)%Z as H by lia.
  exact (conj H (proj1 (utf8_encode_value 8364 H))).
Defined.

Lemma parse_dec_digits cs ub ds a :
  Forall is_digit ds →
  parse_dec cs ub ds (wrap_ulong ub a)
  = wrap_ulong ub (fold_left (λ a c, a * 10 + (uchar c - 48))%Z ds a).
Proof.
  intros H. revert a. induction H as [|c ds Hc _ IH]; intros a; [done|].
  cbn [parse_dec fold_left]. rewrite <- IH. f_equal.
  unfold char_val. unfold is_digit in Hc.
  rewrite (proj2 (Z.leb_gt _ _)), andb_false_r by lia.
  unfold wrap_ulong.
  rewrite Zplus_mod, Zmult_mod_idemp_l, <- Zplus_mod. done.
Qed.

Lemma parse_hex_digits ub hs a :
  Forall (λ c, is_Some (hex_digit c)) hs →
  parse_hex ub hs (wrap_ulong ub a)
  = wrap_ulong ub
      (fold_left (λ a c, a * 16 + default 0 (hex_digit c))%Z hs a).
Proof.
  intros H. revert a. induction H as [|c hs Hc _ IH]; intros a; [done|].
  cbn [parse_hex fold_left]. cbn zeta. rewrite <- IH. f_equal.
  assert (wrap_ulong ub (Z.shiftl (wrap_ulong ub a) 4)
          = wrap_ulong ub (a * 16)) as Hsh.
  { unfold wrap_ulong. rewrite Z.shiftl_mul_pow2 by lia.
    change (2 ^ 4)%Z with 16%Z. by rewrite Zmult_mod_idemp_l. }
  rewrite Hsh.
  assert (∀ v, wrap_ulong ub (wrap_ulong ub (a * 16) + v)
               = wrap_ulong ub (a * 16 + v)) as Hadd.
  { intros v. unfold wrap_ulong. by rewrite Zplus_mod_idemp_l. }
  destruct Hc as [v Hv]. rewrite Hv. cbn [default from_option id].
  unfold hex_digit in Hv. cbn zeta in Hv.
  repeat case_match; simplify_eq; by rewrite Hadd.
Qed.

Lemma wrap_ulong_0 ub : wrap_ulong ub 0 = 0%Z.
Proof. unfold wrap_ulong. apply Zmod_0_l. Qed.

Lemma entity_text_hash cs ub x rest :
  entity_text cs ub ("#" :: x :: rest)
  = if (x =? "x") || (x =? "X")
    then utf8_encode (parse_hex ub rest 0)
    else utf8_encode (parse_dec cs ub (x :: rest) 0).
Proof.
  unfold entity_text.
  repeat (rewrite decide_False by (unfold bytes; simpl; discriminate)).
  done.
Qed.

Lemma digit_not_semicolon ds : Forall is_digit ds → ";" ∉ ds.
Proof.
  intros H Hin. rewrite Forall_forall in H. specialize (H _ Hin).
  vm_compute in H. destruct H as [_ H]. by apply H.
Qed.

Lemma hex_not_semicolon hs : Forall (λ c, is_Some (hex_digit c)) hs → ";" ∉ hs.
Proof.
  intros H Hin. rewrite Forall_forall in H. destruct (H _ Hin) as [v Hv].
  vm_compute in Hv. done.
Qed.

(** X10: A decimal reference [&#ds;] with at least one digit
    decodes to the UTF-8 bytes of the number that the digits write,
    taken modulo 2^[ulong_bits], whatever the signedness of [char]. *)
Theorem decimal_reference cs ub ds X out :
  Forall is_digit ds → ds ≠ [] →
  decode_entities cs ub X = Some (RString out) →
  decode_entities cs ub ("&" :: "#" :: ds ++ ";" :: X)
  = Some (RString (utf8_encode (decimal_value ds mod 2 ^ ub) ++ out)).
Proof.
  intros Hd Hne HX.
  apply (decode_entities_prepend cs ub _ X out
           (utf8_encode (decimal_value ds mod 2 ^ ub))); [|done].
  assert (";" ∉ "#" :: ds) as Hn.
  { rewrite not_elem_of_cons. split; [done|by apply digit_not_semicolon]. }
  etrans; [exact (decode_from_cons_ref cs ub ("#" :: ds) X [] Hn)|].
  f_equal. cbn [app]. destruct ds as [|x ds]; [done|].
  rewrite entity_text_hash.
  assert ((x =? "x") || (x =? "X") = false) as ->.
  { apply Forall_inv in Hd. unfold is_digit in Hd.
    apply orb_false_intro; apply Ascii.eqb_neq; intros ->;
      vm_compute in Hd; destruct Hd as [_ Hd]; by apply Hd. }
  f_equal. rewrite <- (wrap_ulong_0 ub) at 1.
  by rewrite parse_dec_digits.
Qed.

Lemma decimal_reference_witness :
  Forall is_digit (bytes "8364") ∧
  decode_entities true 64 ("&" :: "#" :: bytes "8364" ++ ";" :: bytes "!")
  = Some (RString (utf8_encode (decimal_value (bytes "8364") mod 2 ^ 64)
                   ++ bytes "!")).
Proof.
  assert (Forall is_digit (bytes "8364")) as H.
  { unfold bytes. simpl. repeat constructor; vm_compute; discriminate. }
  split; [exact H|].
  apply (decimal_reference true 64 (bytes "8364") (bytes "!") (bytes "!") H).
  - discriminate.
  - vm_compute; reflexivity.
Defined.

(** X11: A hexadecimal reference [&#xhs;] or [&#Xhs;] decodes to
    the UTF-8 bytes of the number that the hexadecimal digits write, in
    either case of the letters, taken modulo 2^[ulong_bits]; with no
    digit at all the number is zero. *)
Theorem hex_reference cs ub x hs X out :
  x = "x" ∨ x = "X" →
  Forall (λ c, is_Some (hex_digit c)) hs →
  decode_entities cs ub X = Some (RString out) →
  decode_entities cs ub ("&" :: "#" :: x :: hs ++ ";" :: X)
  = Some (RString (utf8_encode (hex_value hs mod 2 ^ ub) ++ out)).
Proof.
  intros Hx Hh HX.
  apply (decode_entities_prepend cs ub _ X out
           (utf8_encode (hex_value hs mod 2 ^ ub))); [|done].
  assert (";" ∉ "#" :: x :: hs) as Hn.
  { rewrite !not_elem_of_cons. split_and!; [done| |by apply hex_not_semicolon].
    by destruct Hx as [-> | ->]. }
  etrans; [exact (decode_from_cons_ref cs ub ("#" :: x :: hs) X [] Hn)|].
  f_equal. cbn [app]. rewrite entity_text_hash.
  assert ((x =? "x") || (x =? "X") = true) as ->
    by (by destruct Hx as [-> | ->]).
  f_equal. rewrite <- (wrap_ulong_0 ub) at 1.
  by rewrite parse_hex_digits.
Qed.

Lemma hex_reference_witness :
  Forall (λ c, is_Some (hex_digit c)) (bytes "20aC") ∧
  decode_entities false 32 ("&" :: "#" :: "X" :: bytes "20aC" ++ ";" :: [])
  = Some (RString (utf8_encode (hex_value (bytes "20aC") mod 2 ^ 32) ++ [])).
Proof.
  assert (Forall (λ c, is_Some (hex_digit c)) (bytes "20aC")) as H.
  { unfold bytes. simpl. repeat constructor; vm_compute; by eexists. }
  split; [exact H|].
  apply (hex_reference false 32 "X" (bytes "20aC") [] [] (or_intror eq_refl) H).
  vm_compute; reflexivity.
Defined.

Lemma find_attr_none cs ub r needle entries :
  Forall (λ a, attr_name a ≠ needle) entries →
  find_attr cs ub r needle entries = Some Qnil.
Proof.
  induction 1 as [|a entries Ha _ IH]; cbn [find_attr]; [done|].
  destruct (bool_decide (a_name_len a = length needle)
            && bool_decide (take (length needle) (a_name_ptr a) = needle))
    eqn:E; [|done].
  apply andb_prop in E as [E1%bool_decide_eq_true E2%bool_decide_eq_true].
  exfalso. apply Ha. unfold attr_name. by rewrite E1.
Qed.

(** X12: After any [read], looking up an attribute named
    [xmlns] or [xmlns:...] gives nil. *)
Theorem namespace_attribute_is_nil cs ub r ok r' k :
  reader_read_internal r = Some (ok, r') → xmlns_name k →
  reader_attribute cs ub r' k = Some Qnil.
Proof.
  intros Hr Hk. apply read_internal_no_xmlns in Hr.
  unfold reader_attribute. fold (reported r'). apply find_attr_none.
  eapply Forall_impl; [exact Hr|]. intros a Ha E. apply Ha. by rewrite E.
Qed.

Lemma namespace_attribute_is_nil_witness :
  xmlns_name (bytes "xmlns:p") ∧
  reader_attribute true 64
    (after_read (reader_new (bytes "<t xmlns:p='u' q='v'>"))) (bytes "xmlns:p")
  = Some Qnil.
Proof.
  assert (xmlns_name (bytes "xmlns:p")) as H.
  { right. exists (bytes "p"). reflexivity. }
  split; [exact H|].
  apply (namespace_attribute_is_nil true 64
           (reader_new (bytes "<t xmlns:p='u' q='v'>")) true); [|exact H].
  vm_compute; reflexivity.
Defined.

Lemma read_result_attr_count r ok r' :
  read_result r ok r' → attr_count r = 0 →
  ok = false ∨ node_type r' ≠ TYPE_ELEMENT → attr_count r' = 0.
Proof.
  intros [p|p Hp Hb Hlt Hsl|p r2 Hp Hb Hlt Hs|p te Hp Hte1 Hte2 Hte Hbl] H0 Hk;
    try done.
  - by apply (read_end_element_closed (λ y, attr_count y = 0)).
  - destruct Hk as [|Hk]; [done|].
    apply read_start_element_fields in Hs as [Hty _]. done.
Qed.

(** X13: After a [read] that returns false, or that returns
    a text or the end of an element, the attribute count is zero and
    every attribute lookup gives nil. *)
Theorem attributes_only_on_elements cs ub r ok r' :
  reader_read_internal r = Some (ok, r') →
  ok = false ∨ node_type r' ≠ TYPE_ELEMENT →
  attr_count r' = 0 ∧ ∀ k, reader_attribute cs ub r' k = Some Qnil.
Proof.
  intros Hr%read_internal_result Hk.
  assert (attr_count r' = 0) as H0
    by (by apply (read_result_attr_count _ _ _ Hr)).
  split; [done|]. intros k. unfold reader_attribute. by rewrite H0, take_0.
Qed.

Lemma attributes_only_on_elements_witness :
  node_type (after_read (after_read (reader_new (bytes "<t q='v'>x</t>"))))
  ≠ TYPE_ELEMENT ∧
  attr_count (after_read (after_read (reader_new (bytes "<t q='v'>x</t>"))))
  = 0.
Proof.
  assert (node_type
            (after_read (after_read (reader_new (bytes "<t q='v'>x</t>"))))
          ≠ TYPE_ELEMENT) as H by (vm_compute; discriminate).
  split; [exact H|].
  apply (attributes_only_on_elements true 64
           (after_read (reader_new (bytes "<t q='v'>x</t>"))) true);
    [vm_compute; reflexivity|right; exact H].
Defined.

(** ** each *)

Lemma reader_each_loop_total {A} blk fuel (r : FastReader) (acc : A) :
  well_behaved blk → size r - pos r < fuel →
  ∃ acc' r', reader_each_loop fuel blk r acc = Some (acc', r') ∧
             data r' = data r ∧ size r' ≤ pos r'.
Proof.
  intros Hb. revert r acc. induction fuel as [|fuel IH]; intros r acc Hf;
    [lia|].
  cbn [reader_each_loop].
  destruct (read_internal_total r) as (ok & r1 & -> & Hd & He & Hp).
  cbn [mbind option_bind]. destruct ok.
  - destruct (Hp eq_refl) as [Hp1 Hp2].
    destruct (Hb r1 acc) as (acc1 & r2 & -> & Hd2 & Hp3).
    cbn [mbind option_bind].
    destruct (IH r2 acc1) as (acc' & r' & -> & Hd' & He').
    { unfold size in *. rewrite Hd2, Hd. rewrite Hd in Hp2. lia. }
    exists acc', r'. split; [done|]. split; [congruence|done].
  - exists acc, r1. split; [done|]. split; [done|]. by apply He.
Qed.

Lemma collect_well_behaved cs ub : well_behaved (collect cs ub).
Proof.
  intros r acc. unfold collect, observe.
  destruct (reader_name r) as [nm r1] eqn:Hn.
  pose proof (reader_name_fields r) as (N1 & N2 & _). rewrite Hn in N1, N2.
  cbn [snd] in N1, N2.
  assert (is_Some (reader_value cs ub r1)) as [[v r2] Hv].
  { unfold reader_value. repeat case_match; try by eexists.
    destruct (decode_entities_length cs ub (take (text_len r1) l))
      as (out & -> & _). by eexists. }
  rewrite Hv. cbn [mbind option_bind].
  apply reader_value_fields in Hv as (V1 & V2 & _).
  eexists _, _. split; [done|]. split; [congruence|lia].
Qed.

(** X14: [each] returns, for every block that returns and
    leaves the buffer alone and the cursor where it is or further on;
    when [each] has returned the cursor is at the end of the buffer and
    [read] returns false. *)
Theorem reader_each_total {A} blk (r : FastReader) (acc : A) :
  well_behaved blk →
  ∃ acc' r', reader_each blk r acc = Some (acc', r') ∧
             data r' = data r ∧ size r' ≤ pos r' ∧
             ∃ r'', reader_read_internal r' = Some (false, r'').
Proof.
  intros Hb.
  destruct (reader_each_loop_total blk (S (size r - pos r)) r acc Hb)
    as (acc' & r' & H & Hd & He); [lia|].
  exists acc', r'. split_and!; try done.
  destruct (read_internal_eof r' He) as (r'' & Hr & _). by exists r''.
Qed.

Lemma reader_each_total_witness :
  well_behaved (collect true 64) ∧
  ∃ acc' r',
    reader_each (collect true 64) (reader_new (bytes "<a>x</a>")) []
    = Some (acc', r') ∧ size r' ≤ pos r'.
Proof.
  split; [apply collect_well_behaved|].
  destruct (reader_each_total (collect true 64)
              (reader_new (bytes "<a>x</a>")) []
              (collect_well_behaved true 64))
    as (acc' & r' & H1 & _ & H2 & _).
  exact (ex_intro _ acc' (ex_intro _ r' (conj H1 H2))).
Defined.

Lemma observe_fields cs ub r nd r' :
  observe cs ub r = Some (nd, r') → data r' = data r ∧ pos r' = pos r.
Proof.
  unfold observe. destruct (reader_name r) as [nm r1] eqn:Hn.
  pose proof (reader_name_fields r) as (N1 & N2 & _). rewrite Hn in N1, N2.
  cbn [snd] in N1, N2.
  destruct (reader_value cs ub r1) as [[v r2]|] eqn:Hv; [|done].
  cbn [mbind option_bind]. intros [= <- <-].
  apply reader_value_fields in Hv as (V1 & V2 & _). split; congruence.
Qed.

Lemma reader_each_loop_collect cs ub fuel r acc nodes' r' :
  reader_each_loop fuel (collect cs ub) r acc = Some (nodes', r') →
  ∃ nodes, nodes' = acc ++ nodes ∧
    read_log cs ub (length nodes + 1) r = Some ((Some <$> nodes) ++ [None]) ∧
    length nodes ≤ size r - pos r.
Proof.
  revert r acc. induction fuel as [|fuel IH]; intros r acc; [done|].
  cbn [reader_each_loop].
  destruct (read_internal_total r) as (ok & r1 & Hr & Hd & He & Hp).
  rewrite Hr. cbn [mbind option_bind]. destruct ok.
  - destruct (collect cs ub r1 acc) as [[acc1 r2]|] eqn:Hc;
      cbn [mbind option_bind]; [|done].
    unfold collect in Hc.
    destruct (observe cs ub r1) as [[nd r2']|] eqn:Ho; [|done].
    cbn [mbind option_bind] in Hc. injection Hc as <- <-.
    intros H.
    destruct (IH _ _ H) as (nodes & -> & Hlog & Hlen).
    exists (nd :: nodes). split; [by rewrite <- (assoc_L (++))|]. split.
    + cbn [length Nat.add read_log]. unfold reader_read. rewrite Hr.
      cbn [mbind option_bind]. rewrite Ho. cbn [mbind option_bind].
      replace (length nodes + 1) with (S (length nodes)) in Hlog by lia.
      replace (length nodes + 1) with (S (length nodes)) by lia.
      rewrite Hlog. done.
    + apply observe_fields in Ho as [O1 O2]. destruct (Hp eq_refl).
      unfold size in *. rewrite O1, O2, Hd in Hlen. rewrite Hd in *.
      cbn [length]. lia.
  - intros [= <- <-]. exists []. split; [by rewrite app_nil_r|]. split.
    + cbn [length Nat.add read_log]. unfold reader_read. rewrite Hr. done.
    + cbn [length]. lia.
Qed.

(** X15: [each] with a block that records the node yields
    exactly the nodes that repeated calls of [read] report up to the
    first call that returns false, and never more nodes than there are
    bytes left. *)
Theorem reader_each_collects cs ub r :
  ∃ nodes r', reader_each (collect cs ub) r [] = Some (nodes, r') ∧
    read_log cs ub (length nodes + 1) r = Some ((Some <$> nodes) ++ [None]) ∧
    length nodes ≤ size r - pos r.
Proof.
  destruct (reader_each_loop_total (collect cs ub) (S (size r - pos r)) r []
              (collect_well_behaved cs ub))
    as (nodes & r' & H & Hd & He); [lia|].
  exists nodes, r'. split; [done|].
  destruct (reader_each_loop_collect _ _ _ _ _ _ _ H) as (nodes0 & Hn & Hlog).
  cbn [app] in Hn. by subst nodes0.
Qed.

(** ** Reading the document from an IO object

    [reader_init_from_io] sees the IO only through its [read] method:
    an IO is the list of what the successive calls return, [None] for
    nil, and nil for ever once the list is used up.  [size_t] has
    [size_bits] bits.  The buffer under construction is the bytes
    copied so far, [total] is their number, and a [memcpy] past
    [capacity] is [None]. *)

Lemma grow_enough w fuel capacity need :
  (0 ≤ w)%Z → (0 < capacity < 2 ^ w)%Z → (2 * need ≤ 2 ^ w)%Z →
  (need ≤ capacity * 2 ^ Z.of_nat fuel)%Z →
  ∃ c, grow w fuel capacity need = Some c ∧
       (need ≤ c)%Z ∧ (capacity ≤ c < 2 ^ w)%Z.
Proof.
  intros Hw. revert capacity. induction fuel as [|fuel IH];
    intros capacity Hc Hn Hf; cbn [grow].
  - rewrite (proj2 (Z.ltb_ge _ _)) by (change (2 ^ Z.of_nat 0)%Z with 1%Z in Hf; lia).
    exists capacity. split; [done|]. change (2 ^ Z.of_nat 0)%Z with 1%Z in Hf. lia.
  - destruct (capacity <? need)%Z eqn:E.
    + apply Z.ltb_lt in E. unfold wrap_size.
      rewrite Z.mod_small by lia.
      destruct (IH (capacity * 2)%Z) as (c & -> & H1 & H2); [lia|lia| |].
      * rewrite Nat2Z.inj_succ, Z.pow_succ_r in Hf by lia. lia.
      * exists c. split; [done|]. lia.
    + apply Z.ltb_ge in E. exists capacity. split; [done|]. lia.
Qed.

Lemma read_chunks_content w io capacity buf :
  (0 ≤ w)%Z → (0 < capacity < 2 ^ w)%Z →
  (Z.of_nat (length buf) ≤ capacity)%Z →
  (2 * Z.of_nat (length buf + length (io_content io)) ≤ 2 ^ w)%Z →
  read_chunks w io capacity buf = Some (buf ++ io_content io).
Proof.
  intros Hw. revert capacity buf.
  induction io as [|[chunk|] io IH]; intros capacity buf Hc Hb Hn;
    cbn [read_chunks io_content]; try by rewrite app_nil_r.
  case_bool_decide as Hz; [by rewrite app_nil_r|].
  cbn zeta. cbn [io_content] in Hn. rewrite bool_decide_eq_false_2 in Hn by done.
  rewrite length_app in Hn.
  assert (wrap_size w (Z.of_nat (length buf) + Z.of_nat (length chunk))
          = (Z.of_nat (length buf) + Z.of_nat (length chunk))%Z) as ->.
  { unfold wrap_size. apply Z.mod_small. lia. }
  destruct (grow_enough w (Z.to_nat w) capacity
              (Z.of_nat (length buf) + Z.of_nat (length chunk))) as
    (c & -> & H1 & H2); [done|done|lia| |].
  { rewrite Z2Nat.id by done.
    assert (1 * 2 ^ w ≤ capacity * 2 ^ w)%Z by (apply Z.mul_le_mono_nonneg_r; lia).
    lia. }
  cbn [mbind option_bind].
  rewrite (proj2 (Z.leb_le _ _)) by done.
  rewrite IH; [by rewrite <- (assoc_L (++))|lia|rewrite length_app; lia|].
  rewrite length_app. lia.
Qed.

(** X16: With a [size_t] of at least 23 bits and an IO that
    holds no more than half of what a [size_t] can count,
    [reader_init_from_io] never copies past the capacity of its buffer,
    its doubling loop ends, and the bytes it leaves are the chunks that
    the IO has returned, in order, up to the first chunk that is nil or
    empty. *)
Theorem init_from_io_content w io :
  (23 ≤ w)%Z → (2 * Z.of_nat (length (io_content io)) ≤ 2 ^ w)%Z →
  reader_init_from_io w io = Some (io_content io).
Proof.
  intros Hw Hn. unfold reader_init_from_io.
  rewrite read_chunks_content; [done|lia| |simpl; lia|simpl; lia].
  split; [lia|].
  change (4 * 1024 * 1024)%Z with (2 ^ 22)%Z.
  apply Z.pow_lt_mono_r; lia.
Qed.

Lemma init_from_io_content_witness :
  (23 ≤ 64)%Z ∧
  reader_init_from_io 64 [Some (bytes "<a>"); Some (bytes "</a>"); None;
                          Some (bytes "<b/>")]
  = Some (bytes "<a></a>").
Proof.
  split; [lia|].
  apply (init_from_io_content 64
           [Some (bytes "<a>"); Some (bytes "</a>"); None; Some (bytes "<b/>")]).
  - lia.
  - vm_compute. intros E. discriminate E.
Defined.

Lemma byte_at_cursor r i l c :
  drop (pos r) (data r) = l → l !! i = Some c → byte_at (data r) (pos r + i) = c.
Proof.
  intros H Hl. rewrite byte_at_drop, H. by apply byte_at_lookup.
Qed.

Lemma memchr_in (d : list ascii) s c n :
  bool_decide (is_Some (memchr d s c n)) = bool_decide (c ∈ slice d s n).
Proof.
  apply bool_decide_ext. split.
  - intros [p Hp]. destruct (decide (c ∈ slice d s n)) as [|Hn]; [done|].
    apply memchr_notin in Hn. congruence.
  - intros Hin. destruct (memchr d s c n) eqn:E; [by eexists|].
    by apply memchr_notin in E.
Qed.

Lemma set_pos_set_pos a b r : set_pos a (set_pos b r) = set_pos a r.
Proof. done. Qed.

(** ** The fuel of the loop *)

Lemma parse_attrs_loop_step n m :
  (∀ r x, parse_attrs_loop n r = Some x → parse_attrs_loop m r = Some x) →
  ∀ r x, parse_attrs_loop (S n) r = Some x → parse_attrs_loop (S m) r = Some x.
Proof.
  intros IH r x H. cbn [parse_attrs_loop] in H. cbn [parse_attrs_loop].
  repeat match type of H with
         | (if ?b then _ else _) = Some _ => destruct b eqn:?
         | match ?o with _ => _ end = Some _ => destruct o eqn:?
         end;
    first [exact H | discriminate H | apply IH; exact H].
Qed.

Lemma parse_attrs_loop_mono n r x :
  parse_attrs_loop n r = Some x → parse_attrs_loop (S n) r = Some x.
Proof.
  revert r x. induction n as [|n IH]; intros r x H.
  - cbn [parse_attrs_loop] in *. by case_bool_decide.
  - by apply (parse_attrs_loop_step n (S n) IH).
Qed.

Lemma parse_attrs_loop_mono_le n m r x :
  n ≤ m → parse_attrs_loop n r = Some x → parse_attrs_loop m r = Some x.
Proof.
  intros Hle H. induction Hle as [|m Hle IH]; [done|].
  by apply parse_attrs_loop_mono.
Qed.

Lemma parse_attrs_loop_fuel n r :
  size r - pos r ≤ n → parse_attrs_loop n r = parse_from r.
Proof.
  intros Hn. unfold parse_from.
  assert (∃ x, parse_attrs_loop (size r - pos r) r = Some x) as [x Hx].
  { destruct (decide (pos r ≤ size r)) as [Hb|Hb].
    - destruct (parse_attrs_loop_advances (size r - pos r) r Hb)
        as (r' & -> & _); [done|by eexists].
    - exists r. destruct (size r - pos r); cbn [parse_attrs_loop];
        by rewrite bool_decide_eq_false_2 by lia. }
  by rewrite Hx, (parse_attrs_loop_mono_le _ n r x Hn Hx).
Qed.

(** One turn of the loop, from a cursor inside the buffer. *)
Lemma parse_from_turn r r' :
  (∀ f, parse_attrs_loop (S f) r = parse_attrs_loop f r') →
  pos r < pos r' → size r' = size r →
  parse_from r = parse_from r'.
Proof.
  intros Ht Hp Hs. unfold parse_from at 1.
  destruct (size r - pos r) as [|f] eqn:Ef.
  - specialize (Ht 0). cbn [parse_attrs_loop] in Ht.
    rewrite !bool_decide_eq_false_2 in Ht by lia.
    rewrite <- (parse_attrs_loop_fuel 0 r') by lia.
    cbn [parse_attrs_loop]. by rewrite !bool_decide_eq_false_2 by lia.
  - rewrite Ht. apply parse_attrs_loop_fuel. lia.
Qed.

(** ** White space *)

Lemma blank_Forall ws : blank ws → Forall (λ a, is_space a = true) ws.
Proof.
  unfold blank. rewrite forallb_forall, Forall_forall.
  intros H c Hc. apply H. by apply list_elem_of_In.
Qed.

Lemma skip_spaces_over r ws rest :
  blank ws → (∀ c, head rest = Some c → is_space c = false) →
  drop (pos r) (data r) = ws ++ rest →
  skip_spaces r = set_pos (pos r + length ws) r.
Proof.
  intros Hws Hr H. unfold skip_spaces. rewrite H.
  by rewrite (span_len_app_stop is_space ws rest (blank_Forall ws Hws) Hr).
Qed.

Lemma skip_spaces_fields r :
  data (skip_spaces r) = data r ∧ size (skip_spaces r) = size r ∧
  pos r ≤ pos (skip_spaces r) ∧ (pos r ≤ size r → pos (skip_spaces r) ≤ size r).
Proof.
  unfold skip_spaces. cbn [data pos set_pos].
  pose proof (span_len_le is_space (drop (pos r) (data r))) as H.
  rewrite length_drop in H. unfold size. cbn [data set_pos].
  split_and!; try done; lia.
Qed.

Lemma skip_spaces_idem r : skip_spaces (skip_spaces r) = skip_spaces r.
Proof.
  unfold skip_spaces at 1.
  remember (skip_spaces r) as r1 eqn:E.
  assert (span_len is_space (drop (pos r1) (data r1)) = 0) as ->;
    [|by rewrite Nat.add_0_r, set_pos_id].
  subst r1. unfold skip_spaces. cbn [pos data set_pos].
  rewrite <- drop_drop.
  generalize (drop (pos r) (data r)). intros l.
  induction l as [|c l IH]; [done|]. cbn [span_len].
  destruct (is_space c) eqn:Ec; [exact IH|]. cbn [drop span_len].
  by rewrite Ec.
Qed.

Lemma parse_from_skip r : parse_from r = parse_from (skip_spaces r).
Proof.
  destruct (skip_spaces_fields r) as (Hd & Hs & Hle & Hb).
  destruct (decide (pos (skip_spaces r) = pos r)) as [He|Hne].
  { replace (skip_spaces r) with r; [done|].
    unfold skip_spaces in *. cbn [pos set_pos] in He.
    replace (span_len is_space (drop (pos r) (data r))) with 0 by lia.
    by rewrite Nat.add_0_r, set_pos_id. }
  assert (pos r < size r) as Hlt.
  { unfold skip_spaces in Hne. cbn [pos set_pos] in Hne.
    pose proof (span_len_le is_space (drop (pos r) (data r))) as H.
    rewrite length_drop in H. unfold size. lia. }
  specialize (Hb ltac:(lia)).
  unfold parse_from at 1.
  destruct (size r - pos r) as [|f] eqn:Ef; [lia|].
  destruct (decide (pos (skip_spaces r) < size r)) as [Hin|Hout].
  - rewrite <- (parse_attrs_loop_fuel (S f) (skip_spaces r)) by lia.
    cbn [parse_attrs_loop]. rewrite skip_spaces_idem.
    rewrite (bool_decide_eq_true_2 (pos r < size r)) by lia.
    by rewrite (bool_decide_eq_true_2
                  (pos (skip_spaces r) < size (skip_spaces r))) by lia.
  - rewrite <- (parse_attrs_loop_fuel 0 (skip_spaces r)) by lia.
    cbn [parse_attrs_loop].
    rewrite (bool_decide_eq_true_2 (pos r < size r)) by lia.
    rewrite (bool_decide_eq_false_2 (pos (skip_spaces r) < size (skip_spaces r)))
      by lia.
    by rewrite (proj2 (at_end_true (skip_spaces r))) by lia.
Qed.

Lemma parse_from_blank r ws rest :
  blank ws → (∀ c, head rest = Some c → is_space c = false) →
  drop (pos r) (data r) = ws ++ rest →
  parse_from r = parse_from (set_pos (pos r + length ws) r).
Proof.
  intros Hws Hr H. by rewrite parse_from_skip, (skip_spaces_over r ws rest).
Qed.

(** ** One item *)

Ltac norm_app := repeat (progress (rewrite <- ?app_assoc; cbn [app])).

Lemma name_like_head k rest :
  name_like k →
  ∃ c l, k ++ rest = c :: l ∧ is_space c = false ∧ c ≠ ">" ∧ c ≠ "/" ∧ c ≠ "=".
Proof.
  intros [Hne Hk]. destruct k as [|c k]; [done|].
  exists c, (k ++ rest). split; [done|].
  apply Forall_inv in Hk. unfold attr_name_end in Hk.
  repeat (apply orb_false_elim in Hk as [Hk ?]).
  split_and!.
  - unfold is_space. by repeat (apply orb_false_intro).
  - by apply Ascii.eqb_neq.
  - by apply Ascii.eqb_neq.
  - by apply Ascii.eqb_neq.
Qed.

Lemma name_scan k rest :
  name_like k → (∀ c, head rest = Some c → attr_name_end c = true) →
  span_len (λ c, negb (attr_name_end c)) (k ++ rest) = length k.
Proof.
  intros [_ Hk] Hr. apply span_len_app_stop.
  - eapply Forall_impl; [exact Hk|]. intros c Hc. by rewrite Hc.
  - intros c Hc. by rewrite (Hr c Hc).
Qed.

Lemma head_blank_app ws c rest a :
  blank ws → head (ws ++ c :: rest) = Some a → a = c ∨ is_space a = true.
Proof.
  intros Hws. destruct ws as [|w ws]; cbn; [intros [= <-]; by left|].
  intros [= <-]. right. unfold blank in Hws. cbn in Hws.
  by apply andb_prop in Hws as [? _].
Qed.

Lemma is_space_name_end a : is_space a = true → attr_name_end a = true.
Proof.
  unfold is_space, attr_name_end. intros H.
  repeat (apply orb_prop in H as [H|H]); rewrite H;
    by rewrite ?orb_true_r.
Qed.

Lemma quote_not_space q : is_quote q → is_space q = false.
Proof. by intros [-> | ->]. Qed.

Lemma parse_turn_attr f r key pre post q v more :
  name_like key → blank pre → blank post → is_quote q → q ∉ v →
  drop (pos r) (data r) = key ++ pre ++ "=" :: post ++ q :: v ++ q :: more →
  parse_attrs_loop (S f) r
  = parse_attrs_loop f
      (if bool_decide (xmlns_name key)
       then set_pos (pos r + length (key ++ pre ++ "=" :: post ++ q :: v ++ [q])) r
       else push_attr (attr_entry key v)
              (set_pos (pos r + length (key ++ pre ++ "=" :: post ++ q :: v ++ [q])) r)).
Proof.
  intros Hk Hpre Hpost Hq Hv H.
  destruct (name_like_head key (pre ++ "=" :: post ++ q :: v ++ q :: more) Hk)
    as (c1 & rest1 & Hk1 & Hs1 & Hg1 & Hl1 & _).
  destruct (cursor_at r _ _ (eq_trans H Hk1)) as (Hlt & Hc & _).
  assert (length (data r) - pos r
          = length key + length pre + 1 + length post + 1 + length v + 1
            + length more) as Hsz.
  { rewrite <- length_drop, H. rewrite !length_app. cbn [length].
    rewrite !length_app. cbn [length]. rewrite length_app. cbn [length]. lia. }
  assert (length (key ++ pre ++ "=" :: post ++ q :: v ++ [q])
          = length key + length pre + 1 + length post + 1 + length v + 1)
    as ->.
  { rewrite !length_app. cbn [length]. rewrite !length_app. cbn [length].
    rewrite length_app. cbn [length]. lia. }
  cbn [parse_attrs_loop].
  rewrite bool_decide_eq_true_2 by done.
  rewrite (skip_spaces_id r c1 rest1) by (first [done | by rewrite H, Hk1]).
  head_if ltac:(fun E => apply at_end_true in E; lia).
  head_if ltac:(fun E => rewrite Hc in E; apply Ascii.eqb_eq in E; done).
  head_if ltac:(fun E => rewrite Hc in E; apply Ascii.eqb_eq in E; done).
  assert (span_len (λ c, negb (attr_name_end c)) (drop (pos r) (data r))
          = length key) as ->.
  { rewrite H. apply name_scan; [done|]. intros c Hc'.
    destruct (head_blank_app pre "=" _ c Hpre Hc') as [->|Hsp]; [done|].
    by apply is_space_name_end. }
  remember (set_pos (pos r + length key) r) as r2 eqn:Hr2.
  assert (drop (pos r2) (data r2) = pre ++ "=" :: post ++ q :: v ++ q :: more)
    as H2 by (subst r2; cbn [pos data set_pos]; by apply drop_add_app).
  assert (pos r2 = pos r + length key ∧ data r2 = data r) as [P2 D2]
    by (by subst r2).
  rewrite (skip_spaces_over r2 pre ("=" :: post ++ q :: v ++ q :: more) Hpre)
    by (done || by intros c [= <-]).
  remember (set_pos (pos r2 + length pre) r2) as r3 eqn:Hr3.
  assert (drop (pos r3) (data r3) = "=" :: post ++ q :: v ++ q :: more)
    as H3 by (subst r3; cbn [pos data set_pos]; by apply drop_add_app).
  assert (pos r3 = pos r + length key + length pre ∧ data r3 = data r)
    as [P3 D3] by (subst r3; cbn [pos data set_pos]; split; congruence).
  destruct (cursor_at r3 _ _ H3) as (Hlt3 & Hc3 & _).
  rewrite (proj2 (at_end_false r3)) by done. rewrite Hc3.
  cbn [orb negb Ascii.eqb Bool.eqb andb]. cbv iota.
  remember (set_pos (pos r3 + 1) r3) as r4 eqn:Hr4.
  assert (drop (pos r4) (data r4) = post ++ q :: v ++ q :: more) as H4
    by (subst r4; cbn [pos data set_pos]; by apply (drop_add_app _ ["="])).
  assert (pos r4 = pos r + length key + length pre + 1 ∧ data r4 = data r)
    as [P4 D4] by (subst r4; cbn [pos data set_pos]; split; congruence).
  rewrite (skip_spaces_over r4 post (q :: v ++ q :: more) Hpost)
    by (done || (intros c [= <-]; by apply quote_not_space)).
  remember (set_pos (pos r4 + length post) r4) as r5 eqn:Hr5.
  assert (drop (pos r5) (data r5) = q :: v ++ q :: more) as H5
    by (subst r5; cbn [pos data set_pos]; by apply drop_add_app).
  assert (pos r5 = pos r + length key + length pre + 1 + length post
          ∧ data r5 = data r)
    as [P5 D5] by (subst r5; cbn [pos data set_pos]; split; congruence).
  destruct (cursor_at r5 _ _ H5) as (Hlt5 & Hc5 & _).
  rewrite (proj2 (at_end_false r5)) by done. rewrite Hc5.
  assert (negb (q =? "034") && negb (q =? "'") = false) as ->
    by (by destruct Hq as [-> | ->]).
  cbn [data pos set_pos].
  change (size (set_pos (pos r5 + 1) r5)) with (size r5).
  assert (slice (data r5) (pos r5 + 1) (length v) = v) as Hsv.
  { rewrite slice_drop, H5. apply (slice_app_at [q] v). }
  assert (slice (data r5) (pos r) (length key) = key) as Hsk.
  { rewrite D5. rewrite <- (Nat.add_0_r (pos r)), slice_drop, H.
    apply slice_app_l. }
  assert (memchr (data r5) (pos r5 + 1) q (size r5 - (pos r5 + 1))
          = Some (pos r5 + 1 + length v)) as ->.
  { apply (memchr_first _ _ _ _ v more); [|done].
    rewrite slice_drop, H5. unfold slice. cbn [drop].
    apply take_ge. unfold size. rewrite P5, D5, length_app. cbn [length]. lia. }
  replace (pos r2 - pos r) with (length key) by lia.
  replace (pos r5 + 1 + length v - (pos r5 + 1)) with (length v) by lia.
  rewrite Hsv, Hsk, memchr_in, Hsv.
  assert (is_xmlns (data r5) (pos r) (length key) = bool_decide (xmlns_name key))
    as ->.
  { pose proof (is_xmlns_spec (data r5) (pos r) (length key)) as Hx.
    rewrite Hsk in Hx.
    destruct (is_xmlns _ _ _); symmetry.
    - apply bool_decide_eq_true. apply Hx; [|done]. rewrite D5. lia.
    - apply bool_decide_eq_false. intros Hxn. apply Hx in Hxn; [done|].
      rewrite D5. lia. }
  assert (∀ p, set_pos p (set_pos (pos r5 + 1) r5) = set_pos p r) as Hset
    by (intros; by subst r5 r4 r3 r2).
  rewrite !Hset.
  replace (pos r5 + 1 + length v + 1)
    with (pos r + (length key + length pre + 1 + length post + 1 + length v + 1))
    by lia.
  by case_bool_decide.
Qed.

Lemma parse_turn_bare f r name ws c more :
  name_like name → blank ws → is_space c = false → c ≠ "=" →
  (ws ≠ [] ∨ attr_name_end c = true) →
  drop (pos r) (data r) = name ++ ws ++ c :: more →
  parse_attrs_loop (S f) r
  = parse_attrs_loop f (set_pos (pos r + length name + length ws) r).
Proof.
  intros Hk Hws Hcs Hce Hend H.
  destruct (name_like_head name (ws ++ c :: more) Hk)
    as (c1 & rest1 & Hk1 & Hs1 & Hg1 & Hl1 & _).
  destruct (cursor_at r _ _ (eq_trans H Hk1)) as (Hlt & Hc & _).
  cbn [parse_attrs_loop].
  rewrite bool_decide_eq_true_2 by done.
  rewrite (skip_spaces_id r c1 rest1) by (first [done | by rewrite H, Hk1]).
  head_if ltac:(fun E => apply at_end_true in E; lia).
  head_if ltac:(fun E => rewrite Hc in E; apply Ascii.eqb_eq in E; done).
  head_if ltac:(fun E => rewrite Hc in E; apply Ascii.eqb_eq in E; done).
  assert (span_len (λ c, negb (attr_name_end c)) (drop (pos r) (data r))
          = length name) as ->.
  { rewrite H. apply name_scan; [done|]. intros a Ha.
    destruct (head_blank_app ws c _ a Hws Ha) as [->|Hsp].
    - destruct Hend as [Hne|He]; [|done]. destruct ws; [done|].
      cbn in Ha. injection Ha as <-. apply is_space_name_end.
      unfold blank in Hws. cbn in Hws. by apply andb_prop in Hws as [? _].
    - by apply is_space_name_end. }
  remember (set_pos (pos r + length name) r) as r2 eqn:Hr2.
  assert (drop (pos r2) (data r2) = ws ++ c :: more)
    as H2 by (subst r2; cbn [pos data set_pos]; by apply drop_add_app).
  rewrite (skip_spaces_over r2 ws (c :: more) Hws)
    by (done || by intros a [= <-]).
  remember (set_pos (pos r2 + length ws) r2) as r3 eqn:Hr3.
  assert (drop (pos r3) (data r3) = c :: more)
    as H3 by (subst r3; cbn [pos data set_pos]; by apply drop_add_app).
  destruct (cursor_at r3 _ _ H3) as (Hlt3 & Hc3 & _).
  rewrite (proj2 (at_end_false r3)) by done. rewrite Hc3.
  rewrite (proj2 (Ascii.eqb_neq c "=")) by done.
  cbn [orb negb]. cbv iota. by subst r3 r2.
Qed.

Lemma parse_turn_eq f r key pre post c more :
  name_like key → blank pre → blank post →
  is_space c = false → ¬ is_quote c →
  drop (pos r) (data r) = key ++ pre ++ "=" :: post ++ c :: more →
  parse_attrs_loop (S f) r
  = parse_attrs_loop f
      (set_pos (pos r + length key + length pre + 1 + length post) r).
Proof.
  intros Hk Hpre Hpost Hcs Hcq H.
  destruct (name_like_head key (pre ++ "=" :: post ++ c :: more) Hk)
    as (c1 & rest1 & Hk1 & Hs1 & Hg1 & Hl1 & _).
  destruct (cursor_at r _ _ (eq_trans H Hk1)) as (Hlt & Hc & _).
  cbn [parse_attrs_loop].
  rewrite bool_decide_eq_true_2 by done.
  rewrite (skip_spaces_id r c1 rest1) by (first [done | by rewrite H, Hk1]).
  head_if ltac:(fun E => apply at_end_true in E; lia).
  head_if ltac:(fun E => rewrite Hc in E; apply Ascii.eqb_eq in E; done).
  head_if ltac:(fun E => rewrite Hc in E; apply Ascii.eqb_eq in E; done).
  assert (span_len (λ c, negb (attr_name_end c)) (drop (pos r) (data r))
          = length key) as ->.
  { rewrite H. apply name_scan; [done|]. intros a Ha.
    destruct (head_blank_app pre "=" _ a Hpre Ha) as [->|Hsp]; [done|].
    by apply is_space_name_end. }
  remember (set_pos (pos r + length key) r) as r2 eqn:Hr2.
  assert (drop (pos r2) (data r2) = pre ++ "=" :: post ++ c :: more)
    as H2 by (subst r2; cbn [pos data set_pos]; by apply drop_add_app).
  rewrite (skip_spaces_over r2 pre ("=" :: post ++ c :: more) Hpre)
    by (done || by intros a [= <-]).
  remember (set_pos (pos r2 + length pre) r2) as r3 eqn:Hr3.
  assert (drop (pos r3) (data r3) = "=" :: post ++ c :: more)
    as H3 by (subst r3; cbn [pos data set_pos]; by apply drop_add_app).
  destruct (cursor_at r3 _ _ H3) as (Hlt3 & Hc3 & _).
  rewrite (proj2 (at_end_false r3)) by done. rewrite Hc3.
  cbn [orb negb Ascii.eqb Bool.eqb andb]. cbv iota.
  remember (set_pos (pos r3 + 1) r3) as r4 eqn:Hr4.
  assert (drop (pos r4) (data r4) = post ++ c :: more) as H4
    by (subst r4; cbn [pos data set_pos]; by apply (drop_add_app _ ["="])).
  rewrite (skip_spaces_over r4 post (c :: more) Hpost)
    by (done || by intros a [= <-]).
  remember (set_pos (pos r4 + length post) r4) as r5 eqn:Hr5.
  assert (drop (pos r5) (data r5) = c :: more) as H5
    by (subst r5; cbn [pos data set_pos]; by apply drop_add_app).
  destruct (cursor_at r5 _ _ H5) as (Hlt5 & Hc5 & _).
  rewrite (proj2 (at_end_false r5)) by done. rewrite Hc5.
  assert (negb (c =? "034") && negb (c =? "'") = true) as ->.
  { apply andb_true_intro. split; apply negb_true_iff, Ascii.eqb_neq;
      intros ->; apply Hcq; [by left|by right]. }
  by subst r5 r4 r3 r2.
Qed.

Lemma parse_from_bare r name fol :
  name_like name → follows fol →
  drop (pos r) (data r) = name ++ fol →
  parse_from r = parse_from (set_pos (pos r + length name) r).
Proof.
  intros Hk (ws & c & more & -> & Hws & Hcs & Hce & Hend) H.
  rewrite (parse_from_turn r (set_pos (pos r + length name + length ws) r)).
  - symmetry.
    rewrite (parse_from_blank (set_pos (pos r + length name) r) ws (c :: more));
      [done|done|by intros a [= <-]|].
    cbn [pos data set_pos]. by apply drop_add_app.
  - intros f. by apply (parse_turn_bare f r name ws c more).
  - cbn [pos set_pos]. destruct Hk as [Hne _]. destruct name; [done|].
    cbn [length]. lia.
  - done.
Qed.

Lemma parse_from_item r it fol :
  item_ok it → follows fol →
  drop (pos r) (data r) = render_item it ++ fol →
  parse_from r
  = parse_from (item_push it (set_pos (pos r + length (render_item it)) r)).
Proof.
  intros Hok Hfol H.
  destruct it as [key pre post q v|name|key pre post word];
    cbn [render_item item_push item_ok] in *.
  - destruct Hok as (Hk & Hpre & Hpost & Hq & Hv).
    assert (drop (pos r) (data r)
            = key ++ pre ++ "=" :: post ++ q :: v ++ q :: fol) as H'.
    { rewrite H. by norm_app. }
    assert (0 < length (key ++ pre ++ "=" :: post ++ q :: v ++ [q])) as Hpos.
    { destruct Hk as [Hne _]. destruct key; [done|]. cbn [app length]. lia. }
    apply parse_from_turn.
    + intros f.
      rewrite (parse_turn_attr f r key pre post q v fol Hk Hpre Hpost Hq Hv H').
      by case_bool_decide.
    + case_bool_decide; rewrite ?push_attr_pos; cbn [pos set_pos]; lia.
    + unfold size. case_bool_decide; by rewrite ?push_attr_data.
  - by apply (parse_from_bare r name fol).
  - destruct Hok as (Hk & Hpre & Hpost & Hw & Hnq).
    destruct (name_like_head word fol Hw)
      as (c & more & Hw1 & Hcs & _ & _ & _).
    assert (drop (pos r) (data r)
            = key ++ pre ++ "=" :: post ++ c :: more) as H'.
    { rewrite H. norm_app. by rewrite Hw1. }
    remember (set_pos (pos r + length key + length pre + 1 + length post) r)
      as rA eqn:HrA.
    rewrite (parse_from_turn r rA).
    + rewrite (parse_from_bare rA word fol Hw Hfol).
      * subst rA. cbn [pos set_pos]. rewrite set_pos_set_pos. do 2 f_equal.
        rewrite !length_app. cbn [length]. rewrite !length_app. lia.
      * subst rA. cbn [pos data set_pos].
        replace (pos r + length key + length pre + 1 + length post)
          with (pos r + length (key ++ pre ++ "=" :: post))
          by (rewrite !length_app; cbn [length]; lia).
        apply drop_add_app. rewrite H. by norm_app.
    + intros f. subst rA.
      apply (parse_turn_eq f r key pre post c more); try done.
      apply Hnq. destruct word as [|c' w]; [by destruct Hw|].
      cbn in Hw1. by injection Hw1 as -> _.
    + subst rA. cbn [pos set_pos]. lia.
    + by subst rA.
Qed.

(** ** The items of a tag *)

Lemma push_attr_set_pos a p r :
  push_attr a (set_pos p r) = set_pos p (push_attr a r).
Proof. unfold push_attr. cbn [attr_count set_pos]. by case_bool_decide. Qed.

Lemma push_all_set_pos es p r :
  push_all es (set_pos p r) = set_pos p (push_all es r).
Proof.
  revert r. induction es as [|a es IH]; intros r; [done|].
  cbn [push_all foldl]. rewrite push_attr_set_pos. apply IH.
Qed.

Lemma push_all_pos es r : pos (push_all es r) = pos r.
Proof.
  revert r. induction es as [|a es IH]; intros r; [done|].
  cbn [push_all foldl]. fold (push_all es (push_attr a r)).
  by rewrite IH, push_attr_pos.
Qed.

Lemma push_all_data es r : data (push_all es r) = data r.
Proof.
  revert r. induction es as [|a es IH]; intros r; [done|].
  cbn [push_all foldl]. fold (push_all es (push_attr a r)).
  by rewrite IH, push_attr_data.
Qed.

Lemma render_items_cons g it its :
  render_items ((g, it) :: its) = g ++ render_item it ++ render_items its.
Proof. unfold render_items. cbn [flat_map fst snd]. by rewrite <- app_assoc. Qed.

Lemma written_cons g it its :
  written ((g, it) :: its)
  = match it with
    | Attr key _ _ _ v => (key, v) :: written its
    | _ => written its
    end.
Proof. by destruct it. Qed.

Lemma kept_cons k v kvs :
  kept ((k, v) :: kvs)
  = if bool_decide (xmlns_name k) then kept kvs else (k, v) :: kept kvs.
Proof.
  unfold kept. rewrite filter_cons. cbn [fst]. case_bool_decide.
  - by rewrite decide_False by (by intros Hn).
  - by rewrite decide_True.
Qed.

Lemma follows_close tg sc rest : blank tg → follows (tg ++ tag_close sc rest).
Proof.
  intros Htg. destruct sc; cbn [tag_close].
  - exists tg, "/", (">" :: rest). split_and!; try done. by right.
  - exists tg, ">", rest. split_and!; try done. by right.
Qed.

Lemma item_head it rest :
  item_ok it →
  ∃ c l, render_item it ++ rest = c :: l ∧ is_space c = false ∧ c ≠ "=".
Proof.
  intros Hok.
  assert (∃ k l, name_like k ∧ render_item it ++ rest = k ++ l)
    as (k & l & Hk & ->).
  { destruct it as [key pre post q v|name|key pre post word];
      cbn [render_item item_ok] in *.
    - exists key, ((pre ++ "=" :: post ++ q :: v ++ [q]) ++ rest).
      split; [by destruct Hok|]. by rewrite <- app_assoc.
    - by exists name, rest.
    - exists key, ((pre ++ "=" :: post ++ word) ++ rest).
      split; [by destruct Hok|]. by rewrite <- app_assoc. }
  destruct (name_like_head k l Hk) as (c & l' & -> & ? & _ & _ & ?).
  by exists c, l'.
Qed.

Lemma follows_items its tl :
  Forall (λ gi, gi.1 ≠ [] ∧ blank gi.1 ∧ item_ok gi.2) its → follows tl →
  follows (render_items its ++ tl).
Proof.
  intros Hok Htl. destruct Hok as [|[g it] its (Hne & Hg & Hit) _]; [done|].
  cbn [fst snd] in *. rewrite render_items_cons.
  destruct (item_head it (render_items its ++ tl) Hit)
    as (c & l & Hc & Hcs & Hce).
  exists g, c, l. split_and!; try done; [|by left].
  rewrite <- !app_assoc. by rewrite Hc.
Qed.

Lemma parse_from_items its : ∀ r tl,
  Forall (λ gi, gi.1 ≠ [] ∧ blank gi.1 ∧ item_ok gi.2) its → follows tl →
  drop (pos r) (data r) = render_items its ++ tl →
  parse_from r
  = parse_from
      (set_pos (pos r + length (render_items its))
         (push_all ((λ kv, attr_entry kv.1 kv.2) <$> kept (written its)) r)).
Proof.
  induction its as [|[g it] its IH]; intros r tl Hok Htl H.
  { cbn [render_items flat_map length written omap kept filter fmap list_fmap
         push_all foldl].
    by rewrite Nat.add_0_r, set_pos_id. }
  apply Forall_cons_1 in Hok as [(Hne & Hg & Hit) Hok].
  cbn [fst snd] in Hne, Hg, Hit.
  rewrite render_items_cons, <- !app_assoc in H.
  pose proof (follows_items its tl Hok Htl) as Hfol.
  destruct (item_head it (render_items its ++ tl) Hit)
    as (c & l & Hc & Hcs & _).
  rewrite (parse_from_blank r g (render_item it ++ render_items its ++ tl))
    by (done || (rewrite Hc; by intros a [= <-])).
  remember (set_pos (pos r + length g) r) as r1 eqn:Hr1.
  assert (drop (pos r1) (data r1) = render_item it ++ render_items its ++ tl)
    as H1 by (subst r1; cbn [pos data set_pos]; by apply drop_add_app).
  rewrite (parse_from_item r1 it (render_items its ++ tl) Hit Hfol H1).
  remember (set_pos (pos r1 + length (render_item it)) r1) as r2 eqn:Hr2.
  assert (drop (pos r2) (data r2) = render_items its ++ tl)
    as H2 by (subst r2; cbn [pos data set_pos]; by apply drop_add_app).
  assert (pos (item_push it r2) = pos r2 ∧ data (item_push it r2) = data r2)
    as [P3 D3].
  { destruct it; cbn [item_push]; try done.
    case_bool_decide; [done|]. by rewrite push_attr_pos, push_attr_data. }
  rewrite (IH (item_push it r2) tl Hok Htl) by (by rewrite P3, D3).
  f_equal. rewrite P3.
  assert (length (render_items ((g, it) :: its))
          = length g + length (render_item it) + length (render_items its))
    as ->.
  { rewrite render_items_cons, !length_app. lia. }
  assert (pos r2 + length (render_items its)
          = pos r + (length g + length (render_item it)
                     + length (render_items its))) as ->
    by (subst r2 r1; cbn [pos set_pos]; lia).
  assert (∀ p, set_pos p r2 = set_pos p r) as Hset by (intros; by subst r2 r1).
  rewrite written_cons.
  destruct it as [key pre post q v|name|key pre post word]; cbn [item_push].
  - rewrite kept_cons. case_bool_decide as Hx.
    + subst r2 r1. by rewrite !push_all_set_pos, !set_pos_set_pos.
    + cbn [fmap list_fmap push_all foldl fst snd].
      subst r2 r1.
      by rewrite !push_attr_set_pos, !push_all_set_pos, !set_pos_set_pos.
  - subst r2 r1. by rewrite !push_all_set_pos, !set_pos_set_pos.
  - subst r2 r1. by rewrite !push_all_set_pos, !set_pos_set_pos.
Qed.

Lemma parse_attrs_loop_open fuel r rest :
  drop (pos r) (data r) = ">" :: rest →
  parse_attrs_loop (S fuel) r = Some (set_pos (pos r + 1) r).
Proof.
  intros H. destruct (cursor_at r _ _ H) as (Hlt & Hc & _).
  cbn [parse_attrs_loop].
  rewrite (skip_spaces_id r _ _ H) by done.
  head_if by_lia. head_if ltac:(fun E => apply at_end_true in E; lia).
  head_if ltac:(by_char Hc). done.
Qed.

Lemma parse_attrs_loop_selfclose fuel r rest :
  drop (pos r) (data r) = "/" :: ">" :: rest →
  parse_attrs_loop (S fuel) r
  = Some (set_pos (pos r + 2) (set_is_empty true r)).
Proof.
  intros H. destruct (cursor_at r _ _ H) as (Hlt & Hc & n & Hf & Hn).
  assert (byte_at (data r) (pos r + 1) = ">") as Hgt
    by (by rewrite byte_at_drop, H).
  assert (pos r + 1 < size r) as Hlt2 by (simpl in Hn; lia).
  clear Hn.
  cbn [parse_attrs_loop].
  rewrite (skip_spaces_id r _ _ H) by done.
  head_if by_lia. head_if ltac:(fun E => apply at_end_true in E; lia).
  head_if ltac:(by_char Hc). head_if ltac:(by_char Hc).
  change (pos (set_pos (pos r + 1) (set_is_empty true r))) with (pos r + 1).
  change (size (set_pos (pos r + 1) (set_is_empty true r))) with (size r).
  change (cur (set_pos (pos r + 1) (set_is_empty true r)))
    with (byte_at (data r) (pos r + 1)).
  rewrite Hgt, bool_decide_eq_true_2 by done.
  cbn [andb Ascii.eqb Bool.eqb]. cbv iota.
  rewrite set_pos_set_pos. do 2 f_equal. lia.
Qed.

Lemma parse_attrs_rendered r a (selfclose : bool) rest :
  attrs_ok a →
  drop (pos r) (data r) = render_attrs a ++ tag_close selfclose rest →
  parse_attrs r = Some (after_attrs r a selfclose).
Proof.
  destruct a as [its tg]. intros [Hok Htg]. cbn [fst snd] in Hok, Htg.
  unfold render_attrs. cbn [fst snd]. rewrite <- app_assoc. intros H.
  unfold parse_attrs. cbn zeta.
  remember (set_is_empty false (set_attr_count 0 r)) as r0 eqn:Hr0.
  assert (pos r0 = pos r ∧ data r0 = data r) as [P0 D0] by (by subst r0).
  fold (parse_from r0).
  rewrite (parse_from_items its r0 (tg ++ tag_close selfclose rest) Hok)
    by (by apply follows_close || (rewrite P0, D0; exact H)).
  set (es := (λ kv, attr_entry kv.1 kv.2) <$> kept (written its)).
  remember (set_pos (pos r0 + length (render_items its)) (push_all es r0))
    as r1 eqn:Hr1.
  assert (pos r1 = pos r + length (render_items its) ∧ data r1 = data r)
    as [P1 D1].
  { subst r1. cbn [pos data set_pos]. by rewrite push_all_data, P0, D0. }
  assert (drop (pos r1) (data r1) = tg ++ tag_close selfclose rest) as H1
    by (rewrite P1, D1; by apply drop_add_app).
  rewrite (parse_from_blank r1 tg (tag_close selfclose rest) Htg)
    by (done || (destruct selfclose; by intros c [= <-])).
  remember (set_pos (pos r1 + length tg) r1) as r2 eqn:Hr2.
  assert (drop (pos r2) (data r2) = tag_close selfclose rest) as H2
    by (subst r2; cbn [pos data set_pos]; by apply drop_add_app).
  assert (pos r2 = pos r + length (render_items its ++ tg)) as P2
    by (subst r2; cbn [pos set_pos]; rewrite P1, length_app; lia).
  unfold after_attrs, render_attrs. cbn zeta. cbn [fst snd]. fold es.
  rewrite <- Hr0. unfold parse_from.
  destruct selfclose; cbn [tag_close] in H2.
  - destruct (cursor_at r2 _ _ H2) as (_ & _ & n & -> & _).
    rewrite (parse_attrs_loop_selfclose _ r2 rest H2). rewrite P2.
    by subst r2 r1.
  - destruct (cursor_at r2 _ _ H2) as (_ & _ & n & -> & _).
    rewrite (parse_attrs_loop_open _ r2 rest H2). rewrite P2.
    by subst r2 r1.
Qed.

Lemma reported_push_attr a r :
  length (attrs r) = MAX_ATTRS →
  reported (push_attr a r)
  = if bool_decide (attr_count r < MAX_ATTRS) then reported r ++ [a]
    else reported r.
Proof.
  intros Hl. unfold push_attr, reported. case_bool_decide as Hc; [|done].
  cbn [attrs attr_count set_attr_count set_attrs].
  replace (attr_count r + 1) with (S (attr_count r)) by lia.
  erewrite take_S_r by (apply list_lookup_insert_eq; lia).
  by rewrite take_insert_ge by lia.
Qed.

Lemma reported_push_all es r :
  length (attrs r) = MAX_ATTRS → attr_count r ≤ MAX_ATTRS →
  reported (push_all es r) = take MAX_ATTRS (reported r ++ es).
Proof.
  revert r. induction es as [|a es IH]; intros r Hl Hc.
  - cbn [push_all foldl]. rewrite app_nil_r, take_ge; [done|].
    unfold reported. rewrite length_take. lia.
  - cbn [push_all foldl]. fold (push_all es (push_attr a r)).
    pose proof (reported_push_attr a r Hl) as Hp.
    assert (length (reported r) = attr_count r) as Hlen
      by (unfold reported; rewrite length_take; lia).
    unfold push_attr in *. case_bool_decide as Hlt.
    + rewrite IH; cbn [attrs attr_count set_attr_count set_attrs];
        [|by rewrite length_insert|lia].
      by rewrite Hp, <- (assoc_L (++)).
    + rewrite IH by done.
      rewrite !take_app_le by lia. done.
Qed.

Lemma make_attr_value_entry cs ub r k v :
  make_attr_value cs ub r (attr_entry k v) = decode_entities cs ub v.
Proof.
  unfold make_attr_value, attr_entry, rb_enc_str_new.
  cbn [val_has_entity val_len val_ptr]. rewrite firstn_all.
  case_bool_decide as Hin; [done|]. by rewrite decode_entities_plain.
Qed.

Lemma find_attr_entries cs ub r needle kvs :
  find_attr cs ub r needle ((λ kv, attr_entry kv.1 kv.2) <$> kvs)
  = match list_find (λ kv, kv.1 = needle) kvs with
    | Some (_, kv) => decode_entities cs ub kv.2
    | None => Some Qnil
    end.
Proof.
  induction kvs as [|[k v] kvs IH]; [done|].
  cbn [fmap list_fmap find_attr list_find fst snd].
  cbn [attr_entry a_name_len a_name_ptr].
  destruct (decide (k = needle)) as [->|Hne].
  - rewrite firstn_all, !bool_decide_eq_true_2 by done. cbn [andb].
    apply make_attr_value_entry.
  - assert (bool_decide (length k = length needle)
            && bool_decide (take (length needle) k = needle) = false) as ->.
    { apply andb_false_iff.
      destruct (decide (length k = length needle)) as [Hl|Hl].
      - right. apply bool_decide_eq_false. rewrite <- Hl, firstn_all. done.
      - left. by apply bool_decide_eq_false. }
    fold (fmap (M := list) (λ kv : list ascii * list ascii, attr_entry kv.1 kv.2) kvs).
    rewrite IH. by destruct (list_find _ kvs) as [[i kv]|].
Qed.

Lemma push_all_keeps {A} (f : FastReader → A) es r :
  (∀ x v, f (set_attrs v x) = f x) →
  (∀ x n, f (set_attr_count n x) = f x) →
  f (push_all es r) = f r.
Proof.
  intros H1 H2. revert r. induction es as [|a es IH]; intros r; [done|].
  cbn [push_all foldl]. fold (push_all es (push_attr a r)).
  by rewrite IH, push_attr_keeps.
Qed.

Lemma after_attrs_fields r a sc :
  let r' := after_attrs r a sc in
  data r' = data r ∧
  pos r' = pos r + length (render_attrs a) + (if sc then 2 else 1) ∧
  depth r' = depth r ∧ report_depth r' = report_depth r ∧
  node_type r' = node_type r ∧ is_empty r' = sc ∧
  name_ptr r' = name_ptr r ∧ name_len r' = name_len r ∧
  text_ptr r' = text_ptr r ∧ text_len r' = text_len r ∧
  text_has_entity r' = text_has_entity r ∧
  decoded_text r' = decoded_text r ∧ name_cache r' = name_cache r ∧
  (length (attrs r) = MAX_ATTRS →
   reported r' = take MAX_ATTRS ((λ kv, attr_entry kv.1 kv.2) <$> kept (written a.1))).
Proof.
  unfold after_attrs. cbn zeta.
  set (es := (λ kv, attr_entry kv.1 kv.2) <$> kept (written a.1)).
  set (r0 := set_is_empty false (set_attr_count 0 r)).
  assert (length (attrs r) = MAX_ATTRS →
          reported (push_all es r0) = take MAX_ATTRS es) as Hrep.
  { intros Hl. rewrite reported_push_all; [|done|cbn; unfold MAX_ATTRS; lia].
    unfold reported, r0. cbn [attr_count set_is_empty set_attr_count].
    by rewrite take_0. }
  destruct sc;
    cbn [data pos depth report_depth node_type is_empty name_ptr name_len
         text_ptr text_len text_has_entity decoded_text name_cache
         set_pos set_is_empty];
    rewrite (push_all_keeps data), (push_all_keeps depth),
      (push_all_keeps report_depth), (push_all_keeps node_type),
      (push_all_keeps name_ptr), (push_all_keeps name_len),
      (push_all_keeps text_ptr), (push_all_keeps text_len),
      (push_all_keeps text_has_entity), (push_all_keeps decoded_text),
      (push_all_keeps name_cache), ?(push_all_keeps is_empty) by done;
    split_and!; done.
Qed.

Lemma read_start_core s x a (sc : bool) rest :
  tag_name_ok x → attrs_ok a →
  drop (pos s) (data s)
  = x ++ render_attrs a
      ++ tag_close sc rest →
  ∃ nptr nlen,
    slice (data s) nptr nlen = local_part x ∧
    nlen = length (local_part x) ∧
    read_start_element s
    = Some (let s2 := after_attrs
                        (set_node_type TYPE_ELEMENT
                           (set_name (Some (local_part x))
                              (length (local_part x))
                              (set_pos (pos s + length x) s))) a sc in
            if is_empty s2 then set_report_depth (depth s2) s2
            else
              let r3 := collapse_peek nptr nlen s2 in
              if is_empty r3 then set_report_depth (depth r3) r3
              else set_depth (wrap_int (depth r3 + 1)) (set_report_depth (depth r3) r3)).
Proof.
  intros Hx Hok H.
  destruct (start_name_scan s x _ Hx H) as [Hk Hsx].
  { intros c Hc. destruct Hok as [Hits Htg].
    destruct (follows_items a.1 (a.2 ++ tag_close sc rest) Hits
                (follows_close a.2 sc rest Htg))
      as (ws & c' & more & E & Hws & _ & Hce & Hend).
    unfold render_attrs in Hc. rewrite <- app_assoc, E in Hc.
    apply negb_false_iff.
    destruct ws as [|w ws].
    - cbn in Hc. injection Hc as <-.
      destruct Hend as [|He]; [done|]. revert He.
      unfold attr_name_end, elem_name_end.
      by rewrite (proj2 (Ascii.eqb_neq c' "=")) by done.
    - cbn in Hc. injection Hc as <-.
      unfold blank in Hws. cbn in Hws. apply andb_prop in Hws as [Hw _].
      revert Hw. unfold is_space, elem_name_end. intros ->. done. }
  pose proof (tag_name_in_bounds s x _ H (proj1 Hx)) as Hin.
  pose proof (strip_prefix_local (data s) (pos s) (length x)) as Hl.
  pose proof (strip_prefix_bounds (data s) (pos s) (length x)) as Hb.
  rewrite Hsx in Hl.
  destruct (strip_prefix (data s) (pos s) (length x)) as [nptr nlen] eqn:Hs.
  simpl in Hl.
  assert (nlen = length (local_part x)) as Hnlen.
  { rewrite <- Hl. rewrite slice_full_length; [done|lia]. }
  exists nptr, nlen. split; [done|]. split; [done|].
  remember (set_node_type TYPE_ELEMENT
              (set_name (Some (slice (data s) nptr nlen)) nlen
                 (set_pos (pos s + length x) s))) as s1 eqn:Hs1.
  assert (drop (pos s1) (data s1)
          = render_attrs a
              ++ tag_close sc rest) as H1.
  { subst s1. by apply drop_add_app. }
  pose proof (parse_attrs_rendered s1 a sc rest Hok H1) as Hp.
  rewrite Hs1 in Hp at 1.
  rewrite (read_start_element_after_attrs s _ _ _ _ Hk Hs Hp).
  subst s1. by rewrite Hl, Hnlen.
Qed.

(** ** The name of an end tag *)

Lemma local_part_app x ws :
  (":" ∉ ws) → local_part (x ++ ws) = local_part x ++ ws.
Proof.
  intros Hws. unfold local_part.
  destruct (list_find (λ c, c = ":") x) as [[i c]|] eqn:E.
  - assert (list_find (λ c, c = ":") (x ++ ws) = Some (i, c)) as ->
      by (apply list_find_app_Some; by left).
    apply list_find_Some in E as (Hl & _ & _).
    apply lookup_lt_Some in Hl. by rewrite drop_app_le by lia.
  - assert (list_find (λ c, c = ":") (x ++ ws) = None) as ->; [|done].
    apply list_find_app_None. split; [done|].
    apply list_find_None, Forall_forall. by intros c Hc ->.
Qed.

Lemma blank_le ws c : blank ws → c ∈ ws → (uchar c <= 32)%Z.
Proof.
  intros Hws Hc. apply blank_Forall in Hws. rewrite Forall_forall in Hws.
  specialize (Hws c Hc). unfold is_space in Hws.
  repeat (apply orb_prop in Hws as [Hws|Hws]);
    apply Ascii.eqb_eq in Hws as ->; by vm_compute.
Qed.

Lemma trim_trailing_blank d np m ws :
  blank ws → slice d (np + m) (length ws) = ws →
  np + m + length ws ≤ length d →
  trim_trailing d np (m + length ws) = trim_trailing d np m.
Proof.
  induction ws as [|w ws IH] using rev_ind; intros Hws Hs Hl.
  { by rewrite Nat.add_0_r. }
  rewrite length_app in *. cbn [length] in *.
  replace (m + (length ws + 1)) with (S (m + length ws)) by lia.
  cbn [trim_trailing].
  assert (byte_at d (np + (m + length ws)) = w) as ->.
  { apply byte_at_lookup.
    assert ((ws ++ [w]) !! length ws = Some w) as Hw
      by (by rewrite list_lookup_middle).
    rewrite <- Hs in Hw. unfold slice in Hw.
    rewrite lookup_take_lt, lookup_drop in Hw by lia.
    by replace (np + (m + length ws)) with (np + m + length ws) by lia. }
  rewrite (proj2 (Z.leb_le _ _)).
  - apply IH.
    + unfold blank in *. rewrite forallb_app in Hws.
      by apply andb_prop in Hws as [? _].
    + rewrite <- (take_slice d (np + m) (length ws + 1)) by lia.
      by rewrite Hs, take_app_length.
    + lia.
  - apply (blank_le (ws ++ [w])); [done|]. apply elem_of_app. right. by left.
Qed.

Lemma blank_no_colon ws : blank ws → ":" ∉ ws.
Proof. intros Hws Hin. by pose proof (blank_le ws ":" Hws Hin). Qed.

Lemma blank_no_gt ws : blank ws → ">" ∉ ws.
Proof. intros Hws Hin. by pose proof (blank_le ws ">" Hws Hin). Qed.

(** The name region [x ++ ws] of an end tag gives the local part of
    [x]. *)
Lemma end_name_found d p x ws :
  tag_name_ok x → blank ws →
  slice d p (length x + length ws) = x ++ ws →
  p + (length x + length ws) ≤ length d →
  ∃ np nl,
    strip_prefix d p (length x + length ws) = (np, nl) ∧
    trim_trailing d np nl = length (local_part x) ∧
    slice d np (length (local_part x)) = local_part x.
Proof.
  intros (_ & Hx & _) Hws Hs Hl.
  pose proof (strip_prefix_local d p (length x + length ws)) as Hloc.
  pose proof (strip_prefix_bounds d p (length x + length ws)) as Hb.
  rewrite Hs, (local_part_app x ws (blank_no_colon ws Hws)) in Hloc.
  destruct (strip_prefix d p (length x + length ws)) as [np nl].
  cbn [fst snd] in Hloc. destruct Hb as [Hb1 Hb2].
  exists np, nl. split; [done|].
  assert (nl = length (local_part x) + length ws) as ->.
  { rewrite <- (length_app (local_part x) ws), <- Hloc.
    rewrite slice_full_length; [done|lia]. }
  assert (slice d np (length (local_part x)) = local_part x) as Hsl.
  { rewrite <- (take_slice d np (length (local_part x) + length ws)) by lia.
    by rewrite Hloc, take_app_length. }
  split; [|done].
  rewrite trim_trailing_blank; [|done| |lia].
  - apply trim_trailing_id.
    destruct (decide (length (local_part x) = 0)) as [|Hne]; [by left|right].
    assert (local_part x !! (length (local_part x) - 1)
            = Some (byte_at d (np + (length (local_part x) - 1)))) as Hlk.
    { assert (slice d np (length (local_part x))
                !! (length (local_part x) - 1)
              = Some (byte_at d (np + (length (local_part x) - 1)))) as Hk.
      { unfold slice. rewrite lookup_take_lt, lookup_drop by lia.
        apply lookup_byte_at. lia. }
      by rewrite Hsl in Hk. }
    assert (byte_at d (np + (length (local_part x) - 1)) ∈ x) as Hin.
    { apply list_elem_of_lookup_2 in Hlk.
      remember (byte_at d (np + (length (local_part x) - 1))) as b eqn:Eb.
      clear Eb. unfold local_part in Hlk.
      destruct (list_find _ x) as [[i c]|]; [|done].
      by apply (subseteq_drop (S i) x). }
    rewrite Forall_forall in Hx. by destruct (Hx _ Hin).
  - assert (drop (length (local_part x))
              (slice d np (length (local_part x) + length ws)) = ws) as Hd
      by (by rewrite Hloc, drop_app_length).
    unfold slice in *. rewrite skipn_firstn_comm, drop_drop in Hd.
    replace (length (local_part x) + length ws - length (local_part x))
      with (length ws) in Hd by lia.
    exact Hd.
Qed.

Lemma collapse_peek_gap nptr nlen r x ws post :
  tag_name_ok x → blank ws →
  drop (pos r) (data r) = "<" :: "/" :: x ++ ws ++ ">" :: post →
  slice (data r) nptr nlen = local_part x → nlen = length (local_part x) →
  collapse_peek nptr nlen r
  = set_pos (pos r + (length x + length ws + 3)) (set_is_empty true r).
Proof.
  intros Hx Hws H Hname Hnlen.
  destruct (cursor_at r _ _ H) as (Hlt & Hc & n & Hf & Hn).
  simpl in Hn. rewrite !length_app in Hn. simpl in Hn.
  assert (byte_at (data r) (pos r + 1) = "/") as Hsl
    by (by rewrite byte_at_drop, H).
  assert (">"%char ∉ x ++ ws) as Hgtx.
  { intros [Hin|Hin]%elem_of_app; [|by apply (blank_no_gt ws)].
    destruct Hx as (_ & Hall & _). rewrite Forall_forall in Hall.
    by destruct (Hall _ Hin) as (_ & ? & _). }
  assert (memchr (data r) (pos r + 2) ">" (size r - (pos r + 2))
          = Some (pos r + 2 + length (x ++ ws))) as Hm.
  { apply (memchr_first _ _ _ _ (x ++ ws) post); [|done].
    rewrite slice_drop, H. unfold slice. simpl drop.
    rewrite <- app_assoc. apply take_ge. rewrite !length_app. simpl. lia. }
  assert (slice (data r) (pos r + 2) (length x + length ws) = x ++ ws) as Hsx.
  { rewrite slice_drop, H, <- length_app.
    rewrite (app_assoc x ws). apply (slice_app_at ["<"; "/"] (x ++ ws)). }
  destruct (end_name_found (data r) (pos r + 2) x ws Hx Hws Hsx)
    as (np & nl & Hsp & Htr & Hloc); [unfold size in *; lia|].
  unfold collapse_peek. cbn zeta.
  rewrite bool_decide_eq_true_2 by lia. rewrite Hc, Hsl.
  simpl (_ && _). cbn iota.
  rewrite Hm, length_app.
  replace (pos r + 2 + (length x + length ws) - (pos r + 2))
    with (length x + length ws) by lia.
  rewrite Hsp, Htr.
  rewrite bool_decide_eq_true_2 by congruence.
  rewrite bool_decide_eq_true_2 by (rewrite Hname, Hnlen; congruence).
  cbn [andb]. cbv iota. f_equal. lia.
Qed.

Lemma collapse_peek_none nptr nlen r :
  no_end_tag (drop (pos r) (data r)) → collapse_peek nptr nlen r = r.
Proof.
  intros Hn. unfold collapse_peek. cbn zeta.
  destruct (bool_decide (pos r + 1 < size r) && (cur r =? "<")
            && (byte_at (data r) (pos r + 1) =? "/")) eqn:E; [|done].
  exfalso.
  apply andb_prop in E as [E E3]. apply andb_prop in E as [E1 E2].
  apply bool_decide_eq_true in E1.
  apply Ascii.eqb_eq in E2, E3. unfold cur, size in *.
  apply (Hn (drop (pos r + 2) (data r))).
  rewrite (drop_S _ (byte_at (data r) (pos r)) (pos r))
    by (apply lookup_byte_at; lia).
  rewrite E2. f_equal.
  rewrite (drop_S _ (byte_at (data r) (S (pos r))) (S (pos r)))
    by (apply lookup_byte_at; lia).
  replace (S (pos r)) with (pos r + 1) by lia. rewrite E3.
  by replace (S (pos r + 1)) with (pos r + 2) by lia.
Qed.

Lemma read_start_rendered s x a t post :
  tag_name_ok x → attrs_ok a → tag_end_ok t →
  (t = Open → no_end_tag post) →
  drop (pos s) (data s) = x ++ render_attrs a ++ tag_tail x t post →
  ∃ r', read_start_element s = Some r' ∧
        drop (pos r') (data r') = post ∧ pos r' ≤ size r' ∧
        element_state s x (tag_is_empty t) r' ∧
        (length (attrs s) = MAX_ATTRS →
         reported r'
         = take MAX_ATTRS ((λ kv, attr_entry kv.1 kv.2) <$> kept (written a.1))).
Proof.
  intros Hx Hok Hend Hopen H.
  set (sc := match t with Selfclose => true | _ => false end).
  set (rest := match t with
               | Selfclose | Open => post
               | Collapsed ws => "<" :: "/" :: x ++ ws ++ ">" :: post
               end).
  assert (tag_tail x t post
          = tag_close sc rest) as Ht
    by (by destruct t).
  rewrite Ht in H.
  destruct (read_start_core s x a sc rest Hx Hok H)
    as (nptr & nlen & Hsl & Hnlen & ->).
  remember (set_node_type TYPE_ELEMENT
              (set_name (Some (local_part x)) (length (local_part x))
                 (set_pos (pos s + length x) s))) as s1 eqn:Hs1.
  pose proof (after_attrs_fields s1 a sc) as Hf. cbn zeta in Hf.
  cbn zeta.
  remember (after_attrs s1 a sc) as s2 eqn:Hs2.
  destruct Hf as (F1 & F2 & F3 & F4 & F5 & F6 & F7 & F8 & F9 & F10 & F11
                  & F12 & F13 & F14).
  assert (data s1 = data s ∧ pos s1 = pos s + length x) as [D1 P1]
    by (by subst s1).
  assert (drop (pos s2) (data s2) = rest) as H2.
  { rewrite F1, F2, D1, P1.
    replace (pos s + length x + length (render_attrs a)
             + (if sc then 2 else 1))
      with (pos s + length (x ++ render_attrs a
                              ++ (if sc then ["/"; ">"] else [">"])))
      by (rewrite !length_app; destruct sc; cbn [length]; lia).
    apply drop_add_app. rewrite H, <- !(assoc_L (++)). by destruct sc. }
  assert (length (drop (pos s2) (data s2)) = length rest) as Hlen2
    by (by rewrite H2).
  rewrite length_drop in Hlen2.
  assert (pos s2 ≤ size s2) as Hb2.
  { assert (length (drop (pos s) (data s))
            = length (x ++ render_attrs a
                        ++ tag_close sc rest))
      as Hlen by (by rewrite H).
    rewrite length_drop, !length_app in Hlen.
    unfold size. rewrite F1, F2, D1, P1. unfold tag_close in Hlen.
    destruct sc; cbn [length] in Hlen; lia. }
  assert (length (attrs s1) = length (attrs s)) as Hla by (by subst s1).
  destruct t as [|ws|]; subst sc rest; cbn [tag_is_empty tag_end_ok] in *.
  - (* self-closing *)
    rewrite F6. eexists. split; [done|].
    cbn [data pos set_report_depth]. split; [done|].
    split; [done|].
    split.
    + unfold element_state.
      cbn [data depth report_depth node_type is_empty name_ptr name_len
           text_ptr text_len text_has_entity decoded_text name_cache
           set_report_depth].
      rewrite F1, F3, F5, F6, F7, F8, F9, F10, F11, F12, F13. by subst s1.
    + intros Hl. change (reported (set_report_depth (depth s2) s2))
        with (reported s2). apply F14. congruence.
  - (* collapsed *)
    rewrite F6.
    assert (slice (data s2) nptr nlen = local_part x) as Hsl2
      by (by rewrite F1, D1).
    rewrite (collapse_peek_gap nptr nlen s2 x ws post Hx Hend H2 Hsl2 Hnlen).
    cbn zeta.
    change (is_empty (set_pos ?p (set_is_empty true ?r))) with true. cbv iota.
    eexists. split; [done|].
    cbn [data pos set_report_depth set_pos set_is_empty].
    assert (drop (pos s2 + (length x + length ws + 3)) (data s2) = post) as Hd.
    { replace (length x + length ws + 3)
        with (length ("<" :: "/" :: x ++ ws ++ [">"]))
        by (cbn [length]; rewrite !length_app; cbn [length]; lia).
      apply drop_add_app. rewrite H2. by norm_app. }
    split; [done|]. split.
    { unfold size. cbn [data set_pos set_is_empty set_report_depth].
      cbn [length] in Hlen2. rewrite !length_app in Hlen2.
      cbn [length] in Hlen2. lia. }
    split.
    + unfold element_state.
      cbn [data depth report_depth node_type is_empty name_ptr name_len
           text_ptr text_len text_has_entity decoded_text name_cache
           set_report_depth set_pos set_is_empty].
      rewrite F1, F3, F5, F7, F8, F9, F10, F11, F12, F13. by subst s1.
    + intros Hl. change (reported (set_report_depth ?d (set_pos ?p (set_is_empty ?e s2))))
        with (reported s2). apply F14. congruence.
  - (* open *)
    rewrite F6.
    rewrite collapse_peek_none by (rewrite H2; by apply Hopen).
    cbn zeta. rewrite F6.
    eexists. split; [done|].
    cbn [data pos set_report_depth set_depth]. split; [done|].
    split; [done|].
    split.
    + unfold element_state.
      cbn [data depth report_depth node_type is_empty name_ptr name_len
           text_ptr text_len text_has_entity decoded_text name_cache
           set_report_depth set_depth].
      rewrite F1, F3, F5, F6, F7, F8, F9, F10, F11, F12, F13. by subst s1.
    + intros Hl.
      change (reported (set_depth ?d' (set_report_depth ?d s2)))
        with (reported s2). apply F14. congruence.
Qed.

(** A [read] at a start tag is [read_start_element] one byte further. *)
Lemma read_internal_start_tag q x rest :
  tag_name_ok x → drop (pos q) (data q) = "<" :: x ++ rest →
  reader_read_internal q
  = r2 ← read_start_element (set_pos (pos q + 1) (cleared q)); Some (true, r2).
Proof.
  intros Hx H. unfold reader_read_internal. cbn zeta. fold (cleared q).
  remember (cleared q) as q0 eqn:Hq0.
  assert (drop (pos q0) (data q0) = "<" :: x ++ rest) as H0 by (by subst q0).
  assert (pos q = pos q0) as -> by (by subst q0).
  clear Hq0 H.
  destruct (cursor_at q0 _ _ H0) as (Hlt & Hc & n & Hf & Hn).
  rewrite Hf. clear Hn.
  destruct x as [|c x]; [by destruct Hx|].
  by rewrite (read_loop_start_tag n q0 c x _ Hx H0).
Qed.

Lemma read_start_attrs s x a (sc : bool) rest :
  tag_name_ok x → attrs_ok a →
  drop (pos s) (data s)
  = x ++ render_attrs a
      ++ tag_close sc rest →
  ∃ r', read_start_element s = Some r' ∧
        node_type r' = TYPE_ELEMENT ∧
        (length (attrs s) = MAX_ATTRS →
         reported r'
         = take MAX_ATTRS ((λ kv, attr_entry kv.1 kv.2) <$> kept (written a.1))).
Proof.
  intros Hx Hok H.
  destruct (read_start_core s x a sc rest Hx Hok H)
    as (nptr & nlen & _ & _ & ->).
  eexists. split; [done|]. cbn zeta.
  remember (set_node_type TYPE_ELEMENT
              (set_name (Some (local_part x)) (length (local_part x))
                 (set_pos (pos s + length x) s))) as s1 eqn:Hs1.
  pose proof (after_attrs_fields s1 a sc) as Hf'. cbn zeta in Hf'.
  remember (after_attrs s1 a sc) as s2 eqn:Hs2.
  destruct Hf' as (_ & _ & _ & _ & F5 & F6 & _ & _ & _ & _ & _ & _ & _ & F14).
  assert (node_type s2 = TYPE_ELEMENT) as Hty by (rewrite F5; by subst s1).
  assert (length (attrs s) = MAX_ATTRS →
          reported s2
          = take MAX_ATTRS ((λ kv, attr_entry kv.1 kv.2) <$> kept (written a.1)))
    as Hrep by (intros Hl; apply F14; by subst s1).
  pose proof (collapse_peek_reported nptr nlen s2) as Hcr.
  assert (node_type (collapse_peek nptr nlen s2) = TYPE_ELEMENT) as Hct.
  { apply (collapse_peek_closed (λ y, node_type y = TYPE_ELEMENT)); done. }
  remember (collapse_peek nptr nlen s2) as s3 eqn:Hs3.
  destruct (is_empty s2); [split; [exact Hty|exact Hrep]|].
  destruct (is_empty s3); (split; [exact Hct|]);
    intros Hl; (etrans; [exact Hcr|]); by apply Hrep.
Qed.

(** The first [read] at a start tag with attributes. *)
Lemma read_element q x a t post :
  tag_name_ok x → attrs_ok a → tag_end_ok t →
  (t = Open → no_end_tag post) →
  drop (pos q) (data q)
  = "<" :: x ++ render_attrs a ++ tag_tail x t post →
  ∃ r', reader_read_internal q = Some (true, r') ∧
        drop (pos r') (data r') = post ∧ pos r' ≤ size r' ∧
        element_state (cleared q) x (tag_is_empty t) r' ∧
        (length (attrs q) = MAX_ATTRS →
         reported r'
         = take MAX_ATTRS ((λ kv, attr_entry kv.1 kv.2) <$> kept (written a.1))).
Proof.
  intros Hx Hok Hend Hopen H.
  rewrite (read_internal_start_tag q x _ Hx H).
  remember (set_pos (pos q + 1) (cleared q)) as q1 eqn:Hq1.
  assert (drop (pos q1) (data q1)
          = x ++ render_attrs a ++ tag_tail x t post) as H1.
  { subst q1. cbn [pos data set_pos cleared set_attr_count set_text
                   set_decoded_text]. by apply (drop_add_app _ ["<"]). }
  destruct (read_start_rendered q1 x a t post Hx Hok Hend Hopen H1)
    as (r' & -> & Hd & Hb & He & Hr).
  exists r'. cbn [mbind option_bind]. split; [done|].
  split; [done|]. split; [done|]. split.
  - by subst q1.
  - intros Hl. apply Hr. by subst q1.
Qed.

(** X17: A [read] at a start tag reports an element with the
    attributes that are written in it.  Between the name and the end
    of the tag, [>] or [/>], stand items after white space: attributes
    [key = q v q] in either quote, with or without white space around
    the [=], names without a value and names with a value that is not
    quoted.  The last two are passed over; of the attributes, those
    that do not declare a name space are kept in the order written, at
    most [MAX_ATTRS] of them; [attribute k] returns the decoded value
    of the first of them named [k], and nil when there is none. *)
Theorem attribute_lookup cs ub q x a (selfclose : bool) rest :
  tag_name_ok x → attrs_ok a → tables_ok q →
  drop (pos q) (data q)
  = "<" :: x ++ render_attrs a ++ tag_close selfclose rest →
  ∃ r', reader_read_internal q = Some (true, r') ∧
        node_type r' = TYPE_ELEMENT ∧
        attr_count r' = length (kept (written a.1)) `min` MAX_ATTRS ∧
        ∀ k, reader_attribute cs ub r' k
             = match list_find (λ kv, kv.1 = k)
                       (take MAX_ATTRS (kept (written a.1))) with
               | Some (_, kv) => decode_entities cs ub kv.2
               | None => Some Qnil
               end.
Proof.
  intros Hx Hok Ht H.
  rewrite (read_internal_start_tag q x _ Hx H).
  remember (set_pos (pos q + 1) (cleared q)) as q1 eqn:Hq1.
  assert (drop (pos q1) (data q1)
          = x ++ render_attrs a
              ++ tag_close selfclose rest) as H1.
  { subst q1. cbn [pos data set_pos cleared set_attr_count set_text
                   set_decoded_text]. by apply (drop_add_app _ ["<"]). }
  assert (tables_ok q1) as Ht1.
  { subst q1. destruct Ht as (T1 & T2 & T3). split_and!; [done|cbn; lia|done]. }
  destruct (read_start_attrs q1 x a selfclose rest Hx Hok H1)
    as (r' & Hr & Hty & Hrep).
  rewrite Hr. exists r'. cbn [mbind option_bind].
  split; [done|]. split; [done|].
  assert (length (attrs q1) = MAX_ATTRS) as Hl by apply Ht1.
  specialize (Hrep Hl).
  split.
  - assert (length (reported r') = attr_count r' `min` length (attrs r'))
      as Hlen by (unfold reported; by rewrite length_take).
    rewrite Hrep, length_take, length_fmap in Hlen.
    assert (tables_ok r') as (T1 & T2 & _).
    { eapply (read_start_element_closed tables_ok); [..|exact Hr|exact Ht1];
        try done.
      - intros y e. apply tables_ok_push.
      - intros y (H1' & H2' & H3'). split_and!; [done|cbn; lia|done]. }
    rewrite T1 in Hlen. lia.
  - intros k. unfold reader_attribute. fold (reported r'). rewrite Hrep.
    rewrite <- fmap_take. apply find_attr_entries.
Qed.

Lemma attribute_lookup_witness :
  ∃ r', reader_read_internal
          (reader_new
             (bytes "<a k = '1' xmlns:p='u' checked k='2' c=3 m='x&amp;y' />"))
        = Some (true, r') ∧
        attr_count r' = 3 ∧
        reader_attribute true 64 r' (bytes "k") = Some (RString (bytes "1")) ∧
        reader_attribute true 64 r' (bytes "m") = Some (RString (bytes "x&y")) ∧
        reader_attribute true 64 r' (bytes "xmlns:p") = Some Qnil ∧
        reader_attribute true 64 r' (bytes "checked") = Some Qnil ∧
        reader_attribute true 64 r' (bytes "c") = Some Qnil.
Proof.
  assert (∀ c, attr_name_end c = false → name_like [c]) as Hn1
    by (intros c Hc; split; [done|by apply Forall_singleton]).
  assert (name_like (bytes "xmlns:p") ∧ name_like (bytes "checked")) as [Hn2 Hn3].
  { split; (split; [done|]);
      repeat (apply Forall_cons_2; [reflexivity|]); apply Forall_nil_2. }
  destruct (attribute_lookup true 64
              (reader_new
                 (bytes "<a k = '1' xmlns:p='u' checked k='2' c=3 m='x&amp;y' />"))
              (bytes "a")
              ([(bytes " ", Attr (bytes "k") (bytes " ") (bytes " ") "'" (bytes "1"));
                (bytes " ", Attr (bytes "xmlns:p") [] [] "'" (bytes "u"));
                (bytes " ", Bare (bytes "checked"));
                (bytes " ", Attr (bytes "k") [] [] "'" (bytes "2"));
                (bytes " ", Unquoted (bytes "c") [] [] (bytes "3"));
                (bytes " ", Attr (bytes "m") [] [] "'" (bytes "x&amp;y"))],
               bytes " ")
              true [])
    as (r' & Hr & _ & Hc & Hk).
  - refine (conj _ (conj _ (conj _ _))); [discriminate| |discriminate..].
    apply Forall_singleton.
    refine (conj _ (conj _ _)); [reflexivity|discriminate..].
  - split; [|reflexivity].
    repeat (apply Forall_cons_2; [split; [discriminate|split; [reflexivity|]]|]);
      [| | | | | |apply Forall_nil_2].
    + refine (conj (Hn1 "k" eq_refl) (conj eq_refl (conj eq_refl
                (conj (or_intror eq_refl) _)))). notin_lit.
    + refine (conj Hn2 (conj eq_refl (conj eq_refl
                (conj (or_intror eq_refl) _)))). notin_lit.
    + exact Hn3.
    + refine (conj (Hn1 "k" eq_refl) (conj eq_refl (conj eq_refl
                (conj (or_intror eq_refl) _)))). notin_lit.
    + refine (conj (Hn1 "c" eq_refl) (conj eq_refl (conj eq_refl
                (conj (Hn1 "3" eq_refl) _)))).
      intros c [= <-] [E|E]; discriminate E.
    + refine (conj (Hn1 "m" eq_refl) (conj eq_refl (conj eq_refl
                (conj (or_intror eq_refl) _)))). notin_lit.
  - refine (conj _ (conj _ _)); [apply length_replicate|cbn; lia|
                                 apply length_replicate].
  - reflexivity.
  - exists r'. split; [exact Hr|]. split; [exact Hc|].
    split; [exact (Hk (bytes "k"))|].
    split; [exact (Hk (bytes "m"))|].
    split; [exact (Hk (bytes "xmlns:p"))|].
    split; [exact (Hk (bytes "checked"))|exact (Hk (bytes "c"))].
Defined.

(** More fuel does not change a result. *)
Lemma read_loop_mono n r x :
  read_loop n r = Some x → read_loop (S n) r = Some x.
Proof.
  revert r. induction n as [|n IH]; intros r H.
  { cbn [read_loop] in *. destruct (at_end r); [done|discriminate]. }
  remember (S n) as m eqn:Hm. rewrite Hm in H.
  cbn [read_loop] in H. cbn [read_loop]. subst m.
  destruct (at_end r); [done|].
  destruct (cur r =? "<").
  - destruct (at_end _); [done|].
    destruct (cur _ =? "/"); [done|].
    case_match.
    { destruct (skip_comment _); [|done]. by apply IH. }
    case_match.
    { destruct (skip_cdata _); [|done]. by apply IH. }
    case_match; [by apply IH|].
    case_match; [|done].
    destruct (skip_pi _); [|done]. by apply IH.
  - case_match; [by apply IH|done].
Qed.

Lemma read_loop_mono_le n m r x :
  n ≤ m → read_loop n r = Some x → read_loop m r = Some x.
Proof.
  intros Hle H. induction Hle as [|m Hle IH]; [done|]. by apply read_loop_mono.
Qed.

Lemma read_loop_fuel n m r :
  size r - pos r ≤ n → size r - pos r ≤ m → read_loop n r = read_loop m r.
Proof.
  intros Hn Hm.
  assert (∃ x, read_loop (size r - pos r) r = Some x) as [x Hx].
  { destruct (decide (pos r ≤ size r)) as [Hb|Hb].
    - destruct (read_loop_post (size r - pos r) r Hb) as (ok & r' & -> & _);
        [done|by eexists].
    - exists (false, r). destruct (size r - pos r); cbn [read_loop];
        by rewrite (proj2 (at_end_true r)) by lia. }
  rewrite (read_loop_mono_le _ n r x Hn Hx).
  by rewrite (read_loop_mono_le _ m r x Hm Hx).
Qed.

(** ** The skipping loops on a construct that is closed *)

Ltac len := simpl; rewrite ?length_app; simpl; lia.

Lemma ends_first_tail lit c0 c : ends_first lit (c0 :: c) → ends_first lit c.
Proof. intros H a b E. apply (H (c0 :: a) b). simpl. by rewrite E. Qed.

Lemma ends_first_absent lit h c :
  head lit = Some h → h ∉ c → ends_first lit c.
Proof.
  intros Hh Hc a b E.
  destruct (decide (length a < length c)) as [Hlt|Hge].
  - exfalso. apply Hc.
    assert ((c ++ lit) !! length a = Some h) as Hl.
    { rewrite E. rewrite lookup_app_r by lia. rewrite Nat.sub_diag.
      destruct lit; [done|]. simpl in *. congruence. }
    rewrite lookup_app_l in Hl by done.
    by apply list_elem_of_lookup_2 in Hl.
  - assert (length (c ++ lit) = length (a ++ lit ++ b)) as Hlen by (by rewrite E).
    rewrite !length_app in Hlen. apply nil_length_inv. lia.
Qed.

Lemma skip_comment_loop_next f d p :
  p + 3 < length d → byte_at d p ≠ "-" →
  skip_comment_loop (S f) d p = skip_comment_loop (S f) d (S p).
Proof.
  intros Hl Hc. cbn [skip_comment_loop].
  rewrite !bool_decide_eq_true_2 by lia.
  replace (length d - p - 1) with (S (length d - S p - 1)) by lia.
  by rewrite memchr_step by (done || lia).
Qed.

Lemma skip_comment_loop_found c rest fuel :
  ends_first (bytes "-->") c → length c < fuel →
  skip_comment_loop fuel (c ++ bytes "-->" ++ rest) 0 = Some (length c + 3).
Proof.
  revert fuel. induction c as [|c0 c IH]; intros fuel He Hf.
  { destruct fuel; [simpl in Hf; lia|]. cbn [skip_comment_loop].
    rewrite bool_decide_eq_true_2 by (simpl; lia).
    replace (length ([] ++ bytes "-->" ++ rest) - 0 - 1)
      with (S (S (length rest))) by (simpl; lia).
    rewrite memchr_here by (simpl; done || lia).
    rewrite bool_decide_eq_true_2 by (simpl; lia). done. }
  assert (∀ g, length c < g →
            skip_comment_loop g ((c0 :: c) ++ bytes "-->" ++ rest) 1
            = Some (length (c0 :: c) + 3)) as Hrec.
  { intros g Hg.
    change (skip_comment_loop g ([c0] ++ c ++ bytes "-->" ++ rest)
              (length [c0] + 0) = Some (length (c0 :: c) + 3)).
    rewrite skip_comment_loop_shift.
    rewrite IH; [done|by eapply ends_first_tail|done]. }
  destruct fuel as [|f]; [simpl in Hf; lia|].
  destruct (decide (c0 = "-")) as [->|Hc0].
  - cbn [skip_comment_loop].
    rewrite bool_decide_eq_true_2 by len.
    replace (length (("-" :: c) ++ bytes "-->" ++ rest) - 0 - 1)
      with (S (length (c ++ bytes "-->" ++ rest) - 1)) by len.
    rewrite memchr_here by (done || len).
    assert (bool_decide (0 + 2 < length (("-" :: c) ++ bytes "-->" ++ rest))
            && (byte_at (("-" :: c) ++ bytes "-->" ++ rest) 0 =? "-")
            && (byte_at (("-" :: c) ++ bytes "-->" ++ rest) (0 + 1) =? "-")
            && (byte_at (("-" :: c) ++ bytes "-->" ++ rest) (0 + 2) =? ">")
            = false) as ->.
    { destruct c as [|c1 [|c2 c']].
      - done.
      - by apply andb_false_intro2.
      - apply not_true_is_false. intros E.
        apply andb_prop in E as [E E2]. apply andb_prop in E as [_ E1].
        apply eqb_char_true in E1, E2.
        change (c1 = "-") in E1. change (c2 = ">") in E2. subst c1 c2.
        specialize (He [] (c' ++ bytes "-->") eq_refl).
        by destruct c'. }
    apply Hrec. simpl in Hf. lia.
  - rewrite skip_comment_loop_next;
      [ |len|done].
    apply Hrec. simpl in Hf. lia.
Qed.

Lemma skip_pi_loop_next f d p :
  p + 2 < length d → byte_at d p ≠ "?" →
  skip_pi_loop (S f) d p = skip_pi_loop (S f) d (S p).
Proof.
  intros Hl Hc. cbn [skip_pi_loop].
  rewrite !bool_decide_eq_true_2 by lia.
  replace (length d - p - 1) with (S (length d - S p - 1)) by lia.
  by rewrite memchr_step by (done || lia).
Qed.

Lemma skip_pi_loop_found c rest fuel :
  ends_first (bytes "?>") c → length c < fuel →
  skip_pi_loop fuel (c ++ bytes "?>" ++ rest) 0 = Some (length c + 2).
Proof.
  revert fuel. induction c as [|c0 c IH]; intros fuel He Hf.
  { destruct fuel; [simpl in Hf; lia|]. cbn [skip_pi_loop].
    rewrite bool_decide_eq_true_2 by (simpl; lia).
    replace (length ([] ++ bytes "?>" ++ rest) - 0 - 1)
      with (S (length rest)) by (simpl; lia).
    by rewrite memchr_here by (simpl; done || lia). }
  assert (∀ g, length c < g →
            skip_pi_loop g ((c0 :: c) ++ bytes "?>" ++ rest) 1
            = Some (length (c0 :: c) + 2)) as Hrec.
  { intros g Hg.
    change (skip_pi_loop g ([c0] ++ c ++ bytes "?>" ++ rest)
              (length [c0] + 0) = Some (length (c0 :: c) + 2)).
    rewrite skip_pi_loop_shift.
    rewrite IH; [done|by eapply ends_first_tail|done]. }
  destruct fuel as [|f]; [simpl in Hf; lia|].
  destruct (decide (c0 = "?")) as [->|Hc0].
  - cbn [skip_pi_loop].
    rewrite bool_decide_eq_true_2 by len.
    replace (length (("?" :: c) ++ bytes "?>" ++ rest) - 0 - 1)
      with (S (length (c ++ bytes "?>" ++ rest) - 1)) by len.
    rewrite memchr_here by (done || len).
    assert ((byte_at (("?" :: c) ++ bytes "?>" ++ rest) (0 + 1) =? ">")
            = false) as ->.
    { destruct c as [|c1 c']; [done|].
      apply not_true_is_false. intros E. apply eqb_char_true in E.
      change (c1 = ">") in E. subst c1.
      specialize (He [] (c' ++ bytes "?>") eq_refl).
      by destruct c'. }
    apply Hrec. simpl in Hf. lia.
  - rewrite skip_pi_loop_next; [ |len|done].
    apply Hrec. simpl in Hf. lia.
Qed.

Lemma skip_cdata_loop_next f d p :
  p + 3 < length d → byte_at d p ≠ "]" →
  skip_cdata_loop (S f) d p = skip_cdata_loop (S f) d (S p).
Proof.
  intros Hl Hc. cbn [skip_cdata_loop].
  rewrite !bool_decide_eq_true_2 by lia.
  replace (length d - p - 2) with (S (length d - S p - 2)) by lia.
  by rewrite memchr_step by (done || lia).
Qed.

Lemma skip_cdata_loop_found c rest fuel :
  ends_first (bytes "]]>") c → length c < fuel →
  skip_cdata_loop fuel (c ++ bytes "]]>" ++ rest) 0 = Some (length c + 3).
Proof.
  revert fuel. induction c as [|c0 c IH]; intros fuel He Hf.
  { destruct fuel; [simpl in Hf; lia|]. cbn [skip_cdata_loop].
    rewrite bool_decide_eq_true_2 by (simpl; lia).
    replace (length ([] ++ bytes "]]>" ++ rest) - 0 - 2)
      with (S (length rest)) by (simpl; lia).
    by rewrite memchr_here by (simpl; done || lia). }
  assert (∀ g, length c < g →
            skip_cdata_loop g ((c0 :: c) ++ bytes "]]>" ++ rest) 1
            = Some (length (c0 :: c) + 3)) as Hrec.
  { intros g Hg.
    change (skip_cdata_loop g ([c0] ++ c ++ bytes "]]>" ++ rest)
              (length [c0] + 0) = Some (length (c0 :: c) + 3)).
    rewrite skip_cdata_loop_shift.
    rewrite IH; [done|by eapply ends_first_tail|done]. }
  destruct fuel as [|f]; [simpl in Hf; lia|].
  destruct (decide (c0 = "]")) as [->|Hc0].
  - cbn [skip_cdata_loop].
    rewrite bool_decide_eq_true_2 by len.
    replace (length (("]" :: c) ++ bytes "]]>" ++ rest) - 0 - 2)
      with (S (length (c ++ bytes "]]>" ++ rest) - 2)) by len.
    rewrite memchr_here by (done || len).
    assert ((byte_at (("]" :: c) ++ bytes "]]>" ++ rest) (0 + 1) =? "]")
            && (byte_at (("]" :: c) ++ bytes "]]>" ++ rest) (0 + 2) =? ">")
            = false) as ->.
    { destruct c as [|c1 [|c2 c']].
      - done.
      - by apply andb_false_intro2.
      - apply not_true_is_false. intros E.
        apply andb_prop in E as [E1 E2].
        apply eqb_char_true in E1, E2.
        change (c1 = "]") in E1. change (c2 = ">") in E2. subst c1 c2.
        specialize (He [] (c' ++ bytes "]]>") eq_refl).
        by destruct c'. }
    apply Hrec. simpl in Hf. lia.
  - rewrite skip_cdata_loop_next; [ |len|done].
    apply Hrec. simpl in Hf. lia.
Qed.

(** The bracket counter of [skip_doctype] stays an [int] over a body
    of less than [2^31] bytes. *)
Lemma wrap_int_near bd k (n : nat) :
  (Z.abs bd + Z.of_nat (S n) < 2 ^ 31)%Z → (-1 ≤ k ≤ 1)%Z →
  wrap_int (bd + k) = (bd + k)%Z ∧
  (Z.abs (bd + k) + Z.of_nat n < 2 ^ 31)%Z.
Proof.
  intros H Hk. split; [apply wrap_int_id; unfold INT_MIN, INT_MAX|]; lia.
Qed.

Lemma skip_doctype_loop_found body rest p bd :
  (Z.abs bd + Z.of_nat (length body) < 2 ^ 31)%Z →
  (bd + bracket_balance body = 0)%Z →
  (∀ a b, body = a ++ ">" :: b → (bd + bracket_balance a)%Z ≠ 0%Z) →
  skip_doctype_loop (body ++ ">" :: rest) p bd = p + length body + 1.
Proof.
  revert p bd. induction body as [|c body IH]; intros p bd Hlen Hz Hn.
  { simpl in *. replace bd with 0%Z by lia. simpl. lia. }
  cbn [app skip_doctype_loop bracket_balance] in *.
  assert (∀ k, (-1 ≤ k ≤ 1)%Z → (bd + k + bracket_balance body = 0)%Z →
            (∀ a, bracket_balance (c :: a) = (k + bracket_balance a)%Z) →
            skip_doctype_loop (body ++ ">" :: rest) (S p) (bd + k)
            = p + length (c :: body) + 1) as Hrec.
  { intros k Hk Hz' Hc.
    destruct (wrap_int_near bd k (length body) Hlen Hk) as [_ Hlen'].
    rewrite IH; [simpl; lia|done|done|].
    intros a b ->. specialize (Hn (c :: a) b eq_refl).
    rewrite Hc in Hn. lia. }
  destruct (c =? "[") eqn:E1.
  { rewrite (proj1 (wrap_int_near bd 1 (length body) Hlen ltac:(lia))).
    apply Hrec; [lia|lia|]. intros a. cbn [bracket_balance]. by rewrite E1. }
  destruct (c =? "]") eqn:E2.
  { change (bd - 1)%Z with (bd + -1)%Z.
    rewrite (proj1 (wrap_int_near bd (-1) (length body) Hlen ltac:(lia))).
    apply Hrec; [lia|lia|]. intros a. cbn [bracket_balance].
    by rewrite E1, E2. }
  rewrite <- (Z.add_0_r bd) at 2.
  destruct (c =? ">") eqn:E3.
  - apply eqb_char_true in E3 as ->.
    specialize (Hn [] body eq_refl). simpl in Hn.
    destruct (bd =? 0)%Z eqn:E4; [lia|]. simpl.
    apply Hrec; [lia|lia|]. intros a. cbn [bracket_balance]. simpl. lia.
  - simpl. apply Hrec; [lia|lia|]. intros a. cbn [bracket_balance].
    rewrite E1, E2. lia.
Qed.

(** ** A read in front of a comment, a processing instruction, a CDATA
    section or a DOCTYPE *)

Lemma size_ahead q c l :
  drop (pos q) (data q) = c :: l → size q = pos q + S (length l).
Proof.
  intros H. assert (length (drop (pos q) (data q)) = S (length l)) as Hl
    by (by rewrite H).
  rewrite length_drop in Hl. unfold size. lia.
Qed.

Lemma loop_ahead (loop : nat → list ascii → nat → option nat) q l :
  (∀ pre fuel d i, loop fuel (pre ++ d) (length pre + i)
                   = (λ j, length pre + j) <$> loop fuel d i) →
  pos q ≤ size q → drop (pos q) (data q) = l →
  loop (size q - pos q) (data q) (pos q)
  = (λ j, pos q + j) <$> loop (length l) l 0.
Proof.
  intros Hshift Hb H.
  pose proof (Hshift (take (pos q) (data q)) (size q - pos q)
                (drop (pos q) (data q)) 0) as Hs.
  unfold size in *.
  rewrite take_drop, length_take, Nat.min_l, Nat.add_0_r in Hs by lia.
  replace (length l) with (length (data q) - pos q)
    by (by rewrite <- H, length_drop).
  by rewrite Hs, H.
Qed.

Lemma cursor_in_data q l : drop (pos q) (data q) = l → l ≠ [] → pos q ≤ size q.
Proof.
  intros H Hl. destruct l as [|c l]; [done|]. rewrite (size_ahead q c l H). lia.
Qed.

Lemma skip_comment_found q c rest :
  ends_first (bytes "-->") c →
  drop (pos q) (data q) = c ++ bytes "-->" ++ rest →
  skip_comment q = Some (set_pos (pos q + (length c + 3)) q).
Proof.
  intros He H. unfold skip_comment.
  assert (pos q ≤ size q) as Hb by (apply (cursor_in_data q _ H); by destruct c).
  rewrite (loop_ahead skip_comment_loop q _ skip_comment_loop_shift Hb H).
  by rewrite skip_comment_loop_found by (done || len).
Qed.

Lemma skip_pi_found q c rest :
  ends_first (bytes "?>") c →
  drop (pos q) (data q) = c ++ bytes "?>" ++ rest →
  skip_pi q = Some (set_pos (pos q + (length c + 2)) q).
Proof.
  intros He H. unfold skip_pi.
  assert (pos q ≤ size q) as Hb by (apply (cursor_in_data q _ H); by destruct c).
  rewrite (loop_ahead skip_pi_loop q _ skip_pi_loop_shift Hb H).
  by rewrite skip_pi_loop_found by (done || len).
Qed.

Lemma skip_cdata_found q c rest :
  ends_first (bytes "]]>") c →
  drop (pos q) (data q) = c ++ bytes "]]>" ++ rest →
  skip_cdata q = Some (set_pos (pos q + (length c + 3)) q).
Proof.
  intros He H. unfold skip_cdata.
  assert (pos q ≤ size q) as Hb by (apply (cursor_in_data q _ H); by destruct c).
  rewrite (loop_ahead skip_cdata_loop q _ skip_cdata_loop_shift Hb H).
  by rewrite skip_cdata_loop_found by (done || len).
Qed.

Lemma skip_doctype_found q body rest :
  (Z.of_nat (length body) < 2 ^ 31)%Z →
  bracket_balance body = 0%Z →
  (∀ a b, body = a ++ ">" :: b → bracket_balance a ≠ 0%Z) →
  drop (pos q) (data q) = body ++ ">" :: rest →
  skip_doctype q = set_pos (pos q + (length body + 1)) q.
Proof.
  intros Hlen Hz Hn H. unfold skip_doctype.
  rewrite H, skip_doctype_loop_found; [f_equal; lia|lia|lia|].
  intros a b E. specialize (Hn a b E). lia.
Qed.

Lemma byte_ahead q l i :
  drop (pos q) (data q) = l → byte_at (data q) (pos q + i) = byte_at l i.
Proof. intros H. by rewrite byte_at_drop, H. Qed.

Lemma drop_ahead q (a l : list ascii) :
  drop (pos q) (data q) = a ++ l →
  drop (pos q + length a) (data q) = l.
Proof. intros H. by rewrite <- drop_drop, H, drop_app_length. Qed.

Lemma read_loop_comment f q c rest :
  ends_first (bytes "-->") c →
  drop (pos q) (data q) = bytes "<!--" ++ c ++ bytes "-->" ++ rest →
  read_loop (S f) q = read_loop f (set_pos (pos q + (length c + 7)) q).
Proof.
  intros He H.
  destruct (cursor_at q _ _ H) as (Hlt & Hc & _).
  pose proof (size_ahead q _ _ H) as Hsz.
  cbn [length] in Hsz. rewrite length_app in Hsz. cbn [length bytes] in Hsz.
  pose proof (byte_ahead q _ 1 H) as B1.
  pose proof (byte_ahead q _ 2 H) as B2.
  pose proof (byte_ahead q _ 3 H) as B3.
  pose proof (drop_ahead q (bytes "<!--") _ H) as Hd.
  cbn [read_loop].
  head_if ltac:(fun E => apply at_end_true in E; lia).
  head_if ltac:(by_char Hc).
  remember (set_pos (pos q + 1) q) as q1 eqn:Hq1.
  assert (cur q1 = "!") as Hcq by (by subst q1).
  assert (pos q1 = pos q + 1 ∧ data q1 = data q) as [P1 D1] by (by subst q1).
  assert (size q1 = size q) as Z1 by (by subst q1).
  head_if ltac:(fun E => apply at_end_true in E; lia).
  rewrite Hcq. change ("!" =? "/") with false. cbv iota.
  change ("!" =? "!") with true.
  rewrite bool_decide_eq_true_2 by lia.
  rewrite D1, P1, <- !Nat.add_assoc. cbn [Nat.add].
  rewrite B2, B3. change (byte_at _ 2) with "-". change (byte_at _ 3) with "-".
  cbn [andb Ascii.eqb Bool.eqb]. cbv iota.
  rewrite (skip_comment_found (set_pos (pos q + 4) q1) c rest He).
  - cbn [mbind option_bind]. subst q1. cbn [pos set_pos]. f_equal.
    rewrite !set_pos_set_pos. f_equal. lia.
  - subst q1. cbn [pos data set_pos]. by rewrite <- Hd.
Qed.

Lemma slice_ahead q l k n :
  drop (pos q) (data q) = l → slice (data q) (pos q + k) n = slice l k n.
Proof. intros H. by rewrite slice_drop, H. Qed.

Lemma read_loop_cdata f q c rest :
  ends_first (bytes "]]>") c →
  drop (pos q) (data q) = bytes "<![CDATA[" ++ c ++ bytes "]]>" ++ rest →
  read_loop (S f) q = read_loop f (set_pos (pos q + (length c + 12)) q).
Proof.
  intros He H.
  destruct (cursor_at q _ _ H) as (Hlt & Hc & _).
  pose proof (size_ahead q _ _ H) as Hsz.
  cbn [length] in Hsz. rewrite length_app in Hsz. cbn [length bytes] in Hsz.
  pose proof (byte_ahead q _ 1 H) as B1.
  pose proof (byte_ahead q _ 2 H) as B2.
  pose proof (slice_ahead q _ 1 8 H) as S1.
  pose proof (drop_ahead q (bytes "<![CDATA[") _ H) as Hd.
  cbn [read_loop].
  head_if ltac:(fun E => apply at_end_true in E; lia).
  head_if ltac:(by_char Hc).
  remember (set_pos (pos q + 1) q) as q1 eqn:Hq1.
  assert (cur q1 = "!") as Hcq by (by subst q1).
  assert (pos q1 = pos q + 1 ∧ data q1 = data q) as [P1 D1] by (by subst q1).
  assert (size q1 = size q) as Z1 by (by subst q1).
  head_if ltac:(fun E => apply at_end_true in E; lia).
  rewrite Hcq. change ("!" =? "/") with false. cbv iota.
  change ("!" =? "!") with true.
  rewrite !bool_decide_eq_true_2 by lia.
  rewrite D1, P1, <- !Nat.add_assoc. cbn [Nat.add].
  rewrite B2. change (byte_at _ 2) with "[".
  unfold memcmp_lit. rewrite S1.
  cbn [andb Ascii.eqb Bool.eqb]. cbv iota.
  rewrite bool_decide_eq_true_2 by done. cbv iota.
  rewrite (skip_cdata_found (set_pos (pos q + 9) q1) c rest He).
  - cbn [mbind option_bind]. subst q1. cbn [pos set_pos]. f_equal.
    rewrite !set_pos_set_pos. f_equal. lia.
  - subst q1. cbn [pos data set_pos]. by rewrite <- Hd.
Qed.

Lemma read_loop_doctype f q body rest :
  (Z.of_nat (length body) < 2 ^ 31)%Z →
  bracket_balance body = 0%Z →
  (∀ a b, body = a ++ ">" :: b → bracket_balance a ≠ 0%Z) →
  drop (pos q) (data q) = bytes "<!DOCTYPE" ++ body ++ ">" :: rest →
  read_loop (S f) q = read_loop f (set_pos (pos q + (length body + 10)) q).
Proof.
  intros Hlen Hz Hn H.
  destruct (cursor_at q _ _ H) as (Hlt & Hc & _).
  pose proof (size_ahead q _ _ H) as Hsz.
  cbn [length] in Hsz. rewrite length_app in Hsz. cbn [length bytes] in Hsz.
  pose proof (byte_ahead q _ 1 H) as B1.
  pose proof (byte_ahead q _ 2 H) as B2.
  pose proof (slice_ahead q _ 1 8 H) as S1.
  pose proof (slice_ahead q _ 2 7 H) as S2.
  pose proof (drop_ahead q (bytes "<!DOCTYPE") _ H) as Hd.
  cbn [read_loop].
  head_if ltac:(fun E => apply at_end_true in E; lia).
  head_if ltac:(by_char Hc).
  remember (set_pos (pos q + 1) q) as q1 eqn:Hq1.
  assert (cur q1 = "!") as Hcq by (by subst q1).
  assert (pos q1 = pos q + 1 ∧ data q1 = data q) as [P1 D1] by (by subst q1).
  assert (size q1 = size q) as Z1 by (by subst q1).
  head_if ltac:(fun E => apply at_end_true in E; lia).
  rewrite Hcq. change ("!" =? "/") with false. cbv iota.
  change ("!" =? "!") with true.
  rewrite !bool_decide_eq_true_2 by lia.
  rewrite D1, P1, <- !Nat.add_assoc. cbn [Nat.add].
  rewrite B2. change (byte_at _ 2) with "D".
  unfold memcmp_lit. rewrite S1, S2.
  cbn [andb Ascii.eqb Bool.eqb]. cbv iota.
  rewrite bool_decide_eq_false_2 by done. cbv iota.
  rewrite bool_decide_eq_true_2 by done. cbv iota.
  rewrite (skip_doctype_found (set_pos (pos q + 9) q1) body rest Hlen Hz Hn).
  - subst q1. cbn [pos set_pos]. f_equal.
    rewrite !set_pos_set_pos. f_equal. lia.
  - subst q1. cbn [pos data set_pos]. by rewrite <- Hd.
Qed.

Lemma read_loop_pi f q c rest :
  ends_first (bytes "?>") c →
  drop (pos q) (data q) = bytes "<?" ++ c ++ bytes "?>" ++ rest →
  read_loop (S f) q = read_loop f (set_pos (pos q + (length c + 4)) q).
Proof.
  intros He H.
  destruct (cursor_at q _ _ H) as (Hlt & Hc & _).
  pose proof (size_ahead q _ _ H) as Hsz.
  cbn [length] in Hsz. rewrite length_app in Hsz. cbn [length bytes] in Hsz.
  pose proof (byte_ahead q _ 1 H) as B1.
  pose proof (drop_ahead q (bytes "<?") _ H) as Hd.
  cbn [read_loop].
  head_if ltac:(fun E => apply at_end_true in E; lia).
  head_if ltac:(by_char Hc).
  remember (set_pos (pos q + 1) q) as q1 eqn:Hq1.
  assert (cur q1 = "?") as Hcq by (by subst q1).
  assert (pos q1 = pos q + 1 ∧ data q1 = data q) as [P1 D1] by (by subst q1).
  assert (size q1 = size q) as Z1 by (by subst q1).
  head_if ltac:(fun E => apply at_end_true in E; lia).
  rewrite Hcq. change ("?" =? "/") with false. cbv iota.
  change ("?" =? "!") with false. cbn [andb]. cbv iota.
  change ("?" =? "?") with true. cbv iota.
  rewrite (skip_pi_found (set_pos (pos q1 + 1) q1) c rest He).
  - cbn [mbind option_bind]. subst q1. cbn [pos set_pos]. f_equal.
    rewrite !set_pos_set_pos. f_equal. lia.
  - subst q1. cbn [pos data set_pos]. rewrite <- Hd. f_equal.
    cbn [length bytes list_ascii_of_string]. lia.
Qed.

Lemma text_end_found q t post :
  ("<" ∉ t) → text_stop post → drop (pos q) (data q) = t ++ post →
  pos q ≤ size q →
  default (size q) (memchr (data q) (pos q) "<" (size q - pos q))
  = pos q + length t.
Proof.
  intros Ht Hp H Hb.
  assert (slice (data q) (pos q) (size q - pos q) = t ++ post) as Hs.
  { unfold slice. rewrite H. apply firstn_all2.
    rewrite <- H, length_drop. unfold size. lia. }
  destruct Hp as [->|[y ->]].
  - rewrite (proj2 (memchr_notin _ _ _ _)) by (by rewrite Hs, app_nil_r).
    cbn [default from_option id].
    assert (length (drop (pos q) (data q)) = length t) as Hl
      by (by rewrite H, app_nil_r).
    rewrite length_drop in Hl. unfold size in *. lia.
  - by rewrite (memchr_first _ _ _ _ t y Hs Ht).
Qed.

Lemma read_loop_blank f q ws post :
  ws ≠ [] → forallb is_space ws = true → text_stop post →
  drop (pos q) (data q) = ws ++ post →
  read_loop (S f) q = read_loop f (set_pos (pos q + length ws) q).
Proof.
  intros Hne Hws Hp H.
  assert (pos q < size q ∧ cur q ≠ "<") as [Hlt Hc].
  { destruct ws as [|w ws]; [done|].
    destruct (cursor_at q _ _ H) as (Hlt & Hc & _). split; [done|].
    rewrite Hc. intros ->. done. }
  assert ("<" ∉ ws) as Hnlt.
  { intros Hin. rewrite forallb_forall in Hws.
    by specialize (Hws _ (proj1 (list_elem_of_In _ _) Hin)). }
  cbn [read_loop].
  head_if ltac:(fun E => apply at_end_true in E; lia).
  head_if ltac:(fun E => apply eqb_char_true in E; done).
  rewrite (text_end_found q ws post Hnlt Hp H) by lia.
  cbn [data pos set_pos].
  replace (pos q + length ws - pos q) with (length ws) by lia.
  unfold is_blank.
  replace (slice (data q) (pos q) (length ws)) with ws; [by rewrite Hws|].
  unfold slice. by rewrite H, take_app_length.
Qed.

Lemma read_loop_misc f q m rest :
  misc m → drop (pos q) (data q) = m ++ rest →
  read_loop (S f) q = read_loop f (set_pos (pos q + length m) q).
Proof.
  intros Hm H. destruct Hm as [c He|c He|c He|body Hlen Hz Hn].
  - rewrite (read_loop_comment f q c rest He)
      by (by rewrite H, <- !app_assoc).
    do 2 f_equal. len.
  - rewrite (read_loop_pi f q c rest He) by (by rewrite H, <- !app_assoc).
    do 2 f_equal. len.
  - rewrite (read_loop_cdata f q c rest He) by (by rewrite H, <- !app_assoc).
    do 2 f_equal. len.
  - rewrite (read_loop_doctype f q body rest Hlen Hz Hn)
      by (by rewrite H, <- !app_assoc).
    do 2 f_equal. len.
Qed.

(** A [read] whose loop passes over [n] bytes first. *)
Lemma read_internal_skip q n :
  pos q + n ≤ size q → 0 < n →
  (∀ f, read_loop (S f) (cleared q)
        = read_loop f (set_pos (pos q + n) (cleared q))) →
  reader_read_internal q = reader_read_internal (set_pos (pos q + n) q).
Proof.
  intros Hb Hn Hskip. unfold reader_read_internal. cbn zeta.
  change (read_loop (size (cleared q) - pos (cleared q)) (cleared q)
          = read_loop (size (set_pos (pos q + n) (cleared q))
                       - pos (set_pos (pos q + n) (cleared q)))
              (set_pos (pos q + n) (cleared q))).
  assert (size (cleared q) = size q ∧ pos (cleared q) = pos q) as [-> ->]
    by done.
  destruct (size q - pos q) as [|f] eqn:Ef; [lia|].
  rewrite Hskip. apply read_loop_fuel.
  - change (size q - (pos q + n) ≤ f). lia.
  - done.
Qed.

Lemma length_misc m : misc m → 0 < length m.
Proof. intros []; len. Qed.

Lemma read_internal_misc q m rest :
  misc m → drop (pos q) (data q) = m ++ rest →
  reader_read_internal q = reader_read_internal (set_pos (pos q + length m) q).
Proof.
  intros Hm H. apply read_internal_skip.
  - assert (length (drop (pos q) (data q)) = length m + length rest) as Hl
      by (by rewrite H, length_app).
    rewrite length_drop in Hl. pose proof (length_misc m Hm).
    unfold size. lia.
  - by apply length_misc.
  - intros f. by apply (read_loop_misc f (cleared q) m rest).
Qed.

Lemma read_internal_blank q ws post :
  ws ≠ [] → forallb is_space ws = true → text_stop post →
  drop (pos q) (data q) = ws ++ post →
  reader_read_internal q = reader_read_internal (set_pos (pos q + length ws) q).
Proof.
  intros Hne Hws Hp H. apply read_internal_skip.
  - assert (length (drop (pos q) (data q)) = length ws + length post) as Hl
      by (by rewrite H, length_app).
    rewrite length_drop in Hl. unfold size. destruct ws; [done|].
    simpl in *. lia.
  - destruct ws; [done|]. simpl. lia.
  - intros f. by apply (read_loop_blank f (cleared q) ws post).
Qed.



(** X19: White space that stands between the cursor and the next
    [<], or the end of the input, is not reported as a text: [read]
    does what it does with the cursor put behind it. *)
Theorem read_passes_blank cs ub q ws post :
  forallb is_space ws = true → text_stop post →
  drop (pos q) (data q) = ws ++ post →
  reader_read_internal q = reader_read_internal (set_pos (pos q + length ws) q)
  ∧ ∀ n, read_log cs ub n q
         = read_log cs ub n (set_pos (pos q + length ws) q).
Proof.
  intros Hws Hp H.
  assert (reader_read_internal q
          = reader_read_internal (set_pos (pos q + length ws) q)) as Hr.
  { destruct ws as [|w ws]; [by rewrite Nat.add_0_r, set_pos_id|].
    by apply (read_internal_blank q (w :: ws) post). }
  split; [done|]. intros [|n]; [done|]. cbn [read_log]. unfold reader_read.
  by rewrite Hr.
Qed.

Lemma read_passes_blank_witness :
  reader_read_internal (reader_new (bytes "  <a/>"))
  = reader_read_internal (set_pos 2 (reader_new (bytes "  <a/>"))).
Proof.
  exact (proj1 (read_passes_blank true 64 (reader_new (bytes "  <a/>"))
                  (bytes "  ") (bytes "<a/>") eq_refl
                  (or_intror (ex_intro _ (bytes "a/>") eq_refl)) eq_refl)).
Defined.

(** ** A read at a text *)

Lemma read_loop_text f q t post :
  ("<" ∉ t) → forallb is_space t = false → text_stop post →
  drop (pos q) (data q) = t ++ post →
  read_loop (S f) q
  = Some (true,
          set_name None 0
            (set_is_empty false
               (set_text (Some t) (length t) (bool_decide ("&" ∈ t))
                  (set_report_depth (depth q)
                     (set_node_type TYPE_TEXT
                        (set_pos (pos q + length t) q)))))).
Proof.
  intros Hnlt Hnb Hp H.
  assert (pos q < size q ∧ cur q ≠ "<") as [Hlt Hc].
  { destruct t as [|c t]; [done|].
    destruct (cursor_at q _ _ H) as (Hlt & Hc & _). split; [done|].
    rewrite Hc. intros ->. apply Hnlt. by left. }
  assert (slice (data q) (pos q) (length t) = t) as Hs.
  { unfold slice. by rewrite H, take_app_length. }
  cbn [read_loop].
  head_if ltac:(fun E => apply at_end_true in E; lia).
  head_if ltac:(fun E => apply eqb_char_true in E; done).
  rewrite (text_end_found q t post Hnlt Hp H) by lia.
  cbn [data pos depth set_pos set_node_type set_report_depth].
  replace (pos q + length t - pos q) with (length t) by lia.
  unfold is_blank. rewrite memchr_in, Hs, Hnb. done.
Qed.

Lemma read_internal_text q t post :
  ("<" ∉ t) → forallb is_space t = false → text_stop post →
  drop (pos q) (data q) = t ++ post →
  reader_read_internal q = Some (true, text_state q t).
Proof.
  intros Hnlt Hnb Hp H. unfold reader_read_internal. cbn zeta.
  fold (cleared q).
  assert (drop (pos (cleared q)) (data (cleared q)) = t ++ post) as H0
    by done.
  destruct t as [|c t]; [done|].
  destruct (cursor_at (cleared q) _ _ H0) as (_ & _ & n & -> & _).
  by rewrite (read_loop_text n (cleared q) (c :: t) post Hnlt Hnb Hp H0).
Qed.

(** ** A read at an end tag *)

Lemma read_end_element_found r x ws post :
  tag_name_ok x → blank ws →
  drop (pos r) (data r) = "/" :: x ++ ws ++ ">" :: post →
  read_end_element r
  = (true,
     let r1 := set_is_empty false
                 (set_node_type TYPE_END_ELEMENT
                    (set_name (Some (local_part x)) (length (local_part x))
                       (set_pos (pos r + (length x + length ws + 2)) r))) in
     let r2 := if bool_decide (0 < depth r1)%Z
               then set_depth (depth r1 - 1)%Z r1 else r1 in
     set_report_depth (depth r2) r2).
Proof.
  intros Hx Hws H.
  destruct (cursor_at r _ _ H) as (Hlt & Hc & n & Hf & Hn).
  simpl in Hn. rewrite !length_app in Hn. simpl in Hn.
  assert (">"%char ∉ x ++ ws) as Hgtx.
  { intros [Hin|Hin]%elem_of_app; [|by apply (blank_no_gt ws)].
    destruct Hx as (_ & Hall & _). rewrite Forall_forall in Hall.
    by destruct (Hall _ Hin) as (_ & ? & _). }
  assert (memchr (data r) (pos r + 1) ">" (size r - (pos r + 1))
          = Some (pos r + 1 + length (x ++ ws))) as Hm.
  { apply (memchr_first _ _ _ _ (x ++ ws) post); [|done].
    rewrite slice_drop, H. unfold slice. simpl drop.
    rewrite <- app_assoc. apply take_ge. rewrite !length_app. simpl. lia. }
  assert (slice (data r) (pos r + 1) (length x + length ws) = x ++ ws) as Hsx.
  { rewrite slice_drop, H, <- length_app.
    rewrite (app_assoc x ws). apply (slice_app_at ["/"] (x ++ ws)). }
  destruct (end_name_found (data r) (pos r + 1) x ws Hx Hws Hsx)
    as (np & nl & Hsp & Htr & Hloc); [unfold size in *; lia|].
  unfold read_end_element. cbn zeta.
  cbn [pos data set_pos]. change (size (set_pos ?p ?y)) with (size y).
  rewrite Hm, length_app.
  replace (pos r + 1 + (length x + length ws) - (pos r + 1))
    with (length x + length ws) by lia.
  rewrite Hsp, Htr, Hloc.
  replace (pos r + 1 + (length x + length ws) + 1)
    with (pos r + (length x + length ws + 2)) by lia.
  done.
Qed.

Lemma read_loop_end f q x ws post :
  tag_name_ok x → blank ws →
  drop (pos q) (data q) = "<" :: "/" :: x ++ ws ++ ">" :: post →
  read_loop (S f) q
  = Some (true,
     let r1 := set_is_empty false
                 (set_node_type TYPE_END_ELEMENT
                    (set_name (Some (local_part x)) (length (local_part x))
                       (set_pos (pos q + (length x + length ws + 3)) q))) in
     let r2 := if bool_decide (0 < depth r1)%Z
               then set_depth (depth r1 - 1)%Z r1 else r1 in
     set_report_depth (depth r2) r2).
Proof.
  intros Hx Hws H.
  destruct (cursor_at q _ _ H) as (Hlt & Hc & _).
  pose proof (size_ahead q _ _ H) as Hsz. cbn [length] in Hsz.
  pose proof (byte_ahead q _ 1 H) as B1.
  cbn [read_loop].
  head_if ltac:(fun E => apply at_end_true in E; lia).
  head_if ltac:(by_char Hc).
  remember (set_pos (pos q + 1) q) as q1 eqn:Hq1.
  assert (cur q1 = "/") as Hcq by (by subst q1).
  assert (size q1 = size q ∧ pos q1 = pos q + 1) as [Z1 P1] by (by subst q1).
  head_if ltac:(fun E => apply at_end_true in E; lia).
  rewrite Hcq. change ("/" =? "/") with true. cbv iota.
  rewrite (read_end_element_found q1 x ws post Hx Hws).
  - subst q1. cbn [pos set_pos]. rewrite !set_pos_set_pos.
    by replace (pos q + 1 + (length x + length ws + 2))
      with (pos q + (length x + length ws + 3)) by lia.
  - subst q1. cbn [pos data set_pos].
    by apply (drop_add_app _ ["<"]).
Qed.

Lemma read_internal_end q x ws post :
  tag_name_ok x → blank ws →
  drop (pos q) (data q) = "<" :: "/" :: x ++ ws ++ ">" :: post →
  reader_read_internal q
  = Some (true, end_state q x (length x + length ws + 3)).
Proof.
  intros Hx Hws H. unfold reader_read_internal. cbn zeta. fold (cleared q).
  assert (drop (pos (cleared q)) (data (cleared q))
          = "<" :: "/" :: x ++ ws ++ ">" :: post) as H0 by done.
  destruct (cursor_at (cleared q) _ _ H0) as (_ & _ & n & -> & _).
  by rewrite (read_loop_end n (cleared q) x ws post Hx Hws H0).
Qed.

(** ** What a caller sees of the node *)

Lemma reader_name_only_cache r :
  (reader_name r).2 = set_name_cache (name_cache (reader_name r).2) r.
Proof.
  unfold reader_name. destruct (name_ptr r) as [p|]; [|by destruct r].
  case_bool_decide; [by destruct r|].
  unfold intern_name. by destruct (intern_probe _ _ _ _ _).
Qed.

Lemma observe_markup cs ub r nm :
  cache_wf (name_cache r) →
  name_ptr r = Some nm → name_len r = length nm → text_ptr r = None →
  ∃ q', observe cs ub r
        = Some (node (node_type r) (name_value nm) (report_depth r) Qnil
                  (if is_empty r then Qtrue else Qfalse), q') ∧
        data q' = data r ∧ pos q' = pos r ∧ depth q' = depth r ∧
        cache_wf (name_cache q').
Proof.
  intros Hwf Hp Hl Ht. unfold observe.
  pose proof (reader_name_bytes r nm Hwf) as Hn.
  unfold name_bytes in Hn. rewrite Hp, Hl in Hn. cbn [fmap option_fmap option_map] in Hn.
  rewrite firstn_all in Hn. specialize (Hn eq_refl eq_refl).
  pose proof (reader_name_fields r) as (F1 & F2 & F3 & F4). cbn zeta in *.
  pose proof (reader_name_only_cache r) as Hc.
  destruct (reader_name r) as [v r1]. cbn [fst snd] in *.
  assert (reader_value cs ub r1 = Some (Qnil, r1)) as ->.
  { unfold reader_value. rewrite Hc. cbn [text_ptr set_name_cache].
    by rewrite Ht. }
  cbn [mbind option_bind]. exists r1. split_and!; try done; [|by apply F4].
  unfold node, reader_node_type, reader_depth, reader_empty_element_p.
  rewrite Hn, Hc. done.
Qed.

Lemma text_state_fields q t :
  data (text_state q t) = data q ∧ pos (text_state q t) = pos q + length t ∧
  depth (text_state q t) = depth q ∧ name_cache (text_state q t) = name_cache q ∧
  name_ptr (text_state q t) = None ∧ text_ptr (text_state q t) = Some t ∧
  text_len (text_state q t) = length t ∧
  text_has_entity (text_state q t) = bool_decide ("&" ∈ t) ∧
  decoded_text (text_state q t) = Qnil ∧
  node_type (text_state q t) = TYPE_TEXT ∧
  report_depth (text_state q t) = depth q ∧ is_empty (text_state q t) = false.
Proof. done. Qed.

Lemma observe_text cs ub q t :
  t ≠ [] →
  ∃ q', observe cs ub (text_state q t)
        = Some (node TYPE_TEXT Qnil (depth q) (text_value cs ub t) Qfalse, q') ∧
        data q' = data q ∧ pos q' = pos q + length t ∧ depth q' = depth q ∧
        name_cache q' = name_cache q.
Proof.
  intros Hne.
  destruct (text_state_fields q t)
    as (F1 & F2 & F3 & F4 & F5 & F6 & F7 & F8 & F9 & F10 & F11 & F12).
  remember (text_state q t) as r eqn:Hr. clear Hr.
  unfold observe, reader_name. rewrite F5.
  unfold reader_value. rewrite F6, F7, F8, F9.
  rewrite bool_decide_eq_false_2 by (by destruct t).
  unfold text_value, node, reader_node_type, reader_depth,
    reader_empty_element_p.
  case_bool_decide as Ha.
  - rewrite firstn_all.
    destruct (decode_entities_length cs ub t) as (out & -> & _).
    cbn [mbind option_bind default from_option id].
    cbn [node_type report_depth is_empty set_decoded_text].
    rewrite F10, F11, F12. eexists. split; [reflexivity|done].
  - rewrite decode_entities_plain by done.
    unfold rb_enc_str_new. rewrite firstn_all.
    cbn [mbind option_bind default from_option id].
    rewrite F10, F11, F12. eexists. split; [reflexivity|done].
Qed.

Lemma end_state_fields q x n :
  data (end_state q x n) = data q ∧
  pos (end_state q x n) = pos q + n ∧
  depth (end_state q x n)
  = (if bool_decide (0 < depth q)%Z then depth q - 1 else depth q)%Z ∧
  name_cache (end_state q x n) = name_cache q ∧
  name_ptr (end_state q x n) = Some (local_part x) ∧
  name_len (end_state q x n) = length (local_part x) ∧
  text_ptr (end_state q x n) = None ∧
  node_type (end_state q x n) = TYPE_END_ELEMENT ∧
  report_depth (end_state q x n) = depth (end_state q x n) ∧
  is_empty (end_state q x n) = false.
Proof.
  unfold end_state. cbn zeta.
  change (depth (set_is_empty ?a (set_node_type ?b (set_name ?c ?e
            (set_pos ?p (cleared q)))))) with (depth q).
  by case_bool_decide.
Qed.

(** ** One node of a run *)

Lemma log_after_observe cs ub r nd q' :
  observe cs ub r = Some (nd, q') →
  ∀ k, log_after cs ub k r = (λ l, Some nd :: l) <$> read_log cs ub k q'.
Proof.
  intros H k. unfold log_after. rewrite H. cbn [mbind option_bind].
  by destruct (read_log cs ub k q').
Qed.

Lemma step_text cs ub q d t post :
  stands q d (t ++ post) →
  ("<" ∉ t) → forallb is_space t = false → text_stop post →
  ∃ q', stands q' d post ∧
    ∀ k, read_log cs ub (S k) q
         = (λ l, Some (node TYPE_TEXT Qnil d (text_value cs ub t) Qfalse) :: l)
             <$> read_log cs ub k q'.
Proof.
  intros (H & Hd & Hwf) Hnlt Hnb Hp.
  pose proof (read_internal_text q t post Hnlt Hnb Hp H) as Hr.
  destruct (observe_text cs ub q t) as (q' & Ho & F1 & F2 & F3 & F4);
    [by destruct t|].
  exists q'. split.
  - split_and!; [|congruence|congruence].
    rewrite F1, F2. by apply drop_add_app.
  - intros k. rewrite (read_log_succ cs ub k q _ Hr).
    rewrite <- Hd. by apply log_after_observe.
Qed.

Lemma step_end cs ub q d x ws post :
  stands q (d + 1) ("<" :: "/" :: x ++ ws ++ ">" :: post) → (0 ≤ d)%Z →
  tag_name_ok x → blank ws →
  ∃ q', stands q' d post ∧
    ∀ k, read_log cs ub (S k) q
         = (λ l, Some (node TYPE_END_ELEMENT (name_value (local_part x)) d
                         Qnil Qfalse) :: l)
             <$> read_log cs ub k q'.
Proof.
  intros (H & Hd & Hwf) Hd0 Hx Hws.
  pose proof (read_internal_end q x ws post Hx Hws H) as Hr.
  destruct (end_state_fields q x (length x + length ws + 3))
    as (F1 & F2 & F3 & F4 & F5 & F6 & F7 & F8 & F9 & F10).
  rewrite bool_decide_eq_true_2 in F3 by lia.
  remember (end_state q x (length x + length ws + 3)) as r eqn:Er. clear Er.
  destruct (observe_markup cs ub r (local_part x))
    as (q' & Ho & G1 & G2 & G3 & G4); [congruence|done..|].
  exists q'. split.
  - split_and!; [|lia|done].
    rewrite G1, G2, F1, F2.
    replace (length x + length ws + 3)
      with (length ("<" :: "/" :: x ++ ws ++ [">"]))
      by (simpl; rewrite !length_app; simpl; lia).
    apply drop_add_app. rewrite H. by norm_app.
  - intros k. rewrite (read_log_succ cs ub k q _ Hr).
    rewrite (log_after_observe cs ub r _ q' Ho).
    rewrite F8, F9, F10, F3, Hd.
    by replace (d + 1 - 1)%Z with d by lia.
Qed.

Lemma step_start cs ub q d x a t post :
  stands q d ("<" :: x ++ render_attrs a ++ tag_tail x t post) →
  tag_name_ok x → attrs_ok a → tag_end_ok t →
  (t = Open → no_end_tag post) →
  (tag_is_empty t = false → (INT_MIN ≤ d < INT_MAX)%Z) →
  ∃ q', stands q' (if tag_is_empty t then d else d + 1)%Z post ∧
    ∀ k, read_log cs ub (S k) q
         = (λ l, Some (node TYPE_ELEMENT (name_value (local_part x)) d Qnil
                         (if tag_is_empty t then Qtrue else Qfalse)) :: l)
             <$> read_log cs ub k q'.
Proof.
  intros (H & Hd & Hwf) Hx Hok Hend Hopen Hint.
  destruct (read_element q x a t post Hx Hok Hend Hopen H)
    as (r & Hr & Hdrop & Hb & He & _).
  destruct He as (E1 & E2 & E3 & E4 & E5 & E6 & E7 & E8 & _ & _ & _ & E12).
  destruct (observe_markup cs ub r (local_part x))
    as (q' & Ho & G1 & G2 & G3 & G4); [by rewrite E12|done..|].
  exists q'. split.
  - split_and!; [by rewrite G1, G2| |done].
    rewrite G3, E2. change (depth (cleared q)) with (depth q).
    rewrite Hd. destruct (tag_is_empty t); [done|].
    apply wrap_int_id. specialize (Hint eq_refl).
    unfold INT_MIN, INT_MAX in *. lia.
  - intros k. rewrite (read_log_succ cs ub k q _ Hr).
    rewrite (log_after_observe cs ub r _ q' Ho).
    rewrite E3, E4, E5. change (depth (cleared q)) with (depth q).
    by rewrite Hd.
Qed.

Lemma step_misc cs ub q d m post :
  stands q d (m ++ post) → misc m →
  ∃ q', stands q' d post ∧ ∀ k, read_log cs ub k q = read_log cs ub k q'.
Proof.
  intros (H & Hd & Hwf) Hm.
  exists (set_pos (pos q + length m) q). split.
  - split_and!; [|done..]. by apply drop_add_app.
  - intros [|k]; [done|]. cbn [read_log]. unfold reader_read.
    by rewrite (read_internal_misc q m post Hm H).
Qed.

Lemma step_blank cs ub q d ws post :
  stands q d (ws ++ post) →
  ws ≠ [] → forallb is_space ws = true → text_stop post →
  ∃ q', stands q' d post ∧ ∀ k, read_log cs ub k q = read_log cs ub k q'.
Proof.
  intros (H & Hd & Hwf) Hne Hws Hp.
  exists (set_pos (pos q + length ws) q). split.
  - split_and!; [|done..]. by apply drop_add_app.
  - intros [|k]; [done|]. cbn [read_log]. unfold reader_read.
    by rewrite (read_internal_blank q ws post Hne Hws Hp H).
Qed.

Lemma xml_forest_ind (P : xml → Prop) :
  (∀ t, P (Text t)) → (∀ ws, P (Blank ws)) → (∀ m, P (Misc m)) →
  (∀ x a, P (Empty x a)) →
  (∀ x a children gap, Forall P children → P (Elem x a children gap)) →
  ∀ n, P n.
Proof.
  intros H1 H2 H3 H4 H5. fix IH 1.
  intros [t|ws|m|x a|x a children gap]; [done..|].
  apply H5. induction children as [|c l IHl]; constructor; [apply IH|exact IHl].
Qed.

(** ** Reading a document *)

Lemma render_markup n :
  wf n → is_chars n = false → ∃ y, render n = "<" :: y.
Proof.
  intros [t|ws|m Hm|x a|x a ch gap] Hc; try done; try by eexists.
  destruct Hm; by eexists.
Qed.

Lemma render_no_end_tag n rest : wf n → no_end_tag (render n ++ rest).
Proof.
  intros [t Ht Hb|ws Hne Hws|m Hm|x a Hx|x a ch gap Hx] y; cbn [render].
  - destruct t as [|c t]; [done|]. intros [= -> _]. apply Ht. by left.
  - destruct ws as [|c ws]; [done|]. intros [= -> _]. done.
  - destruct Hm; done.
  - destruct Hx as (Hne & Hall & _). destruct x as [|c x]; [done|].
    apply Forall_cons_1 in Hall as [(_ & _ & Hs) _]. by intros [= ->].
  - destruct Hx as (Hne & Hall & _). destruct x as [|c x]; [done|].
    apply Forall_cons_1 in Hall as [(_ & _ & Hs) _]. by intros [= ->].
Qed.

Lemma fmap_id_log (o : option (list (option Node))) :
  (λ l, [] ++ l) <$> o = o.
Proof. by destruct o. Qed.

Lemma fmap_app_log (a b : list (option Node)) (o : option (list (option Node))) :
  (λ l, a ++ l) <$> ((λ l, b ++ l) <$> o) = (λ l, (a ++ b) ++ l) <$> o.
Proof. destruct o; simpl; [|done]. by rewrite app_assoc. Qed.

Lemma runs_forest cs ub ch :
  Forall (runs cs ub) ch →
  ∀ q d post,
    Forall wf ch → separated ch → (0 ≤ d)%Z →
    Forall (λ c, (d + Z.of_nat (height c) ≤ INT_MAX)%Z) ch →
    stands q d (flat_map render ch ++ post) → text_stop post →
    ∃ q', stands q' d post ∧
      ∀ k, read_log cs ub (length (flat_map (events cs ub d) ch) + k) q
           = (λ l, (Some <$> flat_map (events cs ub d) ch) ++ l)
               <$> read_log cs ub k q'.
Proof.
  induction 1 as [|c ch Hc _ IH]; intros q d post Hwf Hsep Hd Hh Hq Hp.
  { exists q. split; [done|]. intros k. cbn. by rewrite fmap_id_log. }
  apply Forall_cons_1 in Hwf as [Hwc Hwf]. destruct Hsep as [Hsc Hsep].
  apply Forall_cons_1 in Hh as [Hhc Hh].
  cbn [flat_map] in *. rewrite <- app_assoc in Hq.
  destruct (Hc q d (flat_map render ch ++ post) Hwc Hd Hhc Hq)
    as (q1 & Hq1 & Hlog1).
  { intros Hchars. destruct ch as [|b ch]; [done|].
    apply Forall_cons_1 in Hwf as [Hwb _].
    destruct (render_markup b Hwb (Hsc Hchars b eq_refl)) as [y Hy].
    right. exists (y ++ flat_map render ch ++ post).
    cbn [flat_map]. by rewrite Hy, <- !app_assoc. }
  destruct (IH q1 d post Hwf Hsep Hd Hh Hq1 Hp) as (q2 & Hq2 & Hlog2).
  exists q2. split; [done|]. intros k.
  rewrite length_app, <- Nat.add_assoc, Hlog1, Hlog2, fmap_app_log.
  by rewrite fmap_app.
Qed.

Lemma runs_all cs ub n : runs cs ub n.
Proof.
  induction n as [t|ws|m|x a|x a ch gap IH] using xml_forest_ind;
    intros q d post Hwf Hd Hh Hq Hp; inversion Hwf; subst; cbn [render] in *.
  - destruct (step_text cs ub q d t post Hq) as (q' & Hq' & Hlog);
      [done|done|by apply Hp|].
    exists q'. split; [done|]. intros k. apply Hlog.
  - destruct (step_blank cs ub q d ws post Hq) as (q' & Hq' & Hlog);
      [done|done|by apply Hp|].
    exists q'. split; [done|]. intros k. cbn. by rewrite fmap_id_log.
  - destruct (step_misc cs ub q d m post Hq) as (q' & Hq' & Hlog); [done|].
    exists q'. split; [done|]. intros k. cbn. by rewrite fmap_id_log.
  - destruct (step_start cs ub q d x a Selfclose post)
      as (q' & Hq' & Hlog); [|done..|].
    { destruct Hq as (Hq & ? & ?). split_and!; [|done..].
      rewrite Hq. cbn [flat_map]. by norm_app. }
    exists q'. split; [done|]. intros k. apply Hlog.
  - destruct ch as [|c ch].
    + destruct (step_start cs ub q d x a (Collapsed gap) post)
        as (q' & Hq' & Hlog); [|done..|].
      { destruct Hq as (Hq & ? & ?). split_and!; [|done..].
        rewrite Hq. cbn [flat_map]. by norm_app. }
      exists q'. split; [done|]. intros k. apply Hlog.
    + remember (c :: ch) as l eqn:El.
      assert (height (Elem x a l gap) = S (max_list (height <$> l))) as Hht
        by (by subst l).
      rewrite Hht in Hh. clear Hht.
      destruct (step_start cs ub q d x a Open
                  (flat_map render l ++ "<" :: "/" :: x ++ gap ++ ">" :: post))
        as (q1 & Hq1 & Hlog1); [|done..| | |].
      { destruct Hq as (Hq & ? & ?). split_and!; [|done..].
        rewrite Hq. cbn [flat_map]. by norm_app. }
      { intros _. subst l. cbn [flat_map]. rewrite <- app_assoc.
        apply render_no_end_tag. by eapply Forall_cons_1. }
      { intros _. unfold INT_MIN, INT_MAX in *. lia. }
      cbn [tag_is_empty] in *.
      destruct (runs_forest cs ub l IH q1 (d + 1)%Z
                  ("<" :: "/" :: x ++ gap ++ ">" :: post))
        as (q2 & Hq2 & Hlog2); [done|done|lia| |done|right; by eexists|].
      { apply Forall_forall. intros n Hn.
        assert (height n ≤ max_list (height <$> l)) as Hle
          by (by apply max_list_elem_of_le, list_elem_of_fmap_2).
        lia. }
      destruct (step_end cs ub q2 d x gap post Hq2 Hd) as (q3 & Hq3 & Hlog3);
        [done|done|].
      exists q3. split; [done|]. intros k.
      assert (events cs ub d (Elem x a l gap)
              = node TYPE_ELEMENT (name_value (local_part x)) d Qnil Qfalse
                :: flat_map (events cs ub (d + 1)) l
                ++ [node TYPE_END_ELEMENT (name_value (local_part x)) d Qnil
                      Qfalse]) as Hev by (by subst l).
      rewrite Hev. clear Hev.
      cbn [length]. rewrite length_app. cbn [length].
      replace (S (length (flat_map (events cs ub (d + 1)) l) + 1) + k)
        with (S (length (flat_map (events cs ub (d + 1)) l) + S k)) by lia.
      rewrite Hlog1, Hlog2, Hlog3.
      destruct (read_log cs ub k q3); [|done]. cbn.
      by rewrite fmap_app, <- app_assoc.
Qed.



(** ** Markup that is not closed *)

Lemma just_past_split d lit p :
  just_past d lit p → p ≤ length d →
  d = take (p - String.length lit) d ++ bytes lit ++ drop p d.
Proof.
  intros [Hle Hs] Hp. unfold slice in Hs.
  rewrite <- (take_drop (p - String.length lit) d) at 1. f_equal.
  rewrite <- (take_drop (String.length lit) (drop (p - String.length lit) d)).
  rewrite Hs, drop_drop. do 2 f_equal. lia.
Qed.

Lemma skip_comment_open q c :
  absent (bytes "-->") c → drop (pos q) (data q) = c → pos q ≤ size q →
  skip_comment q = Some (set_pos (size q) q).
Proof.
  intros Ha H Hb. unfold skip_comment.
  rewrite (loop_ahead skip_comment_loop q c skip_comment_loop_shift Hb H).
  destruct (skip_comment_loop_total (length c) c 0)
    as (p & -> & Hp & _ & [->|Hj]); [lia| |].
  - cbn. do 2 f_equal. rewrite <- H, length_drop. unfold size in *. lia.
  - by destruct (Ha _ _ (just_past_split c "-->" p Hj Hp)).
Qed.

Lemma skip_pi_open q c :
  absent (bytes "?>") c → drop (pos q) (data q) = c → pos q ≤ size q →
  skip_pi q = Some (set_pos (size q) q).
Proof.
  intros Ha H Hb. unfold skip_pi.
  rewrite (loop_ahead skip_pi_loop q c skip_pi_loop_shift Hb H).
  destruct (skip_pi_loop_total (length c) c 0)
    as (p & -> & Hp & _ & [->|Hj]); [lia| |].
  - cbn. do 2 f_equal. rewrite <- H, length_drop. unfold size in *. lia.
  - by destruct (Ha _ _ (just_past_split c "?>" p Hj Hp)).
Qed.

Lemma skip_cdata_open q c :
  absent (bytes "]]>") c → drop (pos q) (data q) = c → pos q ≤ size q →
  skip_cdata q = Some (set_pos (size q) q).
Proof.
  intros Ha H Hb. unfold skip_cdata.
  rewrite (loop_ahead skip_cdata_loop q c skip_cdata_loop_shift Hb H).
  destruct (skip_cdata_loop_total (length c) c 0)
    as (p & -> & Hp & _ & [->|Hj]); [lia| |].
  - cbn. do 2 f_equal. rewrite <- H, length_drop. unfold size in *. lia.
  - by destruct (Ha _ _ (just_past_split c "]]>" p Hj Hp)).
Qed.

Lemma skip_doctype_loop_open body p bd :
  (Z.abs bd + Z.of_nat (length body) < 2 ^ 31)%Z →
  (∀ a b, body = a ++ ">" :: b → (bd + bracket_balance a)%Z ≠ 0%Z) →
  skip_doctype_loop body p bd = p + length body.
Proof.
  revert p bd. induction body as [|c body IH]; intros p bd Hlen Hn.
  { simpl. lia. }
  cbn [skip_doctype_loop].
  assert (∀ k, (-1 ≤ k ≤ 1)%Z →
            (∀ a, bracket_balance (c :: a) = (k + bracket_balance a)%Z) →
            skip_doctype_loop body (S p) (bd + k) = p + length (c :: body))
    as Hrec.
  { intros k Hk Hc.
    destruct (wrap_int_near bd k (length body) Hlen Hk) as [_ Hlen'].
    rewrite IH; [simpl; lia|done|].
    intros a b ->. specialize (Hn (c :: a) b eq_refl).
    rewrite Hc in Hn. lia. }
  destruct (c =? "[") eqn:E1.
  { rewrite (proj1 (wrap_int_near bd 1 (length body) Hlen ltac:(lia))).
    apply Hrec; [lia|]. intros a. cbn [bracket_balance]. by rewrite E1. }
  destruct (c =? "]") eqn:E2.
  { change (bd - 1)%Z with (bd + -1)%Z.
    rewrite (proj1 (wrap_int_near bd (-1) (length body) Hlen ltac:(lia))).
    apply Hrec; [lia|]. intros a. cbn [bracket_balance]. by rewrite E1, E2. }
  rewrite <- (Z.add_0_r bd) at 2.
  destruct (c =? ">") eqn:E3.
  - apply eqb_char_true in E3 as ->.
    specialize (Hn [] body eq_refl). simpl in Hn.
    destruct (bd =? 0)%Z eqn:E4; [lia|]. simpl.
    apply Hrec; [lia|]. intros a. cbn [bracket_balance]. simpl. lia.
  - simpl. apply Hrec; [lia|]. intros a. cbn [bracket_balance].
    rewrite E1, E2. lia.
Qed.

Lemma skip_doctype_open q body :
  (Z.of_nat (length body) < 2 ^ 31)%Z →
  (∀ a b, body = a ++ ">" :: b → bracket_balance a ≠ 0%Z) →
  drop (pos q) (data q) = body → pos q ≤ size q →
  skip_doctype q = set_pos (size q) q.
Proof.
  intros Hlen Hn H Hb. unfold skip_doctype.
  rewrite H, skip_doctype_loop_open.
  - f_equal. rewrite <- H, length_drop. unfold size in *. lia.
  - lia.
  - intros a b E. specialize (Hn a b E). lia.
Qed.

Lemma read_loop_at_end f r : size r ≤ pos r → read_loop f r = Some (false, r).
Proof.
  intros H. destruct f; cbn [read_loop];
    by rewrite (proj2 (at_end_true r)) by done.
Qed.

Lemma absent_head lit h c : head lit = Some h → h ∉ c → absent lit c.
Proof.
  intros Hh Hc a b ->. apply Hc. destruct lit as [|h' lit]; [done|].
  cbn in Hh. injection Hh as ->. apply elem_of_app. right. by left.
Qed.

Lemma read_loop_comment_open f q c :
  absent (bytes "-->") c →
  drop (pos q) (data q) = bytes "<!--" ++ c →
  read_loop (S f) q = Some (false, set_pos (size q) q).
Proof.
  intros Ha H.
  destruct (cursor_at q _ _ H) as (Hlt & Hc & _).
  pose proof (size_ahead q _ _ H) as Hsz. cbn [length bytes] in Hsz.
  pose proof (byte_ahead q _ 1 H) as B1.
  pose proof (byte_ahead q _ 2 H) as B2.
  pose proof (byte_ahead q _ 3 H) as B3.
  pose proof (drop_ahead q (bytes "<!--") _ H) as Hd.
  cbn [read_loop].
  head_if ltac:(fun E => apply at_end_true in E; lia).
  head_if ltac:(by_char Hc).
  remember (set_pos (pos q + 1) q) as q1 eqn:Hq1.
  assert (cur q1 = "!") as Hcq by (by subst q1).
  assert (pos q1 = pos q + 1 ∧ data q1 = data q) as [P1 D1] by (by subst q1).
  assert (size q1 = size q) as Z1 by (by subst q1).
  head_if ltac:(fun E => apply at_end_true in E; lia).
  rewrite Hcq. change ("!" =? "/") with false. cbv iota.
  change ("!" =? "!") with true.
  rewrite bool_decide_eq_true_2 by lia.
  rewrite D1, P1, <- !Nat.add_assoc. cbn [Nat.add].
  rewrite B2, B3. change (byte_at _ 2) with "-". change (byte_at _ 3) with "-".
  cbn [andb Ascii.eqb Bool.eqb]. cbv iota.
  rewrite (skip_comment_open (set_pos (pos q + 4) q1) c Ha).
  - cbn [mbind option_bind]. rewrite read_loop_at_end; [by subst q1|].
    cbn [pos set_pos]. done.
  - subst q1. cbn [pos data set_pos]. by rewrite <- Hd.
  - subst q1. unfold size in *. cbn [pos data set_pos]. lia.
Qed.

Lemma read_loop_cdata_open f q c :
  absent (bytes "]]>") c →
  drop (pos q) (data q) = bytes "<![CDATA[" ++ c →
  read_loop (S f) q = Some (false, set_pos (size q) q).
Proof.
  intros Ha H.
  destruct (cursor_at q _ _ H) as (Hlt & Hc & _).
  pose proof (size_ahead q _ _ H) as Hsz. cbn [length bytes] in Hsz.
  pose proof (byte_ahead q _ 1 H) as B1.
  pose proof (byte_ahead q _ 2 H) as B2.
  pose proof (slice_ahead q _ 1 8 H) as S1.
  pose proof (drop_ahead q (bytes "<![CDATA[") _ H) as Hd.
  cbn [read_loop].
  head_if ltac:(fun E => apply at_end_true in E; lia).
  head_if ltac:(by_char Hc).
  remember (set_pos (pos q + 1) q) as q1 eqn:Hq1.
  assert (cur q1 = "!") as Hcq by (by subst q1).
  assert (pos q1 = pos q + 1 ∧ data q1 = data q) as [P1 D1] by (by subst q1).
  assert (size q1 = size q) as Z1 by (by subst q1).
  head_if ltac:(fun E => apply at_end_true in E; lia).
  rewrite Hcq. change ("!" =? "/") with false. cbv iota.
  change ("!" =? "!") with true.
  rewrite !bool_decide_eq_true_2 by lia.
  rewrite D1, P1, <- !Nat.add_assoc. cbn [Nat.add].
  rewrite B2. change (byte_at _ 2) with "[".
  unfold memcmp_lit. rewrite S1.
  cbn [andb Ascii.eqb Bool.eqb]. cbv iota.
  rewrite bool_decide_eq_true_2 by done. cbv iota.
  rewrite (skip_cdata_open (set_pos (pos q + 9) q1) c Ha).
  - cbn [mbind option_bind]. rewrite read_loop_at_end; [by subst q1|].
    cbn [pos set_pos]. done.
  - subst q1. cbn [pos data set_pos]. by rewrite <- Hd.
  - subst q1. unfold size in *. cbn [pos data set_pos]. lia.
Qed.

Lemma read_loop_doctype_open f q body :
  (Z.of_nat (length body) < 2 ^ 31)%Z →
  (∀ a b, body = a ++ ">" :: b → bracket_balance a ≠ 0%Z) →
  drop (pos q) (data q) = bytes "<!DOCTYPE" ++ body →
  read_loop (S f) q = Some (false, set_pos (size q) q).
Proof.
  intros Hlen Hn H.
  destruct (cursor_at q _ _ H) as (Hlt & Hc & _).
  pose proof (size_ahead q _ _ H) as Hsz. cbn [length bytes] in Hsz.
  pose proof (byte_ahead q _ 1 H) as B1.
  pose proof (byte_ahead q _ 2 H) as B2.
  pose proof (slice_ahead q _ 1 8 H) as S1.
  pose proof (slice_ahead q _ 2 7 H) as S2.
  pose proof (drop_ahead q (bytes "<!DOCTYPE") _ H) as Hd.
  cbn [read_loop].
  head_if ltac:(fun E => apply at_end_true in E; lia).
  head_if ltac:(by_char Hc).
  remember (set_pos (pos q + 1) q) as q1 eqn:Hq1.
  assert (cur q1 = "!") as Hcq by (by subst q1).
  assert (pos q1 = pos q + 1 ∧ data q1 = data q) as [P1 D1] by (by subst q1).
  assert (size q1 = size q) as Z1 by (by subst q1).
  head_if ltac:(fun E => apply at_end_true in E; lia).
  rewrite Hcq. change ("!" =? "/") with false. cbv iota.
  change ("!" =? "!") with true.
  rewrite !bool_decide_eq_true_2 by lia.
  rewrite D1, P1, <- !Nat.add_assoc. cbn [Nat.add].
  rewrite B2. change (byte_at _ 2) with "D".
  unfold memcmp_lit. rewrite S1, S2.
  cbn [andb Ascii.eqb Bool.eqb]. cbv iota.
  rewrite bool_decide_eq_false_2 by done. cbv iota.
  rewrite bool_decide_eq_true_2 by done. cbv iota.
  rewrite (skip_doctype_open (set_pos (pos q + 9) q1) body Hlen Hn).
  - rewrite read_loop_at_end; [by subst q1|]. cbn [pos set_pos]. done.
  - subst q1. cbn [pos data set_pos]. by rewrite <- Hd.
  - subst q1. unfold size in *. cbn [pos data set_pos]. lia.
Qed.

Lemma read_loop_pi_open f q c :
  absent (bytes "?>") c →
  drop (pos q) (data q) = bytes "<?" ++ c →
  read_loop (S f) q = Some (false, set_pos (size q) q).
Proof.
  intros Ha H.
  destruct (cursor_at q _ _ H) as (Hlt & Hc & _).
  pose proof (size_ahead q _ _ H) as Hsz. cbn [length bytes] in Hsz.
  pose proof (byte_ahead q _ 1 H) as B1.
  pose proof (drop_ahead q (bytes "<?") _ H) as Hd.
  cbn [read_loop].
  head_if ltac:(fun E => apply at_end_true in E; lia).
  head_if ltac:(by_char Hc).
  remember (set_pos (pos q + 1) q) as q1 eqn:Hq1.
  assert (cur q1 = "?") as Hcq by (by subst q1).
  assert (pos q1 = pos q + 1 ∧ data q1 = data q) as [P1 D1] by (by subst q1).
  assert (size q1 = size q) as Z1 by (by subst q1).
  head_if ltac:(fun E => apply at_end_true in E; lia).
  rewrite Hcq. change ("?" =? "/") with false. cbv iota.
  change ("?" =? "!") with false. cbn [andb]. cbv iota.
  change ("?" =? "?") with true. cbv iota.
  rewrite (skip_pi_open (set_pos (pos q1 + 1) q1) c Ha).
  - cbn [mbind option_bind]. rewrite read_loop_at_end; [by subst q1|].
    cbn [pos set_pos]. done.
  - subst q1. cbn [pos data set_pos]. rewrite <- Hd. f_equal.
    cbn [length bytes list_ascii_of_string]. lia.
  - subst q1. unfold size in *. cbn [pos data set_pos]. lia.
Qed.

Lemma read_loop_end_open f q x :
  (">" ∉ x) → drop (pos q) (data q) = "<" :: "/" :: x →
  read_loop (S f) q = Some (false, set_pos (size q) q).
Proof.
  intros Hx H.
  destruct (cursor_at q _ _ H) as (Hlt & Hc & _).
  pose proof (size_ahead q _ _ H) as Hsz. cbn [length] in Hsz.
  pose proof (byte_ahead q _ 1 H) as B1.
  cbn [read_loop].
  head_if ltac:(fun E => apply at_end_true in E; lia).
  head_if ltac:(by_char Hc).
  remember (set_pos (pos q + 1) q) as q1 eqn:Hq1.
  assert (cur q1 = "/") as Hcq by (by subst q1).
  assert (size q1 = size q ∧ pos q1 = pos q + 1 ∧ data q1 = data q)
    as (Z1 & P1 & D1) by (by subst q1).
  head_if ltac:(fun E => apply at_end_true in E; lia).
  rewrite Hcq. change ("/" =? "/") with true. cbv iota.
  unfold read_end_element. cbn zeta. cbn [pos data set_pos].
  change (size (set_pos ?p ?y)) with (size y).
  rewrite (proj2 (memchr_notin (data q1) (pos q1 + 1) ">"
                    (size q1 - (pos q1 + 1)))).
  - by subst q1.
  - rewrite D1, P1, <- Nat.add_assoc. cbn [Nat.add].
    rewrite slice_drop, H. unfold slice. cbn [drop].
    intros Hin. apply Hx. by apply (subseteq_take _ x) in Hin.
Qed.

Lemma read_loop_lt_open f q :
  drop (pos q) (data q) = ["<"] →
  read_loop (S f) q = Some (false, set_pos (size q) q).
Proof.
  intros H.
  destruct (cursor_at q _ _ H) as (Hlt & Hc & _).
  pose proof (size_ahead q _ _ H) as Hsz. cbn [length] in Hsz.
  cbn [read_loop].
  head_if ltac:(fun E => apply at_end_true in E; lia).
  head_if ltac:(by_char Hc).
  rewrite (proj2 (at_end_true _))
    by (unfold size in *; cbn [pos data set_pos]; lia).
  by rewrite Hsz.
Qed.



(** ** A start tag that is not closed *)

Lemma parse_from_end r : size r ≤ pos r → parse_from r = Some r.
Proof.
  intros H. unfold parse_from. destruct (size r - pos r);
    cbn [parse_attrs_loop]; by rewrite bool_decide_eq_false_2 by lia.
Qed.

Lemma parse_from_blank_end r ws :
  blank ws → drop (pos r) (data r) = ws → pos r ≤ size r →
  parse_from r = Some (set_pos (size r) r).
Proof.
  intros Hws H Hb.
  assert (size r = pos r + length ws) as Hsz.
  { rewrite <- H, length_drop. unfold size in *. lia. }
  rewrite parse_from_skip, (skip_spaces_over r ws []);
    [|done|done|by rewrite app_nil_r].
  rewrite parse_from_end; [by rewrite Hsz|].
  change (size r ≤ pos r + length ws). lia.
Qed.

Lemma parse_turn_bare_end f r name ws :
  name_like name → blank ws →
  drop (pos r) (data r) = name ++ ws →
  parse_attrs_loop (S f) r
  = parse_attrs_loop f (set_pos (pos r + length name + length ws) r).
Proof.
  intros Hk Hws H.
  destruct (name_like_head name ws Hk)
    as (c1 & rest1 & Hk1 & Hs1 & Hg1 & Hl1 & _).
  destruct (cursor_at r _ _ (eq_trans H Hk1)) as (Hlt & Hc & _).
  assert (length (data r) - pos r = length name + length ws) as Hsz
    by (by rewrite <- length_drop, H, length_app).
  cbn [parse_attrs_loop].
  rewrite bool_decide_eq_true_2 by done.
  rewrite (skip_spaces_id r c1 rest1) by (first [done | by rewrite H, Hk1]).
  head_if ltac:(fun E => apply at_end_true in E; lia).
  head_if ltac:(fun E => rewrite Hc in E; apply Ascii.eqb_eq in E; done).
  head_if ltac:(fun E => rewrite Hc in E; apply Ascii.eqb_eq in E; done).
  assert (span_len (λ c, negb (attr_name_end c)) (drop (pos r) (data r))
          = length name) as ->.
  { rewrite H. apply name_scan; [done|]. intros a Ha.
    destruct ws as [|w ws]; [done|]. cbn in Ha. injection Ha as <-.
    apply is_space_name_end.
    unfold blank in Hws. cbn in Hws. by apply andb_prop in Hws as [? _]. }
  remember (set_pos (pos r + length name) r) as r2 eqn:Hr2.
  assert (drop (pos r2) (data r2) = ws ++ [])
    as H2 by (subst r2; cbn [pos data set_pos]; rewrite app_nil_r;
              by apply drop_add_app).
  rewrite (skip_spaces_over r2 ws [] Hws) by done.
  remember (set_pos (pos r2 + length ws) r2) as r3 eqn:Hr3.
  rewrite (proj2 (at_end_true r3))
    by (subst r3 r2; unfold size; cbn [pos data set_pos]; lia).
  cbn [orb]. cbv iota. by subst r3 r2.
Qed.

Lemma parse_from_bare_end r name ws :
  name_like name → blank ws →
  drop (pos r) (data r) = name ++ ws →
  parse_from r = parse_from (set_pos (pos r + length name) r).
Proof.
  intros Hk Hws H.
  assert (length (data r) - pos r = length name + length ws) as Hsz
    by (by rewrite <- length_drop, H, length_app).
  assert (0 < length name) as Hn
    by (destruct Hk as [Hne _]; destruct name; [done|cbn; lia]).
  rewrite (parse_from_turn r (set_pos (pos r + length name + length ws) r)).
  - rewrite parse_from_end
      by (unfold size; cbn [pos data set_pos]; lia).
    rewrite (parse_from_blank_end (set_pos (pos r + length name) r) ws Hws).
    + f_equal. unfold size. cbn [data set_pos]. rewrite set_pos_set_pos.
      f_equal. lia.
    + cbn [pos data set_pos]. by apply drop_add_app.
    + unfold size. cbn [pos data set_pos]. lia.
  - intros f. by apply (parse_turn_bare_end f r name ws).
  - cbn [pos set_pos]. lia.
  - done.
Qed.

Lemma parse_from_item_end r it ws :
  item_ok it → blank ws →
  drop (pos r) (data r) = render_item it ++ ws →
  parse_from r
  = parse_from (item_push it (set_pos (pos r + length (render_item it)) r)).
Proof.
  intros Hok Hws H.
  destruct it as [key pre post q v|name|key pre post word];
    cbn [render_item item_push item_ok] in *.
  - destruct Hok as (Hk & Hpre & Hpost & Hq & Hv).
    assert (drop (pos r) (data r)
            = key ++ pre ++ "=" :: post ++ q :: v ++ q :: ws) as H'.
    { rewrite H. by norm_app. }
    assert (0 < length (key ++ pre ++ "=" :: post ++ q :: v ++ [q])) as Hpos.
    { destruct Hk as [Hne _]. destruct key; [done|]. cbn [app length]. lia. }
    apply parse_from_turn.
    + intros f.
      rewrite (parse_turn_attr f r key pre post q v ws Hk Hpre Hpost Hq Hv H').
      by case_bool_decide.
    + case_bool_decide; rewrite ?push_attr_pos; cbn [pos set_pos]; lia.
    + unfold size. case_bool_decide; by rewrite ?push_attr_data.
  - by apply (parse_from_bare_end r name ws).
  - destruct Hok as (Hk & Hpre & Hpost & Hw & Hnq).
    destruct (name_like_head word ws Hw)
      as (c & more & Hw1 & Hcs & _ & _ & _).
    assert (drop (pos r) (data r)
            = key ++ pre ++ "=" :: post ++ c :: more) as H'.
    { rewrite H. norm_app. by rewrite Hw1. }
    remember (set_pos (pos r + length key + length pre + 1 + length post) r)
      as rA eqn:HrA.
    rewrite (parse_from_turn r rA).
    + rewrite (parse_from_bare_end rA word ws Hw Hws).
      * subst rA. cbn [pos set_pos]. rewrite set_pos_set_pos. do 2 f_equal.
        rewrite !length_app. cbn [length]. rewrite !length_app. lia.
      * subst rA. cbn [pos data set_pos].
        replace (pos r + length key + length pre + 1 + length post)
          with (pos r + length (key ++ pre ++ "=" :: post))
          by (rewrite !length_app; cbn [length]; lia).
        apply drop_add_app. rewrite H. by norm_app.
    + intros f. subst rA.
      apply (parse_turn_eq f r key pre post c more); try done.
      apply Hnq. destruct word as [|c' w]; [by destruct Hw|].
      cbn in Hw1. by injection Hw1 as -> _.
    + subst rA. cbn [pos set_pos]. lia.
    + by subst rA.
Qed.

Lemma follows_cons g it its tl :
  g ≠ [] → blank g → item_ok it →
  follows (render_items ((g, it) :: its) ++ tl).
Proof.
  intros Hne Hg Hit. rewrite render_items_cons.
  destruct (item_head it (render_items its ++ tl) Hit)
    as (c & l & Hc & Hcs & Hce).
  exists g, c, l. split_and!; try done; [|by left].
  rewrite <- !app_assoc. by rewrite Hc.
Qed.

Lemma parse_from_items_end its : ∀ r tg,
  Forall (λ gi, gi.1 ≠ [] ∧ blank gi.1 ∧ item_ok gi.2) its → blank tg →
  drop (pos r) (data r) = render_items its ++ tg →
  parse_from r
  = parse_from
      (set_pos (pos r + length (render_items its))
         (push_all ((λ kv, attr_entry kv.1 kv.2) <$> kept (written its)) r)).
Proof.
  induction its as [|[g it] its IH]; intros r tg Hok Htg H.
  { cbn [render_items flat_map length written omap kept filter fmap list_fmap
         push_all foldl].
    by rewrite Nat.add_0_r, set_pos_id. }
  apply Forall_cons_1 in Hok as [(Hne & Hg & Hit) Hok].
  cbn [fst snd] in Hne, Hg, Hit.
  rewrite render_items_cons, <- !app_assoc in H.
  destruct (item_head it (render_items its ++ tg) Hit)
    as (c & l & Hc & Hcs & _).
  rewrite (parse_from_blank r g (render_item it ++ render_items its ++ tg))
    by (done || (rewrite Hc; by intros a [= <-])).
  remember (set_pos (pos r + length g) r) as r1 eqn:Hr1.
  assert (drop (pos r1) (data r1) = render_item it ++ render_items its ++ tg)
    as H1 by (subst r1; cbn [pos data set_pos]; by apply drop_add_app).
  assert (parse_from r1
          = parse_from (item_push it
                          (set_pos (pos r1 + length (render_item it)) r1)))
    as ->.
  { destruct its as [|gi its'].
    - cbn [render_items flat_map app] in H1.
      by apply (parse_from_item_end r1 it tg).
    - apply (parse_from_item r1 it (render_items (gi :: its') ++ tg));
        [done| |done].
      destruct gi as [g' it'].
      apply Forall_cons_1 in Hok as [(Hne' & Hg' & Hit') _].
      by apply follows_cons. }
  remember (set_pos (pos r1 + length (render_item it)) r1) as r2 eqn:Hr2.
  assert (drop (pos r2) (data r2) = render_items its ++ tg)
    as H2 by (subst r2; cbn [pos data set_pos]; by apply drop_add_app).
  assert (pos (item_push it r2) = pos r2 ∧ data (item_push it r2) = data r2)
    as [P3 D3].
  { destruct it; cbn [item_push]; try done.
    case_bool_decide; [done|]. by rewrite push_attr_pos, push_attr_data. }
  rewrite (IH (item_push it r2) tg Hok Htg) by (by rewrite P3, D3).
  f_equal. rewrite P3.
  assert (length (render_items ((g, it) :: its))
          = length g + length (render_item it) + length (render_items its))
    as ->.
  { rewrite render_items_cons, !length_app. lia. }
  assert (pos r2 + length (render_items its)
          = pos r + (length g + length (render_item it)
                     + length (render_items its))) as ->
    by (subst r2 r1; cbn [pos set_pos]; lia).
  rewrite written_cons.
  destruct it as [key pre post q v|name|key pre post word]; cbn [item_push].
  - rewrite kept_cons. case_bool_decide as Hx.
    + subst r2 r1. by rewrite !push_all_set_pos, !set_pos_set_pos.
    + cbn [fmap list_fmap push_all foldl fst snd].
      subst r2 r1.
      by rewrite !push_attr_set_pos, !push_all_set_pos, !set_pos_set_pos.
  - subst r2 r1. by rewrite !push_all_set_pos, !set_pos_set_pos.
  - subst r2 r1. by rewrite !push_all_set_pos, !set_pos_set_pos.
Qed.

Lemma parse_attrs_truncated r a :
  attrs_ok a → drop (pos r) (data r) = render_attrs a → pos r ≤ size r →
  parse_attrs r
  = Some (set_pos (size r)
            (push_all ((λ kv, attr_entry kv.1 kv.2) <$> kept (written a.1))
               (set_is_empty false (set_attr_count 0 r)))).
Proof.
  destruct a as [its tg]. intros [Hok Htg]. cbn [fst snd] in Hok, Htg.
  unfold render_attrs. cbn [fst snd]. intros H Hb.
  unfold parse_attrs. cbn zeta.
  remember (set_is_empty false (set_attr_count 0 r)) as r0 eqn:Hr0.
  assert (pos r0 = pos r ∧ data r0 = data r) as [P0 D0] by (by subst r0).
  fold (parse_from r0).
  rewrite (parse_from_items_end its r0 tg Hok Htg)
    by (rewrite P0, D0; exact H).
  set (es := (λ kv, attr_entry kv.1 kv.2) <$> kept (written its)).
  remember (set_pos (pos r0 + length (render_items its)) (push_all es r0))
    as r1 eqn:Hr1.
  assert (pos r1 = pos r + length (render_items its) ∧ data r1 = data r)
    as [P1 D1].
  { subst r1. cbn [pos data set_pos]. by rewrite push_all_data, P0, D0. }
  assert (drop (pos r1) (data r1) = tg) as H1
    by (rewrite P1, D1; by apply drop_add_app).
  assert (length (data r) - pos r = length (render_items its) + length tg)
    as Hsz by (by rewrite <- length_drop, H, length_app).
  rewrite (parse_from_blank_end r1 tg Htg H1)
    by (unfold size in *; rewrite P1, D1; lia).
  f_equal. subst r1. unfold size. cbn [data set_pos].
  by rewrite set_pos_set_pos, push_all_data, D0.
Qed.

Lemma read_start_truncated s x a :
  tag_name_ok x → attrs_ok a →
  drop (pos s) (data s) = x ++ render_attrs a →
  ∃ r', read_start_element s = Some r' ∧ pos r' = size r' ∧
        element_state s x false r' ∧
        (length (attrs s) = MAX_ATTRS →
         reported r'
         = take MAX_ATTRS
             ((λ kv, attr_entry kv.1 kv.2) <$> kept (written a.1))).
Proof.
  intros Hx Hok H.
  destruct (start_name_scan s x _ Hx H) as [Hk Hsx].
  { intros c Hc. destruct Hok as [Hits Htg]. apply negb_false_iff.
    unfold render_attrs in Hc.
    assert (is_space c = true) as Hsp.
    { destruct (a.1) as [|[g it] its].
      - cbn in Hc. destruct (a.2) as [|w ws]; [done|].
        cbn in Hc. injection Hc as <-.
        unfold blank in Htg. cbn in Htg. by apply andb_prop in Htg as [? _].
      - apply Forall_cons_1 in Hits as [(Hne & Hg & _) _]. cbn [fst] in *.
        rewrite render_items_cons, <- !app_assoc in Hc.
        destruct g as [|w ws]; [done|]. cbn in Hc. injection Hc as <-.
        unfold blank in Hg. cbn in Hg. by apply andb_prop in Hg as [? _]. }
    revert Hsp. unfold is_space, elem_name_end. intros ->. done. }
  pose proof (tag_name_in_bounds s x _ H (proj1 Hx)) as Hin.
  pose proof (strip_prefix_local (data s) (pos s) (length x)) as Hl.
  pose proof (strip_prefix_bounds (data s) (pos s) (length x)) as Hb.
  rewrite Hsx in Hl.
  destruct (strip_prefix (data s) (pos s) (length x)) as [nptr nlen] eqn:Hs.
  simpl in Hl.
  assert (nlen = length (local_part x)) as Hnlen.
  { rewrite <- Hl. rewrite slice_full_length; [done|lia]. }
  remember (set_node_type TYPE_ELEMENT
              (set_name (Some (slice (data s) nptr nlen)) nlen
                 (set_pos (pos s + length x) s))) as s1 eqn:Hs1.
  assert (drop (pos s1) (data s1) = render_attrs a) as H1
    by (subst s1; by apply drop_add_app).
  assert (pos s1 ≤ size s1) as Hb1
    by (subst s1; unfold size; cbn [pos data set_pos set_name set_node_type];
        lia).
  pose proof (parse_attrs_truncated s1 a Hok H1 Hb1) as Hp.
  rewrite Hs1 in Hp at 1.
  rewrite (read_start_element_after_attrs s _ _ _ _ Hk Hs Hp).
  set (es := (λ kv, attr_entry kv.1 kv.2) <$> kept (written a.1)) in *.
  remember (set_is_empty false (set_attr_count 0 s1)) as s0 eqn:Hs0.
  remember (set_pos (size s1) (push_all es s0)) as s2 eqn:Hs2.
  assert (is_empty s2 = false) as He.
  { subst s2. cbn [is_empty set_pos].
    rewrite (push_all_keeps is_empty) by done. by subst s0. }
  assert (pos s2 = size s2) as Hp2.
  { subst s2. unfold size. cbn [pos data set_pos].
    rewrite push_all_data. by subst s0. }
  assert (collapse_peek nptr nlen s2 = s2) as Hcp.
  { unfold collapse_peek. cbn zeta.
    by rewrite bool_decide_eq_false_2 by lia. }
  rewrite He. cbn zeta. rewrite Hcp, He.
  eexists. split; [done|]. split; [exact Hp2|]. split.
  - unfold element_state.
    cbn [data depth report_depth node_type is_empty name_ptr name_len
         text_ptr text_len text_has_entity decoded_text name_cache
         set_report_depth set_depth].
    subst s2.
    cbn [data depth report_depth node_type is_empty name_ptr name_len
         text_ptr text_len text_has_entity decoded_text name_cache set_pos].
    rewrite (push_all_keeps data), (push_all_keeps depth),
      (push_all_keeps name_ptr), (push_all_keeps name_len),
      (push_all_keeps node_type), (push_all_keeps is_empty),
      (push_all_keeps text_ptr), (push_all_keeps text_len),
      (push_all_keeps text_has_entity), (push_all_keeps decoded_text),
      (push_all_keeps name_cache) by done.
    subst s0 s1. rewrite Hl, Hnlen. by split_and!.
  - intros Hla.
    change (reported (set_depth ?d' (set_report_depth ?d s2)))
      with (reported s2).
    subst s2. change (reported (set_pos ?p ?y)) with (reported y).
    rewrite reported_push_all; [|by subst s0 s1|subst s0; cbn; lia].
    unfold reported. subst s0. cbn [attr_count set_is_empty set_attr_count].
    by rewrite take_0.
Qed.

(** X22: A start tag that the input ends in is still reported.
    When what is left of the input is [<], a name and items as in
    [attribute_lookup] but no [>], [read] returns true with a
    non-empty element of that name, whose attributes are those
    written, and raises the depth counter by one (the counter is an
    [int]: this is for a counter below [INT_MAX]); the cursor is at
    the end of the buffer and the next [read] returns false, so the end
    of this element is never reported. *)
Theorem truncated_start_tag cs ub q x a :
  tag_name_ok x → attrs_ok a → tables_ok q →
  (INT_MIN ≤ depth q < INT_MAX)%Z →
  drop (pos q) (data q) = "<" :: x ++ render_attrs a →
  ∃ r', reader_read_internal q = Some (true, r') ∧
        node_type r' = TYPE_ELEMENT ∧ is_empty r' = false ∧
        name_bytes r' = Some (local_part x) ∧
        report_depth r' = depth q ∧ depth r' = (depth q + 1)%Z ∧
        (∀ k, reader_attribute cs ub r' k
              = match list_find (λ kv, kv.1 = k)
                        (take MAX_ATTRS (kept (written a.1))) with
                | Some (_, kv) => decode_entities cs ub kv.2
                | None => Some Qnil
                end) ∧
        pos r' = size r' ∧
        ∃ r'', reader_read_internal r' = Some (false, r'').
Proof.
  intros Hx Hok Ht Hint H.
  rewrite (read_internal_start_tag q x _ Hx H).
  remember (set_pos (pos q + 1) (cleared q)) as q1 eqn:Hq1.
  assert (drop (pos q1) (data q1) = x ++ render_attrs a) as H1.
  { subst q1. cbn [pos data set_pos cleared set_attr_count set_text
                   set_decoded_text]. by apply (drop_add_app _ ["<"]). }
  destruct (read_start_truncated q1 x a Hx Hok H1)
    as (r' & -> & Hp & He & Hr).
  destruct He as (E1 & E2 & E3 & E4 & E5 & E6 & E7 & _).
  exists r'. cbn [mbind option_bind].
  split_and!; [done|done|done| |by subst q1| | |done|].
  2: { rewrite E2. subst q1. change (depth (set_pos ?p (cleared q))) with (depth q).
       apply wrap_int_id. unfold INT_MIN, INT_MAX in *. lia. }
  - unfold name_bytes. rewrite E6, E7. cbn. by rewrite firstn_all.
  - intros k. unfold reader_attribute. fold (reported r').
    rewrite Hr by (subst q1; apply Ht).
    rewrite <- fmap_take. apply find_attr_entries.
  - destruct (read_internal_eof r') as (r'' & Hr'' & _); [lia|].
    by exists r''.
Qed.

Lemma truncated_start_tag_witness :
  ∃ r', reader_read_internal (reader_new (bytes "<a k='v' checked"))
        = Some (true, r') ∧
        node_type r' = TYPE_ELEMENT ∧ depth r' = 1%Z ∧
        reader_attribute true 64 r' (bytes "k") = Some (RString (bytes "v")) ∧
        ∃ r'', reader_read_internal r' = Some (false, r'').
Proof.
  assert (name_like (bytes "k") ∧ name_like (bytes "checked")) as [Hn1 Hn2].
  { split; (split; [done|]);
      repeat (apply Forall_cons_2; [reflexivity|]); apply Forall_nil_2. }
  destruct (truncated_start_tag true 64
              (reader_new (bytes "<a k='v' checked")) (bytes "a")
              ([(bytes " ", Attr (bytes "k") [] [] "'" (bytes "v"));
                (bytes " ", Bare (bytes "checked"))], []))
    as (r' & Hr & Hty & _ & _ & _ & Hdp & Hk & _ & Hnext).
  - refine (conj _ (conj _ (conj _ _))); [discriminate| |discriminate..].
    apply Forall_singleton.
    refine (conj _ (conj _ _)); [reflexivity|discriminate..].
  - split; [|reflexivity].
    repeat (apply Forall_cons_2; [split; [discriminate|split; [reflexivity|]]|]);
      [| |apply Forall_nil_2].
    + refine (conj Hn1 (conj eq_refl (conj eq_refl
                (conj (or_intror eq_refl) _)))). notin_lit.
    + exact Hn2.
  - refine (conj _ (conj _ _)); [apply length_replicate|cbn; lia|
                                 apply length_replicate].
  - vm_compute. split; [discriminate|reflexivity].
  - reflexivity.
  - exists r'. split; [exact Hr|]. split; [exact Hty|]. split; [exact Hdp|].
    split; [exact (Hk (bytes "k"))|exact Hnext].
Defined.

Lemma find_attr_shift cs ub pre r k entries :
  find_attr cs ub (shift pre r) k entries = find_attr cs ub r k entries.
Proof.
  induction entries as [|a entries IH]; [done|]. cbn [find_attr].
  by rewrite IH.
Qed.

(** X23: The bytes before the cursor do not matter.  The same
    reader in front of a longer buffer, the cursor moved along, reads
    the same: [read] returns the same answer and leaves the same state
    moved along, and the attributes and the nodes that are reported are
    the same. *)
Theorem read_ignores_consumed_bytes cs ub pre r :
  reader_read_internal (shift pre r)
  = shift_result pre <$> reader_read_internal r ∧
  (∀ k, reader_attribute cs ub (shift pre r) k = reader_attribute cs ub r k) ∧
  (∀ n, read_log cs ub n (shift pre r) = read_log cs ub n r).
Proof.
  split; [apply reader_read_internal_shift|]. split.
  - intros k. unfold reader_attribute. apply find_attr_shift.
  - intros n. apply read_log_shift.
Qed.

(** ** The depth counter at the limit of [int] *)

Lemma raised_small n d :
  (INT_MIN ≤ d)%Z → (d + Z.of_nat n ≤ INT_MAX)%Z →
  raised n d = (d + Z.of_nat n)%Z.
Proof.
  intros Hd. unfold raised. induction n as [|n IH]; intros Hn.
  { simpl. lia. }
  rewrite Nat.iter_succ, IH by lia.
  rewrite wrap_int_id by (unfold INT_MIN, INT_MAX in *; lia). lia.
Qed.

(** Raised [2^31] times from zero the counter is at [INT_MIN]. *)
Lemma raised_wraps n : Z.of_nat n = (2 ^ 31)%Z → raised n 0 = INT_MIN.
Proof.
  intros Hn. destruct n as [|m]; [done|].
  unfold raised. rewrite Nat.iter_succ. fold (raised m 0).
  rewrite raised_small by (unfold INT_MIN, INT_MAX; lia).
  replace (0 + Z.of_nat m + 1)%Z with 2147483648%Z by lia.
  reflexivity.
Qed.

(** The reads of a reader that stands in front of start tags [<a>]:
    each one reports the element at the depth that the counter has
    reached and raises the counter. *)
Lemma nth_read_open_tags n k q :
  drop (pos q) (data q) = open_tags (S n + k) →
  ∃ r', nth_read n q = Some (true, r') ∧
        report_depth r' = raised n (depth q) ∧
        depth r' = raised (S n) (depth q) ∧
        drop (pos r') (data r') = open_tags k.
Proof.
  assert (∀ q m, drop (pos q) (data q) = open_tags (S m) →
            ∃ r', reader_read_internal q = Some (true, r') ∧
                  report_depth r' = depth q ∧
                  depth r' = wrap_int (depth q + 1) ∧
                  drop (pos r') (data r') = open_tags m) as Hone.
  { intros q0 m H.
    destruct (read_element q0 (bytes "a") ([], []) Open (open_tags m))
      as (r' & Hr & Hd & _ & He & _).
    - refine (conj _ (conj _ (conj _ _))); [discriminate| |discriminate..].
      apply Forall_singleton.
      refine (conj _ (conj _ _)); [reflexivity|discriminate..].
    - split; [apply Forall_nil_2|reflexivity].
    - exact I.
    - intros _ y. by destruct m.
    - exact H.
    - destruct He as (_ & E2 & E3 & _). by exists r'. }
  revert q. induction n as [|n IH]; intros q H.
  - destruct (Hone q k H) as (r' & Hr & H1 & H2 & H3). by exists r'.
  - destruct (Hone q (S n + k) H) as (r1 & Hr & H1 & H2 & H3).
    destruct (IH r1 H3) as (r' & Hn & G1 & G2 & G3).
    exists r'. cbn [nth_read]. rewrite Hr. cbn [mbind option_bind].
    split; [exact Hn|]. rewrite G1, G2, H2. unfold raised.
    split_and!; [symmetry..|done];
      apply (Nat.iter_succ_r _ (λ z, wrap_int (z + 1))).
Qed.

Lemma nth_read_overflow n :
  Z.of_nat n = (2 ^ 31)%Z →
  ∃ r', nth_read n (reader_new (open_tags (S n))) = Some (true, r') ∧
        report_depth r' = INT_MIN.
Proof.
  intros Hn.
  destruct (nth_read_open_tags n 0 (reader_new (open_tags (S n))))
    as (r' & Hr & Hd & _).
  { cbn [pos data reader_new]. by rewrite drop_0, Nat.add_0_r. }
  exists r'. split; [exact Hr|].
  rewrite Hd. change (depth (reader_new _)) with 0%Z. by apply raised_wraps.
Qed.

